(** * Event-venue layout engine: seating packer, door areas, venue bounds,
      the arrangement store, stage-relative table area, DXF flattening and
      rendering, embedded from the TypeScript sources.

    Numbers.  JavaScript numbers are idealised: the packer and the area
    geometry are embedded over the rationals [Q] (exact arithmetic, so every
    definition evaluates), counts (guests, rows, columns, indices) over [Z],
    and the DXF code, which calls [Math.cos], [Math.sin], [Math.atan2] and
    [Math.sqrt], over the reals [R].  Rounding error, [NaN] and the infinities
    are outside the model: a quotient is meaningful only where the divisor is
    not zero, and the statements that depend on a quotient say so (a loop
    is said to return only for positive steps, since the rows per column
    are infinite at a zero row step).  Where a rounding error of the
    source's doubles could break a statement, the statement is made for
    whole numbers ([Js.whole]), on which the source computes exactly.

    Objects used as maps.  The renderer keeps its line batches and layer
    boxes in plain objects, embedded as association lists of the properties
    stored in them.  A key that names a property inherited from
    [Object.prototype] ([Js.inheritedKey]) is outside this model, and so is
    a layer name with letters beyond ASCII, which [toLowerCase] would
    change; the statements about a stored batch or box exclude both. *)

From Stdlib Require Import QArith Qround Qminmax Qabs ZArith List Bool Lia Psatz.
From Stdlib Require Import String Ascii HexString NArith Reals.
Import ListNotations.

Local Open Scope Z_scope.
Local Open Scope Q_scope.

(* ================================================================== *)
(** * Part I: the embedded program *)
(* ================================================================== *)

(** ** JavaScript idioms shared by the sources *)
Module Js.

(** [a < b] on numbers. *)
Definition ltb (a b : Q) : bool := negb (Qle_bool b a).
(** [a <= b] on numbers. *)
Definition leb (a b : Q) : bool := Qle_bool a b.

(** [v || d] for an optional number: [undefined] and [0] are falsy. *)
Definition orQ (v : option Q) (d : Q) : Q :=
  match v with
  | Some q => if Qeq_bool q 0 then d else q
  | None => d
  end.

(** [v || d] for an optional count. *)
Definition orZ (v : option Z) (d : Z) : Z :=
  match v with
  | Some z => if (z =? 0)%Z then d else z
  | None => d
  end.

Definition min4 (a b c d : Q) : Q := Qmin (Qmin (Qmin a b) c) d.
Definition max4 (a b c d : Q) : Q := Qmax (Qmax (Qmax a b) c) d.

(** The property names a plain object inherits from [Object.prototype].
    An object used as a map finds the inherited value under such a key,
    not [undefined], whatever has been stored in it. *)
Definition inheritedKeys : list string :=
  ["constructor"; "__proto__"; "hasOwnProperty"; "isPrototypeOf";
   "propertyIsEnumerable"; "toLocaleString"; "toString"; "valueOf";
   "__defineGetter__"; "__defineSetter__"; "__lookupGetter__";
   "__lookupSetter__"]%string.

Definition inheritedKey (key : string) : bool :=
  existsb (String.eqb key) inheritedKeys.

(** A whole number of magnitude at most a million.  On such numbers the
    sums, differences, products, halves and floored quotients that the
    packer and the bounds helpers compute are exact in double precision:
    the source computes the very rationals computed here. *)
Definition whole (q : Q) : bool :=
  Qeq_bool (inject_Z (Qfloor q)) q && Qle_bool (Qabs q) 1000000.

(** Characters below 128 only.  On such a string [toLowerCase] changes the
    letters A to Z and nothing else. *)
Definition asciiOnly (s : string) : bool :=
  forallb (fun c => (nat_of_ascii c <? 128)%nat) (list_ascii_of_string s).

(** [while (cond) body], with [continue] folded into [body].  The loop
    needs one unit of fuel per executed iteration; [None] means the fuel
    ran out before the condition became false. *)
Fixpoint while {S : Type} (cond : S -> bool) (body : S -> S)
         (fuel : nat) (s : S) : option S :=
  if cond s then
    match fuel with
    | O => None
    | Datatypes.S f => while cond body f (body s)
    end
  else Some s.

(** [for (let i = from; i < from + n && cond; i++) body(i)]: at most [n]
    iterations, the extra condition is re-tested before each one. *)
Fixpoint forUpTo {S : Type} (cond : S -> bool) (body : Z -> S -> S)
         (n : nat) (i : Z) (s : S) : S :=
  match n with
  | O => s
  | Datatypes.S n' => if cond s then forUpTo cond body n' (i + 1)%Z (body i s) else s
  end.

End Js.

(** ** doorAreaUtils.ts *)
Module DoorAreaUtils.

Record Point : Type := mkPoint { x : Q; y : Q }.

(** [DoorArea] of config/venues; the descriptive fields [id], [name] and
    [type] carry no behaviour and are left out. *)
Record DoorArea : Type := mkDoorArea {
  topLeft : Point;
  topRight : Point;
  bottomRight : Point;
  bottomLeft : Point;
  clearance : option Q
}.

(** The object argument of the overlap tests. *)
Record ObjectBox : Type := mkObjectBox {
  obj_x : Q;          (* documented in the source as "Center X" *)
  obj_y : Q;          (* documented in the source as "Center Y" *)
  obj_width : Q;
  obj_height : Q;
  obj_rotation : option Q
}.

Record Bounds : Type := mkBounds { minX : Q; maxX : Q; minY : Q; maxY : Q }.

Definition getDoorAreaBounds (doorArea : DoorArea) : Bounds :=
  let c := Js.orQ (clearance doorArea) 0 in
  {| minX := Js.min4 (x (topLeft doorArea)) (x (topRight doorArea))
                     (x (bottomRight doorArea)) (x (bottomLeft doorArea)) - c;
     maxX := Js.max4 (x (topLeft doorArea)) (x (topRight doorArea))
                     (x (bottomRight doorArea)) (x (bottomLeft doorArea)) + c;
     minY := Js.min4 (y (topLeft doorArea)) (y (topRight doorArea))
                     (y (bottomRight doorArea)) (y (bottomLeft doorArea)) - c;
     maxY := Js.max4 (y (topLeft doorArea)) (y (topRight doorArea))
                     (y (bottomRight doorArea)) (y (bottomLeft doorArea)) + c |}.

Definition isPointInDoorArea (point : Point) (doorArea : DoorArea) : bool :=
  let b := getDoorAreaBounds doorArea in
  Js.leb (minX b) (x point) && Js.leb (x point) (maxX b)
  && Js.leb (minY b) (y point) && Js.leb (y point) (maxY b).

Definition isObjectInDoorArea (object : ObjectBox) (doorArea : DoorArea) : bool :=
  let c := Js.orQ (clearance doorArea) 0 in
  let doorMinX := Js.min4 (x (topLeft doorArea)) (x (topRight doorArea))
                          (x (bottomRight doorArea)) (x (bottomLeft doorArea)) - c in
  let doorMaxX := Js.max4 (x (topLeft doorArea)) (x (topRight doorArea))
                          (x (bottomRight doorArea)) (x (bottomLeft doorArea)) + c in
  let doorMinY := Js.min4 (y (topLeft doorArea)) (y (topRight doorArea))
                          (y (bottomRight doorArea)) (y (bottomLeft doorArea)) - c in
  let doorMaxY := Js.max4 (y (topLeft doorArea)) (y (topRight doorArea))
                          (y (bottomRight doorArea)) (y (bottomLeft doorArea)) + c in
  let halfWidth := obj_width object / 2 in
  let halfHeight := obj_height object / 2 in
  let objMinX := obj_x object - halfWidth in
  let objMaxX := obj_x object + halfWidth in
  let objMinY := obj_y object - halfHeight in
  let objMaxY := obj_y object + halfHeight in
  negb (Js.ltb objMaxX doorMinX || Js.ltb doorMaxX objMinX
        || Js.ltb objMaxY doorMinY || Js.ltb doorMaxY objMinY).

Definition isObjectInAnyDoorArea (object : ObjectBox) (doorAreas : list DoorArea) : bool :=
  existsb (isObjectInDoorArea object) doorAreas.

Definition isPointInAnyDoorArea (point : Point) (doorAreas : list DoorArea) : bool :=
  existsb (isPointInDoorArea point) doorAreas.

Definition getDoorAreasOverlappingObject (object : ObjectBox) (doorAreas : list DoorArea)
  : list DoorArea :=
  filter (isObjectInDoorArea object) doorAreas.

End DoorAreaUtils.

(** ** config/venues.ts: the configuration records *)
Module VenueTypes.
Import DoorAreaUtils.

Inductive SeatingMode : Type := ModeAuto | ModeTablesOnly | ModeChairsOnly.

(** [SingleChairConfig]; [fileName] and [chairsPerRow] are not read by the
    embedded functions and are left out. *)
Record SingleChairConfig : Type := mkSingleChair {
  chair_width : Q;
  chair_height : Q;
  chair_spacing : Q;
  chair_rotation : option Q;
  chair_rowsPerGroup : option Z
}.

Record TableAreaPoints : Type := mkTableAreaPoints {
  area_topLeft : Point;
  area_topRight : Point;
  area_bottomRight : Point;
  area_bottomLeft : Point
}.

(** [TableConfig]; the fields kept are the ones the packer reads.  The
    source tests [tableConfig.namedPoints] for presence, hence the option. *)
Record TableConfig : Type := mkTableConfig {
  width : Q;
  height : Q;
  chairsPerTable : Z;
  tableSpacing : Q;
  columnSpacing : Q;
  rowsPerGroup : option Z;
  rowGroupSpacing : option Q;
  startX : Q;
  startY : Q;
  endX : Q;
  endY : Q;
  namedPoints : option TableAreaPoints;
  singleChair : option SingleChairConfig;
  seatingMode : option SeatingMode
}.

Definition getTableAreaPoints (tableConfig : TableConfig) : option TableAreaPoints :=
  namedPoints tableConfig.

Definition convertTableAreaToArray (points : TableAreaPoints) : list Point :=
  [area_topLeft points; area_topRight points; area_bottomRight points; area_bottomLeft points].

(** [Math.min(...xs)] and [Math.max(...xs)] over the corner list; the
    source only calls it on the four corners of an area. *)
Definition getPolygonBounds (polygon : list Point) : Bounds :=
  match polygon with
  | [] => mkBounds 0 0 0 0
  | p :: ps =>
      {| minX := fold_left Qmin (map x ps) (x p);
         maxX := fold_left Qmax (map x ps) (x p);
         minY := fold_left Qmin (map y ps) (y p);
         maxY := fold_left Qmax (map y ps) (y p) |}
  end.

(** The expression that opens every placement function:
    [namedPoints ? getPolygonBounds(convertTableAreaToArray(namedPoints))
                 : { minX: startX, maxX: endX, minY: startY, maxY: endY }]. *)
Definition areaBounds (tableConfig : TableConfig) : Bounds :=
  match namedPoints tableConfig with
  | Some pts => getPolygonBounds (convertTableAreaToArray pts)
  | None => mkBounds (startX tableConfig) (endX tableConfig)
                     (startY tableConfig) (endY tableConfig)
  end.

End VenueTypes.

(** ** utils/tableCalculator.ts: the seating packer *)
Module TableCalculator.
Import DoorAreaUtils VenueTypes.

(** An element of [tables] or [chairs]: [{ x, y, tableIndex | chairIndex }]. *)
Record Placed : Type := mkPlaced { p_x : Q; p_y : Q; p_index : Z }.

Record SeatingResult : Type := mkSeatingResult {
  tables : list Placed;
  chairs : list Placed;
  actualGuests : Z
}.

(** The local variables of a column loop. *)
Record ColState : Type := mkColState {
  placed : list Placed;       (* result.tables / result.chairs / tables / chairs *)
  currentGuests : Z;
  unitIndex : Z;              (* tableIndex / chairIndex *)
  currentX : Q;
  columnsPlaced : Z
}.

Definition doorMinX (door : DoorArea) : Q :=
  Js.min4 (x (topLeft door)) (x (topRight door)) (x (bottomLeft door)) (x (bottomRight door)).
Definition doorMaxX (door : DoorArea) : Q :=
  Js.max4 (x (topLeft door)) (x (topRight door)) (x (bottomLeft door)) (x (bottomRight door)).

(** The body of the [doorAreas.some] callback of every column loop. *)
Definition columnHitsDoor (unitWidth curX : Q) (door : DoorArea) : bool :=
  Js.ltb curX (doorMaxX door) && Js.ltb (doorMinX door) (curX + unitWidth).

Definition columnOverlapsDoor (unitWidth : Q) (doorAreas : list DoorArea) (curX : Q) : bool :=
  existsb (columnHitsDoor unitWidth curX) doorAreas.

(** [let maxDoorEndX = currentX; doorAreas.forEach(...)]. *)
Definition maxDoorEndX (unitWidth : Q) (doorAreas : list DoorArea) (curX : Q) : Q :=
  fold_left
    (fun acc door => if columnHitsDoor unitWidth curX door then Qmax acc (doorMaxX door) else acc)
    doorAreas curX.

Definition rowY (bounds : Bounds) (heightWithSpacing : Q) (rowsPerGroup : Z)
           (rowGroupSpacing : Q) (row : Z) : Q :=
  let rowGroupNumber := (row / rowsPerGroup)%Z in
  let extraRowGroupSpacing := inject_Z rowGroupNumber * rowGroupSpacing in
  minY bounds + (inject_Z row * heightWithSpacing) + extraRowGroupSpacing.

Definition tableObject (tableConfig : TableConfig) (curX y : Q) : ObjectBox :=
  mkObjectBox curX y (width tableConfig) (height tableConfig) (Some 0).

Definition chairObject (chair : SingleChairConfig) (curX y : Q) : ObjectBox :=
  mkObjectBox curX y (chair_width chair) (chair_height chair)
              (Some (Js.orQ (chair_rotation chair) 0)).

Definition pushUnit (guestsPerUnit : Z) (curX y : Q) (st : ColState) : ColState :=
  {| placed := placed st ++ [mkPlaced curX y (unitIndex st)];
     currentGuests := (currentGuests st + guestsPerUnit)%Z;
     unitIndex := (unitIndex st + 1)%Z;
     currentX := currentX st;
     columnsPlaced := columnsPlaced st |}.

Definition setX (newX : Q) (st : ColState) : ColState :=
  {| placed := placed st; currentGuests := currentGuests st; unitIndex := unitIndex st;
     currentX := newX; columnsPlaced := columnsPlaced st |}.

Definition nextColumn (st : ColState) : ColState :=
  {| placed := placed st; currentGuests := currentGuests st; unitIndex := unitIndex st;
     currentX := currentX st; columnsPlaced := (columnsPlaced st + 1)%Z |}.

Definition initState (startAt : Q) : ColState := mkColState [] 0 0 startAt 0.

(** *** placeTablesOnly *)
Section PlaceTablesOnly.
Variable targetGuestCount : Z.
Variable tableConfig : TableConfig.
Variable doorAreas : list DoorArea.

Let bounds := areaBounds tableConfig.
Let tableWidthWithSpacing := width tableConfig + columnSpacing tableConfig.
Let tableHeightWithSpacing := height tableConfig + tableSpacing tableConfig.

(** [Math.floor((maxY - minY) / tableHeightWithSpacing)], for a row step
    that is not zero; at a zero row step the source's count is infinite. *)
Definition tablesOnly_maxTablesPerColumn : Z :=
  Qfloor ((maxY bounds - minY bounds) / tableHeightWithSpacing).

Definition tablesOnly_cond (st : ColState) : bool :=
  (currentGuests st <? targetGuestCount)%Z
  && Js.leb (currentX st + width tableConfig) (maxX bounds).

Definition tablesOnly_row (row : Z) (st : ColState) : ColState :=
  let y := rowY bounds tableHeightWithSpacing (Js.orZ (rowsPerGroup tableConfig) 999)
                (Js.orQ (rowGroupSpacing tableConfig) 0) row in
  if Js.leb (y + height tableConfig) (maxY bounds) then
    if negb (isObjectInAnyDoorArea (tableObject tableConfig (currentX st) y) doorAreas)
    then pushUnit (chairsPerTable tableConfig) (currentX st) y st
    else st
  else st.

Definition tablesOnly_body (st : ColState) : ColState :=
  if columnOverlapsDoor (width tableConfig) doorAreas (currentX st) then
    setX (maxDoorEndX (width tableConfig) doorAreas (currentX st) + tableSpacing tableConfig) st
  else
    let st' := Js.forUpTo (fun s => (currentGuests s <? targetGuestCount)%Z)
                          tablesOnly_row (Z.to_nat tablesOnly_maxTablesPerColumn) 0 st in
    setX (currentX st' + tableWidthWithSpacing) st'.

Definition tablesOnly_loop (fuel : nat) : option ColState :=
  Js.while tablesOnly_cond tablesOnly_body fuel (initState (minX bounds)).

Definition placeTablesOnly (fuel : nat) : option SeatingResult :=
  match tablesOnly_loop fuel with
  | Some st => Some {| tables := placed st; chairs := []; actualGuests := currentGuests st |}
  | None => None
  end.
End PlaceTablesOnly.

(** *** The chair metrics computed by placeChairsOnly and placeSmartMix *)
Definition rawChairsPerColumn (availableHeight : Q) (tableConfig : TableConfig)
           (chair : SingleChairConfig) : Z :=
  let chairHeightWithSpacing := chair_height chair + chair_spacing chair in
  let chairRowsPerGroup := Js.orZ (chair_rowsPerGroup chair) 999 in
  let chairRowGroupSpacing := Js.orQ (rowGroupSpacing tableConfig) 0 in
  let chairGroupBlockHeight :=
    inject_Z chairRowsPerGroup * chairHeightWithSpacing + chairRowGroupSpacing in
  let chairFullGroups := Qfloor (availableHeight / chairGroupBlockHeight) in
  let chairRemainingHeight :=
    availableHeight - inject_Z chairFullGroups * chairGroupBlockHeight in
  let chairExtraRows := Qfloor (chairRemainingHeight / chairHeightWithSpacing) in
  (chairFullGroups * chairRowsPerGroup + chairExtraRows)%Z.

(** [if (max % rowsPerGroup !== 0) max = Math.floor(max / rowsPerGroup) * rowsPerGroup]. *)
Definition roundToRowGroups (maxChairsPerColumn chairRowsPerGroup : Z) : Z :=
  if negb (Z.rem maxChairsPerColumn chairRowsPerGroup =? 0)%Z
  then ((maxChairsPerColumn / chairRowsPerGroup) * chairRowsPerGroup)%Z
  else maxChairsPerColumn.

Definition maxChairsPerColumn (availableHeight : Q) (tableConfig : TableConfig)
           (chair : SingleChairConfig) : Z :=
  roundToRowGroups (rawChairsPerColumn availableHeight tableConfig chair)
                   (Js.orZ (chair_rowsPerGroup chair) 999).

(** *** placeChairsOnly *)
Section PlaceChairsOnly.
Variable targetGuestCount : Z.
Variable tableConfig : TableConfig.
Variable doorAreas : list DoorArea.
Variable chair : SingleChairConfig.     (* tableConfig.singleChair, once known present *)

Let bounds := areaBounds tableConfig.
Let chairWidthWithSpacing := chair_width chair + chair_spacing chair.
Let chairHeightWithSpacing := chair_height chair + chair_spacing chair.
Let availableHeight := maxY bounds - minY bounds.

Definition chairsOnly_cond (st : ColState) : bool :=
  (currentGuests st <? targetGuestCount)%Z
  && Js.leb (currentX st + chair_width chair) (maxX bounds).

Definition chairsOnly_row (row : Z) (st : ColState) : ColState :=
  let y := rowY bounds chairHeightWithSpacing (Js.orZ (chair_rowsPerGroup chair) 999)
                (Js.orQ (rowGroupSpacing tableConfig) 0) row in
  if Js.leb (y + chair_height chair) (maxY bounds) then
    if negb (isObjectInAnyDoorArea (chairObject chair (currentX st) y) doorAreas)
    then pushUnit 1 (currentX st) y st
    else st
  else st.

Definition chairsOnly_body (st : ColState) : ColState :=
  if columnOverlapsDoor (chair_width chair) doorAreas (currentX st) then
    setX (maxDoorEndX (chair_width chair) doorAreas (currentX st) + chair_spacing chair) st
  else
    let st' := Js.forUpTo (fun s => (currentGuests s <? targetGuestCount)%Z)
                          chairsOnly_row
                          (Z.to_nat (maxChairsPerColumn availableHeight tableConfig chair))
                          0 st in
    setX (currentX st' + chairWidthWithSpacing) st'.

Definition chairsOnly_loop (fuel : nat) : option ColState :=
  Js.while chairsOnly_cond chairsOnly_body fuel (initState (minX bounds)).
End PlaceChairsOnly.

Definition placeChairsOnly (targetGuestCount : Z) (tableConfig : TableConfig)
           (doorAreas : list DoorArea) (fuel : nat) : option SeatingResult :=
  match singleChair tableConfig with
  | None => Some {| tables := []; chairs := []; actualGuests := 0 |}
  | Some chair =>
      match chairsOnly_loop targetGuestCount tableConfig doorAreas chair fuel with
      | Some st => Some {| tables := []; chairs := placed st; actualGuests := currentGuests st |}
      | None => None
      end
  end.

(** *** placeTablesInColumns *)
Section PlaceTablesInColumns.
Variable numColumns : Z.
Variable tableConfig : TableConfig.
Variable doorAreas : list DoorArea.
Variable bounds : Bounds.
Variable maxTablesPerColumn : Z.
Variable rowsPerGroup' : Z.
Variable rowGroupSpacing' : Q.

Let tableWidthWithSpacing := width tableConfig + columnSpacing tableConfig.
Let tableHeightWithSpacing := height tableConfig + tableSpacing tableConfig.

Definition tablesInColumns_cond (st : ColState) : bool :=
  (columnsPlaced st <? numColumns)%Z
  && Js.leb (currentX st + width tableConfig) (maxX bounds).

Definition tablesInColumns_row (row : Z) (st : ColState) : ColState :=
  let y := rowY bounds tableHeightWithSpacing rowsPerGroup' rowGroupSpacing' row in
  if Js.leb (currentX st + width tableConfig) (maxX bounds)
     && Js.leb (y + height tableConfig) (maxY bounds) then
    if negb (isObjectInAnyDoorArea (tableObject tableConfig (currentX st) y) doorAreas)
    then pushUnit 0 (currentX st) y st    (* no guest counter in this loop *)
    else st
  else st.

Definition tablesInColumns_body (st : ColState) : ColState :=
  if columnOverlapsDoor (width tableConfig) doorAreas (currentX st) then
    setX (maxDoorEndX (width tableConfig) doorAreas (currentX st) + tableSpacing tableConfig) st
  else
    let st' := Js.forUpTo (fun _ => true) tablesInColumns_row
                          (Z.to_nat maxTablesPerColumn) 0 st in
    setX (currentX st' + tableWidthWithSpacing) (nextColumn st').

Definition tablesInColumns_loop (fuel : nat) : option ColState :=
  Js.while tablesInColumns_cond tablesInColumns_body fuel (initState (minX bounds)).

(** Returns [{ tables, actualGuests: tables.length * chairsPerTable }]. *)
Definition placeTablesInColumns (fuel : nat) : option (list Placed * Z) :=
  match tablesInColumns_loop fuel with
  | Some st => Some (placed st,
                     (Z.of_nat (List.length (placed st)) * chairsPerTable tableConfig)%Z)
  | None => None
  end.
End PlaceTablesInColumns.

(** *** placeChairsInColumns *)
Section PlaceChairsInColumns.
Variable numColumns : Z.
Variable maxGuests : Z.
Variable tableConfig : TableConfig.
Variable doorAreas : list DoorArea.
Variable bounds : Bounds.
Variable maxChairsPerColumn' : Z.
Variable startAt : Q.
Variable chair : SingleChairConfig.

Let chairWidthWithSpacing := chair_width chair + chair_spacing chair.
Let chairHeightWithSpacing := chair_height chair + chair_spacing chair.

Definition chairsInColumns_cond (st : ColState) : bool :=
  (columnsPlaced st <? numColumns)%Z
  && (currentGuests st <? maxGuests)%Z
  && Js.leb (currentX st + chair_width chair) (maxX bounds).

Definition chairsInColumns_row (row : Z) (st : ColState) : ColState :=
  let y := rowY bounds chairHeightWithSpacing (Js.orZ (chair_rowsPerGroup chair) 999)
                (Js.orQ (rowGroupSpacing tableConfig) 0) row in
  if Js.leb (currentX st + chair_width chair) (maxX bounds)
     && Js.leb (y + chair_height chair) (maxY bounds) then
    if negb (isObjectInAnyDoorArea (chairObject chair (currentX st) y) doorAreas)
    then pushUnit 1 (currentX st) y st
    else st
  else st.

Definition chairsInColumns_body (st : ColState) : ColState :=
  if columnOverlapsDoor (chair_width chair) doorAreas (currentX st) then
    setX (maxDoorEndX (chair_width chair) doorAreas (currentX st) + chair_spacing chair) st
  else
    let st' := Js.forUpTo (fun s => (currentGuests s <? maxGuests)%Z) chairsInColumns_row
                          (Z.to_nat maxChairsPerColumn') 0 st in
    setX (currentX st' + chairWidthWithSpacing) (nextColumn st').

Definition chairsInColumns_loop (fuel : nat) : option ColState :=
  Js.while chairsInColumns_cond chairsInColumns_body fuel (initState startAt).
End PlaceChairsInColumns.

(** Returns [{ chairs, actualGuests: currentGuests }]. *)
Definition placeChairsInColumns (numColumns maxGuests : Z) (tableConfig : TableConfig)
           (doorAreas : list DoorArea) (bounds : Bounds) (maxChairsPerColumn' : Z)
           (startAt : Q) (fuel : nat) : option (list Placed * Z) :=
  match singleChair tableConfig with
  | None => Some ([], 0%Z)
  | Some chair =>
      match chairsInColumns_loop numColumns maxGuests tableConfig doorAreas bounds
                                 maxChairsPerColumn' startAt chair fuel with
      | Some st => Some (placed st, currentGuests st)
      | None => None
      end
  end.

(** *** placeSmartMix *)

(** [bestSolution]; [gap = None] stands for the initial [Infinity]. *)
Record Solution : Type := mkSolution {
  s_tables : list Placed;
  s_chairs : list Placed;
  s_actualGuests : Z;
  s_gap : option Z
}.

(** [gap < bestSolution.gap]. *)
Definition gapLt (gap : Z) (bestGap : option Z) : bool :=
  match bestGap with
  | None => true
  | Some g => (gap <? g)%Z
  end.

(** [Math.ceil(a / b)] on counts, for [b <> 0]. *)
Definition ceilDiv (a b : Z) : Z := (- ((- a) / b))%Z.

(** [Math.max(...tables.map(t => t.x))] on a non-empty list. *)
Definition rightmostX (ts : list Placed) : Q :=
  match ts with
  | [] => 0
  | t :: rest => fold_left Qmax (map p_x rest) (p_x t)
  end.

Section PlaceSmartMix.
Variable targetGuestCount : Z.
Variable tableConfig : TableConfig.
Variable doorAreas : list DoorArea.
Variable fuel : nat.      (* handed to every inner column loop *)

Let bounds := areaBounds tableConfig.
Let tableWidthWithSpacing := width tableConfig + columnSpacing tableConfig.
Let tableHeightWithSpacing := height tableConfig + tableSpacing tableConfig.
Let availableWidth := maxX bounds - minX bounds.
Let availableHeight := maxY bounds - minY bounds.

(** Both quotients are read for steps that are not zero; at a zero step
    the source's count is infinite. *)
Definition smartMix_maxTablesPerColumn : Z := Qfloor (availableHeight / tableHeightWithSpacing).
Definition smartMix_maxColumnsAvailable : Z := Qfloor (availableWidth / tableWidthWithSpacing).

Definition smartMix_maxChairsPerColumn : Z :=
  match singleChair tableConfig with
  | Some chair => maxChairsPerColumn availableHeight tableConfig chair
  | None => 0%Z
  end.

Definition smartMix_placeTables (tableColumns : Z) : option (list Placed * Z) :=
  placeTablesInColumns tableColumns tableConfig doorAreas bounds
                       smartMix_maxTablesPerColumn
                       (Js.orZ (rowsPerGroup tableConfig) 999)
                       (Js.orQ (rowGroupSpacing tableConfig) 0) fuel.

Definition chairStartX (chair : SingleChairConfig) (tbls : list Placed) : Q :=
  match tbls with
  | [] => minX bounds
  | _ :: _ => rightmostX tbls + width tableConfig
              + Qmax (columnSpacing tableConfig) (chair_spacing chair * 2)
  end.

(** [Math.min(chairColumnsNeeded, maxChairColumnsThatFit)]; with no seat
    in a chair column the quotient is [Infinity] and the minimum is the
    number of columns that fit. *)
Definition chairColumnsToPlace (chair : SingleChairConfig) (tbls : list Placed)
           (remainingGuests : Z) : Z :=
  let chairWidthWithSpacing := chair_width chair + chair_spacing chair in
  let spaceForChairs := maxX bounds - chairStartX chair tbls in
  let maxChairColumnsThatFit := Qfloor (spaceForChairs / chairWidthWithSpacing) in
  if (smartMix_maxChairsPerColumn =? 0)%Z then maxChairColumnsThatFit
  else Z.min (ceilDiv remainingGuests smartMix_maxChairsPerColumn) maxChairColumnsThatFit.

(** One iteration of the [for (tableColumns = max; tableColumns >= 0; tableColumns--)]
    loop; the Boolean is [true] when the iteration ends in [break]. *)
Definition smartMix_iter (tableColumns : Z) (best : Solution) : option (Solution * bool) :=
  match smartMix_placeTables tableColumns with
  | None => None
  | Some (tbls, tableGuests) =>
      let remainingGuests := (targetGuestCount - tableGuests)%Z in
      if (remainingGuests <=? 0)%Z then
        let gap := Z.abs (tableGuests - targetGuestCount) in
        if gapLt gap (s_gap best)
        then Some (mkSolution tbls [] tableGuests (Some gap), false)
        else Some (best, false)
      else
        match singleChair tableConfig with
        | None => Some (best, false)
        | Some chair =>
            let toPlace := chairColumnsToPlace chair tbls remainingGuests in
            if (0 <? toPlace)%Z then
              match placeChairsInColumns toPlace remainingGuests tableConfig doorAreas
                                         bounds smartMix_maxChairsPerColumn
                                         (chairStartX chair tbls) fuel with
              | None => None
              | Some (chrs, chairGuests) =>
                  let totalGuests := (tableGuests + chairGuests)%Z in
                  let gap := Z.abs (totalGuests - targetGuestCount) in
                  let best' :=
                    if gapLt gap (s_gap best) || (s_actualGuests best <? totalGuests)%Z
                    then mkSolution tbls chrs totalGuests (Some gap)
                    else best in
                  Some (best',
                        (targetGuestCount <=? totalGuests)%Z
                        && (gap <=? chairsPerTable tableConfig)%Z)
              end
            else
              if (s_actualGuests best <? tableGuests)%Z
              then Some (mkSolution tbls [] tableGuests
                                    (Some (Z.abs (tableGuests - targetGuestCount))), false)
              else Some (best, false)
        end
  end.

(** The loop itself: [n] candidates remain, the next one is [n - 1]
    table columns. *)
Fixpoint smartMix_loop (n : nat) (best : Solution) : option Solution :=
  match n with
  | O => Some best
  | S k =>
      match smartMix_iter (Z.of_nat k) best with
      | None => None
      | Some (best', true) => Some best'
      | Some (best', false) => smartMix_loop k best'
      end
  end.

Definition smartMix_initial : Solution := mkSolution [] [] 0 None.

(** [if (bestSolution.actualGuests === 0 && maxColumnsAvailable > 0)]. *)
Definition smartMix_fallback (best : Solution) : option Solution :=
  if (s_actualGuests best =? 0)%Z && (0 <? smartMix_maxColumnsAvailable)%Z then
    match smartMix_placeTables smartMix_maxColumnsAvailable with
    | None => None
    | Some (tbls, tableGuests) =>
        Some (mkSolution tbls [] tableGuests
                         (Some (Z.abs (tableGuests - targetGuestCount))))
    end
  else Some best.

Definition placeSmartMix : option Solution :=
  match smartMix_loop (Z.to_nat (smartMix_maxColumnsAvailable + 1)) smartMix_initial with
  | None => None
  | Some best => smartMix_fallback best
  end.
End PlaceSmartMix.

(** *** calculateTableArrangement *)

Inductive HallObjectType : Type := TypeStage | TypeTable | TypeChair.

(** [HallObject] without the generated [id] and the file name. *)
Record HallObject : Type := mkHallObject {
  h_type : HallObjectType;
  h_x : Q;
  h_y : Q;
  h_width : Q;
  h_height : Q;
  h_tableIndex : Z;
  h_rotation : Q
}.

Record Arrangement : Type := mkArrangement {
  totalTables : Z;
  totalChairs : Z;
  totalSingleChairs : Z;
  totalGuests : Z
}.

Definition seatingResultOf (s : Solution) : SeatingResult :=
  mkSeatingResult (s_tables s) (s_chairs s) (s_actualGuests s).

Definition seatingFor (guestCount : Z) (tableConfig : TableConfig)
           (doorAreas : list DoorArea) (fuel : nat) : option SeatingResult :=
  match seatingMode tableConfig with
  | Some ModeTablesOnly => placeTablesOnly guestCount tableConfig doorAreas fuel
  | Some ModeChairsOnly => placeChairsOnly guestCount tableConfig doorAreas fuel
  | Some ModeAuto | None =>
      option_map seatingResultOf (placeSmartMix guestCount tableConfig doorAreas fuel)
  end.

Definition tableHallObject (tableConfig : TableConfig) (t : Placed) : HallObject :=
  mkHallObject TypeTable (p_x t) (p_y t) (width tableConfig) (height tableConfig)
               (p_index t) 0.

Definition chairHallObjects (tableConfig : TableConfig) (c : Placed) : list HallObject :=
  match singleChair tableConfig with
  | Some chair =>
      [mkHallObject TypeChair (p_x c) (p_y c) (chair_width chair) (chair_height chair)
                    (p_index c) (Js.orQ (chair_rotation chair) 0)]
  | None => []
  end.

Definition calculateTableArrangement (guestCount : Z) (tableConfig : TableConfig)
           (doorAreas : list DoorArea) (fuel : nat)
  : option (list HallObject * Arrangement) :=
  if (guestCount <=? 0)%Z then Some ([], mkArrangement 0 0 0 0)
  else
    match seatingFor guestCount tableConfig doorAreas fuel with
    | None => None
    | Some r =>
        let objects := map (tableHallObject tableConfig) (tables r)
                       ++ flat_map (chairHallObjects tableConfig) (chairs r) in
        let nTables := Z.of_nat (List.length (tables r)) in
        let nChairs := Z.of_nat (List.length (chairs r)) in
        Some (objects,
              mkArrangement nTables (nTables * chairsPerTable tableConfig)%Z nChairs
                            (actualGuests r))
    end.

(** *** Fuel that suffices for a column loop

    A skipped column moves the cursor past the right edge of at least one
    door that was still ahead of it, and a filled column moves it one
    column step to the right, so the doors ahead plus the column steps
    left before the right edge bound the number of iterations. *)
Definition doorsAhead (doorAreas : list DoorArea) (curX : Q) : nat :=
  List.length (filter (fun door => Js.ltb curX (doorMaxX door)) doorAreas).

Definition columnsAhead (rightEdge unitWidth step curX : Q) : nat :=
  if Js.leb (curX + unitWidth) rightEdge
  then Z.to_nat (Qfloor ((rightEdge - unitWidth - curX) / step) + 1)
  else O.

Definition columnFuel (doorAreas : list DoorArea) (rightEdge unitWidth step curX : Q) : nat :=
  (doorsAhead doorAreas curX + columnsAhead rightEdge unitWidth step curX)%nat.

Definition tablesOnly_fuel (tableConfig : TableConfig) (doorAreas : list DoorArea) : nat :=
  columnFuel doorAreas (maxX (areaBounds tableConfig)) (width tableConfig)
             (width tableConfig + columnSpacing tableConfig)
             (minX (areaBounds tableConfig)).

End TableCalculator.

(** ** config/venues.ts: the placement helpers that test the polygon *)
Module Venues.
Import DoorAreaUtils VenueTypes TableCalculator.

(** One step of the even-odd ray cast: does the edge from [pj] to [pi]
    cross the horizontal ray that leaves [point] to the right?  The
    quotient is only read when the two ends lie on different sides of the
    ray, where [y pj - y pi] is not zero. *)
Definition edgeCrosses (point pi pj : Point) : bool :=
  negb (Bool.eqb (Js.ltb (y point) (y pi)) (Js.ltb (y point) (y pj)))
  && Js.ltb (x point)
            ((x pj - x pi) * (y point - y pi) / (y pj - y pi) + x pi).

(** [for (let i = 0, j = 3; i < 4; j = i++)]: the pairs (0,3), (1,0),
    (2,1), (3,2); [inside] flips at every crossing. *)
Definition isPointInPolygon (point : Point) (polygon : list Point) : bool :=
  match polygon with
  | [p0; p1; p2; p3] =>
      let inside := false in
      let inside := if edgeCrosses point p0 p3 then negb inside else inside in
      let inside := if edgeCrosses point p1 p0 then negb inside else inside in
      let inside := if edgeCrosses point p2 p1 then negb inside else inside in
      let inside := if edgeCrosses point p3 p2 then negb inside else inside in
      inside
  | _ => false
  end.

(** The four corners tested before a unit is placed. *)
Definition unitCorners (colX rowY' w h : Q) : list Point :=
  [mkPoint colX rowY'; mkPoint (colX + w) rowY';
   mkPoint colX (rowY' + h); mkPoint (colX + w) (rowY' + h)].

Definition allCornersInside (colX rowY' w h : Q) (polygon : list Point) : bool :=
  forallb (fun corner => isPointInPolygon corner polygon) (unitCorners colX rowY' w h).

(** The local variables [positions] and [tableIndex] / [chairIndex]. *)
Record PosState : Type := mkPosState { positions : list Placed; nextIndex : Z }.

Definition pushPos (colX rowY' : Q) (st : PosState) : PosState :=
  {| positions := positions st ++ [mkPlaced colX rowY' (nextIndex st)];
     nextIndex := (nextIndex st + 1)%Z |}.

(** *** calculateTablePositionsInPolygon *)
Section TablePositionsInPolygon.
Variable tableConfig : TableConfig.
Variable tableCount : Z.
Variable pts : TableAreaPoints.        (* tableConfig.namedPoints *)

Let polygon := convertTableAreaToArray pts.
Let bounds := getPolygonBounds polygon.
Let tableHeightWithSpacing := height tableConfig + tableSpacing tableConfig.
Let availableWidth := maxX bounds - minX bounds.
Let availableHeight := maxY bounds - minY bounds.

Definition inPolygon_maxTablesPerColumn : Z :=
  Qfloor (availableHeight / tableHeightWithSpacing).

(** [Math.min(Math.ceil(tableCount / maxTablesPerColumn), maxColumnsAvailable)].
    With no row per column the quotient is infinite or [NaN]; the
    loops then place nothing, as they do here with the quotient read
    as zero. *)
Definition inPolygon_actualColumns : Z :=
  Z.min (ceilDiv tableCount inPolygon_maxTablesPerColumn)
        (Qfloor (availableWidth / (width tableConfig + columnSpacing tableConfig))).

Definition inPolygon_row (columnX : Q) (row : Z) (st : PosState) : PosState :=
  let y := rowY bounds tableHeightWithSpacing (Js.orZ (rowsPerGroup tableConfig) 999)
                (Js.orQ (rowGroupSpacing tableConfig) 0) row in
  if Js.leb (columnX + width tableConfig) (maxX bounds)
     && Js.leb (y + height tableConfig) (maxY bounds) then
    if allCornersInside columnX y (width tableConfig) (height tableConfig) polygon
    then pushPos columnX y st
    else st
  else st.

Definition inPolygon_column (col : Z) (st : PosState) : PosState :=
  let columnX := minX bounds
                 + (inject_Z col * (width tableConfig + columnSpacing tableConfig)) in
  Js.forUpTo (fun s => (nextIndex s <? tableCount)%Z) (inPolygon_row columnX)
             (Z.to_nat inPolygon_maxTablesPerColumn) 0 st.

Definition inPolygon_positions : list Placed :=
  positions (Js.forUpTo (fun s => (nextIndex s <? tableCount)%Z) inPolygon_column
                        (Z.to_nat inPolygon_actualColumns) 0 (mkPosState [] 0)).
End TablePositionsInPolygon.

Definition calculateTablePositionsInPolygon (tableConfig : TableConfig) (tableCount : Z)
  : list Placed :=
  match namedPoints tableConfig with
  | None => []
  | Some pts => inPolygon_positions tableConfig tableCount pts
  end.

(** *** calculateSingleChairPositions *)
Section SingleChairPositions.
Variable tableConfig : TableConfig.
Variable chairCount : Z.
Variable chair : SingleChairConfig.    (* tableConfig.singleChair *)

Let bounds := areaBounds tableConfig.
Let availableWidth := maxX bounds - minX bounds.
Let availableHeight := maxY bounds - minY bounds.
Let chairWidthWithSpacing := chair_width chair + chair_spacing chair.
Let chairHeightWithSpacing := chair_height chair + chair_spacing chair.
Let rowsPerGroup' := Js.orZ (chair_rowsPerGroup chair) 999.
Let rowGroupSpacing' := Js.orQ (rowGroupSpacing tableConfig) 0.

Definition singleChairs_maxColumnsAvailable : Z :=
  Qfloor (availableWidth / chairWidthWithSpacing).

Definition singleChairs_rawChairsPerColumn : Z :=
  let groupBlockHeight := inject_Z rowsPerGroup' * chairHeightWithSpacing + rowGroupSpacing' in
  let fullGroups := Qfloor (availableHeight / groupBlockHeight) in
  let remainingHeight := availableHeight - inject_Z fullGroups * groupBlockHeight in
  let extraRows := Qfloor (remainingHeight / chairHeightWithSpacing) in
  (fullGroups * rowsPerGroup' + extraRows)%Z.

Definition singleChairs_maxChairsPerColumn : Z :=
  if negb (Z.rem singleChairs_rawChairsPerColumn rowsPerGroup' =? 0)%Z
  then ((singleChairs_rawChairsPerColumn / rowsPerGroup') * rowsPerGroup')%Z
  else singleChairs_rawChairsPerColumn.

Definition singleChairs_row (columnX : Q) (row : Z) (st : PosState) : PosState :=
  let y := rowY bounds chairHeightWithSpacing rowsPerGroup' rowGroupSpacing' row in
  if Js.leb (columnX + chair_width chair) (maxX bounds)
     && Js.leb (y + chair_height chair) (maxY bounds) then
    match namedPoints tableConfig with
    | Some pts =>
        if allCornersInside columnX y (chair_width chair) (chair_height chair)
                            (convertTableAreaToArray pts)
        then pushPos columnX y st
        else st                                   (* [continue] *)
    | None => pushPos columnX y st
    end
  else st.

Definition singleChairs_column (completeChairColumns chairsInLastColumn : Z)
           (col : Z) (st : PosState) : PosState :=
  let columnX := minX bounds + (inject_Z col * chairWidthWithSpacing) in
  let chairsInThisColumn :=
    if (col <? completeChairColumns)%Z then singleChairs_maxChairsPerColumn
    else chairsInLastColumn in
  Js.forUpTo (fun _ => true) (singleChairs_row columnX)
             (Z.to_nat chairsInThisColumn) 0 st.

(** With [maxChairsPerColumn = 0] the source divides by zero:
    [completeChairColumns] is infinite, [chairsInLastColumn] is [NaN],
    every column gets [maxChairsPerColumn = 0] chairs and nothing is
    placed. *)
Definition singleChairs_positions : list Placed :=
  if (singleChairs_maxChairsPerColumn =? 0)%Z then []
  else
    let completeChairColumns := (chairCount / singleChairs_maxChairsPerColumn)%Z in
    let chairsInLastColumn := Z.rem chairCount singleChairs_maxChairsPerColumn in
    let totalColumnsToFill :=
      (completeChairColumns + (if (0 <? chairsInLastColumn)%Z then 1 else 0))%Z in
    positions
      (Js.forUpTo (fun _ => true)
                  (singleChairs_column completeChairColumns chairsInLastColumn)
                  (Z.to_nat (Z.min totalColumnsToFill singleChairs_maxColumnsAvailable))
                  0 (mkPosState [] 0)).
End SingleChairPositions.

Definition calculateSingleChairPositions (tableConfig : TableConfig) (chairCount : Z)
  : list Placed :=
  match singleChair tableConfig with
  | None => []
  | Some chair => singleChairs_positions tableConfig chairCount chair
  end.

(** *** calculateSmartSeating, step 2: the chair metrics

    [maxPossibleChairs] and [maxChairsPerColumn] as they stand after the
    block headed "STEP 2" and the rounding that follows it.  The pair is
    [(maxPossibleChairs, maxChairsPerColumn)]. *)
Definition smartSeating_chairMetrics (tableConfig : TableConfig) : Z * Z :=
  let bounds := areaBounds tableConfig in
  let availableWidth := maxX bounds - minX bounds in
  let availableHeight := maxY bounds - minY bounds in
  let '(maxPossibleChairs, maxChairsPerColumn') :=
    match singleChair tableConfig with
    | Some chair =>
        let chairWidthWithSpacing := chair_width chair + chair_spacing chair in
        let perColumn := Z.max (rawChairsPerColumn availableHeight tableConfig chair) 1 in
        let maxChairColumnsAvailable := Qfloor (availableWidth / chairWidthWithSpacing) in
        ((perColumn * maxChairColumnsAvailable)%Z, perColumn)
    | None => (0%Z, 1%Z)
    end in
  match rowsPerGroup tableConfig with
  | Some tableRows =>
      if negb (tableRows =? 0)%Z && negb (Z.rem maxChairsPerColumn' tableRows =? 0)%Z
      then (maxPossibleChairs, ((maxChairsPerColumn' / tableRows) * tableRows)%Z)
      else (maxPossibleChairs, maxChairsPerColumn')
  | None => (maxPossibleChairs, maxChairsPerColumn')
  end.

End Venues.

(** ** utils/simpleStageTablePoints.ts *)
Module StageTablePoints.
Import DoorAreaUtils VenueTypes.

(** [StageConfig]: position, optional size and rotation. *)
Record StageConfig : Type := mkStageConfig {
  stage_x : Q;
  stage_y : Q;
  stage_width : option Q;
  stage_height : option Q;
  stage_rotation : option Q
}.

(** The [naturalSize] of a loaded drawing, the only part of the [dxf]
    argument that is read. *)
Record NaturalSize : Type := mkNaturalSize { natural_width : Q; natural_height : Q }.

(** [convertFeetToDXFUnits] of the DXF renderer. *)
Definition convertFeetToDXFUnits (feet : Q) (dxfUnits : string) : Q :=
  let feetInMeters := feet * (3048 # 10000) in
  if String.eqb dxfUnits "meters" then feetInMeters
  else if String.eqb dxfUnits "millimeters" then feetInMeters * 1000
  else if String.eqb dxfUnits "centimeters" then feetInMeters * 100
  else if String.eqb dxfUnits "kilometers" then feetInMeters / 1000
  else if String.eqb dxfUnits "inches" then feet * 12
  else if String.eqb dxfUnits "feet" then feet
  else feetInMeters.

(** [!v] for an optional number. *)
Definition falsy (v : option Q) : bool :=
  match v with
  | Some q => Qeq_bool q 0
  | None => true
  end.

(** The width and height [getStageRightEdge] ends up dividing by two. *)
Definition effectiveSize (stage : StageConfig) (dxf : option NaturalSize) : Q * Q :=
  if falsy (stage_width stage) || falsy (stage_height stage) then
    match dxf with
    | Some size => (natural_width size, natural_height size)
    | None => (Js.orQ (stage_width stage) 1140, Js.orQ (stage_height stage) 200)
    end
  else (Js.orQ (stage_width stage) 0, Js.orQ (stage_height stage) 0).

Definition getStageRightEdge (stage : StageConfig) (dxf : option NaturalSize) : Q :=
  let '(stageWidth, stageHeight) := effectiveSize stage dxf in
  let stageRotation := Js.orQ (stage_rotation stage) 0 in
  if Qeq_bool stageRotation 90
  then stage_x stage + stageHeight / 2
  else stage_x stage + stageWidth / 2.

(** [maxDistance || 0], where [maxDistance] is only set when [dxfUnits] is
    given (a non-empty string). *)
Definition stageClearance (maxDistanceFeet : Q) (dxfUnits : option string) : Q :=
  match dxfUnits with
  | Some units =>
      if String.eqb units "" then 0
      else Js.orQ (Some (convertFeetToDXFUnits maxDistanceFeet units)) 0
  | None => 0
  end.

(** [calculateStageTablePoints]; [None] stands for the [TypeError] raised
    when the base configuration carries no [namedPoints]. *)
Definition calculateStageTablePoints (stage : StageConfig) (baseTableConfig : TableConfig)
           (minDistanceFeet maxDistanceFeet : Q) (dxfUnits : option string)
           (dxf : option NaturalSize) : option TableAreaPoints :=
  match getTableAreaPoints baseTableConfig with
  | None => None
  | Some basePoints =>
      let stageRightEdge := getStageRightEdge stage dxf in
      let tableAreaStartX := stageRightEdge + stageClearance maxDistanceFeet dxfUnits in
      Some {| area_topLeft := mkPoint tableAreaStartX (y (area_topLeft basePoints));
              area_topRight := area_topRight basePoints;
              area_bottomRight := area_bottomRight basePoints;
              area_bottomLeft := mkPoint tableAreaStartX (y (area_bottomLeft basePoints)) |}
  end.

Definition handleStageSelection (stage : StageConfig) (baseTableConfig : TableConfig)
           (dxfUnits : option string) (dxf : option NaturalSize) : option TableAreaPoints :=
  calculateStageTablePoints stage baseTableConfig 12 15 dxfUnits dxf.

End StageTablePoints.

(** ** The parsed drawing, as the DXF code reads it *)
Module Dxf.
Local Open Scope R_scope.

(** [v || d] for an optional real number. *)
Definition orR (v : option R) (d : R) : R :=
  match v with
  | Some r => if Req_dec_T r 0 then d else r
  | None => d
  end.

(** [s.includes(sub)]. *)
Definition includes (s sub : string) : bool :=
  match String.index 0 sub s with
  | Some _ => true
  | None => false
  end.

(** A point of the parser: [x] and [y] are always present, [z] is not. *)
Record Point : Type := mkPoint { x : R; y : R; z : option R }.

Inductive ColorValue : Type :=
| ColorName (name : string)
| ColorCode (code : N).

Record Scale : Type := mkScale { scale_x : option R; scale_y : option R }.

(** An edge of a hatch boundary path. *)
Record Edge : Type := mkEdge {
  edge_type : string;
  edge_start : option Point;
  edge_end : option Point
}.

Record BoundaryPath : Type := mkBoundaryPath { edges : option (list Edge) }.

(** An entity of the parser: a tag and the optional fields the code
    probes for.  A field the entity does not carry is [None]. *)
Record Entity : Type := mkEntity {
  etype : string;
  layer : option string;
  color : option ColorValue;
  colorNumber : option N;
  start : option Point;
  end_ : option Point;
  vertices : option (list Point);
  closed : bool;
  center : option Point;
  radius : option R;
  startAngle : option R;
  endAngle : option R;
  majorAxis : option Point;
  ratio : option R;
  controlPoints : option (list Point);
  boundaryPaths : option (list BoundaryPath);
  text : option string;
  position : option Point;
  name : option string;
  scale : option Scale;
  rotation : option R;
  corners : option (list Point);
  direction : option Point;
  defPoint : option Point;
  midPoint : option Point;
  points : option (list Point)
}.

(** An entity of the given type with no other field. *)
Definition bare (t : string) : Entity :=
  mkEntity t None None None None None None false None None None None None None None None
           None None None None None None None None None None.

(** A block definition: [{ entities }], the list possibly missing. *)
Record Block : Type := mkBlock { block_entities : option (list Entity) }.

(** The parsed document: top-level entities and the block table
    ([dxf.blocks[name]] is the first entry under that name). *)
Record Document : Type := mkDocument {
  doc_entities : list Entity;
  doc_blocks : option (list (string * Block))
}.

Fixpoint lookupBlock (table : list (string * Block)) (key : string) : option Block :=
  match table with
  | [] => None
  | (k, b) :: rest => if String.eqb k key then Some b else lookupBlock rest key
  end.

(** [entity.scale?.x] and [entity.scale?.y]. *)
Definition scaleX_of (e : Entity) : option R :=
  match scale e with Some s => scale_x s | None => None end.
Definition scaleY_of (e : Entity) : option R :=
  match scale e with Some s => scale_y s | None => None end.

(** [dxf.blocks?.[blockName]]. *)
Definition blockOf (dxf : Document) (blockName : string) : option Block :=
  match doc_blocks dxf with
  | Some table => lookupBlock table blockName
  | None => None
  end.

(** The block is not in the table, or it is there without entities. *)
Definition missingOrEmpty (b : option Block) : Prop :=
  match b with
  | None => True
  | Some blk => block_entities blk = None \/ block_entities blk = Some []
  end.

(** The block names that get the fifty-fold scale. *)
Definition isScaledBlock (blockName : string) : bool :=
  includes blockName "TV_CAMERAMAN_PL" || includes blockName "camera_man"
  || includes blockName "female_model".

End Dxf.

(** ** utils/simpleDxfExtractor.ts *)
Module SimpleDxfExtractor.
Import Dxf.
Local Open Scope R_scope.

Record SimpleDxfEntity : Type := mkSimple {
  s_type : string;
  s_vertices : list Point;
  s_layer : option string;
  s_color : option ColorValue
}.

Record EntityTransform : Type := mkTransform {
  t_x : R;
  t_y : R;
  t_scaleX : R;
  t_scaleY : R;
  t_rotation : R        (* radians *)
}.

Definition applyTransform (point : Point) (transform : option EntityTransform) : Point :=
  match transform with
  | None => point
  | Some t =>
      let px := x point * t_scaleX t in
      let py := y point * t_scaleY t in
      let c := cos (t_rotation t) in
      let s := sin (t_rotation t) in
      let rotatedX := px * c - py * s in
      let rotatedY := px * s + py * c in
      {| x := rotatedX + t_x t; y := rotatedY + t_y t; z := Some (orR (z point) 0) |}
  end.

Definition combineTransforms (parent child : EntityTransform) : EntityTransform :=
  let c := cos (t_rotation parent) in
  let s := sin (t_rotation parent) in
  let scaledX := t_x child * t_scaleX parent in
  let scaledY := t_y child * t_scaleY parent in
  let rotatedX := scaledX * c - scaledY * s in
  let rotatedY := scaledX * s + scaledY * c in
  {| t_x := t_x parent + rotatedX;
     t_y := t_y parent + rotatedY;
     t_scaleX := t_scaleX parent * t_scaleX child;
     t_scaleY := t_scaleY parent * t_scaleY child;
     t_rotation := t_rotation parent + t_rotation child |}.

Definition atLeastTwo {A : Type} (l : option (list A)) : bool :=
  match l with
  | Some (_ :: _ :: _) => true
  | _ => false
  end.

Definition processLine (entity : Entity) (result : list SimpleDxfEntity)
           (transform : option EntityTransform) : list SimpleDxfEntity :=
  match vertices entity with
  | Some ((_ :: _ :: _) as vs) =>
      result ++ [mkSimple "LINE" (map (fun v => applyTransform v transform) vs)
                          (layer entity) (color entity)]
  | _ =>
      match start entity, end_ entity with
      | Some a, Some b =>
          result ++ [mkSimple "LINE" [applyTransform a transform; applyTransform b transform]
                              (layer entity) (color entity)]
      | _, _ => result
      end
  end.

Definition processPolyline (entity : Entity) (result : list SimpleDxfEntity)
           (transform : option EntityTransform) : list SimpleDxfEntity :=
  match vertices entity with
  | Some ((_ :: _ :: _) as vs) =>
      result ++ [mkSimple (etype entity) (map (fun v => applyTransform v transform) vs)
                          (layer entity) (color entity)]
  | _ => result
  end.

(** The 33 sample points [i = 0 .. 32] of a circle or an arc. *)
Definition arcVertices (c : Point) (r startA endA : R)
           (transform : option EntityTransform) : list Point :=
  map (fun i : nat =>
         let t := INR i / 32 in
         let angle := startA + t * (endA - startA) in
         applyTransform {| x := x c + r * cos angle; y := y c + r * sin angle;
                           z := Some (orR (z c) 0) |} transform)
      (seq 0 33).

Definition circleVertices (c : Point) (r : R)
           (transform : option EntityTransform) : list Point :=
  map (fun i : nat =>
         let angle := INR i / 32 * PI * 2 in
         applyTransform {| x := x c + r * cos angle; y := y c + r * sin angle;
                           z := Some (orR (z c) 0) |} transform)
      (seq 0 33).

(** [!entity.radius]: missing or zero. *)
Definition noRadius (entity : Entity) : bool :=
  match radius entity with
  | Some r => if Req_dec_T r 0 then true else false
  | None => true
  end.

Definition processCircle (entity : Entity) (result : list SimpleDxfEntity)
           (transform : option EntityTransform) : list SimpleDxfEntity :=
  match center entity with
  | Some c =>
      if noRadius entity then result
      else result ++ [mkSimple "CIRCLE" (circleVertices c (orR (radius entity) 0) transform)
                               (layer entity) (color entity)]
  | None => result
  end.

Definition processArc (entity : Entity) (result : list SimpleDxfEntity)
           (transform : option EntityTransform) : list SimpleDxfEntity :=
  match center entity with
  | Some c =>
      if noRadius entity then result
      else result ++ [mkSimple "ARC"
                               (arcVertices c (orR (radius entity) 0)
                                            (orR (startAngle entity) 0)
                                            (orR (endAngle entity) (PI * 2)) transform)
                               (layer entity) (color entity)]
  | None => result
  end.

Definition processSpline (entity : Entity) (result : list SimpleDxfEntity)
           (transform : option EntityTransform) : list SimpleDxfEntity :=
  match controlPoints entity with
  | Some ((_ :: _ :: _) as ps) =>
      result ++ [mkSimple "SPLINE" (map (fun p => applyTransform p transform) ps)
                          (layer entity) (color entity)]
  | _ => result
  end.

(** The transform an INSERT contributes by itself. *)
Definition insertTransform (entity : Entity) (blockName : string) (ignorePosition : bool)
  : EntityTransform :=
  let extraScale := if isScaledBlock blockName then 50 else 1 in
  {| t_x := if ignorePosition then 0
            else orR (match position entity with Some p => Some (x p) | None => None end) 0;
     t_y := if ignorePosition then 0
            else orR (match position entity with Some p => Some (y p) | None => None end) 0;
     t_scaleX := orR (scaleX_of entity) 1 * extraScale;
     t_scaleY := orR (scaleY_of entity) 1 * extraScale;
     t_rotation := orR (rotation entity) 0 * PI / 180 |}.

(** The [switch] of processEntity, with the INSERT case left to
    [insertCase]. *)
Definition dispatch
           (insertCase : Entity -> list SimpleDxfEntity -> option EntityTransform
                         -> option (list SimpleDxfEntity))
           (entity : Entity) (result : list SimpleDxfEntity)
           (transform : option EntityTransform) : option (list SimpleDxfEntity) :=
  let t := etype entity in
  if String.eqb t "LINE" then Some (processLine entity result transform)
  else if String.eqb t "POLYLINE" || String.eqb t "LWPOLYLINE"
       then Some (processPolyline entity result transform)
  else if String.eqb t "INSERT" then insertCase entity result transform
  else if String.eqb t "CIRCLE" then Some (processCircle entity result transform)
  else if String.eqb t "ARC" then Some (processArc entity result transform)
  else if String.eqb t "SPLINE" then Some (processSpline entity result transform)
  else Some result.

(** [block.entities.forEach(...)], stopping when the fuel is gone. *)
Fixpoint forEachEntity
         (step : Entity -> list SimpleDxfEntity -> option (list SimpleDxfEntity))
         (entities : list Entity) (result : list SimpleDxfEntity)
  : option (list SimpleDxfEntity) :=
  match entities with
  | [] => Some result
  | e :: rest =>
      match step e result with
      | Some result' => forEachEntity step rest result'
      | None => None
      end
  end.

(** processInsert.  Fuel is spent when a block is entered; [None] means
    that the nesting is deeper than the fuel (a block that contains
    itself never ends). *)
Fixpoint processInsert (fuel : nat) (dxf : Document) (ignorePosition : bool)
         (entity : Entity) (result : list SimpleDxfEntity)
         (parentTransform : option EntityTransform) : option (list SimpleDxfEntity) :=
  match name entity with
  | None => Some result
  | Some blockName =>
      if String.eqb blockName "" then Some result
      else
        match match doc_blocks dxf with
              | Some table => lookupBlock table blockName
              | None => None
              end with
        | None => Some result
        | Some block =>
            match block_entities block with
            | None => Some result
            | Some blockEntities =>
                let transform := insertTransform entity blockName ignorePosition in
                let finalTransform :=
                  match parentTransform with
                  | Some parent => combineTransforms parent transform
                  | None => transform
                  end in
                match fuel with
                | O => match blockEntities with [] => Some result | _ => None end
                | S fuel' =>
                    forEachEntity
                      (fun blockEntity acc =>
                         dispatch (processInsert fuel' dxf ignorePosition)
                                  blockEntity acc (Some finalTransform))
                      blockEntities result
                end
            end
        end
  end.

Definition processEntity (fuel : nat) (dxf : Document) (ignorePosition : bool)
           (entity : Entity) (result : list SimpleDxfEntity)
           (transform : option EntityTransform) : option (list SimpleDxfEntity) :=
  dispatch (processInsert fuel dxf ignorePosition) entity result transform.

(** The body of extractSimpleEntities once the document is parsed. *)
Definition extractEntities (fuel : nat) (dxf : Document) (ignorePosition : bool)
  : option (list SimpleDxfEntity) :=
  forEachEntity (fun entity acc => processEntity fuel dxf ignorePosition entity acc None)
                (doc_entities dxf) [].

End SimpleDxfExtractor.

(** ** utils/advancedDxfRenderer.tsx: the EntityProcessor *)
Module AdvancedDxfRenderer.
Import Dxf.
Local Open Scope R_scope.

(** What a call leaves behind: the new state, a thrown [TypeError], or
    nothing because the block nesting is deeper than the fuel. *)
Inductive Outcome (A : Type) : Type :=
| Done (a : A)
| Threw
| OutOfFuel.
Arguments Done {A} a.
Arguments Threw {A}.
Arguments OutOfFuel {A}.

(** [parseFloat(value.toFixed(8))]: the nearest multiple of 1e-8, halves
    rounded away from zero. *)
Definition toPrecise (value : R) : R :=
  if Rle_dec 0 value
  then IZR (Int_part (value * 100000000 + / 2)) / 100000000
  else - (IZR (Int_part (- value * 100000000 + / 2)) / 100000000).

Record XY : Type := mkXY { px : R; py : R }.

Definition transformPoint (point : Point) (centerX centerY : R) : XY :=
  {| px := toPrecise (x point - centerX); py := toPrecise (y point - centerY) |}.

Record Box : Type := mkBox { minX : R; minY : R; maxX : R; maxY : R }.

Record CircleItem : Type := mkCircle { c_center : XY; c_radius : R; c_color : string }.
Record ArcItem : Type := mkArc {
  a_center : XY; a_radius : R; a_startAngle : R; a_endAngle : R; a_color : string
}.
Record TextItem : Type := mkText { t_entity : Entity; t_position : XY; t_color : string }.

(** The fields of the processor; [lineBatches] maps a colour to the flat
    coordinate list of its segments, in insertion order.  [lineBatches] and
    [layerBounds] are plain objects in the source; the association lists
    hold their own properties, which is all the source reads unless a key
    is the name of an inherited property ([Js.inheritedKey]).  Under such a
    colour the source's addLine finds the inherited value, stores no array
    and throws at [push]; under such a layer key its updateLayerBounds
    stores no box.  These keys are outside the model, and the statements
    about a stored batch or box exclude them. *)
Record Processor : Type := mkProcessor {
  lineBatches : list (string * list R);
  circles : list CircleItem;
  arcs : list ArcItem;
  texts : list TextItem;
  layerBounds : list (string * Box);
  centerX : R;
  centerY : R
}.

Definition newProcessor (cx cy : R) : Processor := mkProcessor [] [] [] [] [] cx cy.

Fixpoint pushBatch (batches : list (string * list R)) (key : string) (numbers : list R)
  : list (string * list R) :=
  match batches with
  | [] => [(key, numbers)]
  | (k, v) :: rest =>
      if String.eqb k key then (k, v ++ numbers) :: rest
      else (k, v) :: pushBatch rest key numbers
  end.

Definition addLine (colour : string) (x1 y1 x2 y2 : R) (p : Processor) : Processor :=
  mkProcessor (pushBatch (lineBatches p) colour [x1; y1; 0; x2; y2; 0])
              (circles p) (arcs p) (texts p) (layerBounds p) (centerX p) (centerY p).

(** [toLowerCase] on the letters A to Z; the layer names it is applied to
    are taken to be ASCII ([Js.asciiOnly]). *)
Definition lowerChar (c : ascii) : ascii :=
  let n := nat_of_ascii c in
  if (65 <=? n)%nat && (n <=? 90)%nat then ascii_of_nat (n + 32) else c.

Fixpoint toLowerCase (s : string) : string :=
  match s with
  | EmptyString => EmptyString
  | String c rest => String (lowerChar c) (toLowerCase rest)
  end.

Fixpoint lookupBox (table : list (string * Box)) (key : string) : option Box :=
  match table with
  | [] => None
  | (k, b) :: rest => if String.eqb k key then Some b else lookupBox rest key
  end.

Fixpoint storeBox (table : list (string * Box)) (key : string) (b : Box)
  : list (string * Box) :=
  match table with
  | [] => [(key, b)]
  | (k, v) :: rest =>
      if String.eqb k key then (k, b) :: rest else (k, v) :: storeBox rest key b
  end.

(** A box that starts at [Infinity] / [-Infinity] is [None]; the first
    point makes it finite. *)
Definition growBox (b : option Box) (p : Point) : option Box :=
  match b with
  | None => Some (mkBox (x p) (y p) (x p) (y p))
  | Some b => Some (mkBox (Rmin (minX b) (x p)) (Rmin (minY b) (y p))
                          (Rmax (maxX b) (x p)) (Rmax (maxY b) (y p)))
  end.

Definition updateLayerBounds (layerName : string) (pts : list Point) (p : Processor)
  : Processor :=
  if String.eqb layerName "" then p
  else
    match pts with
    | [] => p
    | _ :: _ =>
        let key := toLowerCase layerName in
        match fold_left growBox pts (lookupBox (layerBounds p) key) with
        | Some b =>
            mkProcessor (lineBatches p) (circles p) (arcs p) (texts p)
                        (storeBox (layerBounds p) key b) (centerX p) (centerY p)
        | None => p
        end
    end.

(** *** Colours *)
Definition ACI_COLORS : list string :=
  ["#000000"; "#ff0000"; "#ffff00"; "#00ff00"; "#00ffff";
   "#0000ff"; "#ff00ff"; "#ffffff"; "#808080"; "#c0c0c0";
   "#ff8080"; "#ffff80"; "#80ff80"; "#80ffff"; "#8080ff";
   "#ff80ff"; "#404040"; "#606060"; "#a0a0a0"; "#c0c0c0";
   "#e0e0e0"; "#ff4040"; "#ff8040"; "#ffc040"; "#ffff40";
   "#c0ff40"; "#80ff40"; "#40ff40"; "#40ff80"; "#40ffc0";
   "#40ffff"; "#40c0ff"; "#4080ff"; "#4040ff"; "#8040ff";
   "#c040ff"; "#ff40ff"; "#ff40c0"; "#ff4080"; "#ff4040"]%string.

(** [n.toString(16).padStart(6, '0')]. *)
Definition hex6 (n : N) : string :=
  let digits := substring 2 (String.length (HexString.of_N n) - 2) (HexString.of_N n) in
  (substring 0 (6 - String.length digits) "000000" ++ digits)%string.

Definition getColor (entity : Entity) : string :=
  match color entity with
  | Some (ColorName s) =>
      if String.eqb s "" then
        match colorNumber entity with
        | Some n => nth (N.to_nat n) ACI_COLORS "#000000"%string
        | None => "#000000"%string
        end
      else s
  | Some (ColorCode n) =>
      if (n =? 0)%N then
        match colorNumber entity with
        | Some m => nth (N.to_nat m) ACI_COLORS "#000000"%string
        | None => "#000000"%string
        end
      else ("#" ++ hex6 n)%string
  | None =>
      match colorNumber entity with
      | Some n => nth (N.to_nat n) ACI_COLORS "#000000"%string
      | None => "#000000"%string
      end
  end.

(** *** Segments *)
Definition segment (colour : string) (a b : XY) (p : Processor) : Processor :=
  addLine colour (px a) (py a) (px b) (py b) p.

(** Segments between consecutive points. *)
Fixpoint openSegments (colour : string) (pts : list XY) (p : Processor) : Processor :=
  match pts with
  | a :: ((b :: _) as rest) => openSegments colour rest (segment colour a b p)
  | _ => p
  end.

(** Segments between consecutive points and from the last back to the
    first: [i] to [(i + 1) % length] for every [i]. *)
Definition closedSegments (colour : string) (pts : list XY) (p : Processor) : Processor :=
  match pts with
  | [] => p
  | first :: _ => openSegments colour (pts ++ [first]) p
  end.

Definition centred (p : Processor) (pt : Point) : XY :=
  transformPoint pt (centerX p) (centerY p).

(** *** The handlers that do not recurse *)
Definition processLine (entity : Entity) (colour layerName : string) (p : Processor)
  : Processor :=
  match start entity, end_ entity with
  | Some a, Some b =>
      updateLayerBounds layerName [a; b] (segment colour (centred p a) (centred p b) p)
  | _, _ => p
  end.

(** processLWPolyline and processPolyline have the same body. *)
Definition processPolyline (entity : Entity) (colour layerName : string) (p : Processor)
  : Processor :=
  match vertices entity with
  | Some ((_ :: _ :: _) as vs) =>
      let pts := map (centred p) vs in
      updateLayerBounds layerName vs
        (if closed entity then closedSegments colour pts p else openSegments colour pts p)
  | _ => p
  end.

Definition extentOf (c : Point) (r : R) : list Point :=
  [mkPoint (x c - r) (y c - r) None; mkPoint (x c + r) (y c + r) None].

Definition processCircle (entity : Entity) (colour layerName : string) (p : Processor)
  : Processor :=
  match center entity, radius entity with
  | Some c, Some r =>
      updateLayerBounds layerName (extentOf c r)
        (mkProcessor (lineBatches p) (circles p ++ [mkCircle (centred p c) r colour])
                     (arcs p) (texts p) (layerBounds p) (centerX p) (centerY p))
  | _, _ => p
  end.

Definition processArc (entity : Entity) (colour layerName : string) (p : Processor)
  : Processor :=
  match center entity, radius entity with
  | Some c, Some r =>
      updateLayerBounds layerName (extentOf c r)
        (mkProcessor (lineBatches p) (circles p)
                     (arcs p ++ [mkArc (centred p c) r (orR (startAngle entity) 0)
                                       (orR (endAngle entity) (PI * 2)) colour])
                     (texts p) (layerBounds p) (centerX p) (centerY p))
  | _, _ => p
  end.

Definition processEllipse (entity : Entity) (colour : string) (p : Processor) : Processor :=
  match center entity, majorAxis entity, ratio entity with
  | Some c, Some axis, Some k =>
      if Req_dec_T k 0 then p
      else
        let r := sqrt (x axis * x axis + y axis * y axis) in
        mkProcessor (lineBatches p) (circles p ++ [mkCircle (centred p c) (r * k) colour])
                    (arcs p) (texts p) (layerBounds p) (centerX p) (centerY p)
  | _, _, _ => p
  end.

Definition processSpline (entity : Entity) (colour layerName : string) (p : Processor)
  : Processor :=
  match controlPoints entity with
  | Some ((_ :: _ :: _) as cps) =>
      updateLayerBounds layerName cps (openSegments colour (map (centred p) cps) p)
  | _ => p
  end.

Definition hatchEdge (colour : string) (p : Processor) (e : Edge) : Processor :=
  if String.eqb (edge_type e) "LINE" then
    match edge_start e, edge_end e with
    | Some a, Some b => segment colour (centred p a) (centred p b) p
    | _, _ => p
    end
  else p.

Definition processHatch (entity : Entity) (colour : string) (p : Processor) : Processor :=
  match boundaryPaths entity with
  | Some paths =>
      fold_left (fun acc path =>
                   match edges path with
                   | Some es => fold_left (hatchEdge colour) es acc
                   | None => acc
                   end) paths p
  | None => p
  end.

Definition processText (entity : Entity) (colour layerName : string) (p : Processor)
  : Processor :=
  match text entity with
  | Some content =>
      if String.eqb content "" then p
      else
        let at_ := match position entity with
                   | Some pos => centred p pos
                   | None => centred p (mkPoint 0 0 None)
                   end in
        let p' := mkProcessor (lineBatches p) (circles p) (arcs p)
                              (texts p ++ [mkText entity at_ colour])
                              (layerBounds p) (centerX p) (centerY p) in
        match position entity with
        | Some pos => updateLayerBounds layerName [pos] p'
        | None => p'
        end
  | None => p
  end.

(** A cross of half-length [size] centred at [pos]. *)
Definition cross (colour : string) (pos : XY) (size : R) (p : Processor) : Processor :=
  addLine colour (px pos) (py pos - size) (px pos) (py pos + size)
          (addLine colour (px pos - size) (py pos) (px pos + size) (py pos) p).

Definition createPlaceholder (pos : Point) (colour : string) (p : Processor) : Processor :=
  cross colour (centred p pos) 50 p.

Definition processPoint (entity : Entity) (colour layerName : string) (p : Processor)
  : Processor :=
  match position entity with
  | Some pos => updateLayerBounds layerName [pos] (cross colour (centred p pos) (/ 2) p)
  | None => p
  end.

(** processSolid and process3DFace have the same body. *)
Definition processSolid (entity : Entity) (colour layerName : string) (p : Processor)
  : Processor :=
  match vertices entity with
  | Some ((_ :: _ :: _) as vs) =>
      updateLayerBounds layerName vs (closedSegments colour (map (centred p) vs) p)
  | _ => p
  end.

Definition processTrace (entity : Entity) (colour layerName : string) (p : Processor)
  : Processor :=
  match corners entity with
  | Some ((_ :: _ :: _) as cs) =>
      updateLayerBounds layerName cs (closedSegments colour (map (centred p) cs) p)
  | _ => p
  end.

Definition processRay (entity : Entity) (colour : string) (p : Processor) : Processor :=
  match start entity, direction entity with
  | Some a, Some d =>
      let s := centred p a in
      segment colour s (mkXY (px s + x d * 1000) (py s + y d * 1000)) p
  | _, _ => p
  end.

Definition processXLine (entity : Entity) (colour : string) (p : Processor) : Processor :=
  match start entity, direction entity with
  | Some a, Some d =>
      let s := centred p a in
      segment colour (mkXY (px s - x d * 1000) (py s - y d * 1000))
              (mkXY (px s + x d * 1000) (py s + y d * 1000)) p
  | _, _ => p
  end.

Definition processDimension (entity : Entity) (colour : string) (p : Processor) : Processor :=
  match defPoint entity, midPoint entity with
  | Some d, Some m => segment colour (centred p d) (centred p m) p
  | _, _ => p
  end.

(** processLeader and processMLine have the same body. *)
Definition processLeader (entity : Entity) (colour : string) (p : Processor) : Processor :=
  match vertices entity with
  | Some ((_ :: _ :: _) as vs) => openSegments colour (map (centred p) vs) p
  | _ => p
  end.

Definition listOr {A : Type} (l : option (list A)) : list A :=
  match l with Some v => v | None => [] end.

Definition processUnknown (entity : Entity) (colour layerName : string) (p : Processor)
  : Processor :=
  let pts :=
    (match start entity, end_ entity with Some a, Some b => [a; b] | _, _ => [] end)
    ++ listOr (vertices entity)
    ++ (match position entity with Some a => [a] | None => [] end)
    ++ (match center entity with Some a => [a] | None => [] end)
    ++ listOr (controlPoints entity)
    ++ listOr (points entity) in
  match pts with
  | _ :: _ :: _ => updateLayerBounds layerName pts (openSegments colour (map (centred p) pts) p)
  | _ => p
  end.

(** [entity.layer || '0']. *)
Definition layerOf (entity : Entity) : string :=
  match layer entity with
  | Some l => if String.eqb l "" then "0"%string else l
  | None => "0"%string
  end.

(** The [switch] of processEntity, with the INSERT case left to
    [insertCase]. *)
Definition dispatch
           (insertCase : Entity -> string -> string -> Processor -> Outcome Processor)
           (entity : Entity) (p : Processor) : Outcome Processor :=
  let colour := getColor entity in
  let layerName := layerOf entity in
  let t := etype entity in
  if String.eqb t "LINE" then Done (processLine entity colour layerName p)
  else if String.eqb t "LWPOLYLINE" then Done (processPolyline entity colour layerName p)
  else if String.eqb t "POLYLINE" then Done (processPolyline entity colour layerName p)
  else if String.eqb t "CIRCLE" then Done (processCircle entity colour layerName p)
  else if String.eqb t "ARC" then Done (processArc entity colour layerName p)
  else if String.eqb t "ELLIPSE" then Done (processEllipse entity colour p)
  else if String.eqb t "SPLINE" then Done (processSpline entity colour layerName p)
  else if String.eqb t "HATCH" then Done (processHatch entity colour p)
  else if String.eqb t "MTEXT" || String.eqb t "TEXT"
       then Done (processText entity colour layerName p)
  else if String.eqb t "INSERT" then insertCase entity colour layerName p
  else if String.eqb t "POINT" then Done (processPoint entity colour layerName p)
  else if String.eqb t "SOLID" then Done (processSolid entity colour layerName p)
  else if String.eqb t "TRACE" then Done (processTrace entity colour layerName p)
  else if String.eqb t "3DFACE" then Done (processSolid entity colour layerName p)
  else if String.eqb t "RAY" then Done (processRay entity colour p)
  else if String.eqb t "XLINE" then Done (processXLine entity colour p)
  else if String.eqb t "DIMENSION" then Done (processDimension entity colour p)
  else if String.eqb t "LEADER" then Done (processLeader entity colour p)
  else if String.eqb t "MLINE" then Done (processLeader entity colour p)
  else Done (processUnknown entity colour layerName p).

(** *** processInsert *)

(** [transformBlockPoint]: scale, rotate, translate to the insertion
    point; the result carries [x] and [y] only. *)
Definition transformBlockPoint (scaleX scaleY c s : R) (at_ : Point) (pt : Point) : Point :=
  let sx := x pt * scaleX in
  let sy := y pt * scaleY in
  let rotatedX := sx * c - sy * s in
  let rotatedY := sx * s + sy * c in
  mkPoint (rotatedX + x at_) (rotatedY + y at_) None.

(** [{ ...blockEntity }] with every point field replaced by its image. *)
Definition transformEntity (f : Point -> Point) (e : Entity) : Entity :=
  mkEntity (etype e) (layer e) (color e) (colorNumber e)
           (option_map f (start e)) (option_map f (end_ e))
           (option_map (map f) (vertices e)) (closed e)
           (option_map f (center e)) (radius e) (startAngle e) (endAngle e)
           (majorAxis e) (ratio e)
           (option_map (map f) (controlPoints e)) (boundaryPaths e) (text e)
           (option_map f (position e)) (name e) (scale e) (rotation e)
           (corners e) (direction e) (defPoint e) (midPoint e) (points e).

Definition bind {A B : Type} (o : Outcome A) (k : A -> Outcome B) : Outcome B :=
  match o with
  | Done a => k a
  | Threw => Threw
  | OutOfFuel => OutOfFuel
  end.

(** [entities.forEach(step)]: a throw or the end of the fuel ends it. *)
Fixpoint forEachEntity (step : Entity -> Processor -> Outcome Processor)
         (entities : list Entity) (p : Processor) : Outcome Processor :=
  match entities with
  | [] => Done p
  | e :: rest => bind (step e p) (forEachEntity step rest)
  end.

(** The property key [dxf.blocks[entity.name]] reads. *)
Definition blockKey (entity : Entity) : string :=
  match name entity with
  | Some n => n
  | None => "undefined"%string
  end.

Definition findBlock (dxf : Document) (entity : Entity) : option Block :=
  match doc_blocks dxf with
  | Some table => lookupBlock table (blockKey entity)
  | None => None
  end.

(** The point map of one INSERT: [transformBlockPoint] with the scale,
    the rotation and the insertion point of [entity]. *)
Definition blockPointMap (entity : Entity) (blockName : string) (pos : Point)
  : Point -> Point :=
  let extraScale := if isScaledBlock blockName then 50 else 1 in
  let scaleX := orR (scaleX_of entity) 1 * extraScale in
  let scaleY := orR (scaleY_of entity) 1 * extraScale in
  let rot := orR (rotation entity) 0 in
  let c := cos (rot * PI / 180) in
  let s := sin (rot * PI / 180) in
  transformBlockPoint scaleX scaleY c s pos.

(** The callback of [block.entities.forEach]: the entity is copied with
    its points moved, and handed on; a nested INSERT keeps the colour and
    the layer of the INSERT that contains it. *)
Definition blockEntityStep
           (insertCase : Entity -> string -> string -> Processor -> Outcome Processor)
           (f : Point -> Point) (colour layerName : string)
           (blockEntity : Entity) (acc : Processor) : Outcome Processor :=
  let transformed := transformEntity f blockEntity in
  let t := etype transformed in
  if String.eqb t "INSERT"
  then insertCase transformed colour layerName acc
  else if (String.eqb t "POLYLINE" || String.eqb t "LWPOLYLINE")
          && SimpleDxfExtractor.atLeastTwo (vertices transformed)
  then Done (processPolyline transformed colour layerName acc)
  else if String.eqb t "SPLINE"
          && SimpleDxfExtractor.atLeastTwo (controlPoints transformed)
  then Done (processSpline transformed colour layerName acc)
  else dispatch insertCase transformed acc.

(** Fuel is spent when a block is entered. *)
Fixpoint processInsert (fuel : nat) (dxf : Document) (entity : Entity)
         (colour layerName : string) (p : Processor) : Outcome Processor :=
  match position entity with
  | None => Done p
  | Some pos =>
      let p := updateLayerBounds layerName [pos] p in
      match findBlock dxf entity with
      | Some block =>
          match block_entities block with
          | Some ((_ :: _) as blockEntities) =>
              match name entity with
              | None => Threw           (* [entity.name.includes] on [undefined] *)
              | Some blockName =>
                  match fuel with
                  | O => OutOfFuel
                  | S fuel' =>
                      forEachEntity
                        (blockEntityStep (processInsert fuel' dxf)
                                         (blockPointMap entity blockName pos)
                                         colour layerName)
                        blockEntities p
                  end
              end
          | _ => Done (createPlaceholder pos colour p)
          end
      | None => Done (createPlaceholder pos colour p)
      end
  end.

Definition processEntity (fuel : nat) (dxf : Document) (entity : Entity) (p : Processor)
  : Outcome Processor :=
  dispatch (processInsert fuel dxf) entity p.

(** [dxf.entities.forEach(entity => processor.processEntity(entity, dxf))]. *)
Definition processAll (fuel : nat) (dxf : Document) (entities : list Entity) (p : Processor)
  : Outcome Processor :=
  forEachEntity (processEntity fuel dxf) entities p.

End AdvancedDxfRenderer.

(** ** The DXF viewer page: bulge arcs *)
Module DxfViewer.
Import Dxf.
Local Open Scope R_scope.

(** [THREE.Vector3]. *)
Record Vector3 : Type := mkVector3 { vx : R; vy : R; vz : R }.

(** [new THREE.Vector3(v.x, v.y, v.z || 0)]. *)
Definition toVector3 (v : Point) : Vector3 := mkVector3 (x v) (y v) (orR (z v) 0).

(** [Math.atan2(b, a)]: the angle of the point [(a, b)], in (-pi, pi]. *)
Definition atan2 (b a : R) : R :=
  if Rlt_dec 0 a then atan (b / a)
  else if Rlt_dec a 0 then
         if Rle_dec 0 b then atan (b / a) + PI else atan (b / a) - PI
       else if Rlt_dec 0 b then PI / 2
            else if Rlt_dec b 0 then - (PI / 2) else 0.

(** [Vector2.length()]. *)
Definition norm (a b : R) : R := sqrt (a * a + b * b).

(** The sample points of the arc; [segments + 1] of them. *)
Definition arcPoints (v1 v2 : Point) (bulge : R) (segments : nat) : list Vector3 :=
  let chordX := x v2 - x v1 in
  let chordY := y v2 - y v1 in
  let len := norm chordX chordY in
  let sagitta := bulge * len / 2 in
  (* [chord.multiplyScalar(0.5)] halves the chord in place *)
  let halfX := chordX * / 2 in
  let halfY := chordY * / 2 in
  let midX := x v1 + halfX in
  let midY := y v1 + halfY in
  (* [new Vector2(-chord.y, chord.x).normalize()] divides by [length() || 1] *)
  let perpLen := orR (Some (norm (- halfY) halfX)) 1 in
  let perpX := - halfY / perpLen * sagitta in
  let perpY := halfX / perpLen * sagitta in
  let centerX := midX + perpX in
  let centerY := midY + perpY in
  let radius := norm (centerX - x v1) (centerY - y v1) in
  let startAngle := atan2 (y v1 - centerY) (x v1 - centerX) in
  let endAngle0 := atan2 (y v2 - centerY) (x v2 - centerX) in
  let endAngle :=
    if Rlt_dec bulge 0 then
      if Rlt_dec startAngle endAngle0 then endAngle0 - PI * 2 else endAngle0
    else
      if Rlt_dec endAngle0 startAngle then endAngle0 + PI * 2 else endAngle0 in
  map (fun i : nat =>
         let t := INR i / INR segments in
         let angle := startAngle + t * (endAngle - startAngle) in
         mkVector3 (centerX + radius * cos angle) (centerY + radius * sin angle)
                   (orR (z v1) 0))
      (seq 0 (S segments)).

(** interpolateBulgePoints; [!bulge] holds for a zero bulge. *)
Definition interpolateBulgePoints (v1 v2 : Point) (bulge : R) (segments : nat)
  : list Vector3 :=
  if Req_dec_T bulge 0 then [toVector3 v1; toVector3 v2]
  else arcPoints v1 v2 bulge segments.

End DxfViewer.

(** ** Sample configurations, used to run the embedded functions *)
Module Samples.
Import DoorAreaUtils VenueTypes.

(** A 20 x 20 area that holds exactly four 10 x 10 tables of eight seats. *)
Definition fourTables : TableConfig :=
  {| width := 10; height := 10; chairsPerTable := 8;
     tableSpacing := 0; columnSpacing := 0;
     rowsPerGroup := None; rowGroupSpacing := None;
     startX := 0; startY := 0; endX := 20; endY := 20;
     namedPoints := None; singleChair := None;
     seatingMode := Some ModeTablesOnly |}.

(** A door left of the area: its horizontal extent [-8, -2] ends before the
    first column starts, its vertical extent is [8, 12]. *)
Definition sideDoor : DoorArea :=
  {| topLeft := mkPoint (-8) 12; topRight := mkPoint (-2) 12;
     bottomRight := mkPoint (-2) 8; bottomLeft := mkPoint (-8) 8;
     clearance := None |}.

(** A door across the second column: horizontal extent [12, 18]. *)
Definition midDoor : DoorArea :=
  {| topLeft := mkPoint 12 20; topRight := mkPoint 18 20;
     bottomRight := mkPoint 18 0; bottomLeft := mkPoint 12 0;
     clearance := None |}.

(** A door right of the area, horizontal extent [22, 30], with a clearance
    of 5: its expanded box starts at x = 17, inside the area. *)
Definition rightDoor : DoorArea :=
  {| topLeft := mkPoint 22 20; topRight := mkPoint 30 20;
     bottomRight := mkPoint 30 0; bottomLeft := mkPoint 22 0;
     clearance := Some 5 |}.

(** Chairs of 5 x 5 with a spacing of 5, grouped row by row. *)
Definition smallChair : SingleChairConfig :=
  {| chair_width := 5; chair_height := 5; chair_spacing := 5;
     chair_rotation := None; chair_rowsPerGroup := Some 1%Z |}.

(** A 20 x 40 area: two table columns of one 10 x 40 table each, or two
    chair columns of four chairs each; beside one table column no chair
    column fits. *)
Definition mixArea : TableConfig :=
  {| width := 10; height := 40; chairsPerTable := 8;
     tableSpacing := 0; columnSpacing := 0;
     rowsPerGroup := None; rowGroupSpacing := None;
     startX := 0; startY := 0; endX := 20; endY := 40;
     namedPoints := None; singleChair := Some smallChair;
     seatingMode := None |}.

(** A four-corner area that is not a rectangle: the left edge runs from
    (10, 0) to (0, 20), so the corner (0, 0) of its bounding box lies
    outside. *)
Definition trapezoid : TableAreaPoints :=
  {| area_topLeft := mkPoint 0 20; area_topRight := mkPoint 20 20;
     area_bottomRight := mkPoint 20 0; area_bottomLeft := mkPoint 10 0 |}.

Definition trapezoidTables : TableConfig :=
  {| width := 10; height := 10; chairsPerTable := 8;
     tableSpacing := 0; columnSpacing := 0;
     rowsPerGroup := None; rowGroupSpacing := None;
     startX := 0; startY := 0; endX := 20; endY := 20;
     namedPoints := Some trapezoid; singleChair := None;
     seatingMode := Some ModeTablesOnly |}.

(** A 100 x 100 square area given by its four corners. *)
Definition square : TableAreaPoints :=
  {| area_topLeft := mkPoint 0 100; area_topRight := mkPoint 100 100;
     area_bottomRight := mkPoint 100 0; area_bottomLeft := mkPoint 0 0 |}.

Definition squareTables : TableConfig :=
  {| width := 10; height := 10; chairsPerTable := 8;
     tableSpacing := 0; columnSpacing := 0;
     rowsPerGroup := None; rowGroupSpacing := None;
     startX := 0; startY := 0; endX := 100; endY := 100;
     namedPoints := Some square; singleChair := Some smallChair;
     seatingMode := None |}.

(** The chair of the venue configuration (18 x 18, spacing 10, groups of
    16 rows) in an area 625 high, with the venue's table rows grouped by 4
    and a group spacing of 65: 20 chair rows fit by height. *)
Definition venueChair : SingleChairConfig :=
  {| chair_width := 18; chair_height := 18; chair_spacing := 10;
     chair_rotation := Some (-90); chair_rowsPerGroup := Some 16%Z |}.

Definition venueArea : TableConfig :=
  {| width := 72; height := 72; chairsPerTable := 8;
     tableSpacing := 55; columnSpacing := 70;
     rowsPerGroup := Some 4%Z; rowGroupSpacing := Some 65;
     startX := 0; startY := 0; endX := 1000; endY := 625;
     namedPoints := None; singleChair := Some venueChair;
     seatingMode := None |}.

(** The venue's stage: rotated by 90, width given, height left to the
    drawing, whose natural size is 1140 x 200. *)
Definition venueStage : StageTablePoints.StageConfig :=
  {| StageTablePoints.stage_x := 950; StageTablePoints.stage_y := 1520;
     StageTablePoints.stage_width := Some 1140; StageTablePoints.stage_height := None;
     StageTablePoints.stage_rotation := Some 90 |}.

Definition stageDrawing : StageTablePoints.NaturalSize :=
  {| StageTablePoints.natural_width := 1140; StageTablePoints.natural_height := 200 |}.

End Samples.

(** ** Sample drawings *)
Module SampleDrawings.
Import Dxf.
Local Open Scope R_scope.

(** A line from (1, 0) to (0, 0). *)
Definition unitLine : Entity :=
  mkEntity "LINE" None None None None None
           (Some [mkPoint 1 0 None; mkPoint 0 0 None]) false
           None None None None None None None None None None None None None
           None None None None None.

(** An INSERT of [blockName] at [at_] with the given scale and rotation
    (degrees). *)
Definition insertOf (blockName : string) (at_ : Point) (s : option Scale)
           (degrees : option R) : Entity :=
  mkEntity "INSERT" None None None None None None false
           None None None None None None None None None (Some at_) (Some blockName) s
           degrees None None None None None.

(** Block A inserts block B turned by 90 degrees; block B holds
    [unitLine]; the drawing inserts A stretched by 2 along x only. *)
Definition innerInsert : Entity := insertOf "B" (mkPoint 0 0 None) None (Some 90).
Definition outerInsert : Entity :=
  insertOf "A" (mkPoint 0 0 None) (Some (mkScale (Some 2) (Some 1))) None.

Definition nestedDrawing : Document :=
  {| doc_entities := [outerInsert];
     doc_blocks := Some [("A"%string, mkBlock (Some [innerInsert]));
                         ("B"%string, mkBlock (Some [unitLine]))] |}.

(** The same nesting with the outer INSERT scaled by 2 in both
    directions and moved to (5, 7). *)
Definition uniformOuterInsert : Entity :=
  insertOf "A" (mkPoint 5 7 None) (Some (mkScale (Some 2) (Some 2))) (Some 90).

Definition uniformDrawing : Document :=
  {| doc_entities := [uniformOuterInsert];
     doc_blocks := Some [("A"%string, mkBlock (Some [innerInsert]));
                         ("B"%string, mkBlock (Some [unitLine]))] |}.

(** Block A inserts block B unturned at (3, 0); block B holds [unitLine];
    the drawing inserts A stretched by 2 along x only, turned by 90
    degrees, at (5, 7). *)
Definition shiftedInsert : Entity := insertOf "B" (mkPoint 3 0 None) None None.
Definition stretchedTurnedInsert : Entity :=
  insertOf "A" (mkPoint 5 7 None) (Some (mkScale (Some 2) (Some 1))) (Some 90).

Definition stretchedDrawing : Document :=
  {| doc_entities := [stretchedTurnedInsert];
     doc_blocks := Some [("A"%string, mkBlock (Some [shiftedInsert]));
                         ("B"%string, mkBlock (Some [unitLine]))] |}.

(** The uniform nesting for the renderer, which reads a line's [start]
    and [end]: block B holds the segment from (1, 0) to (0, 0). *)
Definition segmentLine : Entity :=
  mkEntity "LINE" None None None (Some (mkPoint 1 0 None)) (Some (mkPoint 0 0 None))
           None false
           None None None None None None None None None None None None None
           None None None None None.

Definition renderedDrawing : Document :=
  {| doc_entities := [uniformOuterInsert];
     doc_blocks := Some [("A"%string, mkBlock (Some [innerInsert]));
                         ("B"%string, mkBlock (Some [segmentLine]))] |}.

(** An INSERT of a block the drawing does not define, followed by a line. *)
Definition danglingInsert : Entity := insertOf "MISSING" (mkPoint 3 4 None) None None.

Definition danglingDrawing : Document :=
  {| doc_entities := [danglingInsert; unitLine];
     doc_blocks := Some [("B"%string, mkBlock (Some [unitLine]))] |}.

End SampleDrawings.

(** ** The shape shared by the four column loops of the packer

    Every column loop of tableCalculator.ts has the same body: skip the
    column when a door overlaps it, otherwise fill it row by row and move one
    step to the right.  [schemaRow] and [schemaBody] spell that shape out
    once; the functions above are instances of it. *)
Module ColumnSchema.
Import DoorAreaUtils TableCalculator.

Section Schema.
Variable doorAreas : list DoorArea.
Variable unitWidth : Q.                       (* width of the unit placed *)
Variable skipSpacing : Q.                     (* added after the door's right edge *)
Variable step : Q.                            (* unit width plus column spacing *)
Variable mkObject : Q -> Q -> ObjectBox.      (* the box handed to the door test *)
Variable guestsPerUnit : Z.
Variable yOf : Z -> Q.                        (* row number to row origin *)
Variable fits : ColState -> Q -> bool.        (* the bounds test of a row *)
Variable rowCond : ColState -> bool.          (* extra condition of the row loop *)
Variable rows : nat.                          (* rows per column *)
Variable bump : ColState -> ColState.         (* columnsPlaced++ or nothing *)

Definition schemaRow (row : Z) (st : ColState) : ColState :=
  let y := yOf row in
  if fits st y then
    if negb (isObjectInAnyDoorArea (mkObject (currentX st) y) doorAreas)
    then pushUnit guestsPerUnit (currentX st) y st
    else st
  else st.

Definition schemaBody (st : ColState) : ColState :=
  if columnOverlapsDoor unitWidth doorAreas (currentX st) then
    setX (maxDoorEndX unitWidth doorAreas (currentX st) + skipSpacing) st
  else
    let st' := Js.forUpTo rowCond schemaRow rows 0 st in
    setX (currentX st' + step) (bump st').

(** What the loops guarantee of every unit they place. *)
Definition unitClear (u : Placed) : Prop :=
  columnOverlapsDoor unitWidth doorAreas (p_x u) = false
  /\ isObjectInAnyDoorArea (mkObject (p_x u) (p_y u)) doorAreas = false.
End Schema.

End ColumnSchema.

(** ** The grid of an area, read off the geometry alone

    The columns the cursor of a column loop visits (one step on, or past
    the doors that overlap the column) and, per column, the rows that fit
    in the area and pass the door test.  Nothing here depends on a target
    or on what a loop has placed. *)
Module Grid.
Import DoorAreaUtils VenueTypes TableCalculator.

Section GridOf.
Variable doorAreas : list DoorArea.
Variables left right unitWidth skipSpacing step : Q.
Variable mkObject : Q -> Q -> ObjectBox.
Variable yOf : Z -> Q.
Variable fitsY : Q -> bool.
Variable rows : nat.

(** The cursor after the column at [curX]. *)
Definition nextCursor (curX : Q) : Q :=
  if columnOverlapsDoor unitWidth doorAreas curX
  then maxDoorEndX unitWidth doorAreas curX + skipSpacing
  else curX + step.

(** The cursor of column [k], counted from the left side. *)
Fixpoint cursorAt (k : nat) : Q :=
  match k with
  | O => left
  | S k' => nextCursor (cursorAt k')
  end.

(** Row [i] of the column at [curX] can take a unit. *)
Definition freeRow (curX : Q) (i : Z) : bool :=
  fitsY (yOf i) && negb (isObjectInAnyDoorArea (mkObject curX (yOf i)) doorAreas).

(** The rows among [i, i + n) that can take a unit. *)
Fixpoint freeRows (curX : Q) (n : nat) (i : Z) : nat :=
  match n with
  | O => O
  | S n' => ((if freeRow curX i then 1 else 0) + freeRows curX n' (i + 1)%Z)%nat
  end.

(** The units the column at [curX] can take: none when the column ends
    past the right side or overlaps a door. *)
Definition columnCapacity (curX : Q) : nat :=
  if Js.leb (curX + unitWidth) right
     && negb (columnOverlapsDoor unitWidth doorAreas curX)
  then freeRows curX rows 0
  else O.

(** The units the first [n] columns can take. *)
Fixpoint capacity (n : nat) : nat :=
  match n with
  | O => O
  | S n' => (capacity n' + columnCapacity (cursorAt n'))%nat
  end.
End GridOf.


End Grid.

(** ** Counting the units of one column of a result *)
Module Columns.
Import TableCalculator.

(** Number of returned units whose x-origin is [colX]. *)
Definition columnCount (colX : Q) (units : list Placed) : nat :=
  List.length (filter (fun u => Qeq_bool (p_x u) colX) units).

(** The box of a returned object as the door test reads it: centred at
    the object's stored [(x, y)]. *)
Definition boxAsStored (o : HallObject) : DoorAreaUtils.ObjectBox :=
  DoorAreaUtils.mkObjectBox (h_x o) (h_y o) (h_width o) (h_height o) (Some (h_rotation o)).

(** The box of a returned object when its stored [(x, y)] is taken as the
    top-left corner and converted to the centre [(x + w/2, y + h/2)]. *)
Definition boxFromCorner (o : HallObject) : DoorAreaUtils.ObjectBox :=
  DoorAreaUtils.mkObjectBox (h_x o + h_width o / 2) (h_y o + h_height o / 2)
                            (h_width o) (h_height o) (Some (h_rotation o)).

(** The column at [xo] overlaps no door, and [xo] is not strictly inside
    the horizontal extent of any door. *)
Definition originOutsideDoors (unitWidth : Q) (doorAreas : list DoorAreaUtils.DoorArea)
           (xo : Q) : Prop :=
  columnOverlapsDoor unitWidth doorAreas xo = false
  /\ forall door, In door doorAreas -> ~ (doorMinX door < xo /\ xo < doorMaxX door).

End Columns.

(** ** Comparing recorded solutions of the smart mix *)
Module Gaps.
Import TableCalculator.

(** The recorded gap is the distance of the recorded guest count from the
    target; the initial solution has no guests and an infinite gap. *)
Definition gapRecorded (target : Z) (s : Solution) : Prop :=
  match s_gap s with
  | None => s_actualGuests s = 0%Z
  | Some g => g = Z.abs (s_actualGuests s - target)
  end.

(** [new] has a strictly smaller gap than [old]. *)
Definition gapStrictlySmaller (new old : Solution) : Prop :=
  match s_gap new, s_gap old with
  | Some g', Some g => (g' < g)%Z
  | Some _, None => True
  | None, _ => False
  end.

End Gaps.

(** ** utils/tableCalculator.ts: clearing and counting the arrangement *)
Module TableArrangement.
Import VenueTypes TableCalculator.

Definition isTable (obj : HallObject) : bool :=
  match h_type obj with TypeTable => true | _ => false end.
Definition isChair (obj : HallObject) : bool :=
  match h_type obj with TypeChair => true | _ => false end.

(** [objects.filter(obj => obj.type !== 'table' && obj.type !== 'chair')]. *)
Definition clearTableArrangement (objects : list HallObject) : list HallObject :=
  filter (fun obj => negb (isTable obj) && negb (isChair obj)) objects.

Record Stats : Type := mkStats {
  stat_tables : Z;
  stat_chairs : Z;
  stat_singleChairs : Z;
  stat_totalGuests : Z
}.

(** [getTableArrangementStats]; the third argument, [guestCount], is not
    read by the source. *)
Definition getTableArrangementStats (objects : list HallObject)
           (tableConfig : option TableConfig) (guestCount : option Z) : Stats :=
  let tables := Z.of_nat (List.length (filter isTable objects)) in
  let singleChairs := Z.of_nat (List.length (filter isChair objects)) in
  let chairsPerTable' :=
    Js.orZ (match tableConfig with Some c => Some (chairsPerTable c) | None => None end) 8 in
  let chairsAtTables := (tables * chairsPerTable')%Z in
  let totalGuests' := (chairsAtTables + singleChairs)%Z in
  mkStats tables chairsAtTables singleChairs totalGuests'.

End TableArrangement.

(** ** Counting and numbering the units of a result *)
Module Counts.
Import VenueTypes TableCalculator.

(** The units carry the indices 0, 1, 2, ... in list order. *)
Definition numbered (units : list Placed) : Prop :=
  map p_index units = map Z.of_nat (seq 0 (List.length units)).

(** The seats of a result: every table seats [chairsPerTable], every
    single chair seats one. *)
Definition seatsOf (tableConfig : TableConfig) (tbls chrs : list Placed) : Z :=
  (Z.of_nat (List.length tbls) * chairsPerTable tableConfig
   + Z.of_nat (List.length chrs))%Z.

(** What holds of every recorded solution of the smart mix, for the target
    it was asked for. *)
Definition sound (target : Z) (tableConfig : TableConfig) (s : Solution) : Prop :=
  s_actualGuests s = seatsOf tableConfig (s_tables s) (s_chairs s)
  /\ numbered (s_tables s) /\ numbered (s_chairs s)
  /\ (singleChair tableConfig = None -> s_chairs s = [])
  /\ (s_chairs s <> [] -> (s_actualGuests s <= target)%Z).

End Counts.

(** ** doorAreaUtils.ts: moving an object out of a door area *)
Module DoorRelocation.
Import DoorAreaUtils.

(** The [objectSize] argument. *)
Record Size : Type := mkSize { size_width : Q; size_height : Q }.

(** [{ ...position, ...objectSize }]: the object has no [rotation]. *)
Definition boxAt (position : Point) (objectSize : Size) : ObjectBox :=
  mkObjectBox (x position) (y position) (size_width objectSize) (size_height objectSize) None.

(** An element of [distances]. *)
Record Candidate : Type := mkCandidate {
  cand_side : string;
  cand_x : Q;
  cand_y : Q;
  cand_dist : Q
}.

Definition candidates (position : Point) (doorBounds : Bounds) (objectSize : Size)
  : list Candidate :=
  [mkCandidate "left" (minX doorBounds - size_width objectSize / 2 - 10) (y position)
               (Qabs (x position - minX doorBounds));
   mkCandidate "right" (maxX doorBounds + size_width objectSize / 2 + 10) (y position)
               (Qabs (x position - maxX doorBounds));
   mkCandidate "top" (x position) (minY doorBounds - size_height objectSize / 2 - 10)
               (Qabs (y position - minY doorBounds));
   mkCandidate "bottom" (x position) (maxY doorBounds + size_height objectSize / 2 + 10)
               (Qabs (y position - maxY doorBounds))].

(** [distances.sort((a, b) => a.dist - b.dist)]: ascending, and stable
    (candidates at the same distance keep their order). *)
Fixpoint insertByDist (c : Candidate) (sorted : list Candidate) : list Candidate :=
  match sorted with
  | [] => [c]
  | d :: rest =>
      if Js.leb (cand_dist c) (cand_dist d) then c :: sorted
      else d :: insertByDist c rest
  end.

Definition sortByDist (l : list Candidate) : list Candidate := fold_right insertByDist [] l.

(** [for (const pos of distances)]: the first candidate that overlaps no
    door is returned. *)
Fixpoint firstValid (cands : list Candidate) (doorAreas : list DoorArea)
         (objectSize : Size) : option Point :=
  match cands with
  | [] => None
  | pos :: rest =>
      let newPos := mkPoint (cand_x pos) (cand_y pos) in
      if negb (isObjectInAnyDoorArea (boxAt newPos objectSize) doorAreas)
      then Some newPos
      else firstValid rest doorAreas objectSize
  end.

(** [None] is the [null] of the source. *)
Definition findNearestValidPosition (position : Point) (doorAreas : list DoorArea)
           (objectSize : Size) : option Point :=
  match doorAreas with
  | [] => Some position
  | _ :: _ =>
      if negb (isObjectInAnyDoorArea (boxAt position objectSize) doorAreas)
      then Some position
      else
        match getDoorAreasOverlappingObject (boxAt position objectSize) doorAreas with
        | [] => Some position
        | door :: _ =>
            firstValid (sortByDist (candidates position (getDoorAreaBounds door) objectSize))
                       doorAreas objectSize
        end
  end.

End DoorRelocation.

(** ** config/venues.ts: corner points, bounds and table counts *)
Module VenueBounds.
Import DoorAreaUtils VenueTypes.

Record VenueCornerPoints : Type := mkCorners {
  corner_topLeft : Point;
  corner_topRight : Point;
  corner_bottomRight : Point;
  corner_bottomLeft : Point
}.

Definition isPositionWithinBounds (x0 y0 width0 height0 : Q)
           (cornerPoints : VenueCornerPoints) : bool :=
  let stageLeft := x0 - width0 / 2 in
  let stageRight := x0 + width0 / 2 in
  let stageTop := y0 + height0 / 2 in
  let stageBottom := y0 - height0 / 2 in
  Js.leb (x (corner_topLeft cornerPoints)) stageLeft
  && Js.leb stageRight (x (corner_topRight cornerPoints))
  && Js.leb stageTop (y (corner_topLeft cornerPoints))
  && Js.leb (y (corner_bottomLeft cornerPoints)) stageBottom.

Definition constrainPositionToBounds (x0 y0 width0 height0 : Q)
           (cornerPoints : VenueCornerPoints) : Point :=
  let halfWidth := width0 / 2 in
  let halfHeight := height0 / 2 in
  let constrainedX :=
    Qmax (x (corner_topLeft cornerPoints) + halfWidth)
         (Qmin (x (corner_topRight cornerPoints) - halfWidth) x0) in
  let constrainedY :=
    Qmax (y (corner_bottomLeft cornerPoints) + halfHeight)
         (Qmin (y (corner_topLeft cornerPoints) - halfHeight) y0) in
  mkPoint constrainedX constrainedY.

(** [TableCalculationSettings] without [preferredTableSize];
    calculateTablesNeeded reads [minTables] only. *)
Record TableCalculationSettings : Type := mkSettings {
  guestsPerTable : Z;
  minTables : Z;
  maxTables : Z
}.

Definition defaultTableSettings : TableCalculationSettings := mkSettings 8 1 50.

Record TablesNeeded : Type := mkTablesNeeded {
  needed_tables : Z;
  needed_chairs : Z;
  needed_totalGuests : Z
}.

(** [Math.ceil(guestCount / guestsPerTable)] is read where
    [guestsPerTable] is not zero. *)
Definition calculateTablesNeeded (guestCount : Z) (tableConfig : TableConfig)
           (settings : TableCalculationSettings) : TablesNeeded :=
  let guestsPerTable' := chairsPerTable tableConfig in
  let tables := Qceiling (inject_Z guestCount / inject_Z guestsPerTable') in
  let chairs := (tables * guestsPerTable')%Z in
  mkTablesNeeded (Z.max (minTables settings) tables) chairs chairs.

End VenueBounds.

(** ** Where a unit lies in the area *)
Module Footprint.
Import DoorAreaUtils VenueTypes TableCalculator.

(** The rectangle from [(x, y)] to [(x + w, y + h)], the one the packer's
    own bounds tests read, does not pass the right or the top side of
    [bounds]. *)
Definition notPastFarSides (bounds : Bounds) (w h : Q) (u : Placed) : Prop :=
  p_x u + w <= maxX bounds /\ p_y u + h <= maxY bounds.

Definition nonNegative (v : option Q) : Prop :=
  match v with Some q => 0 <= q | None => True end.

Definition nonNegativeCount (v : option Z) : Prop :=
  match v with Some n => (0 <= n)%Z | None => True end.

Definition wholeOr (v : option Q) : bool :=
  match v with Some q => Js.whole q | None => true end.

Definition smallCount (v : option Z) : bool :=
  match v with Some n => (Z.abs n <=? 1000000)%Z | None => true end.

Definition wholePoint (p : Point) : bool := Js.whole (x p) && Js.whole (y p).

(** Every size, spacing and coordinate of the configuration is a whole
    number, and the seats per table and the group counts are at most a
    million. *)
Definition wholeSizes (tableConfig : TableConfig) : bool :=
  Js.whole (width tableConfig) && Js.whole (height tableConfig)
  && smallCount (Some (chairsPerTable tableConfig))
  && Js.whole (tableSpacing tableConfig) && Js.whole (columnSpacing tableConfig)
  && smallCount (rowsPerGroup tableConfig) && wholeOr (rowGroupSpacing tableConfig)
  && Js.whole (startX tableConfig) && Js.whole (startY tableConfig)
  && Js.whole (endX tableConfig) && Js.whole (endY tableConfig)
  && match namedPoints tableConfig with
     | Some pts =>
         wholePoint (area_topLeft pts) && wholePoint (area_topRight pts)
         && wholePoint (area_bottomRight pts) && wholePoint (area_bottomLeft pts)
     | None => true
     end
  && match singleChair tableConfig with
     | Some chair =>
         Js.whole (chair_width chair) && Js.whole (chair_height chair)
         && Js.whole (chair_spacing chair) && smallCount (chair_rowsPerGroup chair)
     | None => true
     end.

(** The corners of every door area are at whole numbers, and its
    clearance is a whole number. *)
Definition wholeDoors (doorAreas : list DoorArea) : bool :=
  forallb (fun door => wholePoint (topLeft door) && wholePoint (topRight door)
                       && wholePoint (bottomRight door) && wholePoint (bottomLeft door)
                       && wholeOr (clearance door))
          doorAreas.

(** The corners of the venue are at whole numbers. *)
Definition wholeCorners (corners : VenueBounds.VenueCornerPoints) : bool :=
  wholePoint (VenueBounds.corner_topLeft corners)
  && wholePoint (VenueBounds.corner_topRight corners)
  && wholePoint (VenueBounds.corner_bottomRight corners)
  && wholePoint (VenueBounds.corner_bottomLeft corners).

(** No size, spacing or group count of the configuration is negative. *)
Definition plainSizes (tableConfig : TableConfig) : Prop :=
  0 <= width tableConfig /\ 0 <= height tableConfig
  /\ 0 <= tableSpacing tableConfig /\ 0 <= columnSpacing tableConfig
  /\ nonNegativeCount (rowsPerGroup tableConfig)
  /\ nonNegative (rowGroupSpacing tableConfig)
  /\ match singleChair tableConfig with
     | Some chair =>
         0 <= chair_width chair /\ 0 <= chair_height chair /\ 0 <= chair_spacing chair
         /\ nonNegativeCount (chair_rowsPerGroup chair)
     | None => True
     end.

End Footprint.

(** ** Units that keep clear of each other *)
Module Apart.
Import TableCalculator.

(** The rectangle of [u], of size [w] by [h], ends where the rectangle of
    [v] begins, horizontally or vertically. *)
Definition before (w h : Q) (u v : Placed) : Prop :=
  p_x u + w <= p_x v \/ p_y u + h <= p_y v.

(** The same for two objects of an arrangement, each with its own size. *)
Definition objectBefore (a b : HallObject) : Prop :=
  h_x a + h_width a <= h_x b \/ h_y a + h_height a <= h_y b.

End Apart.

(** ** store/hallStore.ts: the actions on the arrangement

    The state keeps the fields these actions read or write; objects are
    [HallObject]s as above, without [id] (so the actions that look an
    object up by its id are not embedded). *)
Module HallStore.
Import DoorAreaUtils VenueTypes TableCalculator TableArrangement.

Record HallState : Type := mkHallState {
  objects : list HallObject;
  currentTableConfig : option TableConfig;
  selectedTableArea : option TableConfig;
  currentGuestCount : Z;
  manualTableCount : option Z;
  manualChairCount : option Z
}.

(** [setTableArrangement(guestCount, tableConfig, doorAreas)]; [None] when
    the fuel of the packer runs out. *)
Definition setTableArrangement (guestCount : Z) (tableConfig : TableConfig)
           (doorAreas : list DoorArea) (fuel : nat) (st : HallState) : option HallState :=
  let objectsWithoutTables := clearTableArrangement (objects st) in
  match calculateTableArrangement guestCount tableConfig doorAreas fuel with
  | Some (resultObjects, _) =>
      Some (mkHallState (objectsWithoutTables ++ resultObjects)
                        (Some tableConfig) (selectedTableArea st) guestCount
                        (manualTableCount st) (manualChairCount st))
  | None => None
  end.

(** The store's [clearTableArrangement()]. *)
Definition clearArrangement (st : HallState) : HallState :=
  mkHallState (clearTableArrangement (objects st)) None (selectedTableArea st)
              (currentGuestCount st) (manualTableCount st) (manualChairCount st).

Definition getTableStats (guestCount : option Z) (st : HallState) : Stats :=
  getTableArrangementStats (objects st) (currentTableConfig st) guestCount.

(** [{ ...selectedTableArea, seatingMode: mode }]. *)
Definition withSeatingMode (tableConfig : TableConfig) (mode : SeatingMode) : TableConfig :=
  mkTableConfig (width tableConfig) (height tableConfig) (chairsPerTable tableConfig)
                (tableSpacing tableConfig) (columnSpacing tableConfig)
                (rowsPerGroup tableConfig) (rowGroupSpacing tableConfig)
                (startX tableConfig) (startY tableConfig) (endX tableConfig)
                (endY tableConfig) (namedPoints tableConfig) (singleChair tableConfig)
                (Some mode).

(** [setSeatingMode(mode)]: the manual counts are reset; with an area
    selected and guests present the arrangement is computed again, with no
    door area handed to the calculator. *)
Definition setSeatingMode (mode : SeatingMode) (fuel : nat) (st : HallState)
  : option HallState :=
  match selectedTableArea st with
  | Some area =>
      let updatedTableArea := withSeatingMode area mode in
      if (0 <? currentGuestCount st)%Z then
        let objectsWithoutTables := clearTableArrangement (objects st) in
        match calculateTableArrangement (currentGuestCount st) updatedTableArea [] fuel with
        | Some (resultObjects, _) =>
            Some (mkHallState (objectsWithoutTables ++ resultObjects)
                              (Some updatedTableArea) (Some updatedTableArea)
                              (currentGuestCount st) None None)
        | None => None
        end
      else
        Some (mkHallState (objects st) (currentTableConfig st) (Some updatedTableArea)
                          (currentGuestCount st) None None)
  | None =>
      Some (mkHallState (objects st) (currentTableConfig st) None
                        (currentGuestCount st) None None)
  end.

(** [setManualTableCount(count)], [count] a number or [null]. *)
Definition setManualTableCount (count : option Z) (st : HallState) : HallState :=
  match selectedTableArea st with
  | None => st
  | Some area =>
      if (currentGuestCount st <=? 0)%Z then st
      else
        match count, singleChair area with
        | Some c, Some _ =>
            let tableSeats := (c * chairsPerTable area)%Z in
            let chairsNeeded := Z.max 0 (currentGuestCount st - tableSeats) in
            mkHallState (objects st) (currentTableConfig st) (selectedTableArea st)
                        (currentGuestCount st) count (Some chairsNeeded)
        | _, _ =>
            mkHallState (objects st) (currentTableConfig st) (selectedTableArea st)
                        (currentGuestCount st) count (manualChairCount st)
        end
  end.

(** [setManualChairCount(count)]; the quotient is read where
    [chairsPerTable] is not zero. *)
Definition setManualChairCount (count : option Z) (st : HallState) : HallState :=
  match selectedTableArea st with
  | None => st
  | Some area =>
      if (currentGuestCount st <=? 0)%Z then st
      else
        match count with
        | Some c =>
            let chairSeats := c in
            let tablesNeeded :=
              Qceiling (inject_Z (Z.max 0 (currentGuestCount st - chairSeats))
                        / inject_Z (chairsPerTable area)) in
            mkHallState (objects st) (currentTableConfig st) (selectedTableArea st)
                        (currentGuestCount st) (Some tablesNeeded) count
        | None =>
            mkHallState (objects st) (currentTableConfig st) (selectedTableArea st)
                        (currentGuestCount st) (manualTableCount st) None
        end
  end.

End HallStore.

(** ** The shape of what the renderer collects *)
Module RendererShape.
Import Dxf AdvancedDxfRenderer.
Local Open Scope R_scope.

(** The coordinate list of a sequence of segments, each with its two end
    points [(x1, y1)] and [(x2, y2)] in the plane [z = 0]. *)
Definition flatSegments (segs : list (R * R * R * R)) : list R :=
  flat_map (fun s => let '(x1, y1, x2, y2) := s in [x1; y1; 0; x2; y2; 0]) segs.

(** Every colour is listed once, with the coordinates of whole segments. *)
Definition wholeSegments (p : Processor) : Prop :=
  Forall (fun batch => exists segs, snd batch = flatSegments segs) (lineBatches p)
  /\ NoDup (map fst (lineBatches p)).

(** [pt] lies in the box. *)
Definition inBox (b : Box) (pt : Point) : Prop :=
  minX b <= x pt <= maxX b /\ minY b <= y pt <= maxY b.

End RendererShape.

(** ** The shape of a flattened drawing *)
Module Flattened.
Import Dxf SimpleDxfExtractor.

(** The entity types the extractor emits. *)
Definition emittedTypes : list string :=
  ["LINE"; "POLYLINE"; "LWPOLYLINE"; "CIRCLE"; "ARC"; "SPLINE"]%string.

(** An emitted entity is a polyline of at least two vertices under one of
    the emitted types. *)
Definition wellFormed (e : SimpleDxfEntity) : Prop :=
  (2 <= List.length (s_vertices e))%nat /\ In (s_type e) emittedTypes.

End Flattened.

(** ** Placing the table area after the stage *)
Module StagePipeline.
Import DoorAreaUtils VenueTypes.

(** [updateTableAreaPoints] of config/venues.ts:
    [{ ...tableConfig, namedPoints: newPoints }]. *)
Definition updateTableAreaPoints (tableConfig : TableConfig) (newPoints : TableAreaPoints)
  : TableConfig :=
  mkTableConfig (width tableConfig) (height tableConfig) (chairsPerTable tableConfig)
                (tableSpacing tableConfig) (columnSpacing tableConfig)
                (rowsPerGroup tableConfig) (rowGroupSpacing tableConfig)
                (startX tableConfig) (startY tableConfig) (endX tableConfig)
                (endY tableConfig) (Some newPoints) (singleChair tableConfig)
                (seatingMode tableConfig).

End StagePipeline.

(** ** The stage footprint and the clearance, case by case *)
Module StageArea.
Import DoorAreaUtils VenueTypes StageTablePoints.

(** An optional number that JavaScript reads as false: absent or zero. *)
Definition missing (v : option Q) : Prop :=
  v = None \/ exists q, v = Some q /\ q == 0.

(** [v || d]: the number when it is given and not zero, else [d]. *)
Definition givenOr (v : option Q) (d r : Q) : Prop :=
  (missing v /\ r = d) \/ (exists q, v = Some q /\ ~ q == 0 /\ r = q).

(** The width and height of the stage footprint: the configured ones when
    both are given and not zero; else the natural size of the stage drawing;
    else, without a drawing, 1140 and 200 in place of what is missing. *)
Inductive footprint (stage : StageConfig) : option NaturalSize -> Q -> Q -> Prop :=
| footprint_configured (dxf : option NaturalSize) (w h : Q) :
    stage_width stage = Some w -> stage_height stage = Some h ->
    ~ w == 0 -> ~ h == 0 ->
    footprint stage dxf w h
| footprint_drawn (size : NaturalSize) :
    missing (stage_width stage) \/ missing (stage_height stage) ->
    footprint stage (Some size) (natural_width size) (natural_height size)
| footprint_default (w h : Q) :
    missing (stage_width stage) \/ missing (stage_height stage) ->
    givenOr (stage_width stage) 1140 w -> givenOr (stage_height stage) 200 h ->
    footprint stage None w h.

(** The half of the footprint that reaches to the right of the stage's
    position: half the height for a rotation of 90, half the width for any
    other rotation or none. *)
Definition reach (stage : StageConfig) (w h : Q) : Q :=
  match stage_rotation stage with
  | Some angle => if Qeq_bool angle 90 then h / 2 else w / 2
  | None => w / 2
  end.

Definition knownUnits : list string :=
  ["meters"; "millimeters"; "centimeters"; "kilometers"; "inches"; "feet"]%string.

(** The clearance of [feet] feet in the units of the drawing: nothing
    without units; 12 inches to the foot; 0.3048 metres to the foot, scaled
    to the metric unit, and taken as metres for a unit that is not known. *)
Inductive clearance (feet : Q) : option string -> Q -> Prop :=
| clearance_without_units : clearance feet None 0
| clearance_empty_units : clearance feet (Some ""%string) 0
| clearance_inches : clearance feet (Some "inches"%string) (feet * 12)
| clearance_feet : clearance feet (Some "feet"%string) feet
| clearance_meters : clearance feet (Some "meters"%string) (feet * (3048 # 10000))
| clearance_millimeters :
    clearance feet (Some "millimeters"%string) (feet * (3048 # 10000) * 1000)
| clearance_centimeters :
    clearance feet (Some "centimeters"%string) (feet * (3048 # 10000) * 100)
| clearance_kilometers :
    clearance feet (Some "kilometers"%string) (feet * (3048 # 10000) / 1000)
| clearance_other (units : string) :
    units <> ""%string -> ~ In units knownUnits ->
    clearance feet (Some units) (feet * (3048 # 10000)).

End StageArea.

(* ================================================================== *)
(** * Part II: properties *)
(* ================================================================== *)

(** ** Loops *)
Section LoopRules.
Context {S : Type}.
Variable cond : S -> bool.
Variable body : S -> S.

Lemma while_invariant (P : S -> Prop) :
  (forall s, P s -> cond s = true -> P (body s)) ->
  forall fuel s s', P s -> Js.while cond body fuel s = Some s' ->
                    P s' /\ cond s' = false.
Proof.
  intros Hstep fuel; induction fuel as [|f IH]; intros s s' Hs Hrun; simpl in Hrun.
  - destruct (cond s) eqn:Hc; [discriminate|].
    injection Hrun as <-; auto.
  - destruct (cond s) eqn:Hc.
    + apply (IH (body s)); auto.
    + injection Hrun as <-; auto.
Qed.

Lemma while_more_fuel :
  forall fuel fuel' s s', (fuel <= fuel')%nat ->
    Js.while cond body fuel s = Some s' -> Js.while cond body fuel' s = Some s'.
Proof.
  induction fuel as [|f IH]; intros fuel' s s' Hle Hrun; simpl in Hrun.
  - destruct (cond s) eqn:Hc; [discriminate|].
    destruct fuel'; simpl; rewrite Hc; assumption.
  - destruct fuel' as [|f']; [lia|].
    simpl. destruct (cond s) eqn:Hc; [|assumption].
    apply IH; [lia|assumption].
Qed.

Lemma while_terminates (P : S -> Prop) (mu : S -> nat) :
  (forall s, P s -> cond s = true -> P (body s) /\ (mu (body s) < mu s)%nat) ->
  forall fuel s, P s -> (mu s <= fuel)%nat -> exists s', Js.while cond body fuel s = Some s'.
Proof.
  intros Hstep fuel; induction fuel as [|f IH]; intros s Hs Hmu; simpl.
  - destruct (cond s) eqn:Hc; [|eauto].
    destruct (Hstep s Hs Hc) as [_ Hlt]; lia.
  - destruct (cond s) eqn:Hc; [|eauto].
    destruct (Hstep s Hs Hc) as [Hb Hlt].
    apply IH; [assumption|lia].
Qed.
End LoopRules.

Lemma forUpTo_invariant {S : Type} (cond : S -> bool) (body : Z -> S -> S) (P : S -> Prop) :
  (forall i s, P s -> cond s = true -> P (body i s)) ->
  forall n i s, P s -> P (Js.forUpTo cond body n i s).
Proof.
  intros Hstep n; induction n as [|n IH]; intros i s Hs; simpl; [assumption|].
  destruct (cond s) eqn:Hc; [|assumption].
  apply IH, Hstep; assumption.
Qed.

(** ** Comparisons and quotients on the rationals *)
Lemma ltb_true_iff (a b : Q) : Js.ltb a b = true <-> a < b.
Proof.
  unfold Js.ltb. rewrite negb_true_iff. split; intro H.
  - apply Qnot_le_lt. intro Hle. apply Qle_bool_iff in Hle. congruence.
  - destruct (Qle_bool b a) eqn:E; [|reflexivity].
    apply Qle_bool_iff in E. exfalso. apply (Qlt_not_le _ _ H E).
Qed.

Lemma ltb_false_iff (a b : Q) : Js.ltb a b = false <-> b <= a.
Proof.
  unfold Js.ltb. rewrite negb_false_iff. apply Qle_bool_iff.
Qed.

Lemma leb_true_iff (a b : Q) : Js.leb a b = true <-> a <= b.
Proof. apply Qle_bool_iff. Qed.

Lemma leb_false_iff (a b : Q) : Js.leb a b = false <-> b < a.
Proof.
  unfold Js.leb. split; intro H.
  - apply Qnot_le_lt. intro Hle. apply Qle_bool_iff in Hle. congruence.
  - destruct (Qle_bool a b) eqn:E; [|reflexivity].
    apply Qle_bool_iff in E. exfalso. apply (Qlt_not_le _ _ H E).
Qed.

Lemma Qdiv_le_mono (a b c : Q) : 0 < c -> a <= b -> a / c <= b / c.
Proof.
  intros Hc Hab. unfold Qdiv. apply Qmult_le_compat_r; [assumption|].
  apply Qlt_le_weak, Qinv_lt_0_compat, Hc.
Qed.

Lemma Qdiv_nonneg (a c : Q) : 0 < c -> 0 <= a -> 0 <= a / c.
Proof.
  intros Hc Ha. unfold Qdiv. apply Qmult_le_0_compat; [assumption|].
  apply Qlt_le_weak, Qinv_lt_0_compat, Hc.
Qed.

Lemma Qfloor_nonneg (q : Q) : 0 <= q -> (0 <= Qfloor q)%Z.
Proof.
  intro H. change 0%Z with (Qfloor 0). apply Qfloor_resp_le, H.
Qed.

(** [lra] reads [inject_Z] of a literal only; other injections are atoms. *)
Ltac hide_injZ :=
  repeat match goal with
         | |- context [inject_Z ?z] =>
             let v := fresh "iz" in set (v := inject_Z z) in *; clearbody v
         | H : context [inject_Z ?z] |- _ =>
             let v := fresh "iz" in set (v := inject_Z z) in *; clearbody v
         end.

Lemma Qfloor_step_down (q : Q) : Qfloor (q - 1) = (Qfloor q - 1)%Z.
Proof.
  pose proof (Qfloor_le q) as Hlo. pose proof (Qlt_floor q) as Hhi.
  pose proof (Qfloor_le (q - 1)) as Hlo'. pose proof (Qlt_floor (q - 1)) as Hhi'.
  rewrite inject_Z_plus in Hhi, Hhi'. change (inject_Z 1) with 1 in Hhi, Hhi'.
  assert (H3 : inject_Z (Qfloor q - 1) < inject_Z (Qfloor (q - 1) + 1)).
  { unfold Zminus. rewrite !inject_Z_plus, inject_Z_opp. change (inject_Z 1) with 1.
    hide_injZ. lra. }
  assert (H1 : inject_Z (Qfloor (q - 1)) < inject_Z (Qfloor q)) by (hide_injZ; lra).
  rewrite <- Zlt_Qlt in H1, H3. lia.
Qed.

(** ** The fuel measure of the column loops *)
Section ColumnFuel.
Import DoorAreaUtils TableCalculator.
Variables rightEdge unitWidth step : Q.
Hypothesis step_pos : 0 < step.

Lemma doorsAhead_mono (doorAreas : list DoorArea) (a b : Q) :
  a <= b -> (doorsAhead doorAreas b <= doorsAhead doorAreas a)%nat.
Proof.
  intro Hab. unfold doorsAhead. induction doorAreas as [|d ds IH]; simpl; [lia|].
  destruct (Js.ltb b (doorMaxX d)) eqn:Eb.
  - apply ltb_true_iff in Eb.
    assert (Ea : Js.ltb a (doorMaxX d) = true) by (apply ltb_true_iff; lra).
    rewrite Ea. simpl. lia.
  - destruct (Js.ltb a (doorMaxX d)); simpl; lia.
Qed.

Lemma columnsAhead_mono (a b : Q) :
  a <= b ->
  (columnsAhead rightEdge unitWidth step b <= columnsAhead rightEdge unitWidth step a)%nat.
Proof.
  intro Hab. unfold columnsAhead.
  destruct (Js.leb (b + unitWidth) rightEdge) eqn:Eb; [|lia].
  apply leb_true_iff in Eb.
  assert (Ea : Js.leb (a + unitWidth) rightEdge = true) by (apply leb_true_iff; lra).
  rewrite Ea.
  assert (Hq : (rightEdge - unitWidth - b) / step <= (rightEdge - unitWidth - a) / step)
    by (apply Qdiv_le_mono; [assumption|lra]).
  apply Qfloor_resp_le in Hq. lia.
Qed.

Lemma columnsAhead_step (a : Q) :
  a + unitWidth <= rightEdge ->
  (columnsAhead rightEdge unitWidth step (a + step)
   < columnsAhead rightEdge unitWidth step a)%nat.
Proof.
  intro Ha. unfold columnsAhead.
  assert (Ea : Js.leb (a + unitWidth) rightEdge = true) by (apply leb_true_iff; assumption).
  rewrite Ea.
  assert (H0 : (0 <= Qfloor ((rightEdge - unitWidth - a) / step))%Z).
  { apply Qfloor_nonneg, Qdiv_nonneg; [assumption|lra]. }
  destruct (Js.leb (a + step + unitWidth) rightEdge) eqn:Eb; [|lia].
  assert (Hq : (rightEdge - unitWidth - (a + step)) / step
               == (rightEdge - unitWidth - a) / step - 1).
  { field. intro Hz. rewrite Hz in step_pos. apply (Qlt_irrefl 0), step_pos. }
  rewrite (Qfloor_comp _ _ Hq), Qfloor_step_down.
  apply leb_true_iff in Eb.
  assert (H1 : (0 <= Qfloor ((rightEdge - unitWidth - a) / step - 1))%Z).
  { apply Qfloor_nonneg. rewrite <- Hq. apply Qdiv_nonneg; [assumption|lra]. }
  rewrite Qfloor_step_down in H1. lia.
Qed.

(** The cursor after a skip is at or past the right edge of every door
    that overlapped the column. *)
Lemma maxDoorEndX_ge_start (ds : list DoorArea) (curX acc : Q) :
  acc <= fold_left
           (fun a door => if columnHitsDoor unitWidth curX door
                          then Qmax a (doorMaxX door) else a) ds acc.
Proof.
  revert acc. induction ds as [|d ds IH]; intro acc; simpl; [lra|].
  destruct (columnHitsDoor unitWidth curX d).
  - eapply Qle_trans; [|apply IH]. apply Q.le_max_l.
  - apply IH.
Qed.

Lemma maxDoorEndX_ge_door (ds : list DoorArea) (curX acc : Q) (d : DoorArea) :
  In d ds -> columnHitsDoor unitWidth curX d = true ->
  doorMaxX d <= fold_left
                  (fun a door => if columnHitsDoor unitWidth curX door
                                 then Qmax a (doorMaxX door) else a) ds acc.
Proof.
  revert acc. induction ds as [|d' ds IH]; intros acc Hin Hhit; simpl; [contradiction|].
  destruct Hin as [->|Hin].
  - rewrite Hhit. eapply Qle_trans; [|apply maxDoorEndX_ge_start]. apply Q.le_max_r.
  - apply IH; assumption.
Qed.

Lemma doorsAhead_pass (doorAreas : list DoorArea) (curX target : Q) (d : DoorArea) :
  In d doorAreas -> curX <= target -> curX < doorMaxX d -> doorMaxX d <= target ->
  (doorsAhead doorAreas target < doorsAhead doorAreas curX)%nat.
Proof.
  intros Hin Hcur Hbefore Hpast.
  induction doorAreas as [|d' ds IH]; [contradiction|].
  pose proof (doorsAhead_mono ds curX target Hcur) as Hm.
  unfold doorsAhead in *. simpl.
  destruct Hin as [->|Hin].
  - assert (E1 : Js.ltb target (doorMaxX d) = false) by (apply ltb_false_iff; assumption).
    assert (E2 : Js.ltb curX (doorMaxX d) = true) by (apply ltb_true_iff; assumption).
    rewrite E1, E2. simpl. lia.
  - specialize (IH Hin).
    destruct (Js.ltb target (doorMaxX d')) eqn:Et.
    + apply ltb_true_iff in Et.
      assert (Ec : Js.ltb curX (doorMaxX d') = true) by (apply ltb_true_iff; lra).
      rewrite Ec. simpl. lia.
    + destruct (Js.ltb curX (doorMaxX d')); simpl; lia.
Qed.

Lemma columnFuel_skip (doorAreas : list DoorArea) (curX spacing : Q) :
  0 <= spacing ->
  columnOverlapsDoor unitWidth doorAreas curX = true ->
  (columnFuel doorAreas rightEdge unitWidth step
              (maxDoorEndX unitWidth doorAreas curX + spacing)
   < columnFuel doorAreas rightEdge unitWidth step curX)%nat.
Proof.
  intros Hsp Hov. unfold columnFuel.
  pose proof (maxDoorEndX_ge_start doorAreas curX curX) as Hs.
  fold (maxDoorEndX unitWidth doorAreas curX) in Hs.
  unfold columnOverlapsDoor in Hov. apply existsb_exists in Hov.
  destruct Hov as [d [Hin Hhit]].
  pose proof (maxDoorEndX_ge_door doorAreas curX curX d Hin Hhit) as Hd.
  fold (maxDoorEndX unitWidth doorAreas curX) in Hd.
  assert (Hbefore : curX < doorMaxX d).
  { unfold columnHitsDoor in Hhit. apply andb_true_iff in Hhit.
    apply ltb_true_iff, Hhit. }
  assert (Hge : curX <= maxDoorEndX unitWidth doorAreas curX + spacing) by lra.
  assert (Hpast : doorMaxX d <= maxDoorEndX unitWidth doorAreas curX + spacing) by lra.
  pose proof (doorsAhead_pass doorAreas curX _ d Hin Hge Hbefore Hpast) as H1.
  pose proof (columnsAhead_mono _ _ Hge) as H2. lia.
Qed.

Lemma columnFuel_advance (doorAreas : list DoorArea) (curX : Q) :
  curX + unitWidth <= rightEdge ->
  (columnFuel doorAreas rightEdge unitWidth step (curX + step)
   < columnFuel doorAreas rightEdge unitWidth step curX)%nat.
Proof.
  intro Hfit. unfold columnFuel.
  pose proof (columnsAhead_step curX Hfit) as H1.
  assert (Hge : curX <= curX + step) by lra.
  pose proof (doorsAhead_mono doorAreas _ _ Hge) as H2. lia.
Qed.
End ColumnFuel.

(** ** placeTablesOnly *)
Section TablesOnly.
Import DoorAreaUtils VenueTypes TableCalculator.
Variable targetGuestCount : Z.
Variable tableConfig : TableConfig.
Variable doorAreas : list DoorArea.

Let seated (st : ColState) : Prop :=
  currentGuests st = (Z.of_nat (List.length (placed st)) * chairsPerTable tableConfig)%Z.


Lemma tablesOnly_row_cursor (row : Z) (st : ColState) :
  currentX (tablesOnly_row tableConfig doorAreas row st) = currentX st.
Proof.
  unfold tablesOnly_row.
  destruct (Js.leb _ _); [|reflexivity].
  destruct (negb _); reflexivity.
Qed.

Lemma tablesOnly_rows_cursor (n : nat) (i : Z) (st : ColState) :
  currentX (Js.forUpTo (fun s => (currentGuests s <? targetGuestCount)%Z)
                       (tablesOnly_row tableConfig doorAreas) n i st) = currentX st.
Proof.
  apply (forUpTo_invariant _ _ (fun s => currentX s = currentX st)); [|reflexivity].
  intros j s Hs _. rewrite tablesOnly_row_cursor. assumption.
Qed.



Let inv (st : ColState) : Prop :=
  seated st
  /\ (currentGuests st < targetGuestCount + chairsPerTable tableConfig)%Z.



Lemma tablesOnly_body_fuel (st : ColState) :
  0 <= tableSpacing tableConfig ->
  0 < width tableConfig + columnSpacing tableConfig ->
  tablesOnly_cond targetGuestCount tableConfig st = true ->
  (columnFuel doorAreas (maxX (areaBounds tableConfig)) (width tableConfig)
              (width tableConfig + columnSpacing tableConfig)
              (currentX (tablesOnly_body targetGuestCount tableConfig doorAreas st))
   < columnFuel doorAreas (maxX (areaBounds tableConfig)) (width tableConfig)
                (width tableConfig + columnSpacing tableConfig) (currentX st))%nat.
Proof.
  intros Hsp Hstep Hcond. unfold tablesOnly_cond in Hcond.
  apply andb_true_iff in Hcond. destruct Hcond as [_ Hfit].
  apply leb_true_iff in Hfit. unfold tablesOnly_body.
  destruct (columnOverlapsDoor _ _ _) eqn:Hov; simpl.
  - apply columnFuel_skip; assumption.
  - rewrite tablesOnly_rows_cursor. apply columnFuel_advance; assumption.
Qed.

Lemma tablesOnly_loop_total (fuel : nat) :
  0 <= tableSpacing tableConfig ->
  0 < width tableConfig + columnSpacing tableConfig ->
  (tablesOnly_fuel tableConfig doorAreas <= fuel)%nat ->
  exists st, tablesOnly_loop targetGuestCount tableConfig doorAreas fuel = Some st.
Proof.
  intros Hsp Hstep Hfuel. unfold tablesOnly_loop.
  apply (while_terminates _ _ (fun _ => True)
           (fun s => columnFuel doorAreas (maxX (areaBounds tableConfig)) (width tableConfig)
                                (width tableConfig + columnSpacing tableConfig)
                                (currentX s))).
  - intros s _ Hc. split; [exact I|]. apply tablesOnly_body_fuel; assumption.
  - exact I.
  - exact Hfuel.
Qed.

End TablesOnly.

(** *** A larger request is a continuation of a smaller one *)
Section TablesOnlyTargets.
Import DoorAreaUtils VenueTypes TableCalculator.
Variable tableConfig : TableConfig.
Variable doorAreas : list DoorArea.
Variables g g' : Z.
Hypothesis g_le : (g <= g')%Z.


End TablesOnlyTargets.

(** ** The column loops place units only in door-free columns and only
       where the per-unit door test passes *)
Section SchemaProps.
Import DoorAreaUtils VenueTypes TableCalculator ColumnSchema.
Variable doorAreas : list DoorArea.
Variables unitWidth skipSpacing step : Q.
Variable mkObject : Q -> Q -> ObjectBox.
Variable guestsPerUnit : Z.
Variable yOf : Z -> Q.
Variable fits : ColState -> Q -> bool.
Variable rowCond : ColState -> bool.
Variable rows : nat.
Variable bump : ColState -> ColState.
Hypothesis bump_placed : forall st, placed (bump st) = placed st.

Let row := schemaRow doorAreas mkObject guestsPerUnit yOf fits.
Let body := schemaBody doorAreas unitWidth skipSpacing step mkObject guestsPerUnit
                       yOf fits rowCond rows bump.
Let clear := unitClear doorAreas unitWidth mkObject.

Lemma schemaRow_cursor (i : Z) (st : ColState) : currentX (row i st) = currentX st.
Proof.
  unfold row, schemaRow. destruct (fits _ _); [|reflexivity].
  destruct (negb _); reflexivity.
Qed.

Lemma schemaRow_clear (i : Z) (st : ColState) :
  columnOverlapsDoor unitWidth doorAreas (currentX st) = false ->
  Forall clear (placed st) -> Forall clear (placed (row i st)).
Proof.
  intros Hcol Hall. unfold row, schemaRow.
  destruct (fits _ _); [|assumption].
  destruct (isObjectInAnyDoorArea _ _) eqn:Hdoor; simpl; [assumption|].
  apply Forall_app. split; [assumption|].
  constructor; [|constructor]. split; assumption.
Qed.

Lemma schemaRows_clear (n : nat) (i : Z) (st : ColState) :
  columnOverlapsDoor unitWidth doorAreas (currentX st) = false ->
  Forall clear (placed st) ->
  let st' := Js.forUpTo rowCond row n i st in
  currentX st' = currentX st /\ Forall clear (placed st').
Proof.
  intros Hcol Hall.
  apply (forUpTo_invariant rowCond row
           (fun s => currentX s = currentX st /\ Forall clear (placed s))).
  - intros j s [Hx Hs] _. split.
    + rewrite schemaRow_cursor. assumption.
    + apply schemaRow_clear; [rewrite Hx|]; assumption.
  - split; [reflexivity|assumption].
Qed.

Lemma schemaBody_clear (st : ColState) :
  Forall clear (placed st) -> Forall clear (placed (body st)).
Proof.
  intro Hall. unfold body, schemaBody.
  destruct (columnOverlapsDoor _ _ _) eqn:Hcol; simpl; [assumption|].
  rewrite bump_placed.
  apply (schemaRows_clear rows 0%Z st Hcol Hall).
Qed.

Lemma schemaBody_skip (st : ColState) :
  columnOverlapsDoor unitWidth doorAreas (currentX st) = true ->
  body st = setX (maxDoorEndX unitWidth doorAreas (currentX st) + skipSpacing) st.
Proof. intro Hcol. unfold body, schemaBody. rewrite Hcol. reflexivity. Qed.

Lemma schemaLoop_clear (cond : ColState -> bool) (fuel : nat) (start : Q) (st : ColState) :
  Js.while cond body fuel (initState start) = Some st -> Forall clear (placed st).
Proof.
  intro Hrun.
  apply (while_invariant cond body (fun s => Forall clear (placed s))) in Hrun.
  - apply Hrun.
  - intros s Hs _. apply schemaBody_clear, Hs.
  - constructor.
Qed.

Lemma schemaRows_cursor (n : nat) (i : Z) (st : ColState) :
  currentX (Js.forUpTo rowCond row n i st) = currentX st.
Proof.
  apply (forUpTo_invariant rowCond row (fun s => currentX s = currentX st)); [|reflexivity].
  intros j s Hs _. rewrite schemaRow_cursor. assumption.
Qed.

Lemma schemaBody_cursor_advance (st : ColState) :
  columnOverlapsDoor unitWidth doorAreas (currentX st) = false ->
  currentX (body st) = currentX st + step.
Proof.
  intro Hcol. unfold body, schemaBody. rewrite Hcol.
  cbv zeta. unfold setX. cbn [currentX].
  fold row. rewrite schemaRows_cursor. reflexivity.
Qed.

(** Each iteration that still finds room at the cursor uses up fuel. *)
Lemma schemaBody_fuel (rightEdge : Q) (st : ColState) :
  0 <= skipSpacing -> 0 < step ->
  currentX st + unitWidth <= rightEdge ->
  (columnFuel doorAreas rightEdge unitWidth step (currentX (body st))
   < columnFuel doorAreas rightEdge unitWidth step (currentX st))%nat.
Proof.
  intros Hsp Hstep Hfit.
  destruct (columnOverlapsDoor unitWidth doorAreas (currentX st)) eqn:Hcol.
  - rewrite schemaBody_skip by assumption. cbn [setX currentX].
    apply columnFuel_skip; assumption.
  - rewrite schemaBody_cursor_advance by assumption.
    apply columnFuel_advance; assumption.
Qed.

Lemma schemaLoop_total (cond : ColState -> bool) (rightEdge : Q) (fuel : nat) (s0 : ColState) :
  0 <= skipSpacing -> 0 < step ->
  (forall s, cond s = true -> currentX s + unitWidth <= rightEdge) ->
  (columnFuel doorAreas rightEdge unitWidth step (currentX s0) <= fuel)%nat ->
  exists st, Js.while cond body fuel s0 = Some st.
Proof.
  intros Hsp Hstep Hcond Hfuel.
  apply (while_terminates cond body (fun _ => True)
           (fun s => columnFuel doorAreas rightEdge unitWidth step (currentX s))).
  - intros s _ Hc. split; [exact I|]. apply schemaBody_fuel; auto.
  - exact I.
  - exact Hfuel.
Qed.
End SchemaProps.

(** The four loops are instances of the shape. *)
Section SchemaInstances.
Import DoorAreaUtils VenueTypes TableCalculator ColumnSchema.
Variable tableConfig : TableConfig.
Variable doorAreas : list DoorArea.

Lemma tablesOnly_body_schema (target : Z) :
  tablesOnly_body target tableConfig doorAreas
  = schemaBody doorAreas (width tableConfig) (tableSpacing tableConfig)
               (width tableConfig + columnSpacing tableConfig)
               (tableObject tableConfig) (chairsPerTable tableConfig)
               (rowY (areaBounds tableConfig)
                     (height tableConfig + tableSpacing tableConfig)
                     (Js.orZ (rowsPerGroup tableConfig) 999)
                     (Js.orQ (rowGroupSpacing tableConfig) 0))
               (fun _ y => Js.leb (y + height tableConfig)
                                  (maxY (areaBounds tableConfig)))
               (fun s => (currentGuests s <? target)%Z)
               (Z.to_nat (tablesOnly_maxTablesPerColumn tableConfig))
               (fun s => s).
Proof. reflexivity. Qed.

Lemma chairsOnly_body_schema (target : Z) (chair : SingleChairConfig) :
  chairsOnly_body target tableConfig doorAreas chair
  = schemaBody doorAreas (chair_width chair) (chair_spacing chair)
               (chair_width chair + chair_spacing chair)
               (chairObject chair) 1
               (rowY (areaBounds tableConfig)
                     (chair_height chair + chair_spacing chair)
                     (Js.orZ (chair_rowsPerGroup chair) 999)
                     (Js.orQ (rowGroupSpacing tableConfig) 0))
               (fun _ y => Js.leb (y + chair_height chair)
                                  (maxY (areaBounds tableConfig)))
               (fun s => (currentGuests s <? target)%Z)
               (Z.to_nat (maxChairsPerColumn
                            (maxY (areaBounds tableConfig) - minY (areaBounds tableConfig))
                            tableConfig chair))
               (fun s => s).
Proof. reflexivity. Qed.

Lemma tablesInColumns_body_schema (bounds : Bounds) (maxRows rpg : Z) (rgs : Q) :
  tablesInColumns_body tableConfig doorAreas bounds maxRows rpg rgs
  = schemaBody doorAreas (width tableConfig) (tableSpacing tableConfig)
               (width tableConfig + columnSpacing tableConfig)
               (tableObject tableConfig) 0
               (rowY bounds (height tableConfig + tableSpacing tableConfig) rpg rgs)
               (fun s y => Js.leb (currentX s + width tableConfig) (maxX bounds)
                           && Js.leb (y + height tableConfig) (maxY bounds))
               (fun _ => true)
               (Z.to_nat maxRows)
               nextColumn.
Proof. reflexivity. Qed.

Lemma chairsInColumns_body_schema (maxGuests : Z) (bounds : Bounds) (maxRows : Z)
      (chair : SingleChairConfig) :
  chairsInColumns_body maxGuests tableConfig doorAreas bounds maxRows chair
  = schemaBody doorAreas (chair_width chair) (chair_spacing chair)
               (chair_width chair + chair_spacing chair)
               (chairObject chair) 1
               (rowY bounds (chair_height chair + chair_spacing chair)
                     (Js.orZ (chair_rowsPerGroup chair) 999)
                     (Js.orQ (rowGroupSpacing tableConfig) 0))
               (fun s y => Js.leb (currentX s + chair_width chair) (maxX bounds)
                           && Js.leb (y + chair_height chair) (maxY bounds))
               (fun s => (currentGuests s <? maxGuests)%Z)
               (Z.to_nat maxRows)
               nextColumn.
Proof. reflexivity. Qed.
End SchemaInstances.

(** ** What the grid can take is what a loop places when it runs short *)
Section SchemaCapacity.
Import DoorAreaUtils VenueTypes TableCalculator ColumnSchema.
Variable doorAreas : list DoorArea.
Variables left right unitWidth skipSpacing step : Q.
Variable mkObject : Q -> Q -> ObjectBox.
Variable guestsPerUnit : Z.
Variable yOf : Z -> Q.
Variable fitsY : Q -> bool.
Variable rows : nat.
Variable target : Z.
Hypothesis skip_nonneg : 0 <= skipSpacing.
Hypothesis step_nonneg : 0 <= step.

Let rowCond (s : ColState) : bool := (currentGuests s <? target)%Z.
Let cond (s : ColState) : bool := rowCond s && Js.leb (currentX s + unitWidth) right.
Let row := schemaRow doorAreas mkObject guestsPerUnit yOf (fun _ => fitsY).
Let body := schemaBody doorAreas unitWidth skipSpacing step mkObject guestsPerUnit
                       yOf (fun _ => fitsY) rowCond rows (fun s => s).
Let cursorAt := Grid.cursorAt doorAreas left unitWidth skipSpacing step.
Let freeRows := Grid.freeRows doorAreas mkObject yOf fitsY.
Let columnCapacity := Grid.columnCapacity doorAreas right unitWidth mkObject yOf fitsY rows.
Let capacity := Grid.capacity doorAreas left right unitWidth skipSpacing step mkObject
                              yOf fitsY rows.









Let inv (s : ColState) : Prop :=
  exists k, currentX s = cursorAt k
            /\ ((currentGuests s < target)%Z -> List.length (placed s) = capacity k).

End SchemaCapacity.

Section LoopCapacity.
Import DoorAreaUtils VenueTypes TableCalculator ColumnSchema.
Variable tableConfig : TableConfig.
Variable doorAreas : list DoorArea.




End LoopCapacity.



(** The spec's own example: the area holds four tables of eight, thirty
    guests are requested, four tables (not three) are placed and 32 >= 30. *)
Example placeTablesOnly_thirty_guests :
  option_map (fun r => (List.length (TableCalculator.tables r),
                        TableCalculator.actualGuests r))
             (TableCalculator.placeTablesOnly 30 Samples.fourTables [] 2)
  = Some (4%nat, 32%Z).
Proof. vm_compute. reflexivity. Qed.

(** ** What each loop returns *)
Section LoopResults.
Import DoorAreaUtils VenueTypes TableCalculator ColumnSchema.
Variable tableConfig : TableConfig.
Variable doorAreas : list DoorArea.

Lemma tablesOnly_loop_clear (target : Z) (fuel : nat) (st : ColState) :
  tablesOnly_loop target tableConfig doorAreas fuel = Some st ->
  Forall (unitClear doorAreas (width tableConfig) (tableObject tableConfig)) (placed st).
Proof.
  unfold tablesOnly_loop. rewrite tablesOnly_body_schema.
  apply schemaLoop_clear. reflexivity.
Qed.

Lemma chairsOnly_loop_clear (target : Z) (chair : SingleChairConfig) (fuel : nat)
      (st : ColState) :
  chairsOnly_loop target tableConfig doorAreas chair fuel = Some st ->
  Forall (unitClear doorAreas (chair_width chair) (chairObject chair)) (placed st).
Proof.
  unfold chairsOnly_loop. rewrite chairsOnly_body_schema.
  apply schemaLoop_clear. reflexivity.
Qed.

Lemma tablesInColumns_loop_clear (numColumns : Z) (bounds : Bounds) (maxRows rpg : Z)
      (rgs : Q) (fuel : nat) (st : ColState) :
  tablesInColumns_loop numColumns tableConfig doorAreas bounds maxRows rpg rgs fuel = Some st ->
  Forall (unitClear doorAreas (width tableConfig) (tableObject tableConfig)) (placed st).
Proof.
  unfold tablesInColumns_loop. rewrite tablesInColumns_body_schema.
  apply schemaLoop_clear. reflexivity.
Qed.

Lemma chairsInColumns_loop_clear (numColumns maxGuests : Z) (bounds : Bounds) (maxRows : Z)
      (startAt : Q) (chair : SingleChairConfig) (fuel : nat) (st : ColState) :
  chairsInColumns_loop numColumns maxGuests tableConfig doorAreas bounds maxRows startAt
                       chair fuel = Some st ->
  Forall (unitClear doorAreas (chair_width chair) (chairObject chair)) (placed st).
Proof.
  unfold chairsInColumns_loop. rewrite chairsInColumns_body_schema.
  apply schemaLoop_clear. reflexivity.
Qed.

Lemma placeTablesInColumns_clear (numColumns : Z) (bounds : Bounds) (maxRows rpg : Z)
      (rgs : Q) (fuel : nat) (tbls : list Placed) (guests : Z) :
  placeTablesInColumns numColumns tableConfig doorAreas bounds maxRows rpg rgs fuel
  = Some (tbls, guests) ->
  Forall (unitClear doorAreas (width tableConfig) (tableObject tableConfig)) tbls.
Proof.
  unfold placeTablesInColumns.
  destruct (tablesInColumns_loop _ _ _ _ _ _ _ _) as [st|] eqn:Hrun; [|discriminate].
  intro H. injection H as <- _. eapply tablesInColumns_loop_clear, Hrun.
Qed.

Lemma placeChairsInColumns_clear (numColumns maxGuests : Z) (bounds : Bounds) (maxRows : Z)
      (startAt : Q) (chair : SingleChairConfig) (fuel : nat) (chrs : list Placed)
      (guests : Z) :
  singleChair tableConfig = Some chair ->
  placeChairsInColumns numColumns maxGuests tableConfig doorAreas bounds maxRows startAt fuel
  = Some (chrs, guests) ->
  Forall (unitClear doorAreas (chair_width chair) (chairObject chair)) chrs.
Proof.
  intro Hch. unfold placeChairsInColumns. rewrite Hch.
  destruct (chairsInColumns_loop _ _ _ _ _ _ _ _ _) as [st|] eqn:Hrun; [|discriminate].
  intro H. injection H as <- _. eapply chairsInColumns_loop_clear, Hrun.
Qed.
End LoopResults.

(** ** Every column loop returns, given the fuel of its measure *)
Section LoopTotality.
Import DoorAreaUtils VenueTypes TableCalculator ColumnSchema.
Variable tableConfig : TableConfig.
Variable doorAreas : list DoorArea.

Lemma chairsOnly_loop_total (target : Z) (chair : SingleChairConfig) (fuel : nat) :
  0 <= chair_spacing chair ->
  0 < chair_width chair + chair_spacing chair ->
  (columnFuel doorAreas (maxX (areaBounds tableConfig)) (chair_width chair)
              (chair_width chair + chair_spacing chair)
              (minX (areaBounds tableConfig)) <= fuel)%nat ->
  exists st, chairsOnly_loop target tableConfig doorAreas chair fuel = Some st.
Proof.
  intros Hsp Hstep Hfuel. unfold chairsOnly_loop. rewrite chairsOnly_body_schema.
  apply (schemaLoop_total _ _ _ _ _ _ _ _ _ _ _ _ (maxX (areaBounds tableConfig)));
    try assumption.
  intros s Hc. unfold chairsOnly_cond in Hc.
  apply andb_true_iff in Hc. apply leb_true_iff, Hc.
Qed.

Lemma tablesInColumns_loop_total (numColumns : Z) (bounds : Bounds) (maxRows rpg : Z)
      (rgs : Q) (fuel : nat) :
  0 <= tableSpacing tableConfig ->
  0 < width tableConfig + columnSpacing tableConfig ->
  (columnFuel doorAreas (maxX bounds) (width tableConfig)
              (width tableConfig + columnSpacing tableConfig) (minX bounds) <= fuel)%nat ->
  exists st,
    tablesInColumns_loop numColumns tableConfig doorAreas bounds maxRows rpg rgs fuel = Some st.
Proof.
  intros Hsp Hstep Hfuel. unfold tablesInColumns_loop. rewrite tablesInColumns_body_schema.
  apply (schemaLoop_total _ _ _ _ _ _ _ _ _ _ _ _ (maxX bounds)); try assumption.
  intros s Hc. unfold tablesInColumns_cond in Hc.
  apply andb_true_iff in Hc. apply leb_true_iff, Hc.
Qed.

Lemma chairsInColumns_loop_total (numColumns maxGuests : Z) (bounds : Bounds) (maxRows : Z)
      (startAt : Q) (chair : SingleChairConfig) (fuel : nat) :
  0 <= chair_spacing chair ->
  0 < chair_width chair + chair_spacing chair ->
  (columnFuel doorAreas (maxX bounds) (chair_width chair)
              (chair_width chair + chair_spacing chair) startAt <= fuel)%nat ->
  exists st,
    chairsInColumns_loop numColumns maxGuests tableConfig doorAreas bounds maxRows startAt
                         chair fuel = Some st.
Proof.
  intros Hsp Hstep Hfuel. unfold chairsInColumns_loop. rewrite chairsInColumns_body_schema.
  apply (schemaLoop_total _ _ _ _ _ _ _ _ _ _ _ _ (maxX bounds)); try assumption.
  intros s Hc. unfold chairsInColumns_cond in Hc.
  apply andb_true_iff in Hc. apply leb_true_iff, Hc.
Qed.
End LoopTotality.

(** ** The packer returns: from some amount of fuel on, every entry point
       yields one and the same result *)
Section PackerTotality.
Import DoorAreaUtils VenueTypes TableCalculator.
Variable tableConfig : TableConfig.
Variable doorAreas : list DoorArea.
Hypothesis tableSpacing_nonneg : 0 <= tableSpacing tableConfig.
Hypothesis tableStep_pos : 0 < width tableConfig + columnSpacing tableConfig.
Hypothesis chairSteps :
  forall chair, singleChair tableConfig = Some chair ->
                0 <= chair_spacing chair /\ 0 < chair_width chair + chair_spacing chair.

Let settles {A : Type} (run : nat -> option A) : Prop :=
  exists fuel0 r, forall fuel, (fuel0 <= fuel)%nat -> run fuel = Some r.

Lemma placeTablesOnly_settles (target : Z) :
  settles (placeTablesOnly target tableConfig doorAreas).
Proof.
  destruct (tablesOnly_loop_total target tableConfig doorAreas _
              tableSpacing_nonneg tableStep_pos (Nat.le_refl _)) as [st Hrun].
  eexists. eexists. intros fuel Hle. unfold placeTablesOnly, tablesOnly_loop in *.
  rewrite (while_more_fuel _ _ _ fuel _ _ Hle Hrun). reflexivity.
Qed.

Lemma placeChairsOnly_settles (target : Z) :
  settles (placeChairsOnly target tableConfig doorAreas).
Proof.
  unfold placeChairsOnly.
  case_eq (singleChair tableConfig); [intros chair Hch|intros Hch].
  - destruct (chairSteps chair Hch) as [Hsp Hstep].
    destruct (chairsOnly_loop_total tableConfig doorAreas target chair _
                Hsp Hstep (Nat.le_refl _)) as [st Hrun].
    eexists. eexists. intros fuel Hle. unfold chairsOnly_loop in *.
    rewrite (while_more_fuel _ _ _ fuel _ _ Hle Hrun). reflexivity.
  - exists O. eexists. intros fuel _. reflexivity.
Qed.

Lemma placeTablesInColumns_settles (numColumns : Z) (bounds : Bounds) (maxRows rpg : Z)
      (rgs : Q) :
  settles (placeTablesInColumns numColumns tableConfig doorAreas bounds maxRows rpg rgs).
Proof.
  destruct (tablesInColumns_loop_total tableConfig doorAreas numColumns bounds maxRows rpg rgs _
              tableSpacing_nonneg tableStep_pos (Nat.le_refl _)) as [st Hrun].
  eexists. eexists. intros fuel Hle. unfold placeTablesInColumns, tablesInColumns_loop in *.
  rewrite (while_more_fuel _ _ _ fuel _ _ Hle Hrun). reflexivity.
Qed.

Lemma placeChairsInColumns_settles (numColumns maxGuests : Z) (bounds : Bounds) (maxRows : Z)
      (startAt : Q) :
  settles (placeChairsInColumns numColumns maxGuests tableConfig doorAreas bounds maxRows
                                startAt).
Proof.
  unfold placeChairsInColumns.
  case_eq (singleChair tableConfig); [intros chair Hch|intros Hch].
  - destruct (chairSteps chair Hch) as [Hsp Hstep].
    destruct (chairsInColumns_loop_total tableConfig doorAreas numColumns maxGuests bounds
                maxRows startAt chair _ Hsp Hstep (Nat.le_refl _)) as [st Hrun].
    eexists. eexists. intros fuel Hle. unfold chairsInColumns_loop in *.
    rewrite (while_more_fuel _ _ _ fuel _ _ Hle Hrun). reflexivity.
  - exists O. eexists. intros fuel _. reflexivity.
Qed.

Lemma smartMix_iter_settles (target tableColumns : Z) (best : Solution) :
  settles (fun fuel => smartMix_iter target tableConfig doorAreas fuel tableColumns best).
Proof.
  destruct (placeTablesInColumns_settles tableColumns (areaBounds tableConfig)
              (smartMix_maxTablesPerColumn tableConfig)
              (Js.orZ (rowsPerGroup tableConfig) 999)
              (Js.orQ (rowGroupSpacing tableConfig) 0)) as [f1 [[tbls tg] Ht]].
  case_eq (singleChair tableConfig); [intros chair Hch|intros Hch].
  - destruct (placeChairsInColumns_settles
                (chairColumnsToPlace tableConfig chair tbls (target - tg)) (target - tg)
                (areaBounds tableConfig) (smartMix_maxChairsPerColumn tableConfig)
                (chairStartX tableConfig chair tbls)) as [f2 [[chrs cg] Hc]].
    eassert (Hrun : forall fuel, (Nat.max f1 f2 <= fuel)%nat ->
                      smartMix_iter target tableConfig doorAreas fuel tableColumns best = _).
    { intros fuel Hle. unfold smartMix_iter, smartMix_placeTables.
      rewrite (Ht fuel) by lia. rewrite Hch. cbv zeta.
      rewrite (Hc fuel) by lia. reflexivity. }
    exists (Nat.max f1 f2).
    repeat match type of Hrun with
           | context [if ?c then _ else _] => destruct c
           end; eexists; exact Hrun.
  - eassert (Hrun : forall fuel, (f1 <= fuel)%nat ->
                      smartMix_iter target tableConfig doorAreas fuel tableColumns best = _).
    { intros fuel Hle. unfold smartMix_iter, smartMix_placeTables.
      rewrite (Ht fuel) by lia. rewrite Hch. reflexivity. }
    exists f1.
    repeat match type of Hrun with
           | context [if ?c then _ else _] => destruct c
           end; eexists; exact Hrun.
Qed.

Lemma smartMix_loop_settles (target : Z) (n : nat) (best : Solution) :
  settles (fun fuel => smartMix_loop target tableConfig doorAreas fuel n best).
Proof.
  revert best. induction n as [|k IH]; intro best.
  - exists O, best. intros fuel _. reflexivity.
  - destruct (smartMix_iter_settles target (Z.of_nat k) best) as [f1 [[best' brk] Hit]].
    destruct brk.
    + exists f1, best'. intros fuel Hle. simpl. rewrite (Hit fuel Hle). reflexivity.
    + destruct (IH best') as [f2 [r Hr]].
      exists (Nat.max f1 f2), r. intros fuel Hle. simpl.
      rewrite (Hit fuel) by lia. apply Hr. lia.
Qed.

Lemma placeSmartMix_settles (target : Z) :
  settles (placeSmartMix target tableConfig doorAreas).
Proof.
  destruct (smartMix_loop_settles target
              (Z.to_nat (smartMix_maxColumnsAvailable tableConfig + 1)) smartMix_initial)
    as [f1 [best Hloop]].
  destruct (placeTablesInColumns_settles (smartMix_maxColumnsAvailable tableConfig)
              (areaBounds tableConfig) (smartMix_maxTablesPerColumn tableConfig)
              (Js.orZ (rowsPerGroup tableConfig) 999)
              (Js.orQ (rowGroupSpacing tableConfig) 0)) as [f2 [[tbls tg] Ht]].
  eassert (Hrun : forall fuel, (Nat.max f1 f2 <= fuel)%nat ->
                    placeSmartMix target tableConfig doorAreas fuel = _).
  { intros fuel Hle. unfold placeSmartMix. rewrite (Hloop fuel) by lia.
    unfold smartMix_fallback, smartMix_placeTables. rewrite (Ht fuel) by lia.
    reflexivity. }
  exists (Nat.max f1 f2).
  destruct (_ && _) in Hrun; eexists; exact Hrun.
Qed.

Lemma seatingFor_settles (guestCount : Z) :
  settles (seatingFor guestCount tableConfig doorAreas).
Proof.
  assert (Hauto : settles (fun fuel =>
                    option_map seatingResultOf
                               (placeSmartMix guestCount tableConfig doorAreas fuel))).
  { destruct (placeSmartMix_settles guestCount) as [f0 [s Hs]].
    exists f0. eexists. intros fuel Hle. rewrite (Hs fuel Hle). reflexivity. }
  unfold seatingFor.
  destruct (seatingMode tableConfig) as [[| |]|]; try exact Hauto.
  - apply placeTablesOnly_settles.
  - apply placeChairsOnly_settles.
Qed.

Lemma calculateTableArrangement_settles (guestCount : Z) :
  settles (calculateTableArrangement guestCount tableConfig doorAreas).
Proof.
  destruct (seatingFor_settles guestCount) as [f0 [r Hr]].
  unfold calculateTableArrangement.
  destruct (guestCount <=? 0)%Z.
  - exists O. eexists. intros fuel _. reflexivity.
  - exists f0. eexists. intros fuel Hle. rewrite (Hr fuel Hle). reflexivity.
Qed.
End PackerTotality.

(** ** The skip target is the rightmost right edge of the overlapping doors *)
Lemma Qmax_cases (a b : Q) : Qmax a b = a \/ Qmax a b = b.
Proof.
  unfold Qmax, GenericMinMax.gmax. destruct (a ?= b); auto.
Qed.

Lemma maxDoorEndX_attained (unitWidth : Q) (doorAreas : list DoorAreaUtils.DoorArea) (curX : Q) :
  TableCalculator.columnOverlapsDoor unitWidth doorAreas curX = true ->
  exists door,
    In door doorAreas
    /\ TableCalculator.columnHitsDoor unitWidth curX door = true
    /\ TableCalculator.maxDoorEndX unitWidth doorAreas curX = TableCalculator.doorMaxX door.
Proof.
  intro Hov.
  assert (Hinv : forall ds acc,
             (acc = curX \/ exists d, In d doorAreas
                                      /\ TableCalculator.columnHitsDoor unitWidth curX d = true
                                      /\ acc = TableCalculator.doorMaxX d) ->
             (forall d, In d ds -> In d doorAreas) ->
             let r := fold_left
                        (fun a door => if TableCalculator.columnHitsDoor unitWidth curX door
                                       then Qmax a (TableCalculator.doorMaxX door) else a)
                        ds acc in
             r = curX \/ exists d, In d doorAreas
                                   /\ TableCalculator.columnHitsDoor unitWidth curX d = true
                                   /\ r = TableCalculator.doorMaxX d).
  { induction ds as [|d ds IH]; intros acc Hacc Hsub; simpl; [assumption|].
    apply IH; [|intros e He; apply Hsub; right; assumption].
    destruct (TableCalculator.columnHitsDoor unitWidth curX d) eqn:Hhit; [|assumption].
    destruct (Qmax_cases acc (TableCalculator.doorMaxX d)) as [->| ->]; [assumption|].
    right. exists d. repeat split; [apply Hsub; left; reflexivity|assumption]. }
  specialize (Hinv doorAreas curX (or_introl eq_refl) (fun d H => H)).
  destruct Hinv as [Heq|Hd]; [|exact Hd].
  exfalso. unfold TableCalculator.columnOverlapsDoor in Hov.
  apply existsb_exists in Hov. destruct Hov as [d [Hin Hhit]].
  pose proof (maxDoorEndX_ge_door unitWidth doorAreas curX curX d Hin Hhit) as Hge.
  cbv zeta in Heq. rewrite Heq in Hge.
  unfold TableCalculator.columnHitsDoor in Hhit. apply andb_true_iff in Hhit.
  destruct Hhit as [Hlt _]. apply ltb_true_iff in Hlt. lra.
Qed.

Lemma column_clear_not_inside (unitWidth : Q) (doorAreas : list DoorAreaUtils.DoorArea)
      (curX : Q) (door : DoorAreaUtils.DoorArea) :
  0 <= unitWidth ->
  TableCalculator.columnOverlapsDoor unitWidth doorAreas curX = false ->
  In door doorAreas ->
  ~ (TableCalculator.doorMinX door < curX /\ curX < TableCalculator.doorMaxX door).
Proof.
  intros Hw Hcol Hin [Hlo Hhi].
  unfold TableCalculator.columnOverlapsDoor in Hcol.
  assert (Hhit : TableCalculator.columnHitsDoor unitWidth curX door = true).
  { unfold TableCalculator.columnHitsDoor. apply andb_true_iff. split.
    - apply ltb_true_iff. assumption.
    - apply ltb_true_iff. lra. }
  assert (Hex : existsb (TableCalculator.columnHitsDoor unitWidth curX) doorAreas = true).
  { apply existsb_exists. exists door. split; assumption. }
  congruence.
Qed.

(** ** placeSmartMix keeps only units that the column loops returned *)
Section SmartMixClear.
Import DoorAreaUtils VenueTypes TableCalculator ColumnSchema.
Variable targetGuestCount : Z.
Variable tableConfig : TableConfig.
Variable doorAreas : list DoorArea.
Variable fuel : nat.

Let clearTable := unitClear doorAreas (width tableConfig) (tableObject tableConfig).
Let clearChair (c : Placed) : Prop :=
  forall chair, singleChair tableConfig = Some chair ->
                unitClear doorAreas (chair_width chair) (chairObject chair) c.

Let solutionClear (s : Solution) : Prop :=
  Forall clearTable (s_tables s) /\ Forall clearChair (s_chairs s).

Lemma smartMix_placeTables_clear (tableColumns : Z) (tbls : list Placed) (guests : Z) :
  smartMix_placeTables tableConfig doorAreas fuel tableColumns = Some (tbls, guests) ->
  Forall clearTable tbls.
Proof. apply placeTablesInColumns_clear. Qed.

Lemma smartMix_iter_clear (tableColumns : Z) (best best' : Solution) (brk : bool) :
  solutionClear best ->
  smartMix_iter targetGuestCount tableConfig doorAreas fuel tableColumns best
  = Some (best', brk) ->
  solutionClear best'.
Proof.
  intros Hbest. unfold smartMix_iter.
  destruct (smartMix_placeTables _ _ _ _) as [[tbls tg]|] eqn:Ht; [|discriminate].
  apply smartMix_placeTables_clear in Ht.
  destruct (_ <=? 0)%Z.
  { destruct (gapLt _ _); intro H; injection H as <- _; [|assumption].
    split; [assumption|constructor]. }
  destruct (singleChair tableConfig) as [chair|] eqn:Hch.
  2:{ intro H; injection H as <- _; assumption. }
  destruct (0 <? _)%Z.
  - destruct (placeChairsInColumns _ _ _ _ _ _ _ _) as [[chrs cg]|] eqn:Hc; [|discriminate].
    apply (placeChairsInColumns_clear _ _ _ _ _ _ _ chair) in Hc; [|assumption].
    destruct (_ || _); intro H; injection H as <- _; [|assumption].
    split; [assumption|].
    rewrite Forall_forall in *. intros c Hin chair' Hch'.
    assert (chair' = chair) as -> by congruence. apply Hc, Hin.
  - destruct (_ <? _)%Z; intro H; injection H as <- _; [|assumption].
    split; [assumption|constructor].
Qed.

Lemma smartMix_loop_clear (n : nat) (best r : Solution) :
  solutionClear best ->
  smartMix_loop targetGuestCount tableConfig doorAreas fuel n best = Some r ->
  solutionClear r.
Proof.
  revert best. induction n as [|k IH]; intros best Hbest; simpl.
  - intro H; injection H as <-; assumption.
  - destruct (smartMix_iter _ _ _ _ _ _) as [[best' brk]|] eqn:Hit; [|discriminate].
    apply smartMix_iter_clear in Hit; [|assumption].
    destruct brk.
    + intro H; injection H as <-; assumption.
    + apply IH, Hit.
Qed.

Lemma placeSmartMix_clear (r : Solution) :
  placeSmartMix targetGuestCount tableConfig doorAreas fuel = Some r ->
  solutionClear r.
Proof.
  unfold placeSmartMix.
  destruct (smartMix_loop _ _ _ _ _ _) as [best|] eqn:Hloop; [|discriminate].
  apply smartMix_loop_clear in Hloop; [|split; constructor].
  unfold smartMix_fallback.
  destruct (_ && _).
  - destruct (smartMix_placeTables _ _ _ _) as [[tbls tg]|] eqn:Ht; [|discriminate].
    apply smartMix_placeTables_clear in Ht.
    intro H; injection H as <-. split; [assumption|constructor].
  - intro H; injection H as <-; assumption.
Qed.

Lemma seatingFor_clear (r : SeatingResult) :
  seatingFor targetGuestCount tableConfig doorAreas fuel = Some r ->
  Forall clearTable (tables r) /\ Forall clearChair (chairs r).
Proof.
  unfold seatingFor.
  assert (Hauto : option_map seatingResultOf
                             (placeSmartMix targetGuestCount tableConfig doorAreas fuel)
                  = Some r ->
                  Forall clearTable (tables r) /\ Forall clearChair (chairs r)).
  { destruct (placeSmartMix _ _ _ _) as [s|] eqn:Hs; [|discriminate].
    intro H; injection H as <-. apply placeSmartMix_clear, Hs. }
  destruct (seatingMode tableConfig) as [[| |]|]; try exact Hauto.
  - unfold placeTablesOnly.
    destruct (tablesOnly_loop _ _ _ _) as [st|] eqn:Hrun; [|discriminate].
    intro H; injection H as <-. simpl. split; [|constructor].
    eapply tablesOnly_loop_clear, Hrun.
  - unfold placeChairsOnly.
    destruct (singleChair tableConfig) as [chair|] eqn:Hch.
    + destruct (chairsOnly_loop _ _ _ _ _) as [st|] eqn:Hrun; [|discriminate].
      intro H; injection H as <-. simpl. split; [constructor|].
      apply chairsOnly_loop_clear in Hrun.
      rewrite Forall_forall in *. intros c Hin chair' Hch'.
      assert (chair' = chair) as -> by congruence. apply Hrun, Hin.
    + intro H; injection H as <-. split; constructor.
Qed.
End SmartMixClear.

(** A unit that a column loop placed has its origin outside every door's
    horizontal extent. *)
Lemma unitClear_origin (doorAreas : list DoorAreaUtils.DoorArea) (unitWidth : Q)
      (mkObject : Q -> Q -> DoorAreaUtils.ObjectBox) (u : TableCalculator.Placed) :
  0 <= unitWidth ->
  ColumnSchema.unitClear doorAreas unitWidth mkObject u ->
  Columns.originOutsideDoors unitWidth doorAreas (TableCalculator.p_x u).
Proof.
  intros Hw [Hcol _]. split; [exact Hcol|]. intros door Hd.
  apply (column_clear_not_inside unitWidth doorAreas); assumption.
Qed.

(** C3, as stated, fails on its last clause.  With the door [sideDoor] left
    of the area no column overlaps the door's horizontal extent, so no column
    is skipped; the per-unit test still rejects the second row of the first
    column.  That column holds one table although two rows fit (the next
    column holds two): it is neither entirely present nor entirely skipped. *)
Lemma column_partly_present :
  exists r,
    TableCalculator.placeTablesOnly 32 Samples.fourTables [Samples.sideDoor] 2 = Some r
    /\ TableCalculator.tablesOnly_maxTablesPerColumn Samples.fourTables = 2%Z
    /\ Columns.columnCount 0 (TableCalculator.tables r) = 1%nat
    /\ Columns.columnCount 10 (TableCalculator.tables r) = 2%nat
    /\ TableCalculator.columnOverlapsDoor 10 [Samples.sideDoor] 0 = false.
Proof.
  eexists. split; [vm_compute; reflexivity|].
  repeat split; vm_compute; reflexivity.
Qed.

(** C3, amended.  In each of the four column loops a column whose span
    [X, X + unit width] overlaps the horizontal extent of a door receives no
    unit: the loop body leaves the placed units as they are and moves the
    cursor to the rightmost right edge of the overlapping doors plus one
    spacing ([tableSpacing] for tables, the chair spacing for chairs).  Hence
    every unit returned by a loop, and every object of the arrangement,
    stands in a column that overlaps no door, and its x-origin is not
    strictly inside any door's horizontal extent; with spacings that are not
    negative and positive column and row steps the loops do return (at a
    zero row step the source's rows per column are infinite and its row
    loop need not end).  (Nothing is claimed about a column being complete:
    the per-unit door test can remove single rows.) *)
Theorem column_skip_rule :
  forall (tableConfig : VenueTypes.TableConfig) (doorAreas : list DoorAreaUtils.DoorArea),
    (* the skip step of the four loops *)
    (forall target st,
        TableCalculator.columnOverlapsDoor (VenueTypes.width tableConfig) doorAreas
                                           (TableCalculator.currentX st) = true ->
        TableCalculator.tablesOnly_body target tableConfig doorAreas st
        = TableCalculator.setX
            (TableCalculator.maxDoorEndX (VenueTypes.width tableConfig) doorAreas
                                         (TableCalculator.currentX st)
             + VenueTypes.tableSpacing tableConfig) st)
    /\ (forall bounds maxRows rpg rgs st,
           TableCalculator.columnOverlapsDoor (VenueTypes.width tableConfig) doorAreas
                                              (TableCalculator.currentX st) = true ->
           TableCalculator.tablesInColumns_body tableConfig doorAreas bounds maxRows rpg rgs st
           = TableCalculator.setX
               (TableCalculator.maxDoorEndX (VenueTypes.width tableConfig) doorAreas
                                            (TableCalculator.currentX st)
                + VenueTypes.tableSpacing tableConfig) st)
    /\ (forall target chair st,
           TableCalculator.columnOverlapsDoor (VenueTypes.chair_width chair) doorAreas
                                              (TableCalculator.currentX st) = true ->
           TableCalculator.chairsOnly_body target tableConfig doorAreas chair st
           = TableCalculator.setX
               (TableCalculator.maxDoorEndX (VenueTypes.chair_width chair) doorAreas
                                            (TableCalculator.currentX st)
                + VenueTypes.chair_spacing chair) st)
    /\ (forall maxGuests bounds maxRows chair st,
           TableCalculator.columnOverlapsDoor (VenueTypes.chair_width chair) doorAreas
                                              (TableCalculator.currentX st) = true ->
           TableCalculator.chairsInColumns_body maxGuests tableConfig doorAreas bounds
                                                maxRows chair st
           = TableCalculator.setX
               (TableCalculator.maxDoorEndX (VenueTypes.chair_width chair) doorAreas
                                            (TableCalculator.currentX st)
                + VenueTypes.chair_spacing chair) st)
    (* the skip target is the rightmost right edge among the overlapping doors *)
    /\ (forall unitWidth curX,
           TableCalculator.columnOverlapsDoor unitWidth doorAreas curX = true ->
           (forall door, In door doorAreas ->
                         TableCalculator.columnHitsDoor unitWidth curX door = true ->
                         TableCalculator.doorMaxX door
                         <= TableCalculator.maxDoorEndX unitWidth doorAreas curX)
           /\ exists door,
               In door doorAreas
               /\ TableCalculator.columnHitsDoor unitWidth curX door = true
               /\ TableCalculator.maxDoorEndX unitWidth doorAreas curX
                  = TableCalculator.doorMaxX door)
    (* the units the loops return *)
    /\ (0 <= VenueTypes.width tableConfig ->
        (forall target fuel r t,
            TableCalculator.placeTablesOnly target tableConfig doorAreas fuel = Some r ->
            In t (TableCalculator.tables r) ->
            Columns.originOutsideDoors (VenueTypes.width tableConfig) doorAreas
                                       (TableCalculator.p_x t))
        /\ (forall numColumns bounds maxRows rpg rgs fuel tbls guests t,
               TableCalculator.placeTablesInColumns numColumns tableConfig doorAreas bounds
                                                    maxRows rpg rgs fuel = Some (tbls, guests) ->
               In t tbls ->
               Columns.originOutsideDoors (VenueTypes.width tableConfig) doorAreas
                                          (TableCalculator.p_x t)))
    /\ (forall chair,
           VenueTypes.singleChair tableConfig = Some chair ->
           0 <= VenueTypes.chair_width chair ->
           (forall target fuel r c,
               TableCalculator.placeChairsOnly target tableConfig doorAreas fuel = Some r ->
               In c (TableCalculator.chairs r) ->
               Columns.originOutsideDoors (VenueTypes.chair_width chair) doorAreas
                                          (TableCalculator.p_x c))
           /\ (forall numColumns maxGuests bounds maxRows startAt fuel chrs guests c,
                  TableCalculator.placeChairsInColumns numColumns maxGuests tableConfig
                                                       doorAreas bounds maxRows startAt fuel
                  = Some (chrs, guests) ->
                  In c chrs ->
                  Columns.originOutsideDoors (VenueTypes.chair_width chair) doorAreas
                                             (TableCalculator.p_x c)))
    (* the objects of the arrangement *)
    /\ (forall guestCount fuel objects arrangement o,
           TableCalculator.calculateTableArrangement guestCount tableConfig doorAreas fuel
           = Some (objects, arrangement) ->
           In o objects ->
           0 <= TableCalculator.h_width o ->
           Columns.originOutsideDoors (TableCalculator.h_width o) doorAreas
                                      (TableCalculator.h_x o))
    (* the loops return, whatever the doors *)
    /\ (0 <= VenueTypes.tableSpacing tableConfig ->
        0 < VenueTypes.width tableConfig + VenueTypes.columnSpacing tableConfig ->
        0 < VenueTypes.height tableConfig + VenueTypes.tableSpacing tableConfig ->
        (forall chair, VenueTypes.singleChair tableConfig = Some chair ->
                       0 <= VenueTypes.chair_spacing chair
                       /\ 0 < VenueTypes.chair_width chair + VenueTypes.chair_spacing chair
                       /\ 0 < VenueTypes.chair_height chair + VenueTypes.chair_spacing chair) ->
        (forall target, exists fuel0 r, forall fuel, (fuel0 <= fuel)%nat ->
            TableCalculator.placeTablesOnly target tableConfig doorAreas fuel = Some r)
        /\ (forall numColumns bounds maxRows rpg rgs,
               exists fuel0 r, forall fuel, (fuel0 <= fuel)%nat ->
                 TableCalculator.placeTablesInColumns numColumns tableConfig doorAreas bounds
                                                      maxRows rpg rgs fuel = Some r)
        /\ (forall target, exists fuel0 r, forall fuel, (fuel0 <= fuel)%nat ->
               TableCalculator.placeChairsOnly target tableConfig doorAreas fuel = Some r)
        /\ (forall numColumns maxGuests bounds maxRows startAt,
               exists fuel0 r, forall fuel, (fuel0 <= fuel)%nat ->
                 TableCalculator.placeChairsInColumns numColumns maxGuests tableConfig
                                                      doorAreas bounds maxRows startAt fuel
                 = Some r)).
Proof.
  intros cfg doors.
  split; [|split; [|split; [|split; [|split; [|split; [|split; [|split]]]]]]].
  - intros target st Hcol. rewrite tablesOnly_body_schema.
    apply schemaBody_skip, Hcol.
  - intros bounds maxRows rpg rgs st Hcol. rewrite tablesInColumns_body_schema.
    apply schemaBody_skip, Hcol.
  - intros target chair st Hcol. rewrite chairsOnly_body_schema.
    apply schemaBody_skip, Hcol.
  - intros maxGuests bounds maxRows chair st Hcol. rewrite chairsInColumns_body_schema.
    apply schemaBody_skip, Hcol.
  - intros unitWidth curX Hcol. split.
    + intros door Hin Hhit.
      apply (maxDoorEndX_ge_door unitWidth doors curX curX door Hin Hhit).
    + apply maxDoorEndX_attained, Hcol.
  - intro Hw. split.
    + intros target fuel r t Hrun Hin.
      unfold TableCalculator.placeTablesOnly in Hrun.
      destruct (TableCalculator.tablesOnly_loop target cfg doors fuel) as [st|] eqn:Hloop;
        [|discriminate].
      injection Hrun as <-. simpl in Hin.
      pose proof (tablesOnly_loop_clear cfg doors target fuel st Hloop) as Hall.
      rewrite Forall_forall in Hall. eapply unitClear_origin; [exact Hw|apply Hall, Hin].
    + intros numColumns bounds maxRows rpg rgs fuel tbls guests t Hrun Hin.
      pose proof (placeTablesInColumns_clear cfg doors _ _ _ _ _ _ _ _ Hrun) as Hall.
      rewrite Forall_forall in Hall. eapply unitClear_origin; [exact Hw|apply Hall, Hin].
  - intros chair Hch Hw. split.
    + intros target fuel r c Hrun Hin.
      unfold TableCalculator.placeChairsOnly in Hrun. rewrite Hch in Hrun.
      destruct (TableCalculator.chairsOnly_loop target cfg doors chair fuel) as [st|] eqn:Hloop;
        [|discriminate].
      injection Hrun as <-. simpl in Hin.
      pose proof (chairsOnly_loop_clear cfg doors target chair fuel st Hloop) as Hall.
      rewrite Forall_forall in Hall. eapply unitClear_origin; [exact Hw|apply Hall, Hin].
    + intros numColumns maxGuests bounds maxRows startAt fuel chrs guests c Hrun Hin.
      pose proof (placeChairsInColumns_clear cfg doors _ _ _ _ _ chair _ _ _ Hch Hrun) as Hall.
      rewrite Forall_forall in Hall. eapply unitClear_origin; [exact Hw|apply Hall, Hin].
  - intros g fuel objects arr o Hrun Ho Hw.
    unfold TableCalculator.calculateTableArrangement in Hrun.
    destruct (g <=? 0)%Z.
    { injection Hrun as <- _. contradiction. }
    destruct (TableCalculator.seatingFor g cfg doors fuel) as [r|] eqn:Hseat; [|discriminate].
    injection Hrun as <- _.
    destruct (seatingFor_clear g cfg doors fuel r Hseat) as [Ht Hc].
    rewrite Forall_forall in Ht, Hc.
    apply in_app_or in Ho. destruct Ho as [Ho|Ho].
    + apply in_map_iff in Ho. destruct Ho as [t [<- Hin]].
      eapply unitClear_origin; [exact Hw|apply (Ht t Hin)].
    + apply in_flat_map in Ho. destruct Ho as [c [Hin Ho]].
      unfold TableCalculator.chairHallObjects in Ho.
      destruct (VenueTypes.singleChair cfg) as [chair|] eqn:Hch; [|contradiction].
      destruct Ho as [<-|[]].
      eapply unitClear_origin; [exact Hw|apply (Hc c Hin chair eq_refl)].
  - intros Hsp Hstep _ Hrows.
    assert (Hchair : forall chair,
               VenueTypes.singleChair cfg = Some chair ->
               0 <= VenueTypes.chair_spacing chair
               /\ 0 < VenueTypes.chair_width chair + VenueTypes.chair_spacing chair).
    { intros chair Hch. destruct (Hrows chair Hch) as [H1 [H2 _]]. split; assumption. }
    split; [|split; [|split]].
    + intro target. apply placeTablesOnly_settles; assumption.
    + intros numColumns bounds maxRows rpg rgs.
      apply placeTablesInColumns_settles; assumption.
    + intro target. apply placeChairsOnly_settles; assumption.
    + intros numColumns maxGuests bounds maxRows startAt.
      apply placeChairsInColumns_settles; assumption.
Qed.

Lemma column_skip_rule_witness :
  Columns.originOutsideDoors (VenueTypes.width Samples.fourTables) [Samples.midDoor] 0.
Proof.
  destruct (column_skip_rule Samples.fourTables [Samples.midDoor])
    as [_ [_ [_ [_ [_ [Htables _]]]]]].
  assert (Hw : 0 <= VenueTypes.width Samples.fourTables) by (simpl; lra).
  destruct (Htables Hw) as [Hret _].
  apply (Hret 32%Z 3%nat
              (TableCalculator.mkSeatingResult
                 [TableCalculator.mkPlaced 0 0 0; TableCalculator.mkPlaced 0 10 1] [] 16)
              (TableCalculator.mkPlaced 0 0 0)).
  - vm_compute. reflexivity.
  - simpl. left. reflexivity.
Defined.

Lemma isObjectInAnyDoorArea_false (object : DoorAreaUtils.ObjectBox)
      (doorAreas : list DoorAreaUtils.DoorArea) (door : DoorAreaUtils.DoorArea) :
  DoorAreaUtils.isObjectInAnyDoorArea object doorAreas = false ->
  In door doorAreas ->
  DoorAreaUtils.isObjectInDoorArea object door = false.
Proof.
  unfold DoorAreaUtils.isObjectInAnyDoorArea. intros Hall Hin.
  destruct (DoorAreaUtils.isObjectInDoorArea object door) eqn:E; [|reflexivity].
  assert (existsb (DoorAreaUtils.isObjectInDoorArea object) doorAreas = true)
    by (apply existsb_exists; exists door; split; assumption).
  congruence.
Qed.

(** C4, as stated, fails: the packer hands the unit's stored [(x, y)], its
    column and row origin, to the door test without converting it to a
    centre.  With [rightDoor] the table returned at (10, 0) passes the test
    as stored, while the 10 x 10 rectangle whose top-left corner is (10, 0),
    centred at (15, 5), overlaps the door's clearance-expanded box. *)
Lemma corner_footprint_overlaps_door :
  exists objects arrangement o,
    TableCalculator.calculateTableArrangement 32 Samples.fourTables [Samples.rightDoor] 2
    = Some (objects, arrangement)
    /\ In o objects
    /\ TableCalculator.h_x o = 10 /\ TableCalculator.h_y o = 0
    /\ DoorAreaUtils.isObjectInDoorArea (Columns.boxAsStored o) Samples.rightDoor = false
    /\ DoorAreaUtils.isObjectInDoorArea (Columns.boxFromCorner o) Samples.rightDoor = true.
Proof.
  do 2 eexists.
  exists (TableCalculator.mkHallObject TableCalculator.TypeTable 10 0 10 10 2 0).
  split; [vm_compute; reflexivity|].
  split; [simpl; right; right; left; reflexivity|].
  repeat split; vm_compute; reflexivity.
Qed.

(** C4, amended.  For every table or chair of the returned arrangement and
    every supplied door area, the AABB test [isObjectInDoorArea] between the
    door's clearance-expanded bounding box and the rectangle centred at the
    unit's stored [(x, y)] with half-extents [width/2] and [height/2] is
    negative.  The stored [(x, y)] is used as it is; no conversion from a
    corner to a centre takes place.  An arrangement is returned whenever the
    spacings are not negative and the column and row steps of the tables
    and of the chairs are positive (at a zero row step the source's rows
    per column are infinite and its row loop need not end). *)
Theorem arrangement_units_pass_door_test :
  forall (guestCount : Z) (tableConfig : VenueTypes.TableConfig)
         (doorAreas : list DoorAreaUtils.DoorArea),
    (0 <= VenueTypes.tableSpacing tableConfig ->
     0 < VenueTypes.width tableConfig + VenueTypes.columnSpacing tableConfig ->
     0 < VenueTypes.height tableConfig + VenueTypes.tableSpacing tableConfig ->
     (forall chair, VenueTypes.singleChair tableConfig = Some chair ->
                    0 <= VenueTypes.chair_spacing chair
                    /\ 0 < VenueTypes.chair_width chair + VenueTypes.chair_spacing chair
                    /\ 0 < VenueTypes.chair_height chair + VenueTypes.chair_spacing chair) ->
     exists fuel0 result, forall fuel, (fuel0 <= fuel)%nat ->
         TableCalculator.calculateTableArrangement guestCount tableConfig doorAreas fuel
         = Some result)
    /\ forall (fuel : nat) (objects : list TableCalculator.HallObject)
              (arrangement : TableCalculator.Arrangement),
        TableCalculator.calculateTableArrangement guestCount tableConfig doorAreas fuel
        = Some (objects, arrangement) ->
        forall o door,
          In o objects -> In door doorAreas ->
          DoorAreaUtils.isObjectInDoorArea (Columns.boxAsStored o) door = false.
Proof.
  intros g cfg doors. split.
  { intros Hsp Hstep _ Hrows.
    apply calculateTableArrangement_settles; try assumption.
    intros chair Hch. destruct (Hrows chair Hch) as [H1 [H2 _]]. split; assumption. }
  intros fuel objects arr Hrun o door Ho Hd.
  unfold TableCalculator.calculateTableArrangement in Hrun.
  destruct (g <=? 0)%Z.
  { injection Hrun as <- _. contradiction. }
  destruct (TableCalculator.seatingFor g cfg doors fuel) as [r|] eqn:Hseat; [|discriminate].
  injection Hrun as <- _.
  destruct (seatingFor_clear g cfg doors fuel r Hseat) as [Ht Hc].
  rewrite Forall_forall in Ht, Hc.
  apply in_app_or in Ho. destruct Ho as [Ho|Ho].
  - apply in_map_iff in Ho. destruct Ho as [t [<- Hin]].
    destruct (Ht t Hin) as [_ Hdoor].
    apply (isObjectInAnyDoorArea_false _ doors); assumption.
  - apply in_flat_map in Ho. destruct Ho as [c [Hin Ho]].
    unfold TableCalculator.chairHallObjects in Ho.
    destruct (VenueTypes.singleChair cfg) as [chair|] eqn:Hch; [|contradiction].
    destruct Ho as [<-|[]].
    destruct (Hc c Hin chair eq_refl) as [_ Hdoor].
    apply (isObjectInAnyDoorArea_false _ doors); assumption.
Qed.

Lemma arrangement_units_pass_door_test_witness :
  (exists fuel0 result, forall fuel, (fuel0 <= fuel)%nat ->
      TableCalculator.calculateTableArrangement 9 Samples.mixArea [Samples.rightDoor] fuel
      = Some result)
  /\ DoorAreaUtils.isObjectInDoorArea
       (Columns.boxAsStored (TableCalculator.mkHallObject TableCalculator.TypeChair 10 0 5 5 4 0))
       Samples.rightDoor = false.
Proof.
  assert (Hsp : 0 <= VenueTypes.tableSpacing Samples.mixArea) by (simpl; lra).
  assert (Hstep : 0 < VenueTypes.width Samples.mixArea
                      + VenueTypes.columnSpacing Samples.mixArea) by (simpl; lra).
  assert (Hrow : 0 < VenueTypes.height Samples.mixArea
                     + VenueTypes.tableSpacing Samples.mixArea) by (simpl; lra).
  assert (Hchair : forall chair,
             VenueTypes.singleChair Samples.mixArea = Some chair ->
             0 <= VenueTypes.chair_spacing chair
             /\ 0 < VenueTypes.chair_width chair + VenueTypes.chair_spacing chair
             /\ 0 < VenueTypes.chair_height chair + VenueTypes.chair_spacing chair).
  { intros chair H. injection H as <-. simpl. repeat split; lra. }
  destruct (arrangement_units_pass_door_test 9 Samples.mixArea [Samples.rightDoor])
    as [Hreturns Hsafe].
  split; [exact (Hreturns Hsp Hstep Hrow Hchair)|].
  eapply (Hsafe 3%nat).
  - vm_compute. reflexivity.
  - simpl. do 4 right. left. reflexivity.
  - simpl. left. reflexivity.
Defined.

(** ** placeChairsInColumns never seats more than it is asked to *)
Section SchemaGuests.
Import DoorAreaUtils VenueTypes TableCalculator ColumnSchema.
Variable doorAreas : list DoorArea.
Variables unitWidth skipSpacing step : Q.
Variable mkObject : Q -> Q -> ObjectBox.
Variable yOf : Z -> Q.
Variable fits : ColState -> Q -> bool.
Variable rows : nat.
Variable limit : Z.

Let rowCond (s : ColState) : bool := (currentGuests s <? limit)%Z.
Let body := schemaBody doorAreas unitWidth skipSpacing step mkObject 1
                       yOf fits rowCond rows nextColumn.

Lemma schemaBody_guests_le (st : ColState) :
  (currentGuests st <= Z.max limit 0)%Z -> (currentGuests (body st) <= Z.max limit 0)%Z.
Proof.
  intro Hst. unfold body, schemaBody.
  destruct (columnOverlapsDoor _ _ _); [exact Hst|].
  cbv zeta. cbn [setX nextColumn currentGuests].
  apply (forUpTo_invariant rowCond _ (fun s => (currentGuests s <= Z.max limit 0)%Z));
    [|exact Hst].
  intros i s Hs Hc. unfold rowCond in Hc. apply Z.ltb_lt in Hc.
  unfold schemaRow. destruct (fits _ _); [|assumption].
  destruct (negb _); [|assumption]. simpl. lia.
Qed.
End SchemaGuests.

Lemma placeChairsInColumns_guests_le
      (numColumns maxGuests : Z) (tableConfig : VenueTypes.TableConfig)
      (doorAreas : list DoorAreaUtils.DoorArea) (bounds : DoorAreaUtils.Bounds)
      (maxRows : Z) (startAt : Q) (fuel : nat)
      (chrs : list TableCalculator.Placed) (guests : Z) :
  TableCalculator.placeChairsInColumns numColumns maxGuests tableConfig doorAreas bounds
                                       maxRows startAt fuel = Some (chrs, guests) ->
  (guests <= Z.max maxGuests 0)%Z.
Proof.
  unfold TableCalculator.placeChairsInColumns.
  destruct (VenueTypes.singleChair tableConfig) as [chair|].
  - destruct (TableCalculator.chairsInColumns_loop _ _ _ _ _ _ _ _ _) as [st|] eqn:Hrun;
      [|discriminate].
    intro H; injection H as _ <-.
    unfold TableCalculator.chairsInColumns_loop in Hrun.
    rewrite chairsInColumns_body_schema in Hrun.
    apply (while_invariant _ _ (fun s => (TableCalculator.currentGuests s
                                          <= Z.max maxGuests 0)%Z)) in Hrun.
    + apply Hrun.
    + intros s Hs _. apply schemaBody_guests_le, Hs.
    + simpl. lia.
  - intro H; injection H as _ <-. lia.
Qed.

(** ** The smart-mix search loop *)
Section SmartMixGap.
Import DoorAreaUtils VenueTypes TableCalculator Gaps.
Variable targetGuestCount : Z.
Variable tableConfig : TableConfig.
Variable doorAreas : list DoorArea.
Variable fuel : nat.

Lemma gapLt_smaller (gap : Z) (tbls chrs : list Placed) (guests : Z) (best : Solution) :
  gapLt gap (s_gap best) = true ->
  gapStrictlySmaller (mkSolution tbls chrs guests (Some gap)) best.
Proof.
  unfold gapLt, gapStrictlySmaller. simpl.
  destruct (s_gap best); [|trivial]. apply Z.ltb_lt.
Qed.

(** A candidate that stays at or below the target and seats more than the
    recorded best has a strictly smaller gap. *)
Lemma more_guests_smaller_gap (tbls chrs : list Placed) (total : Z) (best : Solution) :
  gapRecorded targetGuestCount best ->
  (total <= targetGuestCount)%Z ->
  (s_actualGuests best < total)%Z ->
  gapStrictlySmaller
    (mkSolution tbls chrs total (Some (Z.abs (total - targetGuestCount)))) best.
Proof.
  unfold gapRecorded, gapStrictlySmaller. simpl.
  destruct (s_gap best) as [g|]; [|trivial]. intros -> Hle Hlt. lia.
Qed.

Lemma smartMix_iter_gap (tableColumns : Z) (best best' : Solution) (brk : bool) :
  gapRecorded targetGuestCount best ->
  smartMix_iter targetGuestCount tableConfig doorAreas fuel tableColumns best
  = Some (best', brk) ->
  gapRecorded targetGuestCount best'
  /\ (best' = best \/ gapStrictlySmaller best' best).
Proof.
  intros Hbest. unfold smartMix_iter.
  destruct (smartMix_placeTables _ _ _ _) as [[tbls tg]|]; [|discriminate].
  destruct (targetGuestCount - tg <=? 0)%Z eqn:Hrem.
  { destruct (gapLt _ _) eqn:Hlt; intro H; injection H as <- _.
    - split; [reflexivity|]. right. apply gapLt_smaller, Hlt.
    - split; [assumption|left; reflexivity]. }
  apply Z.leb_gt in Hrem.
  destruct (singleChair tableConfig) as [chair|].
  2:{ intro H; injection H as <- _. split; [assumption|left; reflexivity]. }
  destruct (0 <? _)%Z.
  - destruct (placeChairsInColumns _ _ _ _ _ _ _ _) as [[chrs cg]|] eqn:Hc; [|discriminate].
    apply placeChairsInColumns_guests_le in Hc.
    destruct (gapLt _ _ || _) eqn:Hrep; intro H; injection H as <- _.
    + split; [reflexivity|]. right.
      apply orb_true_iff in Hrep. destruct Hrep as [Hlt|Hmore].
      * apply gapLt_smaller, Hlt.
      * apply Z.ltb_lt in Hmore.
        apply more_guests_smaller_gap; [assumption|lia|assumption].
    + split; [assumption|left; reflexivity].
  - destruct (s_actualGuests best <? tg)%Z eqn:Hmore; intro H; injection H as <- _.
    + split; [reflexivity|]. right. apply Z.ltb_lt in Hmore.
      apply more_guests_smaller_gap; [assumption|lia|assumption].
    + split; [assumption|left; reflexivity].
Qed.

Lemma gapStrictlySmaller_trans (a b c : Solution) :
  gapStrictlySmaller a b -> gapStrictlySmaller b c -> gapStrictlySmaller a c.
Proof.
  unfold gapStrictlySmaller.
  destruct (s_gap a), (s_gap b), (s_gap c); try tauto. lia.
Qed.

Lemma smartMix_loop_gap (n : nat) (best r : Solution) :
  gapRecorded targetGuestCount best ->
  smartMix_loop targetGuestCount tableConfig doorAreas fuel n best = Some r ->
  gapRecorded targetGuestCount r
  /\ (r = best \/ gapStrictlySmaller r best).
Proof.
  revert best. induction n as [|k IH]; intros best Hbest; simpl.
  - intro H; injection H as <-. split; [assumption|left; reflexivity].
  - destruct (smartMix_iter _ _ _ _ _ _) as [[best' brk]|] eqn:Hit; [|discriminate].
    destruct (smartMix_iter_gap _ _ _ _ Hbest Hit) as [Hrec Hstep].
    destruct brk.
    + intro H; injection H as <-. split; assumption.
    + intro Hrun. destruct (IH best' Hrec Hrun) as [Hr Hrel]. split; [assumption|].
      destruct Hrel as [->|Hlt]; [assumption|].
      destruct Hstep as [->|Hlt']; [right; assumption|].
      right. eapply gapStrictlySmaller_trans; eassumption.
Qed.
End SmartMixGap.

(** C1.  The claim is what the search is written to do: its first two
    branches record a candidate when its gap is smaller than the recorded
    one, so that of two candidates with the same smallest gap the one with
    more table columns, visited first, would stay.  The third branch, for a
    candidate that leaves no room for a chair column, compares guest counts
    where the other two compare gaps, and there the code departs from the
    claim.  Target 9 in [mixArea]: two table columns seat 16 (gap 7); one
    table column seats 8 and leaves no room for a chair column (gap 1); no
    table column and two chair columns seat 8 (gap 1).  The smallest gap,
    1, is reached with one table column and with none; the candidate with
    one table column is not recorded, because it does not seat more guests
    than the 16 already recorded (last equation: the iteration leaves the
    recorded solution as it is), and the packer returns the combination
    without tables. *)
Lemma smart_mix_tie_returns_fewer_table_columns :
  exists r two one none,
    TableCalculator.placeSmartMix 9 Samples.mixArea [] 2 = Some r
    /\ TableCalculator.s_tables r = []
    /\ List.length (TableCalculator.s_chairs r) = 8%nat
    /\ TableCalculator.s_gap r = Some 1%Z
    /\ TableCalculator.smartMix_iter 9 Samples.mixArea [] 2 2 TableCalculator.smartMix_initial
       = Some (two, false)
    /\ TableCalculator.s_gap two = Some 7%Z
    /\ TableCalculator.smartMix_iter 9 Samples.mixArea [] 2 1 TableCalculator.smartMix_initial
       = Some (one, false)
    /\ List.length (TableCalculator.s_tables one) = 1%nat
    /\ TableCalculator.s_chairs one = []
    /\ TableCalculator.s_gap one = Some 1%Z
    /\ TableCalculator.smartMix_iter 9 Samples.mixArea [] 2 0 TableCalculator.smartMix_initial
       = Some (none, false)
    /\ TableCalculator.s_gap none = Some 1%Z
    /\ TableCalculator.smartMix_iter 9 Samples.mixArea [] 2 1 two = Some (two, false).
Proof.
  do 4 eexists.
  split; [vm_compute; reflexivity|].
  split; [reflexivity|]. split; [reflexivity|]. split; [reflexivity|].
  split; [vm_compute; reflexivity|]. split; [reflexivity|].
  split; [vm_compute; reflexivity|].
  split; [reflexivity|]. split; [reflexivity|]. split; [reflexivity|].
  split; [vm_compute; reflexivity|]. split; [reflexivity|].
  vm_compute. reflexivity.
Qed.

(** X31.  In auto mode the search loop visits the table-column counts from
    the maximum down to zero, and an iteration replaces the recorded best
    solution only by a candidate whose gap [|totalSeats - target|] is
    strictly smaller than the recorded one, never on an equal gap; the
    recorded gap is always the distance of the recorded guest count from
    the target.  So the solution the loop ends with is the one it started
    from or one of strictly smaller gap, and the search returns whenever
    the spacings are not negative and the column and row steps of the
    tables and of the chairs are positive. *)
Theorem smart_mix_replaces_on_strictly_smaller_gap :
  forall (targetGuestCount : Z) (tableConfig : VenueTypes.TableConfig)
         (doorAreas : list DoorAreaUtils.DoorArea),
    Gaps.gapRecorded targetGuestCount TableCalculator.smartMix_initial
    (* one iteration *)
    /\ (forall (fuel : nat) (tableColumns : Z) (best best' : TableCalculator.Solution)
               (brk : bool),
           Gaps.gapRecorded targetGuestCount best ->
           TableCalculator.smartMix_iter targetGuestCount tableConfig doorAreas fuel
                                         tableColumns best = Some (best', brk) ->
           Gaps.gapRecorded targetGuestCount best'
           /\ (best' = best \/ Gaps.gapStrictlySmaller best' best))
    (* the rest of the loop, from any recorded solution *)
    /\ (forall (fuel n : nat) (best r : TableCalculator.Solution),
           Gaps.gapRecorded targetGuestCount best ->
           TableCalculator.smartMix_loop targetGuestCount tableConfig doorAreas fuel n best
           = Some r ->
           Gaps.gapRecorded targetGuestCount r
           /\ (r = best \/ Gaps.gapStrictlySmaller r best))
    (* the search returns *)
    /\ (0 <= VenueTypes.tableSpacing tableConfig ->
        0 < VenueTypes.width tableConfig + VenueTypes.columnSpacing tableConfig ->
        0 < VenueTypes.height tableConfig + VenueTypes.tableSpacing tableConfig ->
        (forall chair, VenueTypes.singleChair tableConfig = Some chair ->
                       0 <= VenueTypes.chair_spacing chair
                       /\ 0 < VenueTypes.chair_width chair + VenueTypes.chair_spacing chair
                       /\ 0 < VenueTypes.chair_height chair + VenueTypes.chair_spacing chair) ->
        exists fuel0 r, forall fuel, (fuel0 <= fuel)%nat ->
          TableCalculator.placeSmartMix targetGuestCount tableConfig doorAreas fuel = Some r).
Proof.
  intros T cfg doors. split; [reflexivity|]. split; [|split].
  - intros fuel tc best best' brk. apply smartMix_iter_gap.
  - intros fuel n best r. apply smartMix_loop_gap.
  - intros Hsp Hstep _ Hrows. apply placeSmartMix_settles; try assumption.
    intros chair Hch. destruct (Hrows chair Hch) as [H1 [H2 _]]. split; assumption.
Qed.

Lemma smart_mix_replaces_on_strictly_smaller_gap_witness :
  Gaps.gapRecorded 9
    (TableCalculator.mkSolution
       [TableCalculator.mkPlaced 0 0 0; TableCalculator.mkPlaced 10 0 1] [] 16 (Some 7%Z))
  /\ (TableCalculator.mkSolution
        [TableCalculator.mkPlaced 0 0 0; TableCalculator.mkPlaced 10 0 1] [] 16 (Some 7%Z)
      = TableCalculator.smartMix_initial
      \/ Gaps.gapStrictlySmaller
           (TableCalculator.mkSolution
              [TableCalculator.mkPlaced 0 0 0; TableCalculator.mkPlaced 10 0 1] [] 16
              (Some 7%Z))
           TableCalculator.smartMix_initial).
Proof.
  destruct (smart_mix_replaces_on_strictly_smaller_gap 9 Samples.mixArea [])
    as [Hinit [Hstep _]].
  apply (Hstep 2%nat 2%Z TableCalculator.smartMix_initial _ false Hinit).
  vm_compute. reflexivity.
Defined.

(** ** The polygon helpers of config/venues.ts *)
Section PolygonHelpers.
Import DoorAreaUtils VenueTypes TableCalculator Venues.
Variable tableConfig : TableConfig.

Lemma pushPos_Forall (P : Placed -> Prop) (colX y : Q) (st : PosState) :
  Forall P (positions st) -> (forall i, P (mkPlaced colX y i)) ->
  Forall P (positions (pushPos colX y st)).
Proof.
  intros Hall Hnew. simpl. apply Forall_app. split; [assumption|].
  constructor; [apply Hnew|constructor].
Qed.

Lemma inPolygon_positions_inside (tableCount : Z) (pts : TableAreaPoints) :
  Forall (fun t => allCornersInside (p_x t) (p_y t) (width tableConfig) (height tableConfig)
                                    (convertTableAreaToArray pts) = true)
         (inPolygon_positions tableConfig tableCount pts).
Proof.
  unfold inPolygon_positions.
  apply (forUpTo_invariant _ _ (fun s => Forall _ (positions s))); [|constructor].
  intros col s Hs _. unfold inPolygon_column.
  apply (forUpTo_invariant _ _ (fun s => Forall _ (positions s))); [|exact Hs].
  intros row s' Hs' _. unfold inPolygon_row.
  destruct (_ && _); [|assumption].
  destruct (allCornersInside _ _ _ _ _) eqn:Hin; [|assumption].
  apply pushPos_Forall; [assumption|]. intro i. exact Hin.
Qed.

Lemma singleChairs_positions_inside (chairCount : Z) (chair : SingleChairConfig)
      (pts : TableAreaPoints) :
  namedPoints tableConfig = Some pts ->
  Forall (fun c => allCornersInside (p_x c) (p_y c) (chair_width chair) (chair_height chair)
                                    (convertTableAreaToArray pts) = true)
         (singleChairs_positions tableConfig chairCount chair).
Proof.
  intro Hpts. unfold singleChairs_positions.
  destruct (_ =? 0)%Z; [constructor|].
  apply (forUpTo_invariant _ _ (fun s => Forall _ (positions s))); [|constructor].
  intros col s Hs _. unfold singleChairs_column.
  apply (forUpTo_invariant _ _ (fun s => Forall _ (positions s))); [|exact Hs].
  intros row s' Hs' _. unfold singleChairs_row. rewrite Hpts.
  destruct (_ && _); [|assumption].
  destruct (allCornersInside _ _ _ _ _) eqn:Hin; [|assumption].
  apply pushPos_Forall; [assumption|]. intro i. exact Hin.
Qed.
End PolygonHelpers.

(** C5, as stated, fails for the packer: calculateTableArrangement only keeps
    a unit inside the bounding box of the four corners.  In the trapezoid
    the table returned at (0, 0) has its corner (0, 0) outside the polygon. *)
Lemma packer_ignores_polygon :
  exists objects arrangement o,
    TableCalculator.calculateTableArrangement 32 Samples.trapezoidTables [] 2
    = Some (objects, arrangement)
    /\ In o objects
    /\ In (DoorAreaUtils.mkPoint 0 0)
          (Venues.unitCorners (TableCalculator.h_x o) (TableCalculator.h_y o)
                              (TableCalculator.h_width o) (TableCalculator.h_height o))
    /\ Venues.isPointInPolygon (DoorAreaUtils.mkPoint 0 0)
                               (VenueTypes.convertTableAreaToArray Samples.trapezoid) = false.
Proof.
  do 2 eexists.
  exists (TableCalculator.mkHallObject TableCalculator.TypeTable 0 0 10 10 0 0).
  split; [vm_compute; reflexivity|].
  split; [simpl; left; reflexivity|].
  split; [simpl; left; reflexivity|].
  vm_compute. reflexivity.
Qed.

(** C5, amended.  The placement helpers of config/venues.ts that read the
    four-corner area, calculateTablePositionsInPolygon for tables and
    calculateSingleChairPositions for chairs, return only units whose four
    footprint corners [(x, y)], [(x + w, y)], [(x, y + h)], [(x + w, y + h)]
    all pass the even-odd ray-casting test [isPointInPolygon]; a unit with a
    corner outside is left out whole.  (The packer of utils/tableCalculator.ts
    tests the bounding box of the corners only.) *)
Theorem polygon_helpers_keep_corners_inside :
  forall (tableConfig : VenueTypes.TableConfig) (count : Z)
         (pts : VenueTypes.TableAreaPoints),
    VenueTypes.namedPoints tableConfig = Some pts ->
    (forall t corner,
        In t (Venues.calculateTablePositionsInPolygon tableConfig count) ->
        In corner (Venues.unitCorners (TableCalculator.p_x t) (TableCalculator.p_y t)
                                      (VenueTypes.width tableConfig)
                                      (VenueTypes.height tableConfig)) ->
        Venues.isPointInPolygon corner (VenueTypes.convertTableAreaToArray pts) = true)
    /\ (forall chair c corner,
           VenueTypes.singleChair tableConfig = Some chair ->
           In c (Venues.calculateSingleChairPositions tableConfig count) ->
           In corner (Venues.unitCorners (TableCalculator.p_x c) (TableCalculator.p_y c)
                                         (VenueTypes.chair_width chair)
                                         (VenueTypes.chair_height chair)) ->
           Venues.isPointInPolygon corner (VenueTypes.convertTableAreaToArray pts) = true).
Proof.
  intros cfg count pts Hpts. split.
  - intros t corner Ht Hc.
    unfold Venues.calculateTablePositionsInPolygon in Ht. rewrite Hpts in Ht.
    pose proof (inPolygon_positions_inside cfg count pts) as Hall.
    rewrite Forall_forall in Hall. specialize (Hall t Ht).
    unfold Venues.allCornersInside in Hall. rewrite forallb_forall in Hall.
    apply Hall, Hc.
  - intros chair c corner Hch Hin Hc.
    unfold Venues.calculateSingleChairPositions in Hin. rewrite Hch in Hin.
    pose proof (singleChairs_positions_inside cfg count chair pts Hpts) as Hall.
    rewrite Forall_forall in Hall. specialize (Hall c Hin).
    unfold Venues.allCornersInside in Hall. rewrite forallb_forall in Hall.
    apply Hall, Hc.
Qed.

Lemma polygon_helpers_keep_corners_inside_witness :
  Venues.isPointInPolygon (DoorAreaUtils.mkPoint 10 30)
                          (VenueTypes.convertTableAreaToArray Samples.square) = true
  /\ Venues.isPointInPolygon (DoorAreaUtils.mkPoint 5 15)
                             (VenueTypes.convertTableAreaToArray Samples.square) = true.
Proof.
  destruct (polygon_helpers_keep_corners_inside Samples.squareTables 4 Samples.square eq_refl)
    as [Htables Hchairs].
  split.
  - apply (Htables (TableCalculator.mkPlaced 0 20 2)).
    + vm_compute. right. right. left. reflexivity.
    + simpl. right. right. right. left. reflexivity.
  - apply (Hchairs Samples.smallChair (TableCalculator.mkPlaced 0 10 1)).
    + reflexivity.
    + vm_compute. right. left. reflexivity.
    + simpl. right. right. right. left. reflexivity.
Defined.

(** ** No column holds more units than the rows the loop was given *)
Section SchemaColumns.
Import DoorAreaUtils VenueTypes TableCalculator ColumnSchema Columns.
Variable doorAreas : list DoorArea.
Variables unitWidth skipSpacing step : Q.
Variable mkObject : Q -> Q -> ObjectBox.
Variable guestsPerUnit : Z.
Variable yOf : Z -> Q.
Variable fits : ColState -> Q -> bool.
Variable rowCond : ColState -> bool.
Variable rows : nat.
Variable bump : ColState -> ColState.
Hypothesis bump_placed : forall st, placed (bump st) = placed st.
Hypothesis skipSpacing_nonneg : 0 <= skipSpacing.
Hypothesis step_pos : 0 < step.

Let row := schemaRow doorAreas mkObject guestsPerUnit yOf fits.
Let body := schemaBody doorAreas unitWidth skipSpacing step mkObject guestsPerUnit
                       yOf fits rowCond rows bump.

Lemma columnCount_app (colX : Q) (l l' : list Placed) :
  columnCount colX (l ++ l') = (columnCount colX l + columnCount colX l')%nat.
Proof. unfold columnCount. rewrite filter_app, length_app. reflexivity. Qed.

Lemma columnCount_le_length (colX : Q) (l : list Placed) :
  (columnCount colX l <= List.length l)%nat.
Proof. unfold columnCount. apply filter_length_le. Qed.

Lemma columnCount_none (colX : Q) (l : list Placed) :
  Forall (fun u => ~ p_x u == colX) l -> columnCount colX l = 0%nat.
Proof.
  unfold columnCount. induction 1 as [|u l Hu _ IH]; [reflexivity|].
  simpl. destruct (Qeq_bool (p_x u) colX) eqn:E; [|exact IH].
  apply Qeq_bool_iff in E. contradiction.
Qed.

(** The rows of one column add at most [n] units, all at the cursor. *)
Lemma schemaRows_added (n : nat) (i : Z) (st : ColState) :
  exists added,
    placed (Js.forUpTo rowCond row n i st) = placed st ++ added
    /\ (List.length added <= n)%nat
    /\ Forall (fun u => p_x u = currentX st) added.
Proof.
  revert i st. induction n as [|n IH]; intros i st; simpl.
  - exists []. rewrite app_nil_r. repeat split; [simpl; lia|constructor].
  - destruct (rowCond st).
    + destruct (IH (i + 1)%Z (row i st)) as [added [Hp [Hlen Hall]]].
      rewrite Hp. rewrite (schemaRow_cursor doorAreas mkObject guestsPerUnit yOf fits) in Hall.
      unfold row, schemaRow. unfold row, schemaRow in Hp.
      destruct (fits st (yOf i)).
      * destruct (negb _).
        -- exists (mkPlaced (currentX st) (yOf i) (unitIndex st) :: added).
           cbn [pushUnit placed]. rewrite <- app_assoc. repeat split.
           ++ simpl. lia.
           ++ constructor; [reflexivity|exact Hall].
        -- exists added. repeat split; [lia|exact Hall].
      * exists added. repeat split; [lia|exact Hall].
    + exists []. rewrite app_nil_r. repeat split; [simpl; lia|constructor].
Qed.

Let inv (st : ColState) : Prop :=
  Forall (fun u => p_x u < currentX st) (placed st)
  /\ forall colX, (columnCount colX (placed st) <= rows)%nat.

Lemma schemaBody_columns (st : ColState) : inv st -> inv (body st).
Proof.
  intros [Hleft Hcount]. unfold body, schemaBody.
  destruct (columnOverlapsDoor unitWidth doorAreas (currentX st)) eqn:Hcol.
  - split; [|exact Hcount]. cbn [setX placed currentX].
    pose proof (maxDoorEndX_ge_start unitWidth doorAreas (currentX st) (currentX st)) as Hge.
    fold (maxDoorEndX unitWidth doorAreas (currentX st)) in Hge.
    eapply Forall_impl; [|exact Hleft]. cbv beta. intros u Hu. lra.
  - unfold inv. cbv zeta. cbn [setX placed currentX]. rewrite bump_placed. fold row.
    rewrite (schemaRows_cursor doorAreas mkObject guestsPerUnit yOf fits rowCond).
    destruct (schemaRows_added rows 0 st) as [added [-> [Hlen Hall]]]. split.
    + apply Forall_app. split.
      * eapply Forall_impl; [|exact Hleft]. cbv beta. intros u Hu. lra.
      * eapply Forall_impl; [|exact Hall]. cbv beta. intros u ->. lra.
    + intro colX. rewrite columnCount_app.
      destruct (Qlt_le_dec colX (currentX st)) as [Hlt|Hle].
      * rewrite (columnCount_none colX added).
        -- specialize (Hcount colX). lia.
        -- eapply Forall_impl; [|exact Hall]. cbv beta. intros u -> Heq. lra.
      * rewrite (columnCount_none colX (placed st)).
        -- pose proof (columnCount_le_length colX added). lia.
        -- eapply Forall_impl; [|exact Hleft]. cbv beta. intros u Hu Heq. lra.
Qed.

Lemma schemaLoop_columns (cond : ColState -> bool) (fuel : nat) (start : Q) (st : ColState)
      (colX : Q) :
  Js.while cond body fuel (initState start) = Some st ->
  (columnCount colX (placed st) <= rows)%nat.
Proof.
  intro Hrun.
  apply (while_invariant cond body inv) in Hrun.
  - apply Hrun.
  - intros s Hs _. apply schemaBody_columns, Hs.
  - split; [constructor|]. intro X. unfold columnCount. simpl. lia.
Qed.
End SchemaColumns.

Section ChairColumns.
Import DoorAreaUtils VenueTypes TableCalculator Columns.
Variable tableConfig : TableConfig.
Variable doorAreas : list DoorArea.
Variable chair : SingleChairConfig.
Hypothesis chair_present : singleChair tableConfig = Some chair.
Hypothesis chair_spacing_nonneg : 0 <= chair_spacing chair.
Hypothesis chair_step_pos : 0 < chair_width chair + chair_spacing chair.

Lemma placeChairsOnly_columns (target : Z) (fuel : nat) (r : SeatingResult) (colX : Q) :
  placeChairsOnly target tableConfig doorAreas fuel = Some r ->
  (Z.of_nat (columnCount colX (chairs r))
   <= Z.max 0 (maxChairsPerColumn
                 (maxY (areaBounds tableConfig) - minY (areaBounds tableConfig))
                 tableConfig chair))%Z.
Proof.
  unfold placeChairsOnly. rewrite chair_present.
  destruct (chairsOnly_loop target tableConfig doorAreas chair fuel) as [st|] eqn:Hrun;
    [|discriminate].
  intro H; injection H as <-. cbn [chairs].
  unfold chairsOnly_loop in Hrun. rewrite chairsOnly_body_schema in Hrun.
  apply (schemaLoop_columns _ _ _ _ _ _ _ _ _ _ _ (fun _ => eq_refl)
           chair_spacing_nonneg chair_step_pos _ _ _ _ colX) in Hrun.
  lia.
Qed.

Lemma placeChairsInColumns_columns (numColumns maxGuests : Z) (bounds : Bounds)
      (maxRows : Z) (startAt : Q) (fuel : nat) (chrs : list Placed) (guests : Z) (colX : Q) :
  placeChairsInColumns numColumns maxGuests tableConfig doorAreas bounds maxRows startAt fuel
  = Some (chrs, guests) ->
  (Z.of_nat (columnCount colX chrs) <= Z.max 0 maxRows)%Z.
Proof.
  unfold placeChairsInColumns. rewrite chair_present.
  destruct (chairsInColumns_loop _ _ _ _ _ _ _ _ _) as [st|] eqn:Hrun; [|discriminate].
  intro H; injection H as <- _.
  unfold chairsInColumns_loop in Hrun. rewrite chairsInColumns_body_schema in Hrun.
  apply (schemaLoop_columns _ _ _ _ _ _ _ _ _ _ nextColumn (fun _ => eq_refl)
           chair_spacing_nonneg chair_step_pos _ _ _ _ colX) in Hrun.
  lia.
Qed.
End ChairColumns.

Section SmartMixColumns.
Import DoorAreaUtils VenueTypes TableCalculator Columns.
Variable targetGuestCount : Z.
Variable tableConfig : TableConfig.
Variable doorAreas : list DoorArea.
Variable fuel : nat.
Variable chair : SingleChairConfig.
Hypothesis chair_present : singleChair tableConfig = Some chair.
Hypothesis chair_spacing_nonneg : 0 <= chair_spacing chair.
Hypothesis chair_step_pos : 0 < chair_width chair + chair_spacing chair.

Let bounded (s : Solution) : Prop :=
  forall colX,
    (Z.of_nat (columnCount colX (s_chairs s))
     <= Z.max 0 (smartMix_maxChairsPerColumn tableConfig))%Z.

Lemma smartMix_iter_columns (tableColumns : Z) (best best' : Solution) (brk : bool) :
  bounded best ->
  smartMix_iter targetGuestCount tableConfig doorAreas fuel tableColumns best
  = Some (best', brk) ->
  bounded best'.
Proof.
  intros Hbest. unfold smartMix_iter.
  assert (Hnone : forall tbls guests gap, bounded (mkSolution tbls [] guests gap)).
  { intros tbls guests gap colX. simpl. lia. }
  destruct (smartMix_placeTables _ _ _ _) as [[tbls tg]|]; [|discriminate].
  destruct (_ <=? 0)%Z.
  { destruct (gapLt _ _); intro H; injection H as <- _; [apply Hnone|assumption]. }
  rewrite chair_present.
  destruct (0 <? _)%Z.
  - destruct (placeChairsInColumns _ _ _ _ _ _ _ _) as [[chrs cg]|] eqn:Hc; [|discriminate].
    destruct (_ || _); intro H; injection H as <- _; [|assumption].
    intro colX. cbn [s_chairs].
    apply (placeChairsInColumns_columns tableConfig doorAreas chair chair_present
             chair_spacing_nonneg chair_step_pos _ _ _ _ _ _ _ _ colX Hc).
  - destruct (_ <? _)%Z; intro H; injection H as <- _; [apply Hnone|assumption].
Qed.

Lemma smartMix_loop_columns (n : nat) (best r : Solution) :
  bounded best ->
  smartMix_loop targetGuestCount tableConfig doorAreas fuel n best = Some r ->
  bounded r.
Proof.
  revert best. induction n as [|k IH]; intros best Hbest; simpl.
  - intro H; injection H as <-; assumption.
  - destruct (smartMix_iter _ _ _ _ _ _) as [[best' brk]|] eqn:Hit; [|discriminate].
    apply smartMix_iter_columns in Hit; [|assumption].
    destruct brk.
    + intro H; injection H as <-; assumption.
    + apply IH, Hit.
Qed.

Lemma placeSmartMix_columns (r : Solution) (colX : Q) :
  placeSmartMix targetGuestCount tableConfig doorAreas fuel = Some r ->
  (Z.of_nat (columnCount colX (s_chairs r))
   <= Z.max 0 (smartMix_maxChairsPerColumn tableConfig))%Z.
Proof.
  unfold placeSmartMix.
  destruct (smartMix_loop _ _ _ _ _ _) as [best|] eqn:Hloop; [|discriminate].
  apply smartMix_loop_columns in Hloop; [|intro X; simpl; lia].
  unfold smartMix_fallback.
  destruct (_ && _).
  - destruct (smartMix_placeTables _ _ _ _) as [[tbls tg]|]; [|discriminate].
    intro H; injection H as <-. simpl. lia.
  - intro H; injection H as <-. apply Hloop.
Qed.
End SmartMixColumns.

(** ** Chair rows per column *)
Lemma orZ_nonzero (v : option Z) (d : Z) : d <> 0%Z -> Js.orZ v d <> 0%Z.
Proof.
  intro Hd. unfold Js.orZ. destruct v as [z|]; [|assumption].
  destruct (z =? 0)%Z eqn:E; [assumption|]. apply Z.eqb_neq, E.
Qed.

Lemma roundToRowGroups_multiple (raw rows : Z) :
  rows <> 0%Z -> Z.rem (TableCalculator.roundToRowGroups raw rows) rows = 0%Z.
Proof.
  intro Hrows. unfold TableCalculator.roundToRowGroups.
  destruct (Z.rem raw rows =? 0)%Z eqn:E; simpl.
  - apply Z.eqb_eq, E.
  - apply Z.rem_mul, Hrows.
Qed.

Lemma roundToRowGroups_le (raw rows : Z) :
  (0 < rows)%Z -> (TableCalculator.roundToRowGroups raw rows <= raw)%Z.
Proof.
  intro Hrows. unfold TableCalculator.roundToRowGroups.
  destruct (Z.rem raw rows =? 0)%Z; simpl; [lia|].
  rewrite Z.mul_comm. apply Z.mul_div_le, Hrows.
Qed.

(** C10, as stated, fails for one code path.  calculateSmartSeating rounds
    its chairs per column to a multiple of the table's [rowsPerGroup], and
    only when that is set, after raising the count to at least one, and it
    multiplies out [maxPossibleChairs] before rounding.  In [venueArea]
    (table rows grouped by 4, chair rows by 16) twenty chair rows fit by
    height: the packer's count is 16, calculateSmartSeating keeps 20, which
    is a group of 16 and a partial group of 4, and estimates 20 * 35 chairs.
    The rounding bounds what a column can hold, not what it holds: asked for
    20 chairs, placeChairsOnly fills the first column with 16 and puts the
    remaining 4, a quarter of a row group, in the second. *)
Lemma smart_seating_rounds_to_table_row_groups :
  TableCalculator.rawChairsPerColumn 625 Samples.venueArea Samples.venueChair = 20%Z
  /\ TableCalculator.maxChairsPerColumn 625 Samples.venueArea Samples.venueChair = 16%Z
  /\ Venues.smartSeating_chairMetrics Samples.venueArea = (700%Z, 20%Z)
  /\ Z.rem 20 (Js.orZ (VenueTypes.chair_rowsPerGroup Samples.venueChair) 999) <> 0%Z
  /\ exists r,
      TableCalculator.placeChairsOnly 20 Samples.venueArea [] 40 = Some r
      /\ Columns.columnCount 0 (TableCalculator.chairs r) = 16%nat
      /\ Columns.columnCount 28 (TableCalculator.chairs r) = 4%nat
      /\ List.length (TableCalculator.chairs r) = 20%nat.
Proof.
  split; [vm_compute; reflexivity|].
  split; [vm_compute; reflexivity|].
  split; [vm_compute; reflexivity|].
  split; [vm_compute; discriminate|].
  eexists. split; [vm_compute; reflexivity|].
  repeat split; vm_compute; reflexivity.
Qed.

(** C10, amended.  In placeChairsOnly and placeSmartMix (and so in the chair
    columns placeSmartMix hands to placeChairsInColumns) and in
    calculateSingleChairPositions, the maximum number of chairs per column
    is the row count that fits by height, rounded down to a whole multiple of
    the chair's [rowsPerGroup] (999 when unset) whenever it is not one
    already.  The per-column maximum is therefore always a whole number of
    row groups, never more than the raw count when [rowsPerGroup] is
    positive, and it can be strictly less (16 against 20 in [venueArea]).
    No chair column returned by placeChairsOnly or placeSmartMix holds more
    chairs than this maximum. *)
Theorem chairs_per_column_whole_row_groups :
  (forall (availableHeight : Q) (tableConfig : VenueTypes.TableConfig)
          (chair : VenueTypes.SingleChairConfig),
      let rows := Js.orZ (VenueTypes.chair_rowsPerGroup chair) 999 in
      let raw := TableCalculator.rawChairsPerColumn availableHeight tableConfig chair in
      let capped := TableCalculator.maxChairsPerColumn availableHeight tableConfig chair in
      Z.rem capped rows = 0%Z
      /\ capped = (if (Z.rem raw rows =? 0)%Z then raw else (raw / rows) * rows)%Z
      /\ ((rows <=? 0)%Z = false -> (capped <= raw)%Z))
  /\ (forall (tableConfig : VenueTypes.TableConfig) (chair : VenueTypes.SingleChairConfig),
         let rows := Js.orZ (VenueTypes.chair_rowsPerGroup chair) 999 in
         let raw := Venues.singleChairs_rawChairsPerColumn tableConfig chair in
         let capped := Venues.singleChairs_maxChairsPerColumn tableConfig chair in
         Z.rem capped rows = 0%Z
         /\ capped = (if (Z.rem raw rows =? 0)%Z then raw else (raw / rows) * rows)%Z
         /\ ((rows <=? 0)%Z = false -> (capped <= raw)%Z))
  /\ (forall (tableConfig : VenueTypes.TableConfig),
         TableCalculator.smartMix_maxChairsPerColumn tableConfig
         = match VenueTypes.singleChair tableConfig with
           | Some chair =>
               TableCalculator.maxChairsPerColumn
                 (DoorAreaUtils.maxY (VenueTypes.areaBounds tableConfig)
                  - DoorAreaUtils.minY (VenueTypes.areaBounds tableConfig))
                 tableConfig chair
           | None => 0%Z
           end)
  /\ (TableCalculator.maxChairsPerColumn 625 Samples.venueArea Samples.venueChair
      < TableCalculator.rawChairsPerColumn 625 Samples.venueArea Samples.venueChair)%Z
  /\ (forall (tableConfig : VenueTypes.TableConfig)
             (doorAreas : list DoorAreaUtils.DoorArea)
             (chair : VenueTypes.SingleChairConfig) (target : Z) (fuel : nat) (colX : Q),
         VenueTypes.singleChair tableConfig = Some chair ->
         0 <= VenueTypes.chair_spacing chair ->
         0 < VenueTypes.chair_width chair + VenueTypes.chair_spacing chair ->
         (forall r,
             TableCalculator.placeChairsOnly target tableConfig doorAreas fuel = Some r ->
             (Z.of_nat (Columns.columnCount colX (TableCalculator.chairs r))
              <= Z.max 0 (TableCalculator.maxChairsPerColumn
                            (DoorAreaUtils.maxY (VenueTypes.areaBounds tableConfig)
                             - DoorAreaUtils.minY (VenueTypes.areaBounds tableConfig))
                            tableConfig chair))%Z)
         /\ (forall r,
                TableCalculator.placeSmartMix target tableConfig doorAreas fuel = Some r ->
                (Z.of_nat (Columns.columnCount colX (TableCalculator.s_chairs r))
                 <= Z.max 0 (TableCalculator.smartMix_maxChairsPerColumn tableConfig))%Z)).
Proof.
  assert (H999 : 999%Z <> 0%Z) by discriminate.
  split; [|split; [|split; [|split]]].
  5:{ intros cfg doors chair target fuel colX Hch Hsp Hstep. split.
      - intros r Hrun. apply (placeChairsOnly_columns cfg doors chair Hch Hsp Hstep _ _ _ _ Hrun).
      - intros r Hrun. apply (placeSmartMix_columns _ cfg doors fuel chair Hch Hsp Hstep _ _ Hrun). }
  - intros H cfg chair rows raw capped.
    pose proof (orZ_nonzero (VenueTypes.chair_rowsPerGroup chair) 999 H999) as Hrows.
    fold rows in Hrows. unfold capped, TableCalculator.maxChairsPerColumn.
    fold rows raw. repeat split.
    + apply roundToRowGroups_multiple, Hrows.
    + unfold TableCalculator.roundToRowGroups. destruct (Z.rem raw rows =? 0)%Z; reflexivity.
    + intro Hpos. apply Z.leb_gt in Hpos. apply roundToRowGroups_le, Hpos.
  - intros cfg chair rows raw capped.
    pose proof (orZ_nonzero (VenueTypes.chair_rowsPerGroup chair) 999 H999) as Hrows.
    fold rows in Hrows.
    change capped with (TableCalculator.roundToRowGroups raw rows). repeat split.
    + apply roundToRowGroups_multiple, Hrows.
    + unfold TableCalculator.roundToRowGroups. destruct (Z.rem raw rows =? 0)%Z; reflexivity.
    + intro Hpos. apply Z.leb_gt in Hpos. apply roundToRowGroups_le, Hpos.
  - intro cfg. reflexivity.
  - vm_compute. reflexivity.
Qed.

Lemma chairs_per_column_whole_row_groups_witness :
  (TableCalculator.maxChairsPerColumn 625 Samples.venueArea Samples.venueChair
   <= TableCalculator.rawChairsPerColumn 625 Samples.venueArea Samples.venueChair)%Z.
Proof.
  destruct chairs_per_column_whole_row_groups as [Hpacker _].
  destruct (Hpacker 625 Samples.venueArea Samples.venueChair) as [_ [_ Hle]].
  apply Hle. vm_compute. reflexivity.
Defined.

(** ** Stage-relative table area *)

Section StageAreaProps.
Import DoorAreaUtils VenueTypes StageTablePoints StageArea.

Lemma orQ_given (q d : Q) : ~ q == 0 -> Js.orQ (Some q) d = q.
Proof.
  intro H. unfold Js.orQ. destruct (Qeq_bool q 0) eqn:E; [|reflexivity].
  apply Qeq_bool_iff in E. contradiction.
Qed.

Lemma falsy_missing (v : option Q) : falsy v = true <-> missing v.
Proof.
  unfold falsy, missing. destruct v as [q|].
  - rewrite Qeq_bool_iff. split.
    + intro H. right. exists q. split; [reflexivity|exact H].
    + intros [H|[q' [H Hz]]]; [discriminate|]. injection H as ->. exact Hz.
  - split; [intros _; left; reflexivity|reflexivity].
Qed.

Lemma orQ_givenOr (v : option Q) (d r : Q) : givenOr v d r -> Js.orQ v d = r.
Proof.
  intros [[Hm ->]|[q [-> [Hq ->]]]].
  - destruct Hm as [->|[q [-> Hz]]]; [reflexivity|].
    unfold Js.orQ. apply Qeq_bool_iff in Hz. rewrite Hz. reflexivity.
  - apply orQ_given, Hq.
Qed.

Lemma effectiveSize_footprint (stage : StageConfig) (dxf : option NaturalSize) (w h : Q) :
  footprint stage dxf w h -> effectiveSize stage dxf = (w, h).
Proof.
  intro H. unfold effectiveSize. destruct H as [dxf w h Hw Hh Hwz Hhz|size Hm|w h Hm Hw Hh].
  - rewrite Hw, Hh. cbn [falsy].
    destruct (Qeq_bool w 0) eqn:Ew; [apply Qeq_bool_iff in Ew; contradiction|].
    destruct (Qeq_bool h 0) eqn:Eh; [apply Qeq_bool_iff in Eh; contradiction|].
    cbn [orb]. rewrite !orQ_given by assumption. reflexivity.
  - assert (E : falsy (stage_width stage) || falsy (stage_height stage) = true).
    { apply orb_true_iff. destruct Hm as [Hm|Hm]; [left|right]; apply falsy_missing, Hm. }
    rewrite E. reflexivity.
  - assert (E : falsy (stage_width stage) || falsy (stage_height stage) = true).
    { apply orb_true_iff. destruct Hm as [Hm|Hm]; [left|right]; apply falsy_missing, Hm. }
    rewrite E. rewrite (orQ_givenOr _ _ _ Hw), (orQ_givenOr _ _ _ Hh). reflexivity.
Qed.

Lemma getStageRightEdge_reach (stage : StageConfig) (dxf : option NaturalSize) (w h : Q) :
  footprint stage dxf w h ->
  getStageRightEdge stage dxf == stage_x stage + reach stage w h.
Proof.
  intro H. unfold getStageRightEdge. rewrite (effectiveSize_footprint _ _ _ _ H).
  unfold reach, Js.orQ. destruct (stage_rotation stage) as [angle|].
  - destruct (Qeq_bool angle 0) eqn:E0.
    + apply Qeq_bool_iff in E0.
      assert (E90 : Qeq_bool angle 90 = false).
      { destruct (Qeq_bool angle 90) eqn:E; [|reflexivity].
        apply Qeq_bool_iff in E. rewrite E0 in E. discriminate. }
      rewrite E90. reflexivity.
    + destruct (Qeq_bool angle 90); reflexivity.
  - reflexivity.
Qed.

Lemma orQ_self (q : Q) : Js.orQ (Some q) 0 == q.
Proof.
  unfold Js.orQ. destruct (Qeq_bool q 0) eqn:E; [|reflexivity].
  apply Qeq_bool_iff in E. rewrite E. reflexivity.
Qed.

Lemma stageClearance_clearance (feet : Q) (units : option string) (c : Q) :
  clearance feet units c -> stageClearance feet units == c.
Proof.
  intro H. unfold stageClearance.
  destruct H as [| | | | | | | |units Hne Hother]; try reflexivity;
    try (cbn [String.eqb Ascii.eqb Bool.eqb]; rewrite orQ_self;
         unfold convertFeetToDXFUnits; cbn [String.eqb Ascii.eqb Bool.eqb andb];
         try reflexivity; field).
  apply String.eqb_neq in Hne. rewrite Hne. rewrite orQ_self.
  unfold convertFeetToDXFUnits, knownUnits in *.
  repeat match goal with
         | |- context [String.eqb units ?s] =>
             destruct (String.eqb_spec units s) as [->|_];
             [exfalso; apply Hother; simpl; tauto|]
         end.
  reflexivity.
Qed.

Lemma footprint_total (stage : StageConfig) (dxf : option NaturalSize) :
  exists w h, footprint stage dxf w h.
Proof.
  destruct (stage_width stage) as [w|] eqn:Hw.
  2:{ destruct dxf as [size|].
      - do 2 eexists. apply footprint_drawn. left. rewrite Hw. left. reflexivity.
      - destruct (stage_height stage) as [h|] eqn:Hh.
        + destruct (Qeq_bool h 0) eqn:Eh.
          * exists 1140, 200. apply footprint_default.
            -- left. rewrite Hw. left. reflexivity.
            -- left. split; [rewrite Hw; left; reflexivity|reflexivity].
            -- left. split; [|reflexivity]. rewrite Hh. right. exists h.
               split; [reflexivity|apply Qeq_bool_iff, Eh].
          * exists 1140, h. apply footprint_default.
            -- left. rewrite Hw. left. reflexivity.
            -- left. split; [rewrite Hw; left; reflexivity|reflexivity].
            -- right. exists h. rewrite Hh. split; [reflexivity|]. split; [|reflexivity].
               intro Hz. apply Qeq_bool_iff in Hz. congruence.
        + exists 1140, 200. apply footprint_default.
          -- left. rewrite Hw. left. reflexivity.
          -- left. split; [rewrite Hw; left; reflexivity|reflexivity].
          -- left. split; [rewrite Hh; left; reflexivity|reflexivity]. }
  destruct (Qeq_bool w 0) eqn:Ew.
  { assert (Hmw : missing (stage_width stage)).
    { rewrite Hw. right. exists w. split; [reflexivity|apply Qeq_bool_iff, Ew]. }
    destruct dxf as [size|].
    - do 2 eexists. apply footprint_drawn. left. exact Hmw.
    - destruct (stage_height stage) as [h|] eqn:Hh.
      + destruct (Qeq_bool h 0) eqn:Eh.
        * exists 1140, 200. apply footprint_default.
          -- left. exact Hmw.
          -- left. split; [exact Hmw|reflexivity].
          -- left. split; [|reflexivity]. rewrite Hh. right. exists h.
             split; [reflexivity|apply Qeq_bool_iff, Eh].
        * exists 1140, h. apply footprint_default.
          -- left. exact Hmw.
          -- left. split; [exact Hmw|reflexivity].
          -- right. exists h. rewrite Hh. split; [reflexivity|]. split; [|reflexivity].
             intro Hz. apply Qeq_bool_iff in Hz. congruence.
      + exists 1140, 200. apply footprint_default.
        -- left. exact Hmw.
        -- left. split; [exact Hmw|reflexivity].
        -- left. split; [rewrite Hh; left; reflexivity|reflexivity]. }
  assert (Hwz : ~ w == 0) by (intro Hz; apply Qeq_bool_iff in Hz; congruence).
  destruct (stage_height stage) as [h|] eqn:Hh.
  - destruct (Qeq_bool h 0) eqn:Eh.
    + assert (Hmh : missing (stage_height stage)).
      { rewrite Hh. right. exists h. split; [reflexivity|apply Qeq_bool_iff, Eh]. }
      destruct dxf as [size|].
      * do 2 eexists. apply footprint_drawn. right. exact Hmh.
      * exists w, 200. apply footprint_default.
        -- right. exact Hmh.
        -- right. exists w. rewrite Hw. repeat split; [exact Hwz].
        -- left. split; [exact Hmh|reflexivity].
    + exists w, h. apply footprint_configured; try reflexivity; try assumption.
      intro Hz. apply Qeq_bool_iff in Hz. congruence.
  - assert (Hmh : missing (stage_height stage)) by (rewrite Hh; left; reflexivity).
    destruct dxf as [size|].
    + do 2 eexists. apply footprint_drawn. right. exact Hmh.
    + exists w, 200. apply footprint_default.
      * right. exact Hmh.
      * right. exists w. rewrite Hw. repeat split; [exact Hwz].
      * left. split; [exact Hmh|reflexivity].
Qed.

Lemma clearance_total (feet : Q) (units : option string) :
  exists c, clearance feet units c.
Proof.
  destruct units as [units|]; [|eexists; constructor].
  destruct (String.eqb_spec units "") as [->|Hne]; [eexists; constructor|].
  destruct (in_dec string_dec units knownUnits) as [Hin|Hout].
  - unfold knownUnits in Hin. simpl in Hin.
    repeat (destruct Hin as [<-|Hin]; [eexists; constructor|]). contradiction.
  - eexists. apply clearance_other; assumption.
Qed.
End StageAreaProps.

(** C8.  Whatever the stage position and rotation, the adjusted area keeps
    the base area's [topRight] and [bottomRight] corners and the y of its
    two left corners; both left corners get the same x: the stage's x, plus
    half the footprint height when the rotation is 90 and half the footprint
    width otherwise, plus the clearance.  The footprint is the stage's
    configured width and height, the natural size of its drawing where one
    of them is missing, or 1140 by 200; the clearance is the configured
    distance in feet (15 from handleStageSelection) in the units of the
    drawing, 12 inches or 0.3048 metres to the foot, and nothing when the
    drawing has no units.  Every stage has a footprint and every distance a
    clearance in this sense. *)
Theorem stage_area_keeps_right_corners :
  forall (stage : StageTablePoints.StageConfig) (baseTableConfig : VenueTypes.TableConfig)
         (minDistanceFeet maxDistanceFeet : Q) (dxfUnits : option string)
         (dxf : option StageTablePoints.NaturalSize) (basePoints : VenueTypes.TableAreaPoints),
    VenueTypes.namedPoints baseTableConfig = Some basePoints ->
    (exists r,
      StageTablePoints.calculateStageTablePoints stage baseTableConfig minDistanceFeet
                                                 maxDistanceFeet dxfUnits dxf = Some r
      /\ VenueTypes.area_topRight r = VenueTypes.area_topRight basePoints
      /\ VenueTypes.area_bottomRight r = VenueTypes.area_bottomRight basePoints
      /\ DoorAreaUtils.x (VenueTypes.area_topLeft r)
         = DoorAreaUtils.x (VenueTypes.area_bottomLeft r)
      /\ DoorAreaUtils.y (VenueTypes.area_topLeft r)
         = DoorAreaUtils.y (VenueTypes.area_topLeft basePoints)
      /\ DoorAreaUtils.y (VenueTypes.area_bottomLeft r)
         = DoorAreaUtils.y (VenueTypes.area_bottomLeft basePoints)
      /\ (forall w h c,
             StageArea.footprint stage dxf w h ->
             StageArea.clearance maxDistanceFeet dxfUnits c ->
             DoorAreaUtils.x (VenueTypes.area_topLeft r)
             == StageTablePoints.stage_x stage + StageArea.reach stage w h + c))
    /\ (exists w h c,
           StageArea.footprint stage dxf w h
           /\ StageArea.clearance maxDistanceFeet dxfUnits c)
    /\ StageTablePoints.handleStageSelection stage baseTableConfig dxfUnits dxf
       = StageTablePoints.calculateStageTablePoints stage baseTableConfig 12 15 dxfUnits dxf.
Proof.
  intros stage cfg minD maxD units dxf base Hbase. split; [|split].
  - unfold StageTablePoints.calculateStageTablePoints, VenueTypes.getTableAreaPoints.
    rewrite Hbase. eexists. split; [reflexivity|]. cbn.
    do 5 (split; [reflexivity|]).
    intros w h c Hf Hc.
    rewrite (getStageRightEdge_reach _ _ _ _ Hf), (stageClearance_clearance _ _ _ Hc).
    reflexivity.
  - destruct (footprint_total stage dxf) as [w [h Hf]].
    destruct (clearance_total maxD units) as [c Hc].
    exists w, h, c. split; assumption.
  - reflexivity.
Qed.

Lemma stage_area_keeps_right_corners_witness :
  exists r,
    StageTablePoints.handleStageSelection Samples.venueStage Samples.squareTables
                                          (Some "inches"%string)
                                          (Some Samples.stageDrawing) = Some r
    /\ VenueTypes.area_topRight r = VenueTypes.area_topRight Samples.square
    /\ VenueTypes.area_bottomRight r = VenueTypes.area_bottomRight Samples.square
    /\ DoorAreaUtils.x (VenueTypes.area_topLeft r) == 950 + 200 / 2 + 15 * 12
    /\ DoorAreaUtils.x (VenueTypes.area_bottomLeft r) == 1230.
Proof.
  destruct (stage_area_keeps_right_corners Samples.venueStage Samples.squareTables 12 15
              (Some "inches"%string) (Some Samples.stageDrawing) Samples.square eq_refl)
    as [[r [Hr [Htr [Hbr [Hsame [_ [_ Hx]]]]]]] [_ Hsel]].
  exists r. rewrite Hsel. split; [exact Hr|]. split; [exact Htr|]. split; [exact Hbr|].
  assert (H : DoorAreaUtils.x (VenueTypes.area_topLeft r) == 950 + 200 / 2 + 15 * 12).
  { rewrite (Hx 1140 200 (15 * 12)).
    - reflexivity.
    - apply (StageArea.footprint_drawn Samples.venueStage Samples.stageDrawing).
      right. left. reflexivity.
    - apply StageArea.clearance_inches. }
  split; [exact H|]. rewrite <- Hsame, H. reflexivity.
Defined.

(** The venue's stage: right edge 950 + 200 / 2, clearance 15 feet in inches. *)
Example venue_stage_area_start :
  option_map (fun r => Qred (DoorAreaUtils.x (VenueTypes.area_topLeft r)))
             (StageTablePoints.handleStageSelection Samples.venueStage Samples.squareTables
                                                    (Some "inches"%string)
                                                    (Some Samples.stageDrawing))
  = Some 1230.
Proof. vm_compute. reflexivity. Qed.

(** ** Bulge arcs *)

(** C7.  With a zero bulge interpolateBulgePoints returns the two-point list
    made of [v1] and [v2] (as [Vector3], a missing z read as 0) and no
    sample point in between, for every pair of vertices and every segment
    count. *)
Theorem bulge_zero_is_straight_segment :
  forall (v1 v2 : Dxf.Point) (segments : nat),
    DxfViewer.interpolateBulgePoints v1 v2 0%R segments
    = [DxfViewer.mkVector3 (Dxf.x v1) (Dxf.y v1) (Dxf.orR (Dxf.z v1) 0%R);
       DxfViewer.mkVector3 (Dxf.x v2) (Dxf.y v2) (Dxf.orR (Dxf.z v2) 0%R)].
Proof.
  intros v1 v2 segments. unfold DxfViewer.interpolateBulgePoints.
  destruct (Req_dec_T 0%R 0%R) as [_|Hne]; [reflexivity|].
  exfalso. apply Hne. reflexivity.
Qed.

(** With any other bulge the list has [segments + 1] sample points. *)
Lemma bulge_nonzero_samples (v1 v2 : Dxf.Point) (bulge : R) (segments : nat) :
  bulge <> 0%R ->
  List.length (DxfViewer.interpolateBulgePoints v1 v2 bulge segments) = Datatypes.S segments.
Proof.
  intro Hb. unfold DxfViewer.interpolateBulgePoints.
  destruct (Req_dec_T bulge 0%R) as [He|_]; [contradiction|].
  unfold DxfViewer.arcPoints. rewrite length_map, length_seq. reflexivity.
Qed.

(** ** Nested block references in the simple extractor *)
Section NestedInserts.
Import Dxf SimpleDxfExtractor.
Local Open Scope R_scope.

Lemma orR_idempotent (v : option R) : orR (Some (orR v 0)) 0 = orR v 0.
Proof.
  unfold orR. destruct v as [r|].
  - destruct (Req_dec_T r 0) as [Hr|Hr].
    + destruct (Req_dec_T 0 0); reflexivity.
    + destruct (Req_dec_T r 0); [contradiction|reflexivity].
  - destruct (Req_dec_T 0 0); reflexivity.
Qed.

Lemma orR_nonzero (r d : R) : r <> 0 -> orR (Some r) d = r.
Proof.
  intro Hr. unfold orR. destruct (Req_dec_T r 0); [contradiction|reflexivity].
Qed.

(** What the combined transform does to a point: scale by the product of
    the scales, rotate by the sum of the rotations, then translate by the
    parent's image of the child's insertion point. *)
Lemma applyTransform_combined (parent child : EntityTransform) (pt : Point) :
  applyTransform pt (Some (combineTransforms parent child))
  = {| x := (x pt * (t_scaleX parent * t_scaleX child))
            * cos (t_rotation parent + t_rotation child)
            - (y pt * (t_scaleY parent * t_scaleY child))
              * sin (t_rotation parent + t_rotation child)
            + (t_x parent
               + (t_x child * t_scaleX parent * cos (t_rotation parent)
                  - t_y child * t_scaleY parent * sin (t_rotation parent)));
       y := (x pt * (t_scaleX parent * t_scaleX child))
            * sin (t_rotation parent + t_rotation child)
            + (y pt * (t_scaleY parent * t_scaleY child))
              * cos (t_rotation parent + t_rotation child)
            + (t_y parent
               + (t_x child * t_scaleX parent * sin (t_rotation parent)
                  + t_y child * t_scaleY parent * cos (t_rotation parent)));
       z := Some (orR (z pt) 0) |}.
Proof. reflexivity. Qed.

(** The combined transform is the composition, child first, then parent,
    as soon as the parent's two scale factors agree or the child is not
    turned off the axes: [(scaleX - scaleY) * sin (child rotation) = 0]. *)
Lemma applyTransform_composes (parent child : EntityTransform) (pt : Point) :
  (t_scaleX parent - t_scaleY parent) * sin (t_rotation child) = 0 ->
  applyTransform pt (Some (combineTransforms parent child))
  = applyTransform (applyTransform pt (Some child)) (Some parent).
Proof.
  intro Hs. rewrite applyTransform_combined.
  unfold applyTransform. cbn [x y z]. rewrite orR_idempotent.
  rewrite cos_plus, sin_plus. f_equal.
  - apply Rminus_diag_uniq.
    transitivity (((t_scaleX parent - t_scaleY parent) * sin (t_rotation child))
                  * (y pt * t_scaleY child * cos (t_rotation parent)
                     - x pt * t_scaleX child * sin (t_rotation parent)));
      [ring|rewrite Hs; ring].
  - apply Rminus_diag_uniq.
    transitivity (((t_scaleX parent - t_scaleY parent) * sin (t_rotation child))
                  * (x pt * t_scaleX child * cos (t_rotation parent)
                     + y pt * t_scaleY child * sin (t_rotation parent)));
      [ring|rewrite Hs; ring].
Qed.

(** Otherwise the two differ already at the point (1, 0), for a child that
    does not scale x by zero. *)
Lemma applyTransform_differs (parent child : EntityTransform) :
  t_scaleX child <> 0 ->
  applyTransform (mkPoint 1 0 None) (Some (combineTransforms parent child))
  = applyTransform (applyTransform (mkPoint 1 0 None) (Some child)) (Some parent) ->
  (t_scaleX parent - t_scaleY parent) * sin (t_rotation child) = 0.
Proof.
  intros Hc Heq. rewrite applyTransform_combined in Heq.
  unfold applyTransform in Heq. cbn [x y z] in Heq.
  rewrite cos_plus, sin_plus in Heq.
  injection Heq as Hx Hy.
  set (d := (t_scaleX parent - t_scaleY parent) * sin (t_rotation child)).
  assert (H1 : d * t_scaleX child * sin (t_rotation parent) = 0).
  { unfold d. apply Rminus_diag_eq in Hx. ring_simplify in Hx. ring_simplify.
    lra. }
  assert (H2 : d * t_scaleX child * cos (t_rotation parent) = 0).
  { unfold d. apply Rminus_diag_eq in Hy. ring_simplify in Hy. ring_simplify.
    lra. }
  assert (H3 : (d * t_scaleX child) * (d * t_scaleX child) = 0).
  { pose proof (sin2_cos2 (t_rotation parent)) as Hsc. unfold Rsqr in Hsc.
    transitivity ((d * t_scaleX child) * (d * t_scaleX child)
                  * (sin (t_rotation parent) * sin (t_rotation parent)
                     + cos (t_rotation parent) * cos (t_rotation parent)));
      [rewrite Hsc; ring|].
    transitivity ((d * t_scaleX child * sin (t_rotation parent))
                  * (d * t_scaleX child * sin (t_rotation parent))
                  + (d * t_scaleX child * cos (t_rotation parent))
                    * (d * t_scaleX child * cos (t_rotation parent))); [ring|].
    rewrite H1, H2. ring. }
  apply Rmult_integral in H3.
  assert (H4 : d * t_scaleX child = 0) by (destruct H3; assumption).
  apply Rmult_integral in H4. destruct H4 as [H4|H4]; [exact H4|contradiction].
Qed.

Lemma orR_one_nonzero (v : option R) : orR v 1 <> 0.
Proof.
  unfold orR. destruct v as [r|]; [|lra].
  destruct (Req_dec_T r 0); [lra|assumption].
Qed.

Lemma insertTransform_scaleX_nonzero (e : Entity) (blockName : string) (ip : bool) :
  t_scaleX (insertTransform e blockName ip) <> 0.
Proof.
  unfold insertTransform. cbn [t_scaleX].
  pose proof (orR_one_nonzero (scaleX_of e)) as H.
  destruct (isScaledBlock blockName); intro Hz; apply Rmult_integral in Hz;
    destruct Hz as [Hz|Hz]; try contradiction; lra.
Qed.

Lemma dispatch_insert insertCase (e : Entity) (result : list SimpleDxfEntity)
      (t : option EntityTransform) :
  etype e = "INSERT"%string -> dispatch insertCase e result t = insertCase e result t.
Proof. intro H. unfold dispatch. rewrite H. reflexivity. Qed.

Lemma dispatch_line insertCase (e : Entity) (result : list SimpleDxfEntity)
      (t : option EntityTransform) :
  etype e = "LINE"%string -> dispatch insertCase e result t = Some (processLine e result t).
Proof. intro H. unfold dispatch. rewrite H. reflexivity. Qed.

(** Entering one block: the INSERT names a block of the table that has an
    entity list. *)
Lemma processInsert_enter (fuel : nat) (dxf : Document) (ignorePosition : bool)
      (e : Entity) (result : list SimpleDxfEntity) (parentT : option EntityTransform)
      (table : list (string * Block)) (blockName : string) (blockEntities : list Entity) :
  name e = Some blockName -> blockName <> ""%string ->
  doc_blocks dxf = Some table ->
  lookupBlock table blockName = Some (mkBlock (Some blockEntities)) ->
  processInsert (S fuel) dxf ignorePosition e result parentT
  = forEachEntity
      (fun blockEntity acc =>
         dispatch (processInsert fuel dxf ignorePosition) blockEntity acc
                  (Some match parentT with
                        | Some parent =>
                            combineTransforms parent
                                              (insertTransform e blockName ignorePosition)
                        | None => insertTransform e blockName ignorePosition
                        end))
      blockEntities result.
Proof.
  intros Hname Hne Hblocks Hlook. cbn [processInsert].
  rewrite Hname. apply String.eqb_neq in Hne. rewrite Hne, Hblocks, Hlook.
  reflexivity.
Qed.

Variable dxf : Document.
Variable table : list (string * Block).
Variables outer inner line : Entity.
Variables outerName innerName : string.
Variable vs : list Point.
Variable ignorePosition : bool.

Hypothesis blocks_present : doc_blocks dxf = Some table.
Hypothesis outer_name : name outer = Some outerName.
Hypothesis outer_name_given : outerName <> ""%string.
Hypothesis outer_block : lookupBlock table outerName = Some (mkBlock (Some [inner])).
Hypothesis inner_insert : etype inner = "INSERT"%string.
Hypothesis inner_name : name inner = Some innerName.
Hypothesis inner_name_given : innerName <> ""%string.
Hypothesis inner_block : lookupBlock table innerName = Some (mkBlock (Some [line])).
Hypothesis line_type : etype line = "LINE"%string.
Hypothesis line_vertices : vertices line = Some vs.
Hypothesis two_vertices : atLeastTwo (Some vs) = true.

Let parent := insertTransform outer outerName ignorePosition.
Let child := insertTransform inner innerName ignorePosition.

Lemma processLine_vertices (result : list SimpleDxfEntity) (t : option EntityTransform) :
  processLine line result t
  = result ++ [mkSimple "LINE" (map (fun v => applyTransform v t) vs)
                        (layer line) (color line)].
Proof.
  unfold processLine. rewrite line_vertices.
  destruct vs as [|a [|b rest]]; try discriminate. reflexivity.
Qed.

Lemma nested_insert_flattens (fuel : nat) (result : list SimpleDxfEntity) :
  processInsert (S (S fuel)) dxf ignorePosition outer result None
  = Some (result
          ++ [mkSimple "LINE"
                       (map (fun v => applyTransform v (Some (combineTransforms parent child)))
                            vs)
                       (layer line) (color line)]).
Proof.
  rewrite (processInsert_enter _ _ _ _ _ _ table outerName [inner]) by assumption.
  cbn [forEachEntity]. rewrite dispatch_insert by assumption.
  rewrite (processInsert_enter _ _ _ _ _ _ table innerName [line]) by assumption.
  cbn [forEachEntity]. rewrite dispatch_line by assumption.
  rewrite processLine_vertices. reflexivity.
Qed.
End NestedInserts.

Section NestedInsertExamples.
Import Dxf SimpleDxfExtractor SampleDrawings.
Local Open Scope R_scope.

Lemma orR_zero_zero : orR (Some 0) 0 = 0.
Proof. unfold orR. destruct (Req_dec_T 0 0); reflexivity. Qed.

Lemma outerInsert_transform :
  insertTransform outerInsert "A" false = mkTransform 0 0 2 1 0.
Proof.
  unfold insertTransform, outerInsert, insertOf, scaleX_of, scaleY_of.
  cbn [position scale rotation x y scale_x scale_y].
  change (isScaledBlock "A") with false. cbv iota.
  rewrite orR_zero_zero, !orR_nonzero by lra.
  f_equal; try ring. unfold orR, Rdiv. ring.
Qed.

Lemma innerInsert_transform :
  insertTransform innerInsert "B" false = mkTransform 0 0 1 1 (PI / 2).
Proof.
  unfold insertTransform, innerInsert, insertOf, scaleX_of, scaleY_of.
  cbn [position scale rotation x y scale_x scale_y].
  change (isScaledBlock "B") with false. cbv iota.
  rewrite orR_zero_zero, orR_nonzero by lra.
  f_equal; try (unfold orR; ring). field.
Qed.

Lemma uniformOuterInsert_transform :
  insertTransform uniformOuterInsert "A" false = mkTransform 5 7 2 2 (PI / 2).
Proof.
  unfold insertTransform, uniformOuterInsert, insertOf, scaleX_of, scaleY_of.
  cbn [position scale rotation x y scale_x scale_y].
  change (isScaledBlock "A") with false. cbv iota.
  rewrite !orR_nonzero by lra.
  f_equal; try ring. field.
Qed.
Lemma stretchedTurnedInsert_transform :
  insertTransform stretchedTurnedInsert "A" false = mkTransform 5 7 2 1 (PI / 2).
Proof.
  unfold insertTransform, stretchedTurnedInsert, insertOf, scaleX_of, scaleY_of.
  cbn [position scale rotation x y scale_x scale_y].
  change (isScaledBlock "A") with false. cbv iota.
  rewrite !orR_nonzero by lra.
  f_equal; try ring. field.
Qed.

Lemma shiftedInsert_transform :
  insertTransform shiftedInsert "B" false = mkTransform 3 0 1 1 0.
Proof.
  unfold insertTransform, shiftedInsert, insertOf, scaleX_of, scaleY_of.
  cbn [position scale rotation x y scale_x scale_y].
  change (isScaledBlock "B") with false. cbv iota.
  rewrite orR_zero_zero, orR_nonzero by lra.
  f_equal; try (unfold orR; ring). unfold orR, Rdiv. ring.
Qed.
End NestedInsertExamples.

(** ** The renderer: what a handler leaves untouched *)
Section RendererBasics.
Import Dxf.
Local Open Scope R_scope.

Lemma updateLayerBounds_frame (layerName : string) (pts : list Point)
      (p : AdvancedDxfRenderer.Processor) :
  AdvancedDxfRenderer.centerX (AdvancedDxfRenderer.updateLayerBounds layerName pts p)
  = AdvancedDxfRenderer.centerX p
  /\ AdvancedDxfRenderer.centerY (AdvancedDxfRenderer.updateLayerBounds layerName pts p)
     = AdvancedDxfRenderer.centerY p
  /\ AdvancedDxfRenderer.lineBatches (AdvancedDxfRenderer.updateLayerBounds layerName pts p)
     = AdvancedDxfRenderer.lineBatches p.
Proof.
  unfold AdvancedDxfRenderer.updateLayerBounds.
  destruct (String.eqb layerName ""); [auto|].
  destruct pts as [|a rest]; [auto|].
  destruct (fold_left _ _ _); auto.
Qed.

Lemma renderer_dispatch_insert insertCase (e : Entity) (p : AdvancedDxfRenderer.Processor) :
  etype e = "INSERT"%string ->
  AdvancedDxfRenderer.dispatch insertCase e p
  = insertCase e (AdvancedDxfRenderer.getColor e) (AdvancedDxfRenderer.layerOf e) p.
Proof. intro H. unfold AdvancedDxfRenderer.dispatch. rewrite H. reflexivity. Qed.
End RendererBasics.
(** ** Nested block references in the renderer *)
Section RendererNestedInserts.
Import Dxf.
Local Open Scope R_scope.

Lemma updateLayerBounds_lineBatches (layerName : string) (pts : list Point)
      (p : AdvancedDxfRenderer.Processor) :
  AdvancedDxfRenderer.lineBatches (AdvancedDxfRenderer.updateLayerBounds layerName pts p)
  = AdvancedDxfRenderer.lineBatches p.
Proof. apply updateLayerBounds_frame. Qed.

Lemma updateLayerBounds_centerX (layerName : string) (pts : list Point)
      (p : AdvancedDxfRenderer.Processor) :
  AdvancedDxfRenderer.centerX (AdvancedDxfRenderer.updateLayerBounds layerName pts p)
  = AdvancedDxfRenderer.centerX p.
Proof. apply updateLayerBounds_frame. Qed.

Lemma updateLayerBounds_centerY (layerName : string) (pts : list Point)
      (p : AdvancedDxfRenderer.Processor) :
  AdvancedDxfRenderer.centerY (AdvancedDxfRenderer.updateLayerBounds layerName pts p)
  = AdvancedDxfRenderer.centerY p.
Proof. apply updateLayerBounds_frame. Qed.

Lemma renderer_processInsert_enter (fuel : nat) (dxf : Document) (e : Entity)
      (colour layerName : string) (p : AdvancedDxfRenderer.Processor)
      (table : list (string * Block)) (blockName : string) (pos : Point)
      (first : Entity) (others : list Entity) :
  position e = Some pos ->
  name e = Some blockName ->
  doc_blocks dxf = Some table ->
  lookupBlock table blockName = Some (mkBlock (Some (first :: others))) ->
  AdvancedDxfRenderer.processInsert (S fuel) dxf e colour layerName p
  = AdvancedDxfRenderer.forEachEntity
      (AdvancedDxfRenderer.blockEntityStep
         (AdvancedDxfRenderer.processInsert fuel dxf)
         (AdvancedDxfRenderer.blockPointMap e blockName pos) colour layerName)
      (first :: others)
      (AdvancedDxfRenderer.updateLayerBounds layerName [pos] p).
Proof.
  intros Hpos Hname Hblocks Hlook. cbn [AdvancedDxfRenderer.processInsert].
  rewrite Hpos. unfold AdvancedDxfRenderer.findBlock, AdvancedDxfRenderer.blockKey.
  rewrite Hname, Hblocks, Hlook. reflexivity.
Qed.

Lemma blockPointMap_moved (f : Point -> Point) (e : Entity) (blockName : string)
      (pos : Point) :
  AdvancedDxfRenderer.blockPointMap (AdvancedDxfRenderer.transformEntity f e) blockName pos
  = AdvancedDxfRenderer.blockPointMap e blockName pos.
Proof. reflexivity. Qed.

Variable dxf : Document.
Variable table : list (string * Block).
Variables outer inner line : Entity.
Variables outerName innerName : string.
Variables outerAt innerAt a b : Point.

Hypothesis blocks_present : doc_blocks dxf = Some table.
Hypothesis outer_insert : etype outer = "INSERT"%string.
Hypothesis outer_name : name outer = Some outerName.
Hypothesis outer_position : position outer = Some outerAt.
Hypothesis outer_block : lookupBlock table outerName = Some (mkBlock (Some [inner])).
Hypothesis inner_insert : etype inner = "INSERT"%string.
Hypothesis inner_name : name inner = Some innerName.
Hypothesis inner_position : position inner = Some innerAt.
Hypothesis inner_block : lookupBlock table innerName = Some (mkBlock (Some [line])).
Hypothesis line_type : etype line = "LINE"%string.
Hypothesis line_start : start line = Some a.
Hypothesis line_end : end_ line = Some b.

(** Where the renderer puts a point of the inner block: the inner INSERT's
    own scale and rotation, about the image of its insertion point under
    the outer INSERT. *)
Let drawn : Point -> Point :=
  AdvancedDxfRenderer.blockPointMap
    inner innerName
    (AdvancedDxfRenderer.blockPointMap outer outerName outerAt innerAt).

Lemma renderer_nested_insert (fuel : nat) (p : AdvancedDxfRenderer.Processor) :
  exists p',
    AdvancedDxfRenderer.processEntity (S (S fuel)) dxf outer p = AdvancedDxfRenderer.Done p'
    /\ AdvancedDxfRenderer.lineBatches p'
       = AdvancedDxfRenderer.pushBatch
           (AdvancedDxfRenderer.lineBatches p)
           (AdvancedDxfRenderer.getColor line)
           [AdvancedDxfRenderer.toPrecise (x (drawn a) - AdvancedDxfRenderer.centerX p);
            AdvancedDxfRenderer.toPrecise (y (drawn a) - AdvancedDxfRenderer.centerY p);
            0;
            AdvancedDxfRenderer.toPrecise (x (drawn b) - AdvancedDxfRenderer.centerX p);
            AdvancedDxfRenderer.toPrecise (y (drawn b) - AdvancedDxfRenderer.centerY p);
            0].
Proof.
  eexists. split.
  - unfold AdvancedDxfRenderer.processEntity.
    rewrite renderer_dispatch_insert by assumption.
    rewrite (renderer_processInsert_enter _ _ _ _ _ _ table outerName outerAt inner [])
      by assumption.
    cbn [AdvancedDxfRenderer.forEachEntity AdvancedDxfRenderer.bind].
    unfold AdvancedDxfRenderer.blockEntityStep at 1.
    cbn [AdvancedDxfRenderer.transformEntity etype]. rewrite inner_insert.
    cbn [String.eqb Ascii.eqb Bool.eqb].
    rewrite (renderer_processInsert_enter
               _ _ _ _ _ _ table innerName
               (AdvancedDxfRenderer.blockPointMap outer outerName outerAt innerAt) line []);
      [|cbn [AdvancedDxfRenderer.transformEntity position]; rewrite inner_position;
        reflexivity
       |exact inner_name|exact blocks_present|exact inner_block].
    rewrite blockPointMap_moved. fold drawn.
    cbn [AdvancedDxfRenderer.forEachEntity AdvancedDxfRenderer.bind].
    unfold AdvancedDxfRenderer.blockEntityStep, AdvancedDxfRenderer.dispatch.
    cbn [AdvancedDxfRenderer.transformEntity etype vertices controlPoints].
    rewrite line_type. cbn [String.eqb Ascii.eqb Bool.eqb orb andb].
    reflexivity.
  - unfold AdvancedDxfRenderer.processLine.
    cbn [AdvancedDxfRenderer.transformEntity start end_].
    rewrite line_start, line_end. cbn [option_map].
    rewrite updateLayerBounds_lineBatches.
    unfold AdvancedDxfRenderer.segment, AdvancedDxfRenderer.addLine,
      AdvancedDxfRenderer.centred, AdvancedDxfRenderer.transformPoint.
    cbn [AdvancedDxfRenderer.lineBatches AdvancedDxfRenderer.px AdvancedDxfRenderer.py].
    rewrite !updateLayerBounds_lineBatches, !updateLayerBounds_centerX,
      !updateLayerBounds_centerY.
    reflexivity.
Qed.
End RendererNestedInserts.

Section RendererNestedExample.
Import Dxf SampleDrawings.
Local Open Scope R_scope.

Lemma quarter_turn : 90 * PI / 180 = PI / 2.
Proof. field. Qed.

Lemma uniformOuterInsert_pointMap (at_ pt : Point) :
  AdvancedDxfRenderer.blockPointMap uniformOuterInsert "A" at_ pt
  = mkPoint (- (2 * y pt) + x at_) (2 * x pt + y at_) None.
Proof.
  unfold AdvancedDxfRenderer.blockPointMap, AdvancedDxfRenderer.transformBlockPoint,
    uniformOuterInsert, insertOf, scaleX_of, scaleY_of.
  cbn [scale rotation scale_x scale_y].
  change (isScaledBlock "A") with false. cbv iota.
  rewrite !orR_nonzero by lra. rewrite quarter_turn, sin_PI2, cos_PI2.
  f_equal; ring.
Qed.

Lemma innerInsert_pointMap (at_ pt : Point) :
  AdvancedDxfRenderer.blockPointMap innerInsert "B" at_ pt
  = mkPoint (- y pt + x at_) (x pt + y at_) None.
Proof.
  unfold AdvancedDxfRenderer.blockPointMap, AdvancedDxfRenderer.transformBlockPoint,
    innerInsert, insertOf, scaleX_of, scaleY_of.
  cbn [scale rotation].
  change (isScaledBlock "B") with false. cbv iota.
  rewrite orR_nonzero by lra. rewrite quarter_turn, sin_PI2, cos_PI2.
  unfold orR. f_equal; ring.
Qed.
End RendererNestedExample.


(** C6, as stated, fails for a parent that scales x and y differently.
    Block A inserts block B turned by 90 degrees, B holds a line that
    starts at (1, 0), and the drawing inserts A stretched by 2 along x only.
    Child first, then parent, sends (1, 0) to (0, 1); the flattener scales by
    the product of the scales and then rotates by the sum of the rotations,
    and returns (0, 2).  The renderer's processInsert moves only the
    insertion point of a nested INSERT by the parent and draws the inner
    block with the child's own scale and rotation: with the parent scaled by
    2 both ways, turned by 90 degrees and placed at (5, 7), it puts (1, 0)
    at (5, 8), where child first, then parent, gives (3, 7). *)
Lemma nested_insert_stretched_parent :
  exists out v w,
    SimpleDxfExtractor.processEntity 2 SampleDrawings.nestedDrawing false
                                     SampleDrawings.outerInsert [] None = Some [out]
    /\ SimpleDxfExtractor.s_vertices out = [v; w]
    /\ Dxf.y v = 2%R
    /\ Dxf.y (SimpleDxfExtractor.applyTransform
                (SimpleDxfExtractor.applyTransform
                   (Dxf.mkPoint 1 0 None)
                   (Some (SimpleDxfExtractor.insertTransform SampleDrawings.innerInsert "B" false)))
                (Some (SimpleDxfExtractor.insertTransform SampleDrawings.outerInsert "A" false)))
       = 1%R
    /\ exists p' a b,
        AdvancedDxfRenderer.processEntity 2 SampleDrawings.renderedDrawing
                                          SampleDrawings.uniformOuterInsert
                                          (AdvancedDxfRenderer.newProcessor 0 0)
        = AdvancedDxfRenderer.Done p'
        /\ AdvancedDxfRenderer.lineBatches p'
           = [("#000000"%string,
               [AdvancedDxfRenderer.toPrecise (Dxf.x a - 0);
                AdvancedDxfRenderer.toPrecise (Dxf.y a - 0); 0;
                AdvancedDxfRenderer.toPrecise (Dxf.x b - 0);
                AdvancedDxfRenderer.toPrecise (Dxf.y b - 0); 0])]%R
        /\ Dxf.x a = 5%R /\ Dxf.y a = 8%R
        /\ AdvancedDxfRenderer.blockPointMap
             SampleDrawings.uniformOuterInsert "A" (Dxf.mkPoint 5 7 None)
             (AdvancedDxfRenderer.blockPointMap
                SampleDrawings.innerInsert "B" (Dxf.mkPoint 0 0 None) (Dxf.mkPoint 1 0 None))
           = Dxf.mkPoint 3 7 None.
Proof.
  do 3 eexists. split; [|split; [|split; [|split]]].
  - unfold SimpleDxfExtractor.processEntity.
    rewrite dispatch_insert by reflexivity.
    assert (Hflat := fun H1 H2 H3 H4 H5 H6 H7 H8 H9 H10 H11 =>
              nested_insert_flattens
                SampleDrawings.nestedDrawing
                [("A"%string, Dxf.mkBlock (Some [SampleDrawings.innerInsert]));
                 ("B"%string, Dxf.mkBlock (Some [SampleDrawings.unitLine]))]
                SampleDrawings.outerInsert SampleDrawings.innerInsert SampleDrawings.unitLine
                "A" "B" [Dxf.mkPoint 1 0 None; Dxf.mkPoint 0 0 None] false
                H1 H2 H3 H4 H5 H6 H7 H8 H9 H10 H11 0%nat []).
    cbn [app] in Hflat. apply Hflat; try reflexivity; discriminate.
  - reflexivity.
  - rewrite outerInsert_transform, innerInsert_transform.
    rewrite applyTransform_combined. cbn [Dxf.x Dxf.y SimpleDxfExtractor.t_x
      SimpleDxfExtractor.t_y SimpleDxfExtractor.t_scaleX SimpleDxfExtractor.t_scaleY
      SimpleDxfExtractor.t_rotation].
    rewrite Rplus_0_l, sin_PI2, cos_PI2, sin_0, cos_0. ring.
  - rewrite outerInsert_transform, innerInsert_transform.
    unfold SimpleDxfExtractor.applyTransform.
    cbn [Dxf.x Dxf.y SimpleDxfExtractor.t_x
      SimpleDxfExtractor.t_y SimpleDxfExtractor.t_scaleX SimpleDxfExtractor.t_scaleY
      SimpleDxfExtractor.t_rotation].
    rewrite sin_PI2, cos_PI2, sin_0, cos_0. ring.
  - destruct (renderer_nested_insert
                SampleDrawings.renderedDrawing
                [("A"%string, Dxf.mkBlock (Some [SampleDrawings.innerInsert]));
                 ("B"%string, Dxf.mkBlock (Some [SampleDrawings.segmentLine]))]
                SampleDrawings.uniformOuterInsert SampleDrawings.innerInsert
                SampleDrawings.segmentLine "A" "B"
                (Dxf.mkPoint 5 7 None) (Dxf.mkPoint 0 0 None)
                (Dxf.mkPoint 1 0 None) (Dxf.mkPoint 0 0 None)
                eq_refl eq_refl eq_refl eq_refl eq_refl eq_refl eq_refl eq_refl eq_refl
                eq_refl eq_refl eq_refl 0%nat (AdvancedDxfRenderer.newProcessor 0 0))
      as [p' [Hrun Hlines]].
    exists p'. do 2 eexists. split; [exact Hrun|]. split; [exact Hlines|].
    rewrite !uniformOuterInsert_pointMap, !innerInsert_pointMap. cbn [Dxf.x Dxf.y].
    repeat split; try ring. f_equal; ring.
Qed.

(** C6, amended.  For a two-level nested INSERT (the drawing inserts block
    A, A inserts block B, B holds a line), the simple extractor returns the
    line with every vertex sent through the child's scale-rotate-translate
    and then through the parent's, for any translations, any child scale
    (uniform or not) and any rotations (90 degrees included), provided the
    parent's stretch does not meet a turned child:
    [(scaleX - scaleY) * sin (child rotation) = 0] for the parent's factors,
    that is a parent that scales x and y alike, or a child turned by a
    multiple of 180 degrees.  The condition is exact: the flattener scales
    by the product of the factors and rotates by the sum of the angles,
    and that is the composition at every point if and only if the
    condition holds. *)
Theorem nested_insert_composes_when_scale_commutes :
  forall (dxf : Dxf.Document) (table : list (string * Dxf.Block))
         (outer inner line : Dxf.Entity) (outerName innerName : string)
         (vs : list Dxf.Point) (ignorePosition : bool) (fuel : nat)
         (result : list SimpleDxfExtractor.SimpleDxfEntity),
    Dxf.doc_blocks dxf = Some table ->
    Dxf.etype outer = "INSERT"%string ->
    Dxf.name outer = Some outerName -> outerName <> ""%string ->
    Dxf.lookupBlock table outerName = Some (Dxf.mkBlock (Some [inner])) ->
    Dxf.etype inner = "INSERT"%string ->
    Dxf.name inner = Some innerName -> innerName <> ""%string ->
    Dxf.lookupBlock table innerName = Some (Dxf.mkBlock (Some [line])) ->
    Dxf.etype line = "LINE"%string ->
    Dxf.vertices line = Some vs ->
    SimpleDxfExtractor.atLeastTwo (Some vs) = true ->
    let parent := SimpleDxfExtractor.insertTransform outer outerName ignorePosition in
    let child := SimpleDxfExtractor.insertTransform inner innerName ignorePosition in
    let commutes :=
      ((SimpleDxfExtractor.t_scaleX parent - SimpleDxfExtractor.t_scaleY parent)
       * sin (SimpleDxfExtractor.t_rotation child) = 0)%R in
    (commutes ->
     SimpleDxfExtractor.processEntity (S (S fuel)) dxf ignorePosition outer result None
     = Some (result
             ++ [SimpleDxfExtractor.mkSimple
                   "LINE"
                   (map (fun v =>
                           SimpleDxfExtractor.applyTransform
                             (SimpleDxfExtractor.applyTransform v (Some child))
                             (Some parent))
                        vs)
                   (Dxf.layer line) (Dxf.color line)]))
    /\ ((forall v : Dxf.Point,
            SimpleDxfExtractor.applyTransform
              v (Some (SimpleDxfExtractor.combineTransforms parent child))
            = SimpleDxfExtractor.applyTransform
                (SimpleDxfExtractor.applyTransform v (Some child)) (Some parent))
        <-> commutes).
Proof.
  intros dxf table outer inner line outerName innerName vs ip fuel result
         Hblocks Houter Hon Hone Hob Hinner Hin Hine Hib Hline Hvs Htwo parent child commutes.
  split.
  - intro Hc. unfold SimpleDxfExtractor.processEntity.
    rewrite dispatch_insert by assumption.
    rewrite (nested_insert_flattens dxf table outer inner line outerName innerName vs ip)
      by assumption.
    do 4 f_equal. apply map_ext. intro v.
    apply applyTransform_composes, Hc.
  - split.
    + intro Hall. apply (applyTransform_differs parent child).
      * apply insertTransform_scaleX_nonzero.
      * apply Hall.
    + intros Hc v. apply applyTransform_composes, Hc.
Qed.

Lemma nested_insert_composes_when_scale_commutes_witness :
  SimpleDxfExtractor.processEntity 2 SampleDrawings.stretchedDrawing false
                                   SampleDrawings.stretchedTurnedInsert [] None
  = Some [SimpleDxfExtractor.mkSimple
            "LINE"
            (map (fun v =>
                    SimpleDxfExtractor.applyTransform
                      (SimpleDxfExtractor.applyTransform
                         v (Some (SimpleDxfExtractor.insertTransform
                                    SampleDrawings.shiftedInsert "B" false)))
                      (Some (SimpleDxfExtractor.insertTransform
                               SampleDrawings.stretchedTurnedInsert "A" false)))
                 [Dxf.mkPoint 1 0 None; Dxf.mkPoint 0 0 None])
            None None].
Proof.
  destruct (nested_insert_composes_when_scale_commutes
              SampleDrawings.stretchedDrawing
              [("A"%string, Dxf.mkBlock (Some [SampleDrawings.shiftedInsert]));
               ("B"%string, Dxf.mkBlock (Some [SampleDrawings.unitLine]))]
              SampleDrawings.stretchedTurnedInsert SampleDrawings.shiftedInsert
              SampleDrawings.unitLine "A" "B"
              [Dxf.mkPoint 1 0 None; Dxf.mkPoint 0 0 None] false 0%nat [])
    as [Hrun _]; try reflexivity; try discriminate.
  apply Hrun.
  rewrite stretchedTurnedInsert_transform, shiftedInsert_transform.
  cbn [SimpleDxfExtractor.t_scaleX SimpleDxfExtractor.t_scaleY SimpleDxfExtractor.t_rotation].
  rewrite sin_0. ring.
Defined.

(** In that sample the start (1, 0) of the line ends at (5, 15): moved to
    (4, 0) by the child, stretched to (8, 0), turned to (0, 8) and moved by
    (5, 7) by the parent. *)
Example nested_insert_stretched_sample :
  let image := SimpleDxfExtractor.applyTransform
                 (SimpleDxfExtractor.applyTransform
                    (Dxf.mkPoint 1 0 None)
                    (Some (SimpleDxfExtractor.insertTransform SampleDrawings.shiftedInsert "B" false)))
                 (Some (SimpleDxfExtractor.insertTransform SampleDrawings.stretchedTurnedInsert
                                                           "A" false)) in
  Dxf.x image = 5%R /\ Dxf.y image = 15%R.
Proof.
  cbv zeta. rewrite stretchedTurnedInsert_transform, shiftedInsert_transform.
  unfold SimpleDxfExtractor.applyTransform.
  cbn [Dxf.x Dxf.y SimpleDxfExtractor.t_x SimpleDxfExtractor.t_y
       SimpleDxfExtractor.t_scaleX SimpleDxfExtractor.t_scaleY
       SimpleDxfExtractor.t_rotation].
  rewrite sin_PI2, cos_PI2, sin_0, cos_0. split; ring.
Qed.

(** In the uniform sample (parent: scale 2, turned by 90 degrees, at (5, 7);
    child: turned by 90 degrees) the start (1, 0) of the line ends at
    (3, 7): a half turn and a doubling, then the translation. *)
Example nested_insert_uniform_sample :
  let image := SimpleDxfExtractor.applyTransform
                 (SimpleDxfExtractor.applyTransform
                    (Dxf.mkPoint 1 0 None)
                    (Some (SimpleDxfExtractor.insertTransform SampleDrawings.innerInsert
                                                              "B" false)))
                 (Some (SimpleDxfExtractor.insertTransform SampleDrawings.uniformOuterInsert
                                                           "A" false)) in
  Dxf.x image = 3%R /\ Dxf.y image = 7%R.
Proof.
  cbv zeta. rewrite uniformOuterInsert_transform, innerInsert_transform.
  unfold SimpleDxfExtractor.applyTransform.
  cbn [Dxf.x Dxf.y SimpleDxfExtractor.t_x SimpleDxfExtractor.t_y
       SimpleDxfExtractor.t_scaleX SimpleDxfExtractor.t_scaleY
       SimpleDxfExtractor.t_rotation].
  rewrite sin_PI2, cos_PI2. split; ring.
Qed.

(** ** INSERTs of missing blocks *)
Section MissingBlocks.
Import Dxf.
Local Open Scope R_scope.

Lemma renderer_placeholder (fuel : nat) (dxf : Document) (e : Entity) (pos : Point)
      (blockName colour layerName : string) (p : AdvancedDxfRenderer.Processor) :
  position e = Some pos ->
  name e = Some blockName ->
  missingOrEmpty (blockOf dxf blockName) ->
  AdvancedDxfRenderer.processInsert fuel dxf e colour layerName p
  = AdvancedDxfRenderer.Done
      (AdvancedDxfRenderer.createPlaceholder
         pos colour (AdvancedDxfRenderer.updateLayerBounds layerName [pos] p)).
Proof.
  intros Hpos Hname Hblock.
  assert (Hfind : AdvancedDxfRenderer.findBlock dxf e = blockOf dxf blockName).
  { unfold AdvancedDxfRenderer.findBlock, AdvancedDxfRenderer.blockKey, blockOf.
    rewrite Hname. reflexivity. }
  destruct fuel; cbn [AdvancedDxfRenderer.processInsert]; rewrite Hpos, Hfind;
    destruct (blockOf dxf blockName) as [b|]; try reflexivity;
    destruct Hblock as [-> | ->]; reflexivity.
Qed.

Lemma extractor_skips (fuel : nat) (dxf : Document) (ignorePosition : bool) (e : Entity)
      (blockName : string)
      (result : list SimpleDxfExtractor.SimpleDxfEntity)
      (t : option SimpleDxfExtractor.EntityTransform) :
  name e = Some blockName ->
  missingOrEmpty (blockOf dxf blockName) ->
  SimpleDxfExtractor.processInsert fuel dxf ignorePosition e result t = Some result.
Proof.
  intros Hname Hblock. unfold blockOf in Hblock.
  destruct fuel; cbn [SimpleDxfExtractor.processInsert]; rewrite Hname;
    destruct (String.eqb blockName ""); try reflexivity;
    destruct (doc_blocks dxf) as [table|]; try reflexivity;
    destruct (lookupBlock table blockName) as [b|]; try reflexivity;
    destruct Hblock as [-> | ->]; reflexivity.
Qed.
End MissingBlocks.

(** C9, as stated, fails for the simple extractor: its processInsert returns
    at once when the block is missing and emits nothing.  The drawing holds
    an INSERT of an undefined block followed by a line; the flattened list
    holds the line only. *)
Lemma extractor_emits_no_placeholder :
  SimpleDxfExtractor.extractEntities 0 SampleDrawings.danglingDrawing false
  = Some [SimpleDxfExtractor.mkSimple "LINE" [Dxf.mkPoint 1 0 None; Dxf.mkPoint 0 0 None]
                                      None None]
  /\ Dxf.blockOf SampleDrawings.danglingDrawing "MISSING" = None.
Proof. split; reflexivity. Qed.

(** C9, amended.  An INSERT whose named block is absent from the block table,
    or present without entities, does not make a flattener throw, whatever
    the fuel, and the traversal goes on with the remaining entities.  The
    renderer's EntityProcessor, when the INSERT has a position, records the
    position in the layer bounds and emits the placeholder: two segments of
    half-length 50, one horizontal and one vertical, crossing at the
    insertion point taken relative to the drawing centre; without a position
    it leaves the state as it is.  The simple extractor emits nothing for
    such an INSERT.  The renderer collects segments and layer boxes in
    plain objects: its part of the statement is for an INSERT whose colour
    and lower-cased layer name are not names of inherited properties and
    whose layer name is ASCII. *)
Theorem missing_block_is_not_fatal :
  forall (fuel : nat) (dxf : Dxf.Document) (e : Dxf.Entity) (blockName : string)
         (rest : list Dxf.Entity),
    Dxf.etype e = "INSERT"%string ->
    Dxf.name e = Some blockName ->
    Dxf.missingOrEmpty (Dxf.blockOf dxf blockName) ->
    (* the renderer *)
    (forall (pos : Dxf.Point) (p : AdvancedDxfRenderer.Processor),
        Dxf.position e = Some pos ->
        Js.inheritedKey (AdvancedDxfRenderer.getColor e) = false ->
        Js.asciiOnly (AdvancedDxfRenderer.layerOf e) = true ->
        Js.inheritedKey (AdvancedDxfRenderer.toLowerCase (AdvancedDxfRenderer.layerOf e))
        = false ->
        let marked :=
          AdvancedDxfRenderer.createPlaceholder
            pos (AdvancedDxfRenderer.getColor e)
            (AdvancedDxfRenderer.updateLayerBounds (AdvancedDxfRenderer.layerOf e) [pos] p) in
        let cx := AdvancedDxfRenderer.toPrecise (Dxf.x pos - AdvancedDxfRenderer.centerX p) in
        let cy := AdvancedDxfRenderer.toPrecise (Dxf.y pos - AdvancedDxfRenderer.centerY p) in
        AdvancedDxfRenderer.processEntity fuel dxf e p = AdvancedDxfRenderer.Done marked
        /\ AdvancedDxfRenderer.lineBatches marked
           = AdvancedDxfRenderer.pushBatch
               (AdvancedDxfRenderer.pushBatch
                  (AdvancedDxfRenderer.lineBatches p) (AdvancedDxfRenderer.getColor e)
                  [cx - 50; cy; 0; cx + 50; cy; 0]%R)
               (AdvancedDxfRenderer.getColor e)
               [cx; cy - 50; 0; cx; cy + 50; 0]%R
        /\ AdvancedDxfRenderer.processAll fuel dxf (e :: rest) p
           = AdvancedDxfRenderer.processAll fuel dxf rest marked)
    (* the renderer, INSERT without a position: nothing happens *)
    /\ (forall (p : AdvancedDxfRenderer.Processor),
           Dxf.position e = None ->
           AdvancedDxfRenderer.processEntity fuel dxf e p = AdvancedDxfRenderer.Done p
           /\ AdvancedDxfRenderer.processAll fuel dxf (e :: rest) p
              = AdvancedDxfRenderer.processAll fuel dxf rest p)
    (* the simple extractor *)
    /\ (forall (ignorePosition : bool) (result : list SimpleDxfExtractor.SimpleDxfEntity)
               (t : option SimpleDxfExtractor.EntityTransform),
           SimpleDxfExtractor.processEntity fuel dxf ignorePosition e result t = Some result
           /\ SimpleDxfExtractor.forEachEntity
                (fun entity acc =>
                   SimpleDxfExtractor.processEntity fuel dxf ignorePosition entity acc t)
                (e :: rest) result
              = SimpleDxfExtractor.forEachEntity
                  (fun entity acc =>
                     SimpleDxfExtractor.processEntity fuel dxf ignorePosition entity acc t)
                  rest result).
Proof.
  intros fuel dxf e blockName rest Htype Hname Hblock. split; [|split].
  2:{ intros p Hpos.
      assert (Hrun : AdvancedDxfRenderer.processEntity fuel dxf e p
                     = AdvancedDxfRenderer.Done p).
      { unfold AdvancedDxfRenderer.processEntity.
        rewrite renderer_dispatch_insert by assumption.
        destruct fuel; cbn [AdvancedDxfRenderer.processInsert]; rewrite Hpos; reflexivity. }
      split; [exact Hrun|].
      unfold AdvancedDxfRenderer.processAll.
      cbn [AdvancedDxfRenderer.forEachEntity]. rewrite Hrun. reflexivity. }
  - intros pos p Hpos _ _ _ marked cx cy.
    assert (Hrun : AdvancedDxfRenderer.processEntity fuel dxf e p
                   = AdvancedDxfRenderer.Done marked).
    { unfold AdvancedDxfRenderer.processEntity.
      rewrite renderer_dispatch_insert by assumption.
      apply (renderer_placeholder fuel dxf e pos blockName); assumption. }
    split; [exact Hrun|]. split.
    + unfold marked, AdvancedDxfRenderer.createPlaceholder, AdvancedDxfRenderer.cross,
        AdvancedDxfRenderer.addLine, AdvancedDxfRenderer.centred,
        AdvancedDxfRenderer.transformPoint.
      cbn [AdvancedDxfRenderer.lineBatches AdvancedDxfRenderer.px AdvancedDxfRenderer.py].
      destruct (updateLayerBounds_frame (AdvancedDxfRenderer.layerOf e) [pos] p)
        as [-> [-> ->]].
      reflexivity.
    + unfold AdvancedDxfRenderer.processAll.
      cbn [AdvancedDxfRenderer.forEachEntity]. rewrite Hrun. reflexivity.
  - intros ip result t.
    assert (Hrun : SimpleDxfExtractor.processEntity fuel dxf ip e result t = Some result).
    { unfold SimpleDxfExtractor.processEntity. rewrite dispatch_insert by assumption.
      apply (extractor_skips fuel dxf ip e blockName); assumption. }
    split; [exact Hrun|].
    cbn [SimpleDxfExtractor.forEachEntity]. rewrite Hrun. reflexivity.
Qed.

Lemma missing_block_is_not_fatal_witness :
  AdvancedDxfRenderer.processAll 0 SampleDrawings.danglingDrawing
    [SampleDrawings.danglingInsert; SampleDrawings.unitLine]
    (AdvancedDxfRenderer.newProcessor 0 0)
  = AdvancedDxfRenderer.processAll 0 SampleDrawings.danglingDrawing
      [SampleDrawings.unitLine]
      (AdvancedDxfRenderer.createPlaceholder
         (Dxf.mkPoint 3 4 None) (AdvancedDxfRenderer.getColor SampleDrawings.danglingInsert)
         (AdvancedDxfRenderer.updateLayerBounds
            (AdvancedDxfRenderer.layerOf SampleDrawings.danglingInsert)
            [Dxf.mkPoint 3 4 None] (AdvancedDxfRenderer.newProcessor 0 0))).
Proof.
  destruct (missing_block_is_not_fatal 0 SampleDrawings.danglingDrawing
                                       SampleDrawings.danglingInsert "MISSING"
                                       [SampleDrawings.unitLine]
                                       eq_refl eq_refl I) as [Hrenderer _].
  apply (Hrenderer (Dxf.mkPoint 3 4 None) (AdvancedDxfRenderer.newProcessor 0 0)
                   eq_refl eq_refl eq_refl eq_refl).
Defined.

(* ================================================================== *)
(** * Part III: further properties of the embedded code *)
(* ================================================================== *)

(** ** Counters of the column loops *)
Section SchemaCounts.
Import DoorAreaUtils VenueTypes TableCalculator ColumnSchema.
Variable doorAreas : list DoorArea.
Variables unitWidth skipSpacing step : Q.
Variable mkObject : Q -> Q -> ObjectBox.
Variable guestsPerUnit : Z.
Variable yOf : Z -> Q.
Variable fits : ColState -> Q -> bool.
Variable rowCond : ColState -> bool.
Variable rows : nat.
Variable bump : ColState -> ColState.
Hypothesis bump_placed : forall st, placed (bump st) = placed st.
Hypothesis bump_guests : forall st, currentGuests (bump st) = currentGuests st.
Hypothesis bump_index : forall st, unitIndex (bump st) = unitIndex st.

Let row := schemaRow doorAreas mkObject guestsPerUnit yOf fits.
Let body := schemaBody doorAreas unitWidth skipSpacing step mkObject guestsPerUnit
                       yOf fits rowCond rows bump.

(** The guest counter and the index counter follow the list of placed
    units, and the units are numbered in the order of placement. *)
Let counted (st : ColState) : Prop :=
  currentGuests st = (Z.of_nat (List.length (placed st)) * guestsPerUnit)%Z
  /\ unitIndex st = Z.of_nat (List.length (placed st))
  /\ map p_index (placed st) = map Z.of_nat (seq 0 (List.length (placed st))).

Lemma schemaRow_counted (i : Z) (st : ColState) : counted st -> counted (row i st).
Proof.
  intros [Hg [Hi Hseq]]. unfold row, schemaRow.
  destruct (fits _ _); [|repeat split; assumption].
  destruct (negb _); [|repeat split; assumption].
  unfold counted. cbn [pushUnit placed currentGuests unitIndex].
  rewrite length_app. cbn [List.length].
  replace (List.length (placed st) + 1)%nat with (Datatypes.S (List.length (placed st)))
    by lia.
  repeat split.
  - rewrite Hg, Nat2Z.inj_succ. ring.
  - rewrite Hi, Nat2Z.inj_succ. ring.
  - rewrite map_app, seq_S, map_app, Hseq. cbn [map p_index]. rewrite Hi. reflexivity.
Qed.

Lemma schemaBody_counted (st : ColState) : counted st -> counted (body st).
Proof.
  intro Hst. unfold body, schemaBody.
  destruct (columnOverlapsDoor _ _ _); [exact Hst|].
  cbv zeta.
  assert (Hrows : counted (Js.forUpTo rowCond row rows 0 st)).
  { apply forUpTo_invariant; [|exact Hst]. intros j s Hs _. apply schemaRow_counted, Hs. }
  fold row. destruct Hrows as [Hg [Hi Hseq]].
  unfold counted. cbn [setX placed currentGuests unitIndex].
  rewrite bump_placed, bump_guests, bump_index. repeat split; assumption.
Qed.

Lemma schemaLoop_counted (cond : ColState -> bool) (fuel : nat) (start : Q) (st : ColState) :
  Js.while cond body fuel (initState start) = Some st -> counted st.
Proof.
  intro Hrun.
  apply (while_invariant cond body counted) in Hrun.
  - apply Hrun.
  - intros s Hs _. apply schemaBody_counted, Hs.
  - repeat split; reflexivity.
Qed.
End SchemaCounts.

(** ** What every entry point of the packer counts *)
Section PackerCounts.
Import DoorAreaUtils VenueTypes TableCalculator ColumnSchema Counts.
Variable tableConfig : TableConfig.
Variable doorAreas : list DoorArea.

Lemma tablesOnly_loop_counted (target : Z) (fuel : nat) (st : ColState) :
  tablesOnly_loop target tableConfig doorAreas fuel = Some st ->
  currentGuests st = (Z.of_nat (List.length (placed st)) * chairsPerTable tableConfig)%Z
  /\ numbered (placed st).
Proof.
  unfold tablesOnly_loop. rewrite tablesOnly_body_schema. intro Hrun.
  apply schemaLoop_counted in Hrun; try reflexivity.
  destruct Hrun as [Hg [_ Hseq]]. split; assumption.
Qed.

Lemma chairsOnly_loop_counted (target : Z) (chair : SingleChairConfig) (fuel : nat)
      (st : ColState) :
  chairsOnly_loop target tableConfig doorAreas chair fuel = Some st ->
  currentGuests st = Z.of_nat (List.length (placed st)) /\ numbered (placed st).
Proof.
  unfold chairsOnly_loop. rewrite chairsOnly_body_schema. intro Hrun.
  apply schemaLoop_counted in Hrun; try reflexivity.
  destruct Hrun as [Hg [_ Hseq]]. split; [lia|assumption].
Qed.

Lemma placeTablesInColumns_counted (numColumns : Z) (bounds : Bounds) (maxRows rpg : Z)
      (rgs : Q) (fuel : nat) (tbls : list Placed) (guests : Z) :
  placeTablesInColumns numColumns tableConfig doorAreas bounds maxRows rpg rgs fuel
  = Some (tbls, guests) ->
  guests = (Z.of_nat (List.length tbls) * chairsPerTable tableConfig)%Z /\ numbered tbls.
Proof.
  unfold placeTablesInColumns.
  destruct (tablesInColumns_loop _ _ _ _ _ _ _ _) as [st|] eqn:Hrun; [|discriminate].
  intro H. injection H as <- <-. split; [reflexivity|].
  unfold tablesInColumns_loop in Hrun. rewrite tablesInColumns_body_schema in Hrun.
  apply schemaLoop_counted in Hrun; try reflexivity. apply Hrun.
Qed.

Lemma placeChairsInColumns_counted (numColumns maxGuests : Z) (bounds : Bounds)
      (maxRows : Z) (startAt : Q) (fuel : nat) (chrs : list Placed) (guests : Z) :
  placeChairsInColumns numColumns maxGuests tableConfig doorAreas bounds maxRows startAt fuel
  = Some (chrs, guests) ->
  guests = Z.of_nat (List.length chrs) /\ numbered chrs
  /\ (singleChair tableConfig = None -> chrs = []).
Proof.
  unfold placeChairsInColumns.
  destruct (singleChair tableConfig) as [chair|].
  - destruct (chairsInColumns_loop _ _ _ _ _ _ _ _ _) as [st|] eqn:Hrun; [|discriminate].
    intro H. injection H as <- <-.
    unfold chairsInColumns_loop in Hrun. rewrite chairsInColumns_body_schema in Hrun.
    apply schemaLoop_counted in Hrun; try reflexivity.
    destruct Hrun as [Hg [_ Hseq]]. repeat split; [lia|assumption|discriminate].
  - intro H. injection H as <- <-. repeat split; reflexivity.
Qed.
End PackerCounts.

(** ** Filling up with chairs never passes the target (any [bump]) *)
Section SchemaFill.
Import DoorAreaUtils VenueTypes TableCalculator ColumnSchema.
Variable doorAreas : list DoorArea.
Variables unitWidth skipSpacing step : Q.
Variable mkObject : Q -> Q -> ObjectBox.
Variable yOf : Z -> Q.
Variable fits : ColState -> Q -> bool.
Variable rows : nat.
Variable limit : Z.
Variable bump : ColState -> ColState.
Hypothesis bump_guests : forall st, currentGuests (bump st) = currentGuests st.

Let rowCond (s : ColState) : bool := (currentGuests s <? limit)%Z.
Let body := schemaBody doorAreas unitWidth skipSpacing step mkObject 1
                       yOf fits rowCond rows bump.

Lemma schemaBody_fill (st : ColState) :
  (currentGuests st <= Z.max limit 0)%Z -> (currentGuests (body st) <= Z.max limit 0)%Z.
Proof.
  intro Hst. unfold body, schemaBody.
  destruct (columnOverlapsDoor _ _ _); [exact Hst|].
  cbv zeta. cbn [setX currentGuests]. rewrite bump_guests.
  apply (forUpTo_invariant rowCond _ (fun s => (currentGuests s <= Z.max limit 0)%Z));
    [|exact Hst].
  intros i s Hs Hc. unfold rowCond in Hc. apply Z.ltb_lt in Hc.
  unfold schemaRow. destruct (fits _ _); [|assumption].
  destruct (negb _); [|assumption]. simpl. lia.
Qed.

Lemma schemaLoop_fill (cond : ColState -> bool) (fuel : nat) (start : Q) (st : ColState) :
  Js.while cond body fuel (initState start) = Some st ->
  (currentGuests st <= Z.max limit 0)%Z.
Proof.
  intro Hrun.
  apply (while_invariant cond body (fun s => (currentGuests s <= Z.max limit 0)%Z)) in Hrun.
  - apply Hrun.
  - intros s Hs _. apply schemaBody_fill, Hs.
  - simpl. lia.
Qed.
End SchemaFill.

(** ** What the smart mix records *)
Section SmartMixCounts.
Import DoorAreaUtils VenueTypes TableCalculator Counts.
Variable targetGuestCount : Z.
Variable tableConfig : TableConfig.
Variable doorAreas : list DoorArea.
Variable fuel : nat.

Let sound := Counts.sound targetGuestCount tableConfig.

Lemma tablesOnly_solution_sound (tbls : list Placed) (gap : option Z) :
  numbered tbls ->
  sound (mkSolution tbls [] (Z.of_nat (List.length tbls) * chairsPerTable tableConfig) gap).
Proof.
  intro Hn. unfold sound, Counts.sound, seatsOf. cbn [s_actualGuests s_tables s_chairs List.length].
  split; [lia|]. split; [assumption|]. split; [reflexivity|].
  split; [reflexivity|intro H; contradiction].
Qed.

Lemma smartMix_iter_sound (tableColumns : Z) (best best' : Solution) (brk : bool) :
  sound best ->
  smartMix_iter targetGuestCount tableConfig doorAreas fuel tableColumns best
  = Some (best', brk) ->
  sound best'.
Proof.
  intros Hbest. unfold smartMix_iter.
  destruct (smartMix_placeTables _ _ _ _) as [[tbls tg]|] eqn:Ht; [|discriminate].
  apply placeTablesInColumns_counted in Ht. destruct Ht as [-> Hnt].
  destruct (_ <=? 0)%Z eqn:Hrem.
  { destruct (gapLt _ _); intro H; injection H as <- _; [|assumption].
    apply tablesOnly_solution_sound, Hnt. }
  apply Z.leb_gt in Hrem.
  destruct (singleChair tableConfig) as [chair|] eqn:Hch.
  2:{ intro H; injection H as <- _; assumption. }
  destruct (0 <? _)%Z.
  - destruct (placeChairsInColumns _ _ _ _ _ _ _ _) as [[chrs cg]|] eqn:Hc; [|discriminate].
    pose proof (placeChairsInColumns_guests_le _ _ _ _ _ _ _ _ _ _ Hc) as Hle.
    apply placeChairsInColumns_counted in Hc. destruct Hc as [-> [Hnc _]].
    destruct (_ || _); intro H; injection H as <- _; [|assumption].
    unfold sound, Counts.sound, seatsOf. cbn [s_actualGuests s_tables s_chairs].
    split; [reflexivity|]. split; [assumption|]. split; [assumption|].
    split; [intro Hnone; congruence|intros _; lia].
  - destruct (_ <? _)%Z; intro H; injection H as <- _; [|assumption].
    apply tablesOnly_solution_sound, Hnt.
Qed.

Lemma smartMix_loop_sound (n : nat) (best r : Solution) :
  sound best ->
  smartMix_loop targetGuestCount tableConfig doorAreas fuel n best = Some r ->
  sound r.
Proof.
  revert best. induction n as [|k IH]; intros best Hbest; simpl.
  - intro H; injection H as <-; assumption.
  - destruct (smartMix_iter _ _ _ _ _ _) as [[best' brk]|] eqn:Hit; [|discriminate].
    apply smartMix_iter_sound in Hit; [|assumption].
    destruct brk.
    + intro H; injection H as <-; assumption.
    + apply IH, Hit.
Qed.

Lemma placeSmartMix_sound (r : Solution) :
  placeSmartMix targetGuestCount tableConfig doorAreas fuel = Some r ->
  s_actualGuests r = seatsOf tableConfig (s_tables r) (s_chairs r)
  /\ numbered (s_tables r) /\ numbered (s_chairs r)
  /\ (singleChair tableConfig = None -> s_chairs r = [])
  /\ (s_chairs r <> [] -> (s_actualGuests r <= targetGuestCount)%Z).
Proof.
  unfold placeSmartMix.
  destruct (smartMix_loop _ _ _ _ _ _) as [best|] eqn:Hloop; [|discriminate].
  apply smartMix_loop_sound in Hloop.
  2:{ unfold sound, Counts.sound, seatsOf. cbn. split; [reflexivity|]. split; [reflexivity|].
      split; [reflexivity|]. split; [reflexivity|intro H; contradiction]. }
  unfold smartMix_fallback.
  destruct (_ && _).
  - destruct (smartMix_placeTables _ _ _ _) as [[tbls tg]|] eqn:Ht; [|discriminate].
    apply placeTablesInColumns_counted in Ht. destruct Ht as [-> Hnt].
    intro H; injection H as <-. apply tablesOnly_solution_sound, Hnt.
  - intro H; injection H as <-. exact Hloop.
Qed.

Lemma seatingFor_sound (r : SeatingResult) :
  (0 < targetGuestCount)%Z ->
  seatingFor targetGuestCount tableConfig doorAreas fuel = Some r ->
  actualGuests r = seatsOf tableConfig (tables r) (chairs r)
  /\ numbered (tables r) /\ numbered (chairs r)
  /\ (singleChair tableConfig = None -> chairs r = [])
  /\ (chairs r <> [] -> (actualGuests r <= targetGuestCount)%Z).
Proof.
  intro Hpos. unfold seatingFor.
  assert (Hauto : option_map seatingResultOf
                             (placeSmartMix targetGuestCount tableConfig doorAreas fuel)
                  = Some r ->
                  actualGuests r = seatsOf tableConfig (tables r) (chairs r)
                  /\ numbered (tables r) /\ numbered (chairs r)
                  /\ (singleChair tableConfig = None -> chairs r = [])
                  /\ (chairs r <> [] -> (actualGuests r <= targetGuestCount)%Z)).
  { destruct (placeSmartMix _ _ _ _) as [s|] eqn:Hs; [|discriminate].
    intro H; injection H as <-. apply placeSmartMix_sound, Hs. }
  destruct (seatingMode tableConfig) as [[| |]|]; try exact Hauto.
  - unfold placeTablesOnly.
    destruct (tablesOnly_loop _ _ _ _) as [st|] eqn:Hrun; [|discriminate].
    intro H; injection H as <-. cbn [tables chairs actualGuests].
    apply tablesOnly_loop_counted in Hrun. destruct Hrun as [Hg Hn].
    unfold seatsOf. cbn [List.length].
    split; [lia|]. split; [assumption|]. split; [reflexivity|].
    split; [reflexivity|intro H; contradiction].
  - unfold placeChairsOnly.
    destruct (singleChair tableConfig) as [chair|] eqn:Hch.
    + destruct (chairsOnly_loop _ _ _ _ _) as [st|] eqn:Hrun; [|discriminate].
      intro H; injection H as <-. cbn [tables chairs actualGuests].
      pose proof (chairsOnly_loop_counted _ _ _ _ _ _ Hrun) as [Hg Hn].
      unfold chairsOnly_loop in Hrun. rewrite chairsOnly_body_schema in Hrun.
      apply schemaLoop_fill in Hrun; [|reflexivity].
      unfold seatsOf. cbn [List.length].
      split; [lia|]. split; [reflexivity|]. split; [assumption|].
      split; [intro Hnone; congruence|intros _; lia].
    + intro H; injection H as <-. unfold seatsOf. cbn.
      split; [reflexivity|]. split; [reflexivity|]. split; [reflexivity|].
      split; [reflexivity|intro H; contradiction].
Qed.
End SmartMixCounts.

(** ** The objects and the summary of an arrangement *)
Section ArrangementObjects.
Import DoorAreaUtils VenueTypes TableCalculator TableArrangement Counts.
Variable tableConfig : TableConfig.

Lemma filter_all {A : Type} (f : A -> bool) (l : list A) :
  Forall (fun a => f a = true) l -> filter f l = l.
Proof.
  induction 1 as [|a l Ha _ IH]; [reflexivity|]. simpl. rewrite Ha, IH. reflexivity.
Qed.

Lemma filter_none {A : Type} (f : A -> bool) (l : list A) :
  Forall (fun a => f a = false) l -> filter f l = [].
Proof.
  induction 1 as [|a l Ha _ IH]; [reflexivity|]. simpl. rewrite Ha, IH. reflexivity.
Qed.

Lemma tableObjects_are_tables (tbls : list Placed) :
  Forall (fun o => isTable o = true /\ isChair o = false)
         (map (tableHallObject tableConfig) tbls).
Proof. apply Forall_map. apply Forall_forall. intros t _. split; reflexivity. Qed.

Lemma chairObjects_are_chairs (chrs : list Placed) :
  Forall (fun o => isTable o = false /\ isChair o = true)
         (flat_map (chairHallObjects tableConfig) chrs).
Proof.
  apply Forall_forall. intros o Ho. apply in_flat_map in Ho.
  destruct Ho as [c [_ Ho]]. unfold chairHallObjects in Ho.
  destruct (singleChair tableConfig); [|contradiction].
  destruct Ho as [<-|[]]. split; reflexivity.
Qed.

Lemma chairObjects_length (chrs : list Placed) :
  (singleChair tableConfig = None -> chrs = []) ->
  List.length (flat_map (chairHallObjects tableConfig) chrs) = List.length chrs.
Proof.
  intro Hnone. unfold chairHallObjects.
  destruct (singleChair tableConfig) as [chair|].
  - clear Hnone. induction chrs as [|c l IH]; [reflexivity|]. simpl. rewrite IH. reflexivity.
  - rewrite (Hnone eq_refl). reflexivity.
Qed.

Lemma objects_tables (tbls chrs : list Placed) :
  filter isTable (map (tableHallObject tableConfig) tbls
                  ++ flat_map (chairHallObjects tableConfig) chrs)
  = map (tableHallObject tableConfig) tbls.
Proof.
  rewrite filter_app.
  rewrite (filter_all isTable (map (tableHallObject tableConfig) tbls)).
  - rewrite (filter_none isTable (flat_map (chairHallObjects tableConfig) chrs)).
    + apply app_nil_r.
    + eapply Forall_impl; [|apply chairObjects_are_chairs]. cbv beta. intros o [H _]. exact H.
  - eapply Forall_impl; [|apply tableObjects_are_tables]. cbv beta. intros o [H _]. exact H.
Qed.

Lemma objects_chairs (tbls chrs : list Placed) :
  filter isChair (map (tableHallObject tableConfig) tbls
                  ++ flat_map (chairHallObjects tableConfig) chrs)
  = flat_map (chairHallObjects tableConfig) chrs.
Proof.
  rewrite filter_app.
  rewrite (filter_none isChair (map (tableHallObject tableConfig) tbls)).
  - rewrite (filter_all isChair (flat_map (chairHallObjects tableConfig) chrs)).
    + reflexivity.
    + eapply Forall_impl; [|apply chairObjects_are_chairs]. cbv beta. intros o [_ H]. exact H.
  - eapply Forall_impl; [|apply tableObjects_are_tables]. cbv beta. intros o [_ H]. exact H.
Qed.

Lemma objects_cleared (tbls chrs : list Placed) :
  clearTableArrangement (map (tableHallObject tableConfig) tbls
                         ++ flat_map (chairHallObjects tableConfig) chrs) = [].
Proof.
  unfold clearTableArrangement. apply filter_none. apply Forall_app. split.
  - eapply Forall_impl; [|apply tableObjects_are_tables]. cbv beta. intros o [-> _].
    reflexivity.
  - eapply Forall_impl; [|apply chairObjects_are_chairs]. cbv beta. intros o [-> ->].
    reflexivity.
Qed.

(** What [calculateTableArrangement] returns, in terms of the seating it
    computed. *)
Lemma calculateTableArrangement_inv (guestCount : Z) (doorAreas : list DoorArea)
      (fuel : nat) (objects : list HallObject) (arrangement : Arrangement) :
  calculateTableArrangement guestCount tableConfig doorAreas fuel
  = Some (objects, arrangement) ->
  exists tbls chrs,
    objects = map (tableHallObject tableConfig) tbls
              ++ flat_map (chairHallObjects tableConfig) chrs
    /\ arrangement
       = mkArrangement (Z.of_nat (List.length tbls))
                       (Z.of_nat (List.length tbls) * chairsPerTable tableConfig)
                       (Z.of_nat (List.length chrs))
                       (seatsOf tableConfig tbls chrs)
    /\ numbered tbls /\ numbered chrs
    /\ (singleChair tableConfig = None -> chrs = [])
    /\ (chrs <> [] -> (seatsOf tableConfig tbls chrs <= guestCount)%Z).
Proof.
  unfold calculateTableArrangement.
  destruct (guestCount <=? 0)%Z eqn:Hg.
  - intro H; injection H as <- <-. exists [], []. unfold seatsOf. cbn.
    split; [reflexivity|]. split; [reflexivity|]. split; [reflexivity|].
    split; [reflexivity|]. split; [reflexivity|intro H; contradiction].
  - apply Z.leb_gt in Hg.
    destruct (seatingFor guestCount tableConfig doorAreas fuel) as [r|] eqn:Hseat;
      [|discriminate].
    intro H; injection H as <- <-.
    destruct (seatingFor_sound _ _ _ _ _ Hg Hseat) as [Hsum [Hnt [Hnc [Hnone Hle]]]].
    exists (tables r), (chairs r). rewrite <- Hsum.
    split; [reflexivity|]. split; [reflexivity|]. repeat split; assumption.
Qed.
End ArrangementObjects.

Lemma calculateTableArrangement_counts
      (guestCount : Z) (tableConfig : VenueTypes.TableConfig)
      (doorAreas : list DoorAreaUtils.DoorArea) (fuel : nat)
      (objects : list TableCalculator.HallObject)
      (arrangement : TableCalculator.Arrangement) :
  TableCalculator.calculateTableArrangement guestCount tableConfig doorAreas fuel
  = Some (objects, arrangement) ->
  TableCalculator.totalChairs arrangement
  = (TableCalculator.totalTables arrangement * VenueTypes.chairsPerTable tableConfig)%Z
  /\ TableCalculator.totalGuests arrangement
     = (TableCalculator.totalChairs arrangement
        + TableCalculator.totalSingleChairs arrangement)%Z
  /\ Z.of_nat (List.length (filter TableArrangement.isTable objects))
     = TableCalculator.totalTables arrangement
  /\ Z.of_nat (List.length (filter TableArrangement.isChair objects))
     = TableCalculator.totalSingleChairs arrangement
  /\ Z.of_nat (List.length objects)
     = (TableCalculator.totalTables arrangement
        + TableCalculator.totalSingleChairs arrangement)%Z.
Proof.
  intro Hrun.
  destruct (calculateTableArrangement_inv tableConfig guestCount doorAreas fuel
              objects arrangement Hrun)
    as [tbls [chrs [-> [-> [_ [_ [Hnone _]]]]]]].
  cbn [TableCalculator.totalChairs TableCalculator.totalTables
       TableCalculator.totalGuests TableCalculator.totalSingleChairs].
  rewrite objects_tables, objects_chairs, length_app, length_map,
    (chairObjects_length tableConfig chrs Hnone).
  unfold Counts.seatsOf. repeat split; lia.
Qed.

(** X1.  Whatever the mode, the doors and the area, the summary of an
    arrangement adds up and matches the objects returned with it: the seats
    at tables are the tables times [chairsPerTable], the total is the seats
    at tables plus the single chairs, the table objects and the chair
    objects are as many as the summary says, and there is no other object. *)
Theorem arrangement_counts_add_up :
  forall (guestCount : Z) (tableConfig : VenueTypes.TableConfig)
         (doorAreas : list DoorAreaUtils.DoorArea) (fuel : nat)
         (objects : list TableCalculator.HallObject)
         (arrangement : TableCalculator.Arrangement),
    TableCalculator.calculateTableArrangement guestCount tableConfig doorAreas fuel
    = Some (objects, arrangement) ->
    TableCalculator.totalChairs arrangement
    = (TableCalculator.totalTables arrangement * VenueTypes.chairsPerTable tableConfig)%Z
    /\ TableCalculator.totalGuests arrangement
       = (TableCalculator.totalChairs arrangement
          + TableCalculator.totalSingleChairs arrangement)%Z
    /\ Z.of_nat (List.length (filter TableArrangement.isTable objects))
       = TableCalculator.totalTables arrangement
    /\ Z.of_nat (List.length (filter TableArrangement.isChair objects))
       = TableCalculator.totalSingleChairs arrangement
    /\ Z.of_nat (List.length objects)
       = (TableCalculator.totalTables arrangement
          + TableCalculator.totalSingleChairs arrangement)%Z.
Proof.
  intros g cfg doors fuel objects arr. apply calculateTableArrangement_counts.
Qed.

Lemma arrangement_counts_add_up_witness :
  exists objects arrangement,
    TableCalculator.calculateTableArrangement 9 Samples.mixArea [Samples.rightDoor] 3
    = Some (objects, arrangement)
    /\ TableCalculator.totalGuests arrangement
       = (TableCalculator.totalChairs arrangement
          + TableCalculator.totalSingleChairs arrangement)%Z
    /\ Z.of_nat (List.length objects)
       = (TableCalculator.totalTables arrangement
          + TableCalculator.totalSingleChairs arrangement)%Z.
Proof.
  eexists. eexists. split; [vm_compute; reflexivity|].
  match goal with
  | |- TableCalculator.totalGuests ?a = _ /\ Z.of_nat (List.length ?o) = _ =>
      destruct (arrangement_counts_add_up 9 Samples.mixArea [Samples.rightDoor] 3 o a)
        as [_ [H2 [_ [_ H5]]]]; [vm_compute; reflexivity|split; assumption]
  end.
Defined.

(** X2.  The statistics that the store recomputes from the objects agree
    with the summary the calculator returned with them, provided
    [chairsPerTable] is not zero (for zero the statistics fall back to eight
    seats per table). *)
Theorem stats_match_arrangement :
  forall (guestCount : Z) (tableConfig : VenueTypes.TableConfig)
         (doorAreas : list DoorAreaUtils.DoorArea) (fuel : nat)
         (objects : list TableCalculator.HallObject)
         (arrangement : TableCalculator.Arrangement) (shown : option Z),
    VenueTypes.chairsPerTable tableConfig <> 0%Z ->
    TableCalculator.calculateTableArrangement guestCount tableConfig doorAreas fuel
    = Some (objects, arrangement) ->
    TableArrangement.getTableArrangementStats objects (Some tableConfig) shown
    = TableArrangement.mkStats (TableCalculator.totalTables arrangement)
                               (TableCalculator.totalChairs arrangement)
                               (TableCalculator.totalSingleChairs arrangement)
                               (TableCalculator.totalGuests arrangement).
Proof.
  intros g cfg doors fuel objects arr shown Hcpt Hrun.
  destruct (calculateTableArrangement_counts g cfg doors fuel objects arr Hrun)
    as [Hchairs [Hguests [Ht [Hc _]]]].
  unfold TableArrangement.getTableArrangementStats.
  rewrite Ht, Hc. unfold Js.orZ.
  destruct (VenueTypes.chairsPerTable cfg =? 0)%Z eqn:E.
  - apply Z.eqb_eq in E. contradiction.
  - rewrite <- Hchairs, <- Hguests. reflexivity.
Qed.

Lemma stats_match_arrangement_witness :
  exists objects arrangement,
    TableCalculator.calculateTableArrangement 30 Samples.fourTables [] 2
    = Some (objects, arrangement)
    /\ TableArrangement.getTableArrangementStats objects (Some Samples.fourTables) None
       = TableArrangement.mkStats 4 32 0 32.
Proof.
  eexists. eexists. split; [vm_compute; reflexivity|].
  match goal with
  | |- TableArrangement.getTableArrangementStats ?o _ _ = _ =>
      apply (stats_match_arrangement 30 Samples.fourTables [] 2 o
               (TableCalculator.mkArrangement 4 32 0 32) None);
        [simpl; discriminate|vm_compute; reflexivity]
  end.
Defined.

(** X3.  Single chairs only fill up to the requested number of guests: an
    arrangement that holds a single chair never seats more than was asked
    for, in any mode.  (Only whole tables can take the total past the
    request.) *)
Theorem single_chairs_never_overshoot :
  forall (guestCount : Z) (tableConfig : VenueTypes.TableConfig)
         (doorAreas : list DoorAreaUtils.DoorArea) (fuel : nat)
         (objects : list TableCalculator.HallObject)
         (arrangement : TableCalculator.Arrangement),
    TableCalculator.calculateTableArrangement guestCount tableConfig doorAreas fuel
    = Some (objects, arrangement) ->
    (0 < TableCalculator.totalSingleChairs arrangement)%Z ->
    (TableCalculator.totalGuests arrangement <= guestCount)%Z.
Proof.
  intros g cfg doors fuel objects arr Hrun Hchairs.
  destruct (calculateTableArrangement_inv cfg g doors fuel objects arr Hrun)
    as [tbls [chrs [_ [-> [_ [_ [_ Hle]]]]]]].
  cbn [TableCalculator.totalGuests TableCalculator.totalSingleChairs] in *.
  apply Hle. intro Hnil. rewrite Hnil in Hchairs. simpl in Hchairs. lia.
Qed.

Lemma single_chairs_never_overshoot_witness :
  exists objects arrangement,
    TableCalculator.calculateTableArrangement 9 Samples.mixArea [Samples.rightDoor] 3
    = Some (objects, arrangement)
    /\ (TableCalculator.totalGuests arrangement <= 9)%Z.
Proof.
  eexists. eexists. split; [vm_compute; reflexivity|].
  match goal with
  | |- (TableCalculator.totalGuests ?a <= _)%Z =>
      let r := eval vm_compute in
        (TableCalculator.calculateTableArrangement
           9 Samples.mixArea [Samples.rightDoor] 3) in
      match r with
      | Some (?o, _) =>
          apply (single_chairs_never_overshoot
                   9 Samples.mixArea [Samples.rightDoor] 3 o a);
            vm_compute; reflexivity
      end
  end.
Defined.

(** X4.  The tables of an arrangement carry the indices 0, 1, 2, ... in the
    order in which they are returned, and so do the chairs, counted on their
    own: no index is skipped or used twice, also where a door made the
    packer drop a position. *)
Theorem arrangement_indices_are_sequential :
  forall (guestCount : Z) (tableConfig : VenueTypes.TableConfig)
         (doorAreas : list DoorAreaUtils.DoorArea) (fuel : nat)
         (objects : list TableCalculator.HallObject)
         (arrangement : TableCalculator.Arrangement),
    TableCalculator.calculateTableArrangement guestCount tableConfig doorAreas fuel
    = Some (objects, arrangement) ->
    map TableCalculator.h_tableIndex (filter TableArrangement.isTable objects)
    = map Z.of_nat (seq 0 (Z.to_nat (TableCalculator.totalTables arrangement)))
    /\ map TableCalculator.h_tableIndex (filter TableArrangement.isChair objects)
       = map Z.of_nat (seq 0 (Z.to_nat (TableCalculator.totalSingleChairs arrangement))).
Proof.
  intros g cfg doors fuel objects arr Hrun.
  destruct (calculateTableArrangement_inv cfg g doors fuel objects arr Hrun)
    as [tbls [chrs [-> [-> [Hnt [Hnc [Hnone _]]]]]]].
  cbn [TableCalculator.totalTables TableCalculator.totalSingleChairs].
  rewrite objects_tables, objects_chairs, !Nat2Z.id. split.
  - rewrite map_map. exact Hnt.
  - unfold TableCalculator.chairHallObjects.
    destruct (VenueTypes.singleChair cfg) as [chair|].
    + rewrite <- Hnc. clear. induction chrs as [|c l IH]; [reflexivity|].
      simpl. rewrite IH. reflexivity.
    + rewrite (Hnone eq_refl). reflexivity.
Qed.

Lemma arrangement_indices_are_sequential_witness :
  exists objects arrangement,
    TableCalculator.calculateTableArrangement 32 Samples.fourTables [Samples.sideDoor] 2
    = Some (objects, arrangement)
    /\ map TableCalculator.h_tableIndex (filter TableArrangement.isTable objects)
       = [0; 1; 2]%Z.
Proof.
  eexists. eexists. split; [vm_compute; reflexivity|].
  match goal with
  | |- map _ (filter _ ?o) = _ =>
      destruct (arrangement_indices_are_sequential
                  32 Samples.fourTables [Samples.sideDoor] 2 o
                  (TableCalculator.mkArrangement 3 24 0 24)) as [Ht _];
        [vm_compute; reflexivity|exact Ht]
  end.
Defined.

(** ** Moving an object out of a door area *)
Section Relocation.
Import DoorAreaUtils DoorRelocation.

Lemma insertByDist_Forall (P : Candidate -> Prop) (c : Candidate) (l : list Candidate) :
  P c -> Forall P l -> Forall P (insertByDist c l).
Proof.
  intros Hc Hl. induction l as [|d rest IH]; simpl.
  - constructor; [assumption|constructor].
  - inversion Hl; subst. destruct (Js.leb _ _).
    + constructor; assumption.
    + constructor; [assumption|]. apply IH. assumption.
Qed.

Lemma sortByDist_Forall (P : Candidate -> Prop) (l : list Candidate) :
  Forall P l -> Forall P (sortByDist l).
Proof.
  induction 1 as [|c l Hc Hl IH]; simpl; [constructor|].
  apply insertByDist_Forall; assumption.
Qed.

Lemma insertByDist_length (c : Candidate) (l : list Candidate) :
  List.length (insertByDist c l) = S (List.length l).
Proof.
  induction l as [|d rest IH]; simpl; [reflexivity|].
  destruct (Js.leb _ _); simpl; [reflexivity|]. rewrite IH. reflexivity.
Qed.

Lemma sortByDist_length (l : list Candidate) :
  List.length (sortByDist l) = List.length l.
Proof.
  induction l as [|c l IH]; simpl; [reflexivity|].
  rewrite insertByDist_length, IH. reflexivity.
Qed.

Lemma firstValid_clear (cands : list Candidate) (doorAreas : list DoorArea)
      (objectSize : Size) (p : Point) :
  firstValid cands doorAreas objectSize = Some p ->
  isObjectInAnyDoorArea (boxAt p objectSize) doorAreas = false.
Proof.
  induction cands as [|c rest IH]; simpl; [discriminate|].
  destruct (isObjectInAnyDoorArea
              (boxAt {| x := cand_x c; y := cand_y c |} objectSize) doorAreas) eqn:Hdoor;
    simpl.
  - exact IH.
  - intro H. injection H as <-. exact Hdoor.
Qed.

End Relocation.

(** X5.  A position returned by findNearestValidPosition is never inside a
    door area: whenever the function returns a position and not [null], an
    object of the given size centred there overlaps none of the doors. *)
Theorem findNearestValidPosition_is_clear :
  forall (position : DoorAreaUtils.Point) (doorAreas : list DoorAreaUtils.DoorArea)
         (objectSize : DoorRelocation.Size) (p : DoorAreaUtils.Point),
    DoorRelocation.findNearestValidPosition position doorAreas objectSize = Some p ->
    DoorAreaUtils.isObjectInAnyDoorArea (DoorRelocation.boxAt p objectSize) doorAreas
    = false.
Proof.
  intros position doorAreas objectSize p.
  unfold DoorRelocation.findNearestValidPosition.
  destruct doorAreas as [|d ds].
  - intro H. injection H as <-. reflexivity.
  - destruct (DoorAreaUtils.isObjectInAnyDoorArea
                (DoorRelocation.boxAt position objectSize) (d :: ds)) eqn:Hin;
      cbn [negb].
    + destruct (DoorAreaUtils.getDoorAreasOverlappingObject _ _) eqn:Hover.
      * exfalso. unfold DoorAreaUtils.isObjectInAnyDoorArea in Hin.
        apply existsb_exists in Hin. destruct Hin as [door [Hd Hhit]].
        assert (Hf : In door (DoorAreaUtils.getDoorAreasOverlappingObject
                                (DoorRelocation.boxAt position objectSize) (d :: ds))).
        { unfold DoorAreaUtils.getDoorAreasOverlappingObject.
          apply filter_In. split; assumption. }
        rewrite Hover in Hf. destruct Hf.
      * apply firstValid_clear.
    + intro H. injection H as <-. exact Hin.
Qed.

Lemma findNearestValidPosition_is_clear_witness :
  exists p,
    DoorRelocation.findNearestValidPosition
      (DoorAreaUtils.mkPoint 19 10) [Samples.midDoor; Samples.rightDoor]
      (DoorRelocation.mkSize 4 4) = Some p
    /\ DoorAreaUtils.x p == 0
    /\ DoorAreaUtils.isObjectInAnyDoorArea
         (DoorRelocation.boxAt p (DoorRelocation.mkSize 4 4))
         [Samples.midDoor; Samples.rightDoor] = false.
Proof.
  eexists. split; [vm_compute; reflexivity|]. split; [reflexivity|].
  apply (findNearestValidPosition_is_clear
           (DoorAreaUtils.mkPoint 19 10) [Samples.midDoor; Samples.rightDoor]
           (DoorRelocation.mkSize 4 4)).
  vm_compute. reflexivity.
Defined.
Section RelocationOneDoor.
Import DoorAreaUtils DoorRelocation.

Let beside (position : Point) (door : DoorArea) (objectSize : Size) (c : Candidate) : Prop :=
  isObjectInDoorArea (boxAt (mkPoint (cand_x c) (cand_y c)) objectSize) door = false
  /\ (cand_x c = x position \/ cand_y c = y position).

Lemma candidates_beside (position : Point) (door : DoorArea) (objectSize : Size) :
  Forall (beside position door objectSize)
         (candidates position (getDoorAreaBounds door) objectSize).
Proof.
  unfold candidates, beside.
  repeat constructor; cbn [cand_x cand_y];
    try (right; reflexivity); try (left; reflexivity);
    unfold isObjectInDoorArea, boxAt, getDoorAreaBounds;
    cbn [obj_x obj_y obj_width obj_height x y minX maxX minY maxY];
    apply negb_false_iff.
  - apply orb_true_iff; left. apply orb_true_iff; left. apply orb_true_iff; left.
    apply ltb_true_iff. lra.
  - apply orb_true_iff; left. apply orb_true_iff; left. apply orb_true_iff; right.
    apply ltb_true_iff. lra.
  - apply orb_true_iff; left. apply orb_true_iff; right.
    apply ltb_true_iff. lra.
  - apply orb_true_iff; right.
    apply ltb_true_iff. lra.
Qed.

Lemma firstValid_head (c : Candidate) (rest : list Candidate) (door : DoorArea)
      (objectSize : Size) :
  isObjectInDoorArea (boxAt (mkPoint (cand_x c) (cand_y c)) objectSize) door = false ->
  firstValid (c :: rest) [door] objectSize = Some (mkPoint (cand_x c) (cand_y c)).
Proof.
  intro Hc. simpl. rewrite Hc. reflexivity.
Qed.

End RelocationOneDoor.

(** X6.  With a single door area findNearestValidPosition always finds a
    place: it never returns [null], the position it returns overlaps the
    door no more, and it differs from the given position in at most one
    coordinate (the object is pushed out horizontally or vertically). *)
Theorem single_door_always_relocates :
  forall (position : DoorAreaUtils.Point) (door : DoorAreaUtils.DoorArea)
         (objectSize : DoorRelocation.Size),
  exists p,
    DoorRelocation.findNearestValidPosition position [door] objectSize = Some p
    /\ DoorAreaUtils.isObjectInDoorArea (DoorRelocation.boxAt p objectSize) door = false
    /\ (DoorAreaUtils.x p = DoorAreaUtils.x position
        \/ DoorAreaUtils.y p = DoorAreaUtils.y position).
Proof.
  intros position door objectSize.
  unfold DoorRelocation.findNearestValidPosition,
    DoorAreaUtils.getDoorAreasOverlappingObject.
  cbn [DoorAreaUtils.isObjectInAnyDoorArea existsb filter].
  rewrite orb_false_r.
  destruct (DoorAreaUtils.isObjectInDoorArea
              (DoorRelocation.boxAt position objectSize) door) eqn:Hin; cbn [negb].
  - pose proof (sortByDist_Forall _ _ (candidates_beside position door objectSize))
      as Hall.
    pose proof (sortByDist_length
                  (DoorRelocation.candidates
                     position (DoorAreaUtils.getDoorAreaBounds door) objectSize))
      as Hlen.
    destruct (DoorRelocation.sortByDist _) as [|c rest]; [discriminate Hlen|].
    inversion Hall as [|c' rest' [Hclear Hside] _]; subst.
    exists (DoorAreaUtils.mkPoint (DoorRelocation.cand_x c) (DoorRelocation.cand_y c)).
    split; [apply firstValid_head, Hclear|].
    split; [exact Hclear|exact Hside].
  - exists position. split; [reflexivity|]. split; [exact Hin|left; reflexivity].
Qed.
(** ** The ray-casting test on a rectangle *)
Section RectanglePolygon.
Import DoorAreaUtils Venues.
Variables x0 x1 y0 y1 : Q.
Hypothesis x_ordered : x0 <= x1.
Hypothesis y_ordered : y0 < y1.

(** The corners in the order of [convertTableAreaToArray]: top left, top
    right, bottom right, bottom left. *)
Let rectangle : list Point :=
  [mkPoint x0 y1; mkPoint x1 y1; mkPoint x1 y0; mkPoint x0 y0].

Lemma vertical_edge_abscissa (a t d : Q) : (a - a) * t / d + a == a.
Proof.
  unfold Qdiv. setoid_replace (a - a) with 0 by ring.
  rewrite !Qmult_0_l. ring.
Qed.

Lemma ltb_compat_r (a b c : Q) : b == c -> Js.ltb a b = Js.ltb a c.
Proof.
  intro H. unfold Js.ltb.
  destruct (Qle_bool b a) eqn:E1, (Qle_bool c a) eqn:E2; try reflexivity; exfalso.
  - apply Qle_bool_iff in E1. rewrite H in E1. apply Qle_bool_iff in E1. congruence.
  - apply Qle_bool_iff in E2. rewrite <- H in E2. apply Qle_bool_iff in E2. congruence.
Qed.

Lemma rectangle_test (px py : Q) :
  isPointInPolygon (mkPoint px py) rectangle
  = Js.leb x0 px && Js.ltb px x1 && Js.leb y0 py && Js.ltb py y1.
Proof.
  unfold rectangle, isPointInPolygon, edgeCrosses. cbn [x y].
  rewrite (ltb_compat_r px _ x0 (vertical_edge_abscissa x0 _ _)).
  rewrite (ltb_compat_r px _ x1 (vertical_edge_abscissa x1 _ _)).
  rewrite !eqb_reflx. cbn [negb andb].
  destruct (Js.ltb py y1) eqn:E1, (Js.ltb py y0) eqn:E2,
           (Js.ltb px x0) eqn:E3, (Js.ltb px x1) eqn:E4,
           (Js.leb x0 px) eqn:E5, (Js.leb y0 py) eqn:E6;
    try reflexivity; exfalso;
    repeat match goal with
           | H : Js.ltb _ _ = true |- _ => apply ltb_true_iff in H
           | H : Js.ltb _ _ = false |- _ => apply ltb_false_iff in H
           | H : Js.leb _ _ = true |- _ => apply leb_true_iff in H
           | H : Js.leb _ _ = false |- _ => apply leb_false_iff in H
           end; lra.
Qed.

End RectanglePolygon.

(** X7.  On an axis-parallel rectangle, given by its corners in the order
    top left, top right, bottom right, bottom left, the ray-casting test
    isPointInPolygon is the half-open box test: a point is inside when
    [x0 <= x < x1] and [y0 <= y < y1].  Points on the left and bottom edges
    count as inside, points on the right and top edges as outside. *)
Theorem isPointInPolygon_on_rectangle :
  forall (x0 x1 y0 y1 px py : Q),
    x0 <= x1 -> y0 < y1 ->
    Venues.isPointInPolygon
      (DoorAreaUtils.mkPoint px py)
      (VenueTypes.convertTableAreaToArray
         (VenueTypes.mkTableAreaPoints
            (DoorAreaUtils.mkPoint x0 y1) (DoorAreaUtils.mkPoint x1 y1)
            (DoorAreaUtils.mkPoint x1 y0) (DoorAreaUtils.mkPoint x0 y0)))
    = Js.leb x0 px && Js.ltb px x1 && Js.leb y0 py && Js.ltb py y1.
Proof.
  intros x0 x1 y0 y1 px py Hx Hy. apply rectangle_test; assumption.
Qed.

Lemma isPointInPolygon_on_rectangle_witness :
  Venues.isPointInPolygon
    (DoorAreaUtils.mkPoint 20 5)
    (VenueTypes.convertTableAreaToArray
       (VenueTypes.mkTableAreaPoints
          (DoorAreaUtils.mkPoint 0 20) (DoorAreaUtils.mkPoint 20 20)
          (DoorAreaUtils.mkPoint 20 0) (DoorAreaUtils.mkPoint 0 0)))
  = false.
Proof.
  rewrite (isPointInPolygon_on_rectangle 0 20 0 20 20 5); [reflexivity| |];
    unfold Qle, Qlt; simpl; lia.
Defined.

(** X8.  In a rectangular area the polygon helpers accept a unit of
    non-negative size exactly when it starts at or after the left and bottom
    edges and ends strictly before the right and top edges: a unit that
    touches the right or the top edge of the area is left out. *)
Theorem allCornersInside_on_rectangle :
  forall (x0 x1 y0 y1 colX rowY w h : Q),
    x0 <= x1 -> y0 < y1 -> 0 <= w -> 0 <= h ->
    Venues.allCornersInside
      colX rowY w h
      (VenueTypes.convertTableAreaToArray
         (VenueTypes.mkTableAreaPoints
            (DoorAreaUtils.mkPoint x0 y1) (DoorAreaUtils.mkPoint x1 y1)
            (DoorAreaUtils.mkPoint x1 y0) (DoorAreaUtils.mkPoint x0 y0))) = true
    <-> (x0 <= colX /\ colX + w < x1 /\ y0 <= rowY /\ rowY + h < y1).
Proof.
  intros x0 x1 y0 y1 colX rowY w h Hx Hy Hw Hh.
  unfold Venues.allCornersInside, Venues.unitCorners. cbn [forallb].
  change (VenueTypes.convertTableAreaToArray _)
    with [DoorAreaUtils.mkPoint x0 y1; DoorAreaUtils.mkPoint x1 y1;
          DoorAreaUtils.mkPoint x1 y0; DoorAreaUtils.mkPoint x0 y0].
  rewrite !(rectangle_test x0 x1 y0 y1 Hx Hy).
  rewrite !andb_true_iff, !leb_true_iff, !ltb_true_iff.
  split.
  - intro H. decompose [and] H. clear H. repeat split; lra.
  - intros [H1 [H2 [H3 H4]]]. repeat split; lra.
Qed.

Lemma allCornersInside_on_rectangle_witness :
  Venues.allCornersInside
    10 0 10 10
    (VenueTypes.convertTableAreaToArray
       (VenueTypes.mkTableAreaPoints
          (DoorAreaUtils.mkPoint 0 20) (DoorAreaUtils.mkPoint 20 20)
          (DoorAreaUtils.mkPoint 20 0) (DoorAreaUtils.mkPoint 0 0))) = true
  <-> (0 <= 10 /\ 10 + 10 < 20 /\ 0 <= 0 /\ 0 + 10 < 20).
Proof.
  apply (allCornersInside_on_rectangle 0 20 0 20 10 0 10 10);
    unfold Qle, Qlt; simpl; lia.
Defined.
(** ** Keeping a dragged object inside the venue *)

(** X9.  constrainPositionToBounds moves the centre of an object into the
    venue: when the object is no wider than the distance between the top
    corners and no taller than the distance between the left corners, the
    constrained position passes isPositionWithinBounds, wherever the object
    was dragged to.  Stated for a venue with corners at whole numbers and
    an object of whole width and height, where the halves and the sums of
    the source are exact (with other numbers the clamped position can miss
    a side by a rounding error). *)
Theorem constrained_position_is_within_bounds :
  forall (x0 y0 w h : Q) (corners : VenueBounds.VenueCornerPoints),
    Js.whole w = true -> Js.whole h = true ->
    Footprint.wholeCorners corners = true ->
    w <= DoorAreaUtils.x (VenueBounds.corner_topRight corners)
         - DoorAreaUtils.x (VenueBounds.corner_topLeft corners) ->
    h <= DoorAreaUtils.y (VenueBounds.corner_topLeft corners)
         - DoorAreaUtils.y (VenueBounds.corner_bottomLeft corners) ->
    let p := VenueBounds.constrainPositionToBounds x0 y0 w h corners in
    VenueBounds.isPositionWithinBounds (DoorAreaUtils.x p) (DoorAreaUtils.y p) w h corners
    = true.
Proof.
  intros x0 y0 w h corners _ _ _ Hw Hh p. subst p.
  unfold VenueBounds.isPositionWithinBounds, VenueBounds.constrainPositionToBounds.
  cbn [DoorAreaUtils.x DoorAreaUtils.y].
  set (l := DoorAreaUtils.x (VenueBounds.corner_topLeft corners)) in *.
  set (r := DoorAreaUtils.x (VenueBounds.corner_topRight corners)) in *.
  set (t := DoorAreaUtils.y (VenueBounds.corner_topLeft corners)) in *.
  set (b := DoorAreaUtils.y (VenueBounds.corner_bottomLeft corners)) in *.
  rewrite !andb_true_iff, !leb_true_iff.
  assert (Ehw : w == 2 * (w / 2)) by field.
  assert (Ehh : h == 2 * (h / 2)) by field.
  pose proof (Q.le_max_l (l + w / 2) (Qmin (r - w / 2) x0)) as H1.
  pose proof (Q.le_max_l (b + h / 2) (Qmin (t - h / 2) y0)) as H2.
  pose proof (Q.le_min_l (r - w / 2) x0) as H3.
  pose proof (Q.le_min_l (t - h / 2) y0) as H4.
  assert (H5 : Qmax (l + w / 2) (Qmin (r - w / 2) x0) <= r - w / 2)
    by (apply Q.max_lub; lra).
  assert (H6 : Qmax (b + h / 2) (Qmin (t - h / 2) y0) <= t - h / 2)
    by (apply Q.max_lub; lra).
  repeat split; lra.
Qed.

Lemma constrained_position_is_within_bounds_witness :
  VenueBounds.isPositionWithinBounds
    (DoorAreaUtils.x (VenueBounds.constrainPositionToBounds
                        500 (-40) 20 10
                        (VenueBounds.mkCorners
                           (DoorAreaUtils.mkPoint 0 100) (DoorAreaUtils.mkPoint 200 100)
                           (DoorAreaUtils.mkPoint 200 0) (DoorAreaUtils.mkPoint 0 0))))
    (DoorAreaUtils.y (VenueBounds.constrainPositionToBounds
                        500 (-40) 20 10
                        (VenueBounds.mkCorners
                           (DoorAreaUtils.mkPoint 0 100) (DoorAreaUtils.mkPoint 200 100)
                           (DoorAreaUtils.mkPoint 200 0) (DoorAreaUtils.mkPoint 0 0))))
    20 10
    (VenueBounds.mkCorners
       (DoorAreaUtils.mkPoint 0 100) (DoorAreaUtils.mkPoint 200 100)
       (DoorAreaUtils.mkPoint 200 0) (DoorAreaUtils.mkPoint 0 0))
  = true.
Proof.
  apply (constrained_position_is_within_bounds
           500 (-40) 20 10
           (VenueBounds.mkCorners
              (DoorAreaUtils.mkPoint 0 100) (DoorAreaUtils.mkPoint 200 100)
              (DoorAreaUtils.mkPoint 200 0) (DoorAreaUtils.mkPoint 0 0)));
    try reflexivity; unfold Qle; simpl; lia.
Defined.

(** X10.  A position that already passes isPositionWithinBounds is left
    where it is by constrainPositionToBounds (both coordinates keep their
    value). *)
Theorem valid_position_is_not_moved :
  forall (x0 y0 w h : Q) (corners : VenueBounds.VenueCornerPoints),
    VenueBounds.isPositionWithinBounds x0 y0 w h corners = true ->
    DoorAreaUtils.x (VenueBounds.constrainPositionToBounds x0 y0 w h corners) == x0
    /\ DoorAreaUtils.y (VenueBounds.constrainPositionToBounds x0 y0 w h corners) == y0.
Proof.
  intros x0 y0 w h corners.
  unfold VenueBounds.isPositionWithinBounds, VenueBounds.constrainPositionToBounds.
  cbn [DoorAreaUtils.x DoorAreaUtils.y].
  set (l := DoorAreaUtils.x (VenueBounds.corner_topLeft corners)) in *.
  set (r := DoorAreaUtils.x (VenueBounds.corner_topRight corners)) in *.
  set (t := DoorAreaUtils.y (VenueBounds.corner_topLeft corners)) in *.
  set (b := DoorAreaUtils.y (VenueBounds.corner_bottomLeft corners)) in *.
  rewrite !andb_true_iff, !leb_true_iff. intros [[[H1 H2] H3] H4].
  split.
  - rewrite (Q.min_r (r - w / 2) x0) by lra. apply Q.max_r. lra.
  - rewrite (Q.min_r (t - h / 2) y0) by lra. apply Q.max_r. lra.
Qed.

Lemma valid_position_is_not_moved_witness :
  DoorAreaUtils.x (VenueBounds.constrainPositionToBounds
                     50 50 20 10
                     (VenueBounds.mkCorners
                        (DoorAreaUtils.mkPoint 0 100) (DoorAreaUtils.mkPoint 200 100)
                        (DoorAreaUtils.mkPoint 200 0) (DoorAreaUtils.mkPoint 0 0))) == 50
  /\ DoorAreaUtils.y (VenueBounds.constrainPositionToBounds
                        50 50 20 10
                        (VenueBounds.mkCorners
                           (DoorAreaUtils.mkPoint 0 100) (DoorAreaUtils.mkPoint 200 100)
                           (DoorAreaUtils.mkPoint 200 0) (DoorAreaUtils.mkPoint 0 0))) == 50.
Proof.
  apply (valid_position_is_not_moved
           50 50 20 10
           (VenueBounds.mkCorners
              (DoorAreaUtils.mkPoint 0 100) (DoorAreaUtils.mkPoint 200 100)
              (DoorAreaUtils.mkPoint 200 0) (DoorAreaUtils.mkPoint 0 0))).
  vm_compute. reflexivity.
Defined.

(** ** calculateTablesNeeded *)
Section TablesNeeded.
Import VenueTypes VenueBounds.

Lemma Qceiling_quotient (a b : Z) :
  (0 < b)%Z -> Qceiling (inject_Z a / inject_Z b) = TableCalculator.ceilDiv a b.
Proof.
  intro Hb. unfold Qceiling, TableCalculator.ceilDiv. f_equal.
  rewrite Zdiv_Qdiv. apply Qfloor_comp.
  rewrite inject_Z_opp. field.
  intro H. change 0 with (inject_Z 0) in H. rewrite inject_Z_injective in H. lia.
Qed.

End TablesNeeded.

(** X11.  calculateTablesNeeded asks for the fewest whole tables that seat
    everybody: for a positive number of seats per table the seats it reports
    cover the guest count and exceed it by less than one table, and the
    number of tables it reports is never below [minTables] nor below the
    tables those seats stand for. *)
Theorem tables_needed_cover_guests :
  forall (guestCount : Z) (tableConfig : VenueTypes.TableConfig)
         (settings : VenueBounds.TableCalculationSettings),
    (0 < VenueTypes.chairsPerTable tableConfig)%Z ->
    let r := VenueBounds.calculateTablesNeeded guestCount tableConfig settings in
    (guestCount <= VenueBounds.needed_chairs r
     < guestCount + VenueTypes.chairsPerTable tableConfig)%Z
    /\ VenueBounds.needed_totalGuests r = VenueBounds.needed_chairs r
    /\ (VenueBounds.minTables settings <= VenueBounds.needed_tables r)%Z
    /\ (VenueBounds.needed_chairs r
        <= VenueBounds.needed_tables r * VenueTypes.chairsPerTable tableConfig)%Z.
Proof.
  intros g cfg settings Hc r. subst r.
  unfold VenueBounds.calculateTablesNeeded.
  cbn [VenueBounds.needed_chairs VenueBounds.needed_totalGuests VenueBounds.needed_tables].
  rewrite (Qceiling_quotient g _ Hc). unfold TableCalculator.ceilDiv.
  set (c := VenueTypes.chairsPerTable cfg) in *.
  pose proof (Z.div_mod (- g) c ltac:(lia)) as Hdm.
  pose proof (Z.mod_pos_bound (- g) c Hc) as Hm.
  split; [nia|]. split; [reflexivity|]. split; [lia|].
  apply Z.mul_le_mono_nonneg_r; lia.
Qed.

Lemma tables_needed_cover_guests_witness :
  (30 <= VenueBounds.needed_chairs
           (VenueBounds.calculateTablesNeeded 30 Samples.fourTables
                                              VenueBounds.defaultTableSettings)
   < 30 + 8)%Z.
Proof.
  apply (tables_needed_cover_guests 30 Samples.fourTables
                                    VenueBounds.defaultTableSettings).
  simpl. lia.
Defined.

(** ** Where the column loops place their units *)
Lemma forUpTo_invariant_from {S : Type} (cond : S -> bool) (body : Z -> S -> S)
      (P : S -> Prop) (from : Z) :
  (forall i s, (from <= i)%Z -> P s -> cond s = true -> P (body i s)) ->
  forall n i s, (from <= i)%Z -> P s -> P (Js.forUpTo cond body n i s).
Proof.
  intros Hstep n; induction n as [|n IH]; intros i s Hi Hs; simpl; [assumption|].
  destruct (cond s) eqn:Hc; [|assumption].
  apply IH; [lia|]. apply Hstep; assumption.
Qed.

Section SchemaPlaces.
Import DoorAreaUtils VenueTypes TableCalculator ColumnSchema.
Variable doorAreas : list DoorArea.
Variables unitWidth skipSpacing step : Q.
Variable mkObject : Q -> Q -> ObjectBox.
Variable guestsPerUnit : Z.
Variable yOf : Z -> Q.
Variable fits : ColState -> Q -> bool.
Variable rowCond : ColState -> bool.
Variable rows : nat.
Variable bump : ColState -> ColState.
Variable cond : ColState -> bool.
Variable cursorKeeps : Q -> Prop.       (* holds of the cursor throughout *)
Variable condTells : Q -> Prop.         (* what the loop condition says of the cursor *)
Variable P : Placed -> Prop.
Hypothesis bump_placed : forall st, placed (bump st) = placed st.
Hypothesis cond_cursor : forall st, cond st = true -> condTells (currentX st).
Hypothesis cursor_step : forall c, cursorKeeps c -> cursorKeeps (c + step).
Hypothesis cursor_skip :
  forall c, cursorKeeps c -> cursorKeeps (maxDoorEndX unitWidth doorAreas c + skipSpacing).
Hypothesis unit_ok :
  forall st i idx, (0 <= i)%Z -> cursorKeeps (currentX st) -> condTells (currentX st) ->
                   fits st (yOf i) = true -> P (mkPlaced (currentX st) (yOf i) idx).

Let row := schemaRow doorAreas mkObject guestsPerUnit yOf fits.
Let body := schemaBody doorAreas unitWidth skipSpacing step mkObject guestsPerUnit
                       yOf fits rowCond rows bump.

Lemma schemaRows_places (st : ColState) :
  cursorKeeps (currentX st) -> condTells (currentX st) -> Forall P (placed st) ->
  let st' := Js.forUpTo rowCond row rows 0 st in
  currentX st' = currentX st /\ Forall P (placed st').
Proof.
  intros Hk Ht Hall.
  apply (forUpTo_invariant_from rowCond row
           (fun s => currentX s = currentX st /\ Forall P (placed s)) 0%Z);
    [|lia|split; [reflexivity|assumption]].
  intros i s Hi [Hx Hs] _. unfold row, schemaRow.
  destruct (fits s (yOf i)) eqn:Hfit; [|split; assumption].
  destruct (negb _); [|split; assumption].
  split; [exact Hx|]. cbn [pushUnit placed].
  apply Forall_app. split; [assumption|].
  constructor; [|constructor].
  apply unit_ok; [assumption|rewrite Hx; assumption|rewrite Hx; assumption|assumption].
Qed.

Lemma schemaBody_places (st : ColState) :
  cond st = true ->
  cursorKeeps (currentX st) /\ Forall P (placed st) ->
  cursorKeeps (currentX (body st)) /\ Forall P (placed (body st)).
Proof.
  intros Hc [Hk Hall]. unfold body, schemaBody.
  destruct (columnOverlapsDoor _ _ _).
  - cbn [setX currentX placed]. split; [apply cursor_skip, Hk|assumption].
  - cbv zeta. cbn [setX currentX placed].
    destruct (schemaRows_places st Hk (cond_cursor st Hc) Hall) as [Hx Hall'].
    fold row. rewrite bump_placed, Hx.
    split; [apply cursor_step, Hk|exact Hall'].
Qed.

Lemma schemaLoop_places (fuel : nat) (start : Q) (st : ColState) :
  cursorKeeps start ->
  Js.while cond body fuel (initState start) = Some st ->
  Forall P (placed st).
Proof.
  intros Hstart Hrun.
  apply (while_invariant cond body
           (fun s => cursorKeeps (currentX s) /\ Forall P (placed s))) in Hrun.
  - apply Hrun.
  - intros s Hs Hc. apply schemaBody_places; assumption.
  - split; [exact Hstart|constructor].
Qed.
End SchemaPlaces.

Section BoxPlaces.
Import DoorAreaUtils VenueTypes TableCalculator ColumnSchema Footprint.
Variable plain : Prop.                    (* the near sides are claimed under [plain] *)
Variable bounds : Bounds.
Variables w h : Q.

Let placedWell (u : Placed) : Prop :=
  notPastFarSides bounds w h u
  /\ (plain -> minX bounds <= p_x u /\ minY bounds <= p_y u).

Lemma rowY_ge_bottom (hws rgs : Q) (rpg i : Z) :
  0 <= hws -> 0 <= rgs -> (0 < rpg)%Z -> (0 <= i)%Z ->
  minY bounds <= rowY bounds hws rpg rgs i.
Proof.
  intros Hh Hg Hr Hi. unfold rowY.
  assert (H1 : 0 <= inject_Z i * hws).
  { apply Qmult_le_0_compat; [|assumption].
    change 0 with (inject_Z 0). rewrite <- Zle_Qle. assumption. }
  assert (H2 : 0 <= inject_Z (i / rpg) * rgs).
  { apply Qmult_le_0_compat; [|assumption].
    change 0 with (inject_Z 0). rewrite <- Zle_Qle. apply Z.div_pos; assumption. }
  hide_injZ. lra.
Qed.

Lemma orZ_positive (v : option Z) :
  nonNegativeCount v -> (0 < Js.orZ v 999)%Z.
Proof.
  unfold nonNegativeCount, Js.orZ. destruct v as [n|]; [|lia].
  intro Hn. destruct (n =? 0)%Z eqn:E; [lia|]. apply Z.eqb_neq in E. lia.
Qed.

Lemma orQ_nonNegative (v : option Q) : nonNegative v -> 0 <= Js.orQ v 0.
Proof.
  unfold nonNegative, Js.orQ. destruct v as [q|]; [|lra].
  intro Hq. destruct (Qeq_bool q 0); [lra|assumption].
Qed.

Variable doorAreas : list DoorArea.
Variables skipSpacing step : Q.
Variable mkObject : Q -> Q -> ObjectBox.
Variable guestsPerUnit : Z.
Variables hws rgs : Q.
Variable rpg : Z.
Variable fits : ColState -> Q -> bool.
Variable rowCond : ColState -> bool.
Variable rows : nat.
Variable bump : ColState -> ColState.
Variable cond : ColState -> bool.
Hypothesis bump_placed : forall st, placed (bump st) = placed st.
Hypothesis cond_cursor : forall st, cond st = true -> currentX st + w <= maxX bounds.
Hypothesis fits_top : forall st y', fits st y' = true -> y' + h <= maxY bounds.
Hypothesis step_plain : plain -> 0 <= step.
Hypothesis skip_plain : plain -> 0 <= skipSpacing.
Hypothesis hws_plain : plain -> 0 <= hws.
Hypothesis rgs_plain : plain -> 0 <= rgs.
Hypothesis rpg_plain : plain -> (0 < rpg)%Z.

Lemma schemaLoop_box (fuel : nat) (start : Q) (st : ColState) :
  (plain -> minX bounds <= start) ->
  Js.while cond
           (schemaBody doorAreas w skipSpacing step mkObject guestsPerUnit
                       (rowY bounds hws rpg rgs) fits rowCond rows bump)
           fuel (initState start) = Some st ->
  Forall placedWell (placed st).
Proof.
  intros Hstart.
  apply (schemaLoop_places doorAreas w skipSpacing step mkObject guestsPerUnit
                           (rowY bounds hws rpg rgs) fits rowCond rows bump cond
                           (fun c => plain -> minX bounds <= c)
                           (fun c => c + w <= maxX bounds)
                           placedWell bump_placed cond_cursor).
  - intros c Hc Hp. specialize (Hc Hp). specialize (step_plain Hp). lra.
  - intros c Hc Hp. specialize (Hc Hp). specialize (skip_plain Hp).
    pose proof (maxDoorEndX_ge_start w doorAreas c c) as Hge.
    fold (maxDoorEndX w doorAreas c) in Hge. lra.
  - intros s i idx Hi Hk Ht Hfit. unfold placedWell, notPastFarSides.
    cbn [p_x p_y]. split.
    + split; [exact Ht|apply (fits_top s), Hfit].
    + intro Hp. split; [apply Hk, Hp|].
      apply rowY_ge_bottom; auto.
  - exact Hstart.
Qed.
End BoxPlaces.

Lemma leb_and_top (a b c d : Q) :
  Js.leb a b && Js.leb c d = true -> c <= d.
Proof.
  intro H. apply andb_true_iff in H. destruct H as [_ H]. apply leb_true_iff, H.
Qed.

Section LoopBoxes.
Import DoorAreaUtils VenueTypes TableCalculator ColumnSchema Footprint.
Variable plain : Prop.
Variable tableConfig : TableConfig.
Variable doorAreas : list DoorArea.
Hypothesis sizes : plain -> plainSizes tableConfig.

Let placedWell (bounds : Bounds) (w h : Q) (u : Placed) : Prop :=
  notPastFarSides bounds w h u
  /\ (plain -> minX bounds <= p_x u /\ minY bounds <= p_y u).

Lemma tablesOnly_loop_box (target : Z) (fuel : nat) (st : ColState) :
  tablesOnly_loop target tableConfig doorAreas fuel = Some st ->
  Forall (placedWell (areaBounds tableConfig) (width tableConfig) (height tableConfig))
         (placed st).
Proof.
  unfold tablesOnly_loop. rewrite tablesOnly_body_schema.
  apply schemaLoop_box; try (intro Hp; destruct (sizes Hp) as [? [? [? [? [? [? ?]]]]]]).
  - reflexivity.
  - intros s Hc. unfold tablesOnly_cond in Hc. apply andb_true_iff in Hc.
    apply leb_true_iff, Hc.
  - intros s y' Hf. apply leb_true_iff, Hf.
  - lra.
  - assumption.
  - lra.
  - apply orQ_nonNegative; assumption.
  - apply orZ_positive; assumption.
  - lra.
Qed.

Lemma chairsOnly_loop_box (target : Z) (chair : SingleChairConfig) (fuel : nat)
      (st : ColState) :
  singleChair tableConfig = Some chair ->
  chairsOnly_loop target tableConfig doorAreas chair fuel = Some st ->
  Forall (placedWell (areaBounds tableConfig) (chair_width chair) (chair_height chair))
         (placed st).
Proof.
  intro Hch. unfold chairsOnly_loop. rewrite chairsOnly_body_schema.
  apply schemaLoop_box;
    try (intro Hp; destruct (sizes Hp) as [_ [_ [_ [_ [_ [? Hc]]]]]];
         rewrite Hch in Hc; destruct Hc as [? [? [? ?]]]).
  - reflexivity.
  - intros s Hc. unfold chairsOnly_cond in Hc. apply andb_true_iff in Hc.
    apply leb_true_iff, Hc.
  - intros s y' Hf. apply leb_true_iff, Hf.
  - lra.
  - assumption.
  - lra.
  - apply orQ_nonNegative; assumption.
  - apply orZ_positive; assumption.
  - lra.
Qed.

Lemma tablesInColumns_loop_box (numColumns : Z) (bounds : Bounds) (maxRows : Z)
      (fuel : nat) (st : ColState) :
  tablesInColumns_loop numColumns tableConfig doorAreas bounds maxRows
                       (Js.orZ (rowsPerGroup tableConfig) 999)
                       (Js.orQ (rowGroupSpacing tableConfig) 0) fuel = Some st ->
  Forall (placedWell bounds (width tableConfig) (height tableConfig)) (placed st).
Proof.
  unfold tablesInColumns_loop. rewrite tablesInColumns_body_schema.
  apply schemaLoop_box; try (intro Hp; destruct (sizes Hp) as [? [? [? [? [? [? ?]]]]]]).
  - reflexivity.
  - intros s Hc. unfold tablesInColumns_cond in Hc. apply andb_true_iff in Hc.
    apply leb_true_iff, Hc.
  - intros s y' Hf. apply (leb_and_top _ _ _ _ Hf).
  - lra.
  - assumption.
  - lra.
  - apply orQ_nonNegative; assumption.
  - apply orZ_positive; assumption.
  - lra.
Qed.

Lemma chairsInColumns_loop_box (numColumns maxGuests : Z) (bounds : Bounds) (maxRows : Z)
      (startAt : Q) (chair : SingleChairConfig) (fuel : nat) (st : ColState) :
  singleChair tableConfig = Some chair ->
  (plain -> minX bounds <= startAt) ->
  chairsInColumns_loop numColumns maxGuests tableConfig doorAreas bounds maxRows startAt
                       chair fuel = Some st ->
  Forall (placedWell bounds (chair_width chair) (chair_height chair)) (placed st).
Proof.
  intros Hch Hstart. unfold chairsInColumns_loop. rewrite chairsInColumns_body_schema.
  apply schemaLoop_box;
    try (intro Hp; destruct (sizes Hp) as [_ [_ [_ [_ [_ [? Hc]]]]]];
         rewrite Hch in Hc; destruct Hc as [? [? [? ?]]]).
  - reflexivity.
  - intros s Hc. unfold chairsInColumns_cond in Hc. apply andb_true_iff in Hc.
    apply leb_true_iff, Hc.
  - intros s y' Hf. apply (leb_and_top _ _ _ _ Hf).
  - lra.
  - assumption.
  - lra.
  - apply orQ_nonNegative; assumption.
  - apply orZ_positive; assumption.
  - apply Hstart, Hp.
Qed.
End LoopBoxes.

(** ** What the smart mix returns is what its column loops placed *)
Section SmartMixUnits.
Import DoorAreaUtils VenueTypes TableCalculator.
Variable targetGuestCount : Z.
Variable tableConfig : TableConfig.
Variable doorAreas : list DoorArea.
Variable fuel : nat.
Variables PT PC : list Placed -> Prop.
Hypothesis PT_nil : PT [].
Hypothesis PC_nil : PC [].
Hypothesis tables_ok :
  forall cols tbls g,
    smartMix_placeTables tableConfig doorAreas fuel cols = Some (tbls, g) -> PT tbls.
Hypothesis chairs_ok :
  forall chair tbls n remaining chrs g,
    singleChair tableConfig = Some chair -> PT tbls ->
    placeChairsInColumns n remaining tableConfig doorAreas (areaBounds tableConfig)
                         (smartMix_maxChairsPerColumn tableConfig)
                         (chairStartX tableConfig chair tbls) fuel = Some (chrs, g) ->
    PC chrs.

Let good (s : Solution) : Prop := PT (s_tables s) /\ PC (s_chairs s).

Lemma smartMix_iter_units (tableColumns : Z) (best best' : Solution) (brk : bool) :
  good best ->
  smartMix_iter targetGuestCount tableConfig doorAreas fuel tableColumns best
  = Some (best', brk) ->
  good best'.
Proof.
  intros Hbest. unfold smartMix_iter.
  destruct (smartMix_placeTables _ _ _ _) as [[tbls tg]|] eqn:Ht; [|discriminate].
  apply tables_ok in Ht.
  destruct (_ <=? 0)%Z.
  { destruct (gapLt _ _); intro H; injection H as <- _; [|assumption].
    split; assumption. }
  case_eq (singleChair tableConfig).
  2:{ intros _ H; injection H as <- _; assumption. }
  intros chair Hch.
  destruct (0 <? _)%Z.
  - destruct (placeChairsInColumns _ _ _ _ _ _ _ _) as [[chrs cg]|] eqn:Hc; [|discriminate].
    apply (chairs_ok chair) in Hc; [|assumption|assumption].
    destruct (_ || _); intro H; injection H as <- _; [|assumption].
    split; assumption.
  - destruct (_ <? _)%Z; intro H; injection H as <- _; [|assumption].
    split; assumption.
Qed.

Lemma smartMix_loop_units (n : nat) (best r : Solution) :
  good best ->
  smartMix_loop targetGuestCount tableConfig doorAreas fuel n best = Some r ->
  good r.
Proof.
  revert best. induction n as [|k IH]; intros best Hbest; simpl.
  - intro H; injection H as <-; assumption.
  - destruct (smartMix_iter _ _ _ _ _ _) as [[best' brk]|] eqn:Hit; [|discriminate].
    apply smartMix_iter_units in Hit; [|assumption].
    destruct brk.
    + intro H; injection H as <-; assumption.
    + apply IH, Hit.
Qed.

Lemma placeSmartMix_units (r : Solution) :
  placeSmartMix targetGuestCount tableConfig doorAreas fuel = Some r ->
  PT (s_tables r) /\ PC (s_chairs r).
Proof.
  unfold placeSmartMix.
  destruct (smartMix_loop _ _ _ _ _ _) as [best|] eqn:Hloop; [|discriminate].
  apply smartMix_loop_units in Hloop; [|split; assumption].
  unfold smartMix_fallback.
  destruct (_ && _).
  - destruct (smartMix_placeTables _ _ _ _) as [[tbls tg]|] eqn:Ht; [|discriminate].
    apply tables_ok in Ht.
    intro H; injection H as <-. split; assumption.
  - intro H; injection H as <-; assumption.
Qed.
End SmartMixUnits.

Section ArrangementBox.
Import DoorAreaUtils VenueTypes TableCalculator Footprint.
Variable plain : Prop.
Variable tableConfig : TableConfig.
Variable doorAreas : list DoorArea.
Hypothesis sizes : plain -> plainSizes tableConfig.

Let bounds := areaBounds tableConfig.

Let placedWell (w h : Q) (u : Placed) : Prop :=
  notPastFarSides bounds w h u
  /\ (plain -> minX bounds <= p_x u /\ minY bounds <= p_y u).

Let tablesWell (tbls : list Placed) : Prop :=
  Forall (placedWell (width tableConfig) (height tableConfig)) tbls.

Let chairsWell (chrs : list Placed) : Prop :=
  forall chair, singleChair tableConfig = Some chair ->
                Forall (placedWell (chair_width chair) (chair_height chair)) chrs.

Lemma fold_Qmax_ge (l : list Q) (a : Q) : a <= fold_left Qmax l a.
Proof.
  revert a. induction l as [|b l IH]; intro a; simpl; [lra|].
  eapply Qle_trans; [|apply IH]. apply Q.le_max_l.
Qed.

Lemma chairStartX_ge_left (chair : SingleChairConfig) (tbls : list Placed) :
  plain -> tablesWell tbls -> minX bounds <= chairStartX tableConfig chair tbls.
Proof.
  intros Hp Hall. unfold chairStartX. fold bounds.
  destruct tbls as [|t rest]; [lra|].
  inversion Hall as [|t' rest' [_ Hnear] _]; subst.
  destruct (Hnear Hp) as [Hx _].
  destruct (sizes Hp) as [Hw [_ [_ [Hcs _]]]].
  pose proof (fold_Qmax_ge (map p_x rest) (p_x t)) as Hr.
  pose proof (Q.le_max_l (columnSpacing tableConfig) (chair_spacing chair * 2)) as Hm.
  unfold rightmostX. lra.
Qed.

Lemma seatingFor_box (guestCount : Z) (fuel : nat) (r : SeatingResult) :
  seatingFor guestCount tableConfig doorAreas fuel = Some r ->
  tablesWell (tables r) /\ chairsWell (chairs r).
Proof.
  unfold seatingFor.
  assert (Hauto : option_map seatingResultOf
                             (placeSmartMix guestCount tableConfig doorAreas fuel)
                  = Some r ->
                  tablesWell (tables r) /\ chairsWell (chairs r)).
  { destruct (placeSmartMix _ _ _ _) as [s|] eqn:Hs; [|discriminate].
    intro H; injection H as <-.
    apply (placeSmartMix_units guestCount tableConfig doorAreas fuel tablesWell chairsWell)
      in Hs; [exact Hs| | | |].
    - constructor.
    - intros chair _. constructor.
    - intros cols tbls g. unfold smartMix_placeTables, placeTablesInColumns.
      destruct (tablesInColumns_loop _ _ _ _ _ _ _ _) as [st|] eqn:Hrun; [|discriminate].
      intro H; injection H as <- _.
      apply (tablesInColumns_loop_box plain tableConfig doorAreas sizes) in Hrun.
      exact Hrun.
    - intros chair tbls n remaining chrs g Hch Htb. unfold placeChairsInColumns.
      rewrite Hch.
      destruct (chairsInColumns_loop _ _ _ _ _ _ _ _ _) as [st|] eqn:Hrun; [|discriminate].
      intro H; injection H as <- _.
      intros chair' Hch'. assert (chair' = chair) as -> by congruence.
      apply (chairsInColumns_loop_box plain tableConfig doorAreas sizes) in Hrun;
        [exact Hrun|exact Hch|].
      intro Hp. apply chairStartX_ge_left; assumption. }
  destruct (seatingMode tableConfig) as [[| |]|]; try exact Hauto.
  - unfold placeTablesOnly.
    destruct (tablesOnly_loop _ _ _ _) as [st|] eqn:Hrun; [|discriminate].
    intro H; injection H as <-. cbn [tables chairs]. split.
    + apply (tablesOnly_loop_box plain tableConfig doorAreas sizes) in Hrun. exact Hrun.
    + intros chair _. constructor.
  - unfold placeChairsOnly.
    case_eq (singleChair tableConfig).
    + intros chair Hch.
      destruct (chairsOnly_loop _ _ _ _ _) as [st|] eqn:Hrun; [|discriminate].
      intro H; injection H as <-. cbn [tables chairs]. split; [constructor|].
      intros chair' Hch'. assert (chair' = chair) as -> by congruence.
      apply (chairsOnly_loop_box plain tableConfig doorAreas sizes) in Hrun;
        [exact Hrun|exact Hch].
    + intros _ H; injection H as <-. split; [constructor|]. intros chair _. constructor.
Qed.

Lemma calculateTableArrangement_box (guestCount : Z) (fuel : nat)
      (objects : list HallObject) (arrangement : Arrangement) (o : HallObject) :
  calculateTableArrangement guestCount tableConfig doorAreas fuel
  = Some (objects, arrangement) ->
  In o objects ->
  (h_x o + h_width o <= maxX bounds /\ h_y o + h_height o <= maxY bounds)
  /\ (plain -> minX bounds <= h_x o /\ minY bounds <= h_y o).
Proof.
  unfold calculateTableArrangement.
  destruct (guestCount <=? 0)%Z.
  { intro H; injection H as <- _. intros []. }
  destruct (seatingFor guestCount tableConfig doorAreas fuel) as [r|] eqn:Hseat;
    [|discriminate].
  intro H; injection H as <- _.
  destruct (seatingFor_box _ _ _ Hseat) as [Ht Hc].
  intro Hin. apply in_app_or in Hin. destruct Hin as [Hin|Hin].
  - apply in_map_iff in Hin. destruct Hin as [t [<- Hin]].
    unfold tablesWell in Ht. rewrite Forall_forall in Ht.
    apply (Ht t Hin).
  - apply in_flat_map in Hin. destruct Hin as [c [Hin Ho]].
    unfold chairHallObjects in Ho.
    case_eq (singleChair tableConfig).
    + intros chair Hch. rewrite Hch in Ho. destruct Ho as [<-|[]].
      specialize (Hc chair Hch). rewrite Forall_forall in Hc.
      apply (Hc c Hin).
    + intro Hnone. rewrite Hnone in Ho. destruct Ho.
Qed.
End ArrangementBox.

(** X12.  The packer never places a unit past the right or the top side
    of the area: for every object of an arrangement, [x + width] is at most
    the largest x and [y + height] at most the largest y of the area's
    bounding box (the four corner points when the area has them, [startX],
    [endX], [startY], [endY] otherwise).  This holds for every
    configuration, door list and seating mode. *)
Theorem arrangement_stays_below_far_sides :
  forall (guestCount : Z) (tableConfig : VenueTypes.TableConfig)
         (doorAreas : list DoorAreaUtils.DoorArea) (fuel : nat)
         (objects : list TableCalculator.HallObject)
         (arrangement : TableCalculator.Arrangement) (o : TableCalculator.HallObject),
    TableCalculator.calculateTableArrangement guestCount tableConfig doorAreas fuel
    = Some (objects, arrangement) ->
    In o objects ->
    TableCalculator.h_x o + TableCalculator.h_width o
    <= DoorAreaUtils.maxX (VenueTypes.areaBounds tableConfig)
    /\ TableCalculator.h_y o + TableCalculator.h_height o
       <= DoorAreaUtils.maxY (VenueTypes.areaBounds tableConfig).
Proof.
  intros g cfg doors fuel objects arr o Hrun Hin.
  apply (calculateTableArrangement_box False cfg doors (fun f => False_ind _ f)
                                       g fuel objects arr o Hrun Hin).
Qed.

Lemma arrangement_stays_below_far_sides_witness :
  10 + 10 <= DoorAreaUtils.maxX (VenueTypes.areaBounds Samples.fourTables)
  /\ 10 + 10 <= DoorAreaUtils.maxY (VenueTypes.areaBounds Samples.fourTables).
Proof.
  pose (o := TableCalculator.mkHallObject TableCalculator.TypeTable 10 10 10 10 3 0).
  let r := eval vm_compute in
    (TableCalculator.calculateTableArrangement 30 Samples.fourTables [] 2) in
  match r with
  | Some (?objects, ?arr) =>
      apply (arrangement_stays_below_far_sides
               30 Samples.fourTables [] 2 objects arr o)
  end.
  - vm_compute. reflexivity.
  - vm_compute. tauto.
Defined.

(** X13.  When no size, spacing or rows-per-group value of the
    configuration is negative, every object of an arrangement lies inside
    the bounding box of the area: [minX <= x], [x + width <= maxX],
    [minY <= y] and [y + height <= maxY], with [(x, y)] the stored position
    of the object. *)
Theorem arrangement_inside_area :
  forall (guestCount : Z) (tableConfig : VenueTypes.TableConfig)
         (doorAreas : list DoorAreaUtils.DoorArea) (fuel : nat)
         (objects : list TableCalculator.HallObject)
         (arrangement : TableCalculator.Arrangement) (o : TableCalculator.HallObject),
    Footprint.plainSizes tableConfig ->
    TableCalculator.calculateTableArrangement guestCount tableConfig doorAreas fuel
    = Some (objects, arrangement) ->
    In o objects ->
    DoorAreaUtils.minX (VenueTypes.areaBounds tableConfig) <= TableCalculator.h_x o
    /\ TableCalculator.h_x o + TableCalculator.h_width o
       <= DoorAreaUtils.maxX (VenueTypes.areaBounds tableConfig)
    /\ DoorAreaUtils.minY (VenueTypes.areaBounds tableConfig) <= TableCalculator.h_y o
    /\ TableCalculator.h_y o + TableCalculator.h_height o
       <= DoorAreaUtils.maxY (VenueTypes.areaBounds tableConfig).
Proof.
  intros g cfg doors fuel objects arr o Hsizes Hrun Hin.
  destruct (calculateTableArrangement_box True cfg doors (fun _ => Hsizes)
                                          g fuel objects arr o Hrun Hin)
    as [[Hx Hy] Hnear].
  destruct (Hnear I) as [Hx0 Hy0]. repeat split; assumption.
Qed.

Lemma arrangement_inside_area_witness :
  DoorAreaUtils.minX (VenueTypes.areaBounds Samples.mixArea) <= 0
  /\ 0 + 5 <= DoorAreaUtils.maxX (VenueTypes.areaBounds Samples.mixArea)
  /\ DoorAreaUtils.minY (VenueTypes.areaBounds Samples.mixArea) <= 10
  /\ 10 + 5 <= DoorAreaUtils.maxY (VenueTypes.areaBounds Samples.mixArea).
Proof.
  let r := eval vm_compute in
    (TableCalculator.calculateTableArrangement 9 Samples.mixArea [] 3) in
  match r with
  | Some (?objects, ?arr) =>
      match objects with
      | _ :: ?o :: _ =>
          apply (arrangement_inside_area 9 Samples.mixArea [] 3 objects arr o)
      end
  end.
  - vm_compute. repeat split; discriminate.
  - vm_compute. reflexivity.
  - vm_compute. tauto.
Defined.

(** ** No two units of an arrangement overlap *)
Lemma forUpTo_invariant_indexed {S : Type} (cond : S -> bool) (body : Z -> S -> S)
      (P : Z -> S -> Prop) (from : Z) :
  (forall i s, (from <= i)%Z -> P i s -> cond s = true -> P (i + 1)%Z (body i s)) ->
  forall n i s, (from <= i)%Z -> P i s ->
                exists j, (i <= j)%Z /\ P j (Js.forUpTo cond body n i s).
Proof.
  intros Hstep n; induction n as [|n IH]; intros i s Hi Hs; simpl.
  - exists i. split; [lia|assumption].
  - destruct (cond s) eqn:Hc.
    + destruct (IH (i + 1)%Z (body i s)) as [j [Hj Hp]]; [lia|apply Hstep; assumption|].
      exists j. split; [lia|assumption].
    + exists i. split; [lia|assumption].
Qed.

Lemma ForallOrdPairs_snoc {A : Type} (R : A -> A -> Prop) (l : list A) (v : A) :
  ForallOrdPairs R l -> Forall (fun u => R u v) l -> ForallOrdPairs R (l ++ [v]).
Proof.
  induction 1 as [|a l Ha Hl IH]; intro Hv; simpl.
  - constructor; constructor.
  - inversion Hv; subst. constructor.
    + apply Forall_app. split; [assumption|]. constructor; [assumption|constructor].
    + apply IH. assumption.
Qed.

Lemma ForallOrdPairs_app_cross {A : Type} (R : A -> A -> Prop) (l1 l2 : list A) :
  ForallOrdPairs R l1 -> ForallOrdPairs R l2 ->
  (forall a b, In a l1 -> In b l2 -> R a b) ->
  ForallOrdPairs R (l1 ++ l2).
Proof.
  induction 1 as [|a l Ha Hl IH]; intros H2 Hcross; simpl; [assumption|].
  constructor.
  - apply Forall_app. split; [assumption|].
    apply Forall_forall. intros b Hb. apply Hcross; [left; reflexivity|assumption].
  - apply IH; [assumption|]. intros a' b Ha' Hb. apply Hcross; [right|]; assumption.
Qed.

Lemma ForallOrdPairs_map {A B : Type} (f : A -> B) (R : A -> A -> Prop)
      (R' : B -> B -> Prop) (l : list A) :
  (forall a b, R a b -> R' (f a) (f b)) ->
  ForallOrdPairs R l -> ForallOrdPairs R' (map f l).
Proof.
  intro Hf. induction 1 as [|a l Ha Hl IH]; simpl; constructor; [|assumption].
  apply Forall_map. eapply Forall_impl; [|exact Ha]. intros b Hb. apply Hf, Hb.
Qed.

Section SchemaApart.
Import DoorAreaUtils VenueTypes TableCalculator ColumnSchema Apart.
Variable doorAreas : list DoorArea.
Variables unitWidth unitHeight skipSpacing step : Q.
Variable mkObject : Q -> Q -> ObjectBox.
Variable guestsPerUnit : Z.
Variable yOf : Z -> Q.
Variable fits : ColState -> Q -> bool.
Variable rowCond : ColState -> bool.
Variable rows : nat.
Variable bump : ColState -> ColState.
Variable cond : ColState -> bool.
Hypothesis bump_placed : forall st, placed (bump st) = placed st.
Hypothesis width_nonneg : 0 <= unitWidth.
Hypothesis height_nonneg : 0 <= unitHeight.
Hypothesis step_clears : unitWidth <= step.
Hypothesis skip_nonneg : 0 <= skipSpacing.
Hypothesis yOf_step : forall i, (0 <= i)%Z -> yOf i + unitHeight <= yOf (i + 1)%Z.

Let row := schemaRow doorAreas mkObject guestsPerUnit yOf fits.
Let body := schemaBody doorAreas unitWidth skipSpacing step mkObject guestsPerUnit
                       yOf fits rowCond rows bump.
Let apart := ForallOrdPairs (before unitWidth unitHeight).

(** While the column at [colX] is filled and row [i] comes next: every
    unit ends left of the column or lies in it below row [i]. *)
Let filling (colX : Q) (i : Z) (s : ColState) : Prop :=
  currentX s = colX /\ apart (placed s)
  /\ Forall (fun u => p_x u + unitWidth <= colX
                      \/ (p_x u == colX /\ p_y u + unitHeight <= yOf i)) (placed s).

Lemma schemaRow_apart (colX : Q) (i : Z) (s : ColState) :
  (0 <= i)%Z -> filling colX i s -> filling colX (i + 1)%Z (row i s).
Proof.
  intros Hi [Hx [Hap Hall]].
  pose proof (yOf_step i Hi) as Hstep.
  assert (Hold : Forall (fun u => p_x u + unitWidth <= colX
                                  \/ (p_x u == colX
                                      /\ p_y u + unitHeight <= yOf (i + 1)%Z))
                        (placed s)).
  { eapply Forall_impl; [|exact Hall]. cbv beta. intros u [Hu|[Hu1 Hu2]].
    - left. exact Hu.
    - right. split; [exact Hu1|lra]. }
  unfold row, schemaRow.
  destruct (fits s (yOf i)); [|split; [exact Hx|split; assumption]].
  destruct (negb _); [|split; [exact Hx|split; assumption]].
  cbn [pushUnit placed currentX]. split; [exact Hx|]. split.
  - apply ForallOrdPairs_snoc; [exact Hap|].
    eapply Forall_impl; [|exact Hall]. cbv beta. unfold before. cbn [p_x p_y].
    intros u [Hu|[Hu1 Hu2]]; [left; rewrite Hx; exact Hu|right; exact Hu2].
  - apply Forall_app. split; [exact Hold|].
    constructor; [|constructor]. right. cbn [p_x p_y]. split; [rewrite Hx; reflexivity|].
    exact Hstep.
Qed.

(** Between two columns: every unit ends at or before the cursor. *)
Let between (s : ColState) : Prop :=
  apart (placed s) /\ Forall (fun u => p_x u + unitWidth <= currentX s) (placed s).

Lemma schemaBody_apart (s : ColState) : between s -> between (body s).
Proof.
  intros [Hap Hall]. unfold between, body, schemaBody.
  destruct (columnOverlapsDoor _ _ _).
  - cbn [setX currentX placed]. split; [exact Hap|].
    pose proof (maxDoorEndX_ge_start unitWidth doorAreas (currentX s) (currentX s)) as Hge.
    fold (maxDoorEndX unitWidth doorAreas (currentX s)) in Hge.
    eapply Forall_impl; [|exact Hall]. cbv beta. intros u Hu. lra.
  - cbv zeta. cbn [setX currentX placed]. fold row.
    destruct (forUpTo_invariant_indexed rowCond row (filling (currentX s)) 0%Z
                (fun i st Hi Hf _ => schemaRow_apart (currentX s) i st Hi Hf)
                rows 0%Z s (Z.le_refl 0)) as [j [_ [Hx [Hap' Hall']]]].
    { split; [reflexivity|]. split; [exact Hap|].
      eapply Forall_impl; [|exact Hall]. cbv beta. intros u Hu. left. exact Hu. }
    rewrite bump_placed, Hx. split; [exact Hap'|].
    eapply Forall_impl; [|exact Hall']. cbv beta.
    intros u [Hu|[Hu1 _]]; lra.
Qed.

Lemma schemaLoop_apart (fuel : nat) (start : Q) (st : ColState) :
  Js.while cond body fuel (initState start) = Some st ->
  apart (placed st).
Proof.
  intro Hrun.
  apply (while_invariant cond body between) in Hrun.
  - apply Hrun.
  - intros s Hs _. apply schemaBody_apart, Hs.
  - split; constructor.
Qed.
End SchemaApart.

Lemma ForallOrdPairs_nth {A : Type} (R : A -> A -> Prop) (l : list A) :
  ForallOrdPairs R l ->
  forall i j a b, (i < j)%nat -> nth_error l i = Some a -> nth_error l j = Some b -> R a b.
Proof.
  induction 1 as [|x l Hx Hl IH]; intros i j a b Hij Ha Hb.
  - destruct i; discriminate.
  - destruct j as [|j]; [lia|]. destruct i as [|i]; simpl in Ha, Hb.
    + injection Ha as <-. rewrite Forall_forall in Hx. apply Hx.
      eapply nth_error_In, Hb.
    + apply (IH i j); [lia|assumption|assumption].
Qed.

Section BoxRows.
Import DoorAreaUtils TableCalculator.

Lemma rowY_step (bounds : Bounds) (hws rgs h : Q) (rpg i : Z) :
  h <= hws -> 0 <= rgs -> (0 < rpg)%Z -> (0 <= i)%Z ->
  rowY bounds hws rpg rgs i + h <= rowY bounds hws rpg rgs (i + 1)%Z.
Proof.
  intros Hh Hg Hr Hi. unfold rowY.
  rewrite inject_Z_plus. change (inject_Z 1) with 1.
  assert (Hdiv : inject_Z (i / rpg) * rgs <= inject_Z ((i + 1) / rpg) * rgs).
  { apply Qmult_le_compat_r; [|assumption].
    rewrite <- Zle_Qle. apply Z.div_le_mono; lia. }
  hide_injZ. nra.
Qed.

Lemma fold_Qmax_ge_in (l : list Q) (init a : Q) :
  In a l -> a <= fold_left Qmax l init.
Proof.
  revert init. induction l as [|b l IH]; intros init Hin; simpl; [destruct Hin|].
  destruct Hin as [->|Hin].
  - eapply Qle_trans; [|apply fold_Qmax_ge]. apply Q.le_max_r.
  - apply IH, Hin.
Qed.

Lemma rightmostX_ge (tbls : list Placed) (t : Placed) :
  In t tbls -> p_x t <= rightmostX tbls.
Proof.
  destruct tbls as [|t0 rest]; [intros []|]. unfold rightmostX.
  intros [->|Hin]; [apply fold_Qmax_ge|].
  apply fold_Qmax_ge_in. apply in_map, Hin.
Qed.
End BoxRows.

Section LoopsApart.
Import DoorAreaUtils VenueTypes TableCalculator ColumnSchema Footprint Apart.
Variable tableConfig : TableConfig.
Variable doorAreas : list DoorArea.
Hypothesis sizes : plainSizes tableConfig.

Let tablesApart := ForallOrdPairs (before (width tableConfig) (height tableConfig)).
Let chairsApart (chair : SingleChairConfig) :=
  ForallOrdPairs (before (chair_width chair) (chair_height chair)).

Lemma tablesOnly_loop_apart (target : Z) (fuel : nat) (st : ColState) :
  tablesOnly_loop target tableConfig doorAreas fuel = Some st -> tablesApart (placed st).
Proof.
  destruct sizes as [Hw [Hh [Hts [Hcs [Hrpg [Hrgs _]]]]]].
  unfold tablesOnly_loop. rewrite tablesOnly_body_schema.
  apply schemaLoop_apart; try assumption; try reflexivity; try lra.
  intros i Hi. apply rowY_step; [lra| | |assumption].
  - apply orQ_nonNegative; assumption.
  - apply orZ_positive; assumption.
Qed.

Lemma tablesInColumns_loop_apart (numColumns : Z) (bounds : Bounds) (maxRows : Z)
      (fuel : nat) (st : ColState) :
  tablesInColumns_loop numColumns tableConfig doorAreas bounds maxRows
                       (Js.orZ (rowsPerGroup tableConfig) 999)
                       (Js.orQ (rowGroupSpacing tableConfig) 0) fuel = Some st ->
  tablesApart (placed st).
Proof.
  destruct sizes as [Hw [Hh [Hts [Hcs [Hrpg [Hrgs _]]]]]].
  unfold tablesInColumns_loop. rewrite tablesInColumns_body_schema.
  apply schemaLoop_apart; try assumption; try reflexivity; try lra.
  intros i Hi. apply rowY_step; [lra| | |assumption].
  - apply orQ_nonNegative; assumption.
  - apply orZ_positive; assumption.
Qed.

Lemma chairsOnly_loop_apart (target : Z) (chair : SingleChairConfig) (fuel : nat)
      (st : ColState) :
  singleChair tableConfig = Some chair ->
  chairsOnly_loop target tableConfig doorAreas chair fuel = Some st ->
  chairsApart chair (placed st).
Proof.
  intro Hch. destruct sizes as [_ [_ [_ [_ [_ [Hrgs Hc]]]]]].
  rewrite Hch in Hc. destruct Hc as [Hw [Hh [Hsp Hrpg]]].
  unfold chairsOnly_loop. rewrite chairsOnly_body_schema.
  apply schemaLoop_apart; try assumption; try reflexivity; try lra.
  intros i Hi. apply rowY_step; [lra| | |assumption].
  - apply orQ_nonNegative; assumption.
  - apply orZ_positive; assumption.
Qed.

Lemma chairsInColumns_loop_apart (numColumns maxGuests : Z) (bounds : Bounds)
      (maxRows : Z) (startAt : Q) (chair : SingleChairConfig) (fuel : nat)
      (st : ColState) :
  singleChair tableConfig = Some chair ->
  chairsInColumns_loop numColumns maxGuests tableConfig doorAreas bounds maxRows startAt
                       chair fuel = Some st ->
  chairsApart chair (placed st) /\ Forall (fun u => startAt <= p_x u) (placed st).
Proof.
  intro Hch. destruct sizes as [_ [_ [_ [_ [_ [Hrgs Hc]]]]]].
  rewrite Hch in Hc. destruct Hc as [Hw [Hh [Hsp Hrpg]]].
  unfold chairsInColumns_loop. rewrite chairsInColumns_body_schema.
  intro Hrun. split.
  - revert Hrun.
    apply schemaLoop_apart; try assumption; try reflexivity; try lra.
    intros i Hi. apply rowY_step; [lra| | |assumption].
    + apply orQ_nonNegative; assumption.
    + apply orZ_positive; assumption.
  - revert Hrun.
    apply (schemaLoop_places doorAreas (chair_width chair) (chair_spacing chair)
             (chair_width chair + chair_spacing chair) (chairObject chair) 1
             _ _ _ _ nextColumn _
             (fun c => startAt <= c) (fun _ => True) (fun u => startAt <= p_x u)).
    + reflexivity.
    + intros; exact I.
    + intros c Hc. lra.
    + intros c Hc.
      pose proof (maxDoorEndX_ge_start (chair_width chair) doorAreas c c) as Hge.
      fold (maxDoorEndX (chair_width chair) doorAreas c) in Hge. lra.
    + intros s i idx _ Hk _ _. exact Hk.
    + lra.
Qed.
End LoopsApart.

(** The smart mix, with a property of the tables and chairs of one
    solution taken together. *)
Section SmartMixSolutions.
Import DoorAreaUtils VenueTypes TableCalculator.
Variable targetGuestCount : Z.
Variable tableConfig : TableConfig.
Variable doorAreas : list DoorArea.
Variable fuel : nat.
Variable G : list Placed -> list Placed -> Prop.
Hypothesis G_nil : G [] [].
Hypothesis tables_ok :
  forall cols tbls g,
    smartMix_placeTables tableConfig doorAreas fuel cols = Some (tbls, g) -> G tbls [].
Hypothesis chairs_ok :
  forall chair tbls n remaining chrs g,
    singleChair tableConfig = Some chair -> G tbls [] ->
    placeChairsInColumns n remaining tableConfig doorAreas (areaBounds tableConfig)
                         (smartMix_maxChairsPerColumn tableConfig)
                         (chairStartX tableConfig chair tbls) fuel = Some (chrs, g) ->
    G tbls chrs.

Let good (s : Solution) : Prop := G (s_tables s) (s_chairs s).

Lemma smartMix_iter_solution (tableColumns : Z) (best best' : Solution) (brk : bool) :
  good best ->
  smartMix_iter targetGuestCount tableConfig doorAreas fuel tableColumns best
  = Some (best', brk) ->
  good best'.
Proof.
  intros Hbest. unfold smartMix_iter.
  destruct (smartMix_placeTables _ _ _ _) as [[tbls tg]|] eqn:Ht; [|discriminate].
  apply tables_ok in Ht.
  destruct (_ <=? 0)%Z.
  { destruct (gapLt _ _); intro H; injection H as <- _; assumption. }
  case_eq (singleChair tableConfig).
  2:{ intros _ H; injection H as <- _; assumption. }
  intros chair Hch.
  destruct (0 <? _)%Z.
  - destruct (placeChairsInColumns _ _ _ _ _ _ _ _) as [[chrs cg]|] eqn:Hc; [|discriminate].
    apply (chairs_ok chair) in Hc; [|assumption|assumption].
    destruct (_ || _); intro H; injection H as <- _; assumption.
  - destruct (_ <? _)%Z; intro H; injection H as <- _; assumption.
Qed.

Lemma smartMix_loop_solution (n : nat) (best r : Solution) :
  good best ->
  smartMix_loop targetGuestCount tableConfig doorAreas fuel n best = Some r ->
  good r.
Proof.
  revert best. induction n as [|k IH]; intros best Hbest; simpl.
  - intro H; injection H as <-; assumption.
  - destruct (smartMix_iter _ _ _ _ _ _) as [[best' brk]|] eqn:Hit; [|discriminate].
    apply smartMix_iter_solution in Hit; [|assumption].
    destruct brk.
    + intro H; injection H as <-; assumption.
    + apply IH, Hit.
Qed.

Lemma placeSmartMix_solution (r : Solution) :
  placeSmartMix targetGuestCount tableConfig doorAreas fuel = Some r ->
  G (s_tables r) (s_chairs r).
Proof.
  unfold placeSmartMix.
  destruct (smartMix_loop _ _ _ _ _ _) as [best|] eqn:Hloop; [|discriminate].
  apply smartMix_loop_solution in Hloop; [|exact G_nil].
  unfold smartMix_fallback.
  destruct (_ && _).
  - destruct (smartMix_placeTables _ _ _ _) as [[tbls tg]|] eqn:Ht; [|discriminate].
    apply tables_ok in Ht.
    intro H; injection H as <-. exact Ht.
  - intro H; injection H as <-; assumption.
Qed.
End SmartMixSolutions.

Section ArrangementApart.
Import DoorAreaUtils VenueTypes TableCalculator Footprint Apart.
Variable tableConfig : TableConfig.
Variable doorAreas : list DoorArea.
Hypothesis sizes : plainSizes tableConfig.

Let seatingApart (tbls chrs : list Placed) : Prop :=
  ForallOrdPairs (before (width tableConfig) (height tableConfig)) tbls
  /\ forall chair, singleChair tableConfig = Some chair ->
                   ForallOrdPairs (before (chair_width chair) (chair_height chair)) chrs
                   /\ forall t c, In t tbls -> In c chrs ->
                                  p_x t + width tableConfig <= p_x c.

Lemma seatingFor_apart (guestCount : Z) (fuel : nat) (r : SeatingResult) :
  seatingFor guestCount tableConfig doorAreas fuel = Some r ->
  seatingApart (tables r) (chairs r).
Proof.
  unfold seatingFor.
  assert (Hauto : option_map seatingResultOf
                             (placeSmartMix guestCount tableConfig doorAreas fuel)
                  = Some r -> seatingApart (tables r) (chairs r)).
  { destruct (placeSmartMix _ _ _ _) as [s|] eqn:Hs; [|discriminate].
    intro H; injection H as <-.
    apply (placeSmartMix_solution guestCount tableConfig doorAreas fuel seatingApart)
      in Hs; [exact Hs| | |].
    - split; [constructor|]. intros chair _. split; [constructor|intros t c []].
    - intros cols tbls g. unfold smartMix_placeTables, placeTablesInColumns.
      destruct (tablesInColumns_loop _ _ _ _ _ _ _ _) as [st|] eqn:Hrun; [|discriminate].
      intro H; injection H as <- _.
      apply (tablesInColumns_loop_apart tableConfig doorAreas sizes) in Hrun.
      split; [exact Hrun|]. intros chair _. split; [constructor|intros t c _ []].
    - intros chair tbls n remaining chrs g Hch [Htb _]. unfold placeChairsInColumns.
      rewrite Hch.
      destruct (chairsInColumns_loop _ _ _ _ _ _ _ _ _) as [st|] eqn:Hrun; [|discriminate].
      intro H; injection H as <- _.
      apply (chairsInColumns_loop_apart tableConfig doorAreas sizes) in Hrun;
        [|exact Hch].
      destruct Hrun as [Hap Hleft].
      split; [exact Htb|].
      intros chair' Hch'. assert (chair' = chair) as -> by congruence.
      split; [exact Hap|].
      intros t c Ht Hc. rewrite Forall_forall in Hleft. specialize (Hleft c Hc).
      unfold chairStartX in Hleft.
      destruct tbls as [|t0 rest]; [destruct Ht|].
      pose proof (rightmostX_ge (t0 :: rest) t Ht) as Hr.
      pose proof (Q.le_max_l (columnSpacing tableConfig) (chair_spacing chair * 2)) as Hm.
      destruct sizes as [_ [_ [_ [Hcs _]]]]. lra. }
  destruct (seatingMode tableConfig) as [[| |]|]; try exact Hauto.
  - unfold placeTablesOnly.
    destruct (tablesOnly_loop _ _ _ _) as [st|] eqn:Hrun; [|discriminate].
    intro H; injection H as <-. cbn [tables chairs]. split.
    + apply (tablesOnly_loop_apart tableConfig doorAreas sizes) in Hrun. exact Hrun.
    + intros chair _. split; [constructor|intros t c _ []].
  - unfold placeChairsOnly.
    case_eq (singleChair tableConfig).
    + intros chair Hch.
      destruct (chairsOnly_loop _ _ _ _ _) as [st|] eqn:Hrun; [|discriminate].
      intro H; injection H as <-. cbn [tables chairs]. split; [constructor|].
      intros chair' Hch'. assert (chair' = chair) as -> by congruence.
      apply (chairsOnly_loop_apart tableConfig doorAreas sizes) in Hrun; [|exact Hch].
      split; [exact Hrun|intros t c []].
    + intros _ H; injection H as <-. split; [constructor|].
      intros chair _. split; [constructor|intros t c []].
Qed.

Lemma calculateTableArrangement_apart (guestCount : Z) (fuel : nat)
      (objects : list HallObject) (arrangement : Arrangement) :
  calculateTableArrangement guestCount tableConfig doorAreas fuel
  = Some (objects, arrangement) ->
  ForallOrdPairs objectBefore objects.
Proof.
  unfold calculateTableArrangement.
  destruct (guestCount <=? 0)%Z.
  { intro H; injection H as <- _. constructor. }
  destruct (seatingFor guestCount tableConfig doorAreas fuel) as [r|] eqn:Hseat;
    [|discriminate].
  intro H; injection H as <- _.
  destruct (seatingFor_apart _ _ _ Hseat) as [Ht Hc].
  apply ForallOrdPairs_app_cross.
  - eapply ForallOrdPairs_map; [|exact Ht]. intros a b Hab. exact Hab.
  - unfold chairHallObjects. case_eq (singleChair tableConfig).
    + intros chair Hch. destruct (Hc chair Hch) as [Hcc _].
      clear Hc Hseat. induction Hcc as [|c l Hcl Hl IH]; simpl; constructor.
      * clear IH Hl. induction Hcl as [|c' l' Hc' _ IH']; simpl; constructor; assumption.
      * exact IH.
    + intros _. clear. induction (chairs r); simpl; [constructor|assumption].
  - intros a b Ha Hb. apply in_map_iff in Ha. destruct Ha as [t [<- Ht']].
    apply in_flat_map in Hb. destruct Hb as [c [Hc' Hb]].
    unfold chairHallObjects in Hb. case_eq (singleChair tableConfig).
    + intros chair Hch. rewrite Hch in Hb. destruct Hb as [<-|[]].
      destruct (Hc chair Hch) as [_ Hcross]. left. cbn. apply Hcross; assumption.
    + intro Hnone. rewrite Hnone in Hb. destruct Hb.
Qed.
End ArrangementApart.

(** X14.  No two objects of an arrangement overlap.  When no size, spacing
    or rows-per-group value of the configuration is negative, every object
    of the returned list ends, horizontally or vertically, where any object
    that comes later in the list begins: [a.x + a.width <= b.x] or
    [a.y + a.height <= b.y], with [(x, y)] the stored position.  Tables are
    kept apart from tables, chairs from chairs and tables from chairs.
    Stated for configurations and door areas in whole numbers, where the
    positions the source computes are exact (with other numbers two
    neighbours can overlap by a rounding error). *)
Theorem arrangement_objects_do_not_overlap :
  forall (guestCount : Z) (tableConfig : VenueTypes.TableConfig)
         (doorAreas : list DoorAreaUtils.DoorArea) (fuel : nat)
         (objects : list TableCalculator.HallObject)
         (arrangement : TableCalculator.Arrangement)
         (i j : nat) (a b : TableCalculator.HallObject),
    Footprint.plainSizes tableConfig ->
    Footprint.wholeSizes tableConfig = true ->
    Footprint.wholeDoors doorAreas = true ->
    TableCalculator.calculateTableArrangement guestCount tableConfig doorAreas fuel
    = Some (objects, arrangement) ->
    (i < j)%nat -> nth_error objects i = Some a -> nth_error objects j = Some b ->
    Apart.objectBefore a b.
Proof.
  intros g cfg doors fuel objects arr i j a b Hsizes _ _ Hrun Hij Ha Hb.
  apply (ForallOrdPairs_nth Apart.objectBefore objects
           (calculateTableArrangement_apart cfg doors Hsizes g fuel objects arr Hrun)
           i j a b Hij Ha Hb).
Qed.

Lemma arrangement_objects_do_not_overlap_witness :
  Apart.objectBefore
    (TableCalculator.mkHallObject TableCalculator.TypeTable 0 0 10 10 0 0)
    (TableCalculator.mkHallObject TableCalculator.TypeTable 10 10 10 10 3 0).
Proof.
  let r := eval vm_compute in
    (TableCalculator.calculateTableArrangement 30 Samples.fourTables [] 2) in
  match r with
  | Some (?objects, ?arr) =>
      apply (arrangement_objects_do_not_overlap
               30 Samples.fourTables [] 2 objects arr 0 3)
  end.
  - vm_compute. repeat split; discriminate.
  - vm_compute. reflexivity.
  - reflexivity.
  - vm_compute. reflexivity.
  - lia.
  - vm_compute. reflexivity.
  - vm_compute. reflexivity.
Defined.

(** ** The store: replacing the arrangement *)
Section StoreArrangement.
Import DoorAreaUtils VenueTypes TableCalculator TableArrangement HallStore.

Lemma clearTableArrangement_idempotent (l : list HallObject) :
  clearTableArrangement (clearTableArrangement l) = clearTableArrangement l.
Proof.
  unfold clearTableArrangement. induction l as [|o l IH]; [reflexivity|]. simpl.
  destruct (negb (isTable o) && negb (isChair o)) eqn:E; [|exact IH].
  simpl. rewrite E, IH. reflexivity.
Qed.

Lemma cleared_has_no_tables (l : list HallObject) :
  filter isTable (clearTableArrangement l) = [].
Proof.
  unfold clearTableArrangement. induction l as [|o l IH]; [reflexivity|]. simpl.
  destruct (isTable o) eqn:E; simpl; [exact IH|].
  destruct (isChair o); simpl; [exact IH|]. rewrite E. exact IH.
Qed.

Lemma cleared_has_no_chairs (l : list HallObject) :
  filter isChair (clearTableArrangement l) = [].
Proof.
  unfold clearTableArrangement. induction l as [|o l IH]; [reflexivity|]. simpl.
  destruct (isTable o) eqn:E; simpl; [exact IH|].
  destruct (isChair o) eqn:E'; simpl; [exact IH|]. rewrite E'. exact IH.
Qed.

Lemma arrangement_objects_cleared (guestCount : Z) (tableConfig : TableConfig)
      (doorAreas : list DoorArea) (fuel : nat) (objs : list HallObject)
      (arr : Arrangement) :
  calculateTableArrangement guestCount tableConfig doorAreas fuel = Some (objs, arr) ->
  clearTableArrangement objs = [].
Proof.
  intro Hrun.
  destruct (calculateTableArrangement_inv tableConfig guestCount doorAreas fuel
              objs arr Hrun) as [tbls [chrs [-> _]]].
  apply objects_cleared.
Qed.

Lemma setTableArrangement_kept (guestCount : Z) (tableConfig : TableConfig)
      (doorAreas : list DoorArea) (fuel : nat) (st st' : HallState) :
  setTableArrangement guestCount tableConfig doorAreas fuel st = Some st' ->
  exists objs arr,
    calculateTableArrangement guestCount tableConfig doorAreas fuel = Some (objs, arr)
    /\ objects st' = clearTableArrangement (objects st) ++ objs
    /\ clearTableArrangement (objects st') = clearTableArrangement (objects st)
    /\ selectedTableArea st' = selectedTableArea st
    /\ manualTableCount st' = manualTableCount st
    /\ manualChairCount st' = manualChairCount st
    /\ currentTableConfig st' = Some tableConfig.
Proof.
  unfold setTableArrangement.
  destruct (calculateTableArrangement guestCount tableConfig doorAreas fuel)
    as [[objs arr]|] eqn:Hrun; [|discriminate].
  intro H; injection H as <-. exists objs, arr. cbn.
  split; [reflexivity|]. split; [reflexivity|]. split.
  - unfold clearTableArrangement at 1. rewrite filter_app.
    fold (clearTableArrangement (clearTableArrangement (objects st))).
    fold (clearTableArrangement objs).
    rewrite clearTableArrangement_idempotent,
      (arrangement_objects_cleared _ _ _ _ _ _ Hrun), app_nil_r.
    reflexivity.
  - repeat split; reflexivity.
Qed.

End StoreArrangement.

(** X15.  setTableArrangement replaces the seating and nothing else.  The
    new state holds, of the objects the store held, exactly those that are
    neither table nor chair (a stage, for instance), in their order,
    followed by the objects calculateTableArrangement returns for the
    request; it records the configuration and the guest count of the
    request and keeps the selected area and the manual counts.  So an
    earlier arrangement leaves no trace: clearing the arrangement
    afterwards leaves the objects that clearing it before would have left,
    and arranging again gives the state it would have given without the
    earlier call. *)
Theorem setTableArrangement_replaces_seating :
  forall (g1 g2 : Z) (cfg1 cfg2 : VenueTypes.TableConfig)
         (doors1 doors2 : list DoorAreaUtils.DoorArea) (fuel1 fuel2 : nat)
         (st st1 : HallStore.HallState),
    HallStore.setTableArrangement g1 cfg1 doors1 fuel1 st = Some st1 ->
    (exists objs arr,
        TableCalculator.calculateTableArrangement g1 cfg1 doors1 fuel1 = Some (objs, arr)
        /\ HallStore.objects st1
           = filter (fun o => match TableCalculator.h_type o with
                              | TableCalculator.TypeTable | TableCalculator.TypeChair => false
                              | _ => true
                              end) (HallStore.objects st)
             ++ objs)
    /\ HallStore.currentTableConfig st1 = Some cfg1
    /\ HallStore.currentGuestCount st1 = g1
    /\ HallStore.selectedTableArea st1 = HallStore.selectedTableArea st
    /\ HallStore.manualTableCount st1 = HallStore.manualTableCount st
    /\ HallStore.manualChairCount st1 = HallStore.manualChairCount st
    /\ HallStore.objects (HallStore.clearArrangement st1)
       = HallStore.objects (HallStore.clearArrangement st)
    /\ HallStore.setTableArrangement g2 cfg2 doors2 fuel2 st1
       = HallStore.setTableArrangement g2 cfg2 doors2 fuel2 st.
Proof.
  intros g1 g2 cfg1 cfg2 doors1 doors2 fuel1 fuel2 st st1 H1.
  destruct (setTableArrangement_kept _ _ _ _ _ _ H1)
    as [objs [arr [Hrun [Hobjs [Hkept [Hsel [Hmt [Hmc Hcfg]]]]]]]].
  split.
  { exists objs, arr. split; [exact Hrun|]. rewrite Hobjs. f_equal.
    unfold TableArrangement.clearTableArrangement. apply filter_ext.
    intro o. unfold TableArrangement.isTable, TableArrangement.isChair.
    destruct (TableCalculator.h_type o); reflexivity. }
  split; [exact Hcfg|]. split.
  { unfold HallStore.setTableArrangement in H1.
    destruct (TableCalculator.calculateTableArrangement g1 cfg1 doors1 fuel1)
      as [[o a]|]; [|discriminate].
    injection H1 as <-. reflexivity. }
  split; [exact Hsel|]. split; [exact Hmt|]. split; [exact Hmc|].
  split; [exact Hkept|].
  unfold HallStore.setTableArrangement. rewrite Hkept, Hsel, Hmt, Hmc. reflexivity.
Qed.

Lemma setTableArrangement_replaces_seating_witness :
  exists st1,
    HallStore.setTableArrangement
      30 Samples.fourTables [] 2
      (HallStore.mkHallState
         [TableCalculator.mkHallObject TableCalculator.TypeStage 0 0 50 20 0 0;
          TableCalculator.mkHallObject TableCalculator.TypeTable 3 3 10 10 0 0]
         None None 0 None None) = Some st1
    /\ HallStore.objects st1
       = [TableCalculator.mkHallObject TableCalculator.TypeStage 0 0 50 20 0 0;
          TableCalculator.mkHallObject TableCalculator.TypeTable 0 0 10 10 0 0;
          TableCalculator.mkHallObject TableCalculator.TypeTable 0 10 10 10 1 0;
          TableCalculator.mkHallObject TableCalculator.TypeTable 10 0 10 10 2 0;
          TableCalculator.mkHallObject TableCalculator.TypeTable 10 10 10 10 3 0]
    /\ HallStore.currentGuestCount st1 = 30%Z
    /\ HallStore.objects (HallStore.clearArrangement st1)
       = [TableCalculator.mkHallObject TableCalculator.TypeStage 0 0 50 20 0 0].
Proof.
  eexists. split; [vm_compute; reflexivity|].
  match goal with
  | |- HallStore.objects ?s1 = _ /\ _ =>
      destruct (setTableArrangement_replaces_seating
                  30 9 Samples.fourTables Samples.mixArea [] [] 2 3
                  (HallStore.mkHallState
                     [TableCalculator.mkHallObject TableCalculator.TypeStage 0 0 50 20 0 0;
                      TableCalculator.mkHallObject TableCalculator.TypeTable 3 3 10 10 0 0]
                     None None 0 None None) s1)
        as [[objs [arr [Hrun Hobjs]]] [_ [Hg [_ [_ [_ [Hkept _]]]]]]];
        [vm_compute; reflexivity|]
  end.
  split.
  - rewrite Hobjs.
    assert (Hsame : Some (objs, arr)
                    = Some ([TableCalculator.mkHallObject TableCalculator.TypeTable 0 0 10 10 0 0;
                             TableCalculator.mkHallObject TableCalculator.TypeTable 0 10 10 10 1 0;
                             TableCalculator.mkHallObject TableCalculator.TypeTable 10 0 10 10 2 0;
                             TableCalculator.mkHallObject TableCalculator.TypeTable 10 10 10 10 3 0],
                            TableCalculator.mkArrangement 4 32 0 32)).
    { rewrite <- Hrun. vm_compute. reflexivity. }
    injection Hsame as -> _. reflexivity.
  - split; [exact Hg|]. rewrite Hkept. reflexivity.
Defined.

(** X16.  After setTableArrangement the store's statistics are those of the
    new arrangement, whatever the store held before: getTableStats reports
    the tables, seats at tables, single chairs and guests of the summary the
    calculator returned, provided chairsPerTable is not zero. *)
Theorem stats_after_setTableArrangement :
  forall (guestCount : Z) (tableConfig : VenueTypes.TableConfig)
         (doorAreas : list DoorAreaUtils.DoorArea) (fuel : nat)
         (st st' : HallStore.HallState) (shown : option Z),
    VenueTypes.chairsPerTable tableConfig <> 0%Z ->
    HallStore.setTableArrangement guestCount tableConfig doorAreas fuel st = Some st' ->
    exists objs arr,
      TableCalculator.calculateTableArrangement guestCount tableConfig doorAreas fuel
      = Some (objs, arr)
      /\ HallStore.getTableStats shown st'
         = TableArrangement.mkStats (TableCalculator.totalTables arr)
                                    (TableCalculator.totalChairs arr)
                                    (TableCalculator.totalSingleChairs arr)
                                    (TableCalculator.totalGuests arr).
Proof.
  intros g cfg doors fuel st st' shown Hcpt Hset.
  destruct (setTableArrangement_kept _ _ _ _ _ _ Hset)
    as [objs [arr [Hrun [Hobjs [_ [_ [_ [_ Hcfg]]]]]]]].
  exists objs, arr. split; [exact Hrun|].
  destruct (calculateTableArrangement_counts g cfg doors fuel objs arr Hrun)
    as [Hchairs [Hguests [Ht [Hc _]]]].
  unfold HallStore.getTableStats, TableArrangement.getTableArrangementStats.
  rewrite Hobjs, Hcfg, !filter_app, cleared_has_no_tables, cleared_has_no_chairs.
  cbn [app]. rewrite Ht, Hc. unfold Js.orZ.
  destruct (VenueTypes.chairsPerTable cfg =? 0)%Z eqn:E.
  - apply Z.eqb_eq in E. contradiction.
  - rewrite <- Hchairs, <- Hguests. reflexivity.
Qed.

Lemma stats_after_setTableArrangement_witness :
  exists st',
    HallStore.setTableArrangement
      30 Samples.fourTables [] 2
      (HallStore.mkHallState
         [TableCalculator.mkHallObject TableCalculator.TypeTable 3 3 10 10 0 0]
         None None 0 None None) = Some st'
    /\ HallStore.getTableStats None st' = TableArrangement.mkStats 4 32 0 32.
Proof.
  eexists. split; [vm_compute; reflexivity|].
  match goal with
  | |- HallStore.getTableStats _ ?s1 = _ =>
      destruct (stats_after_setTableArrangement
                  30 Samples.fourTables [] 2
                  (HallStore.mkHallState
                     [TableCalculator.mkHallObject TableCalculator.TypeTable 3 3 10 10 0 0]
                     None None 0 None None) s1 None) as [objs [arr [Hrun Hstats]]];
        [simpl; discriminate|vm_compute; reflexivity|]
  end.
  rewrite Hstats. vm_compute in Hrun. injection Hrun as <- <-. reflexivity.
Defined.

(** X17.  The manual counts always cover the guests.  With an area selected,
    guests present and a positive number of seats per table:
    setManualChairCount(c) sets the table count to the least number of
    tables that seats the guests the chairs leave over, and
    setManualTableCount(t), when the area has single chairs, sets the chair
    count to the guests the tables leave over (none if the tables seat
    everybody). *)
Theorem manual_counts_cover_guests :
  forall (st : HallStore.HallState) (area : VenueTypes.TableConfig) (count : Z),
    HallStore.selectedTableArea st = Some area ->
    (0 < HallStore.currentGuestCount st)%Z ->
    (0 < VenueTypes.chairsPerTable area)%Z ->
    (exists t,
        HallStore.manualTableCount (HallStore.setManualChairCount (Some count) st) = Some t
        /\ HallStore.manualChairCount (HallStore.setManualChairCount (Some count) st)
           = Some count
        /\ (0 <= t)%Z
        /\ (HallStore.currentGuestCount st
            <= t * VenueTypes.chairsPerTable area + count)%Z
        /\ (0 < t ->
            (t - 1) * VenueTypes.chairsPerTable area + count
            < HallStore.currentGuestCount st)%Z)
    /\ (VenueTypes.singleChair area <> None ->
        exists c,
          HallStore.manualChairCount (HallStore.setManualTableCount (Some count) st)
          = Some c
          /\ HallStore.manualTableCount (HallStore.setManualTableCount (Some count) st)
             = Some count
          /\ (0 <= c)%Z
          /\ (count * VenueTypes.chairsPerTable area + c
              = Z.max (HallStore.currentGuestCount st)
                      (count * VenueTypes.chairsPerTable area))%Z).
Proof.
  intros st area count Hsel Hg Hcpt. split.
  - unfold HallStore.setManualChairCount. rewrite Hsel.
    destruct (HallStore.currentGuestCount st <=? 0)%Z eqn:E; [apply Z.leb_le in E; lia|].
    cbn [HallStore.manualTableCount HallStore.manualChairCount].
    eexists. split; [reflexivity|]. split; [reflexivity|].
    rewrite (Qceiling_quotient _ _ Hcpt). unfold TableCalculator.ceilDiv.
    set (c := VenueTypes.chairsPerTable area) in *.
    set (need := Z.max 0 (HallStore.currentGuestCount st - count)).
    pose proof (Z.div_mod (- need) c ltac:(lia)) as Hdm.
    pose proof (Z.mod_pos_bound (- need) c Hcpt) as Hm.
    assert (Hneed : (0 <= need)%Z) by (unfold need; lia).
    assert (Hneed' : (HallStore.currentGuestCount st - count <= need)%Z)
      by (unfold need; lia).
    assert (Hneed0 : (need = 0 \/ need = HallStore.currentGuestCount st - count)%Z)
      by (unfold need; lia).
    split; [nia|]. split; [nia|]. intro Ht. nia.
  - intro Hch. unfold HallStore.setManualTableCount. rewrite Hsel.
    destruct (HallStore.currentGuestCount st <=? 0)%Z eqn:E; [apply Z.leb_le in E; lia|].
    destruct (VenueTypes.singleChair area) as [chair|]; [|contradiction].
    cbn [HallStore.manualTableCount HallStore.manualChairCount].
    eexists. split; [reflexivity|]. split; [reflexivity|]. split; lia.
Qed.

Lemma manual_counts_cover_guests_witness :
  exists t,
    HallStore.manualTableCount
      (HallStore.setManualChairCount
         (Some 5%Z)
         (HallStore.mkHallState [] None (Some Samples.mixArea) 30 None None)) = Some t
    /\ (30 <= t * 8 + 5)%Z.
Proof.
  destruct (manual_counts_cover_guests
              (HallStore.mkHallState [] None (Some Samples.mixArea) 30 None None)
              Samples.mixArea 5) as [[t [H1 [_ [_ [H2 _]]]]] _];
    [reflexivity|simpl; lia|simpl; lia|].
  exists t. split; [exact H1|exact H2].
Defined.

(** ** The seating mode decides which kinds of objects appear *)
Section SeatingModes.
Import DoorAreaUtils VenueTypes TableCalculator TableArrangement HallStore.

Lemma tablesOnly_mode_objects (guestCount : Z) (tableConfig : TableConfig)
      (doorAreas : list DoorArea) (fuel : nat) (objs : list HallObject)
      (arr : Arrangement) :
  seatingMode tableConfig = Some ModeTablesOnly ->
  calculateTableArrangement guestCount tableConfig doorAreas fuel = Some (objs, arr) ->
  filter isChair objs = [] /\ totalSingleChairs arr = 0%Z.
Proof.
  intros Hmode. unfold calculateTableArrangement.
  destruct (guestCount <=? 0)%Z.
  { intro H; injection H as <- <-. split; reflexivity. }
  unfold seatingFor. rewrite Hmode. unfold placeTablesOnly.
  destruct (tablesOnly_loop _ _ _ _) as [st|]; [|discriminate].
  cbn [tables chairs actualGuests flat_map List.length].
  intro H; injection H as <- <-. rewrite app_nil_r. split; [|reflexivity].
  apply filter_none. eapply Forall_impl; [|apply tableObjects_are_tables].
  cbv beta. intros o [_ H]. exact H.
Qed.

Lemma chairsOnly_mode_objects (guestCount : Z) (tableConfig : TableConfig)
      (doorAreas : list DoorArea) (fuel : nat) (objs : list HallObject)
      (arr : Arrangement) :
  seatingMode tableConfig = Some ModeChairsOnly ->
  calculateTableArrangement guestCount tableConfig doorAreas fuel = Some (objs, arr) ->
  filter isTable objs = [] /\ totalTables arr = 0%Z /\ totalChairs arr = 0%Z.
Proof.
  intros Hmode. unfold calculateTableArrangement.
  destruct (guestCount <=? 0)%Z.
  { intro H; injection H as <- <-. repeat split; reflexivity. }
  unfold seatingFor. rewrite Hmode. unfold placeChairsOnly.
  destruct (singleChair tableConfig) as [chair|] eqn:Hch.
  - destruct (chairsOnly_loop _ _ _ _ _) as [st|]; [|discriminate].
    cbn [tables chairs actualGuests map List.length app].
    intro H; injection H as <- <-. split; [|split; reflexivity].
    apply filter_none.
    pose proof (chairObjects_are_chairs tableConfig (placed st)) as Hall.
    eapply Forall_impl; [|exact Hall]. cbv beta. intros o [H _]. exact H.
  - cbn. intro H; injection H as <- <-. repeat split; reflexivity.
Qed.

End SeatingModes.

(** X18.  The seating mode chosen in the store is respected: after
    setSeatingMode, with an area selected and guests present, a tables-only
    store holds no chair object and a chairs-only store holds no table
    object, whatever it held before; the area is stored with the new mode
    and both manual counts are reset. *)
Theorem seating_mode_is_respected :
  forall (mode : VenueTypes.SeatingMode) (fuel : nat)
         (st st' : HallStore.HallState) (area : VenueTypes.TableConfig),
    HallStore.selectedTableArea st = Some area ->
    (0 < HallStore.currentGuestCount st)%Z ->
    HallStore.setSeatingMode mode fuel st = Some st' ->
    (mode = VenueTypes.ModeTablesOnly ->
     filter TableArrangement.isChair (HallStore.objects st') = [])
    /\ (mode = VenueTypes.ModeChairsOnly ->
        filter TableArrangement.isTable (HallStore.objects st') = [])
    /\ HallStore.selectedTableArea st' = Some (HallStore.withSeatingMode area mode)
    /\ HallStore.currentTableConfig st' = Some (HallStore.withSeatingMode area mode)
    /\ HallStore.manualTableCount st' = None
    /\ HallStore.manualChairCount st' = None.
Proof.
  intros mode fuel st st' area Hsel Hg. unfold HallStore.setSeatingMode.
  rewrite Hsel. destruct (0 <? HallStore.currentGuestCount st)%Z eqn:E;
    [|apply Z.ltb_ge in E; lia].
  destruct (TableCalculator.calculateTableArrangement _ _ _ _) as [[objs arr]|] eqn:Hrun;
    [|discriminate].
  intro H; injection H as <-.
  cbn [HallStore.objects HallStore.selectedTableArea HallStore.currentTableConfig
       HallStore.manualTableCount HallStore.manualChairCount].
  split; [|split; [|repeat split; reflexivity]].
  - intros ->. rewrite filter_app, cleared_has_no_chairs.
    apply (tablesOnly_mode_objects _ (HallStore.withSeatingMode area VenueTypes.ModeTablesOnly)
             _ _ _ _ eq_refl Hrun).
  - intros ->. rewrite filter_app, cleared_has_no_tables.
    apply (chairsOnly_mode_objects _ (HallStore.withSeatingMode area VenueTypes.ModeChairsOnly)
             _ _ _ _ eq_refl Hrun).
Qed.

Lemma seating_mode_is_respected_witness :
  exists st',
    HallStore.setSeatingMode
      VenueTypes.ModeChairsOnly 3
      (HallStore.mkHallState
         [TableCalculator.mkHallObject TableCalculator.TypeTable 0 0 10 40 0 0]
         None (Some Samples.mixArea) 6 None None) = Some st'
    /\ filter TableArrangement.isTable (HallStore.objects st') = [].
Proof.
  eexists. split; [vm_compute; reflexivity|].
  match goal with
  | |- filter _ (HallStore.objects ?s1) = _ =>
      destruct (seating_mode_is_respected
                  VenueTypes.ModeChairsOnly 3
                  (HallStore.mkHallState
                     [TableCalculator.mkHallObject TableCalculator.TypeTable 0 0 10 40 0 0]
                     None (Some Samples.mixArea) 6 None None)
                  s1 Samples.mixArea) as [_ [H _]];
        [reflexivity|simpl; lia|vm_compute; reflexivity|exact (H eq_refl)]
  end.
Defined.

(** ** Rounding to eight decimals *)
Section Rounding.
Import AdvancedDxfRenderer.
Local Open Scope R_scope.

Lemma Int_part_half (n : Z) : Int_part (IZR n + / 2) = n.
Proof.
  destruct (base_Int_part (IZR n + / 2)) as [Hle Hgt].
  assert (H1 : IZR (Int_part (IZR n + / 2)) < IZR (n + 1)) by (rewrite plus_IZR; lra).
  assert (H2 : IZR (n - 1) < IZR (Int_part (IZR n + / 2))) by (rewrite minus_IZR; lra).
  apply lt_IZR in H1, H2. lia.
Qed.

Lemma nearest_multiple (u : R) :
  - / 2 < IZR (Int_part (u + / 2)) - u <= / 2.
Proof.
  destruct (base_Int_part (u + / 2)) as [Hle Hgt]. lra.
Qed.

End Rounding.

(** X20.  toPrecise rounds to the nearest multiple of 10^-8: the result is
    a whole number of hundred-millionths, it differs from the value by at
    most 5 * 10^-9, and rounding a second time changes nothing. *)
Theorem toPrecise_rounds_to_eight_decimals :
  forall value : R,
    (exists n : Z, AdvancedDxfRenderer.toPrecise value = (IZR n / 100000000)%R)
    /\ (Rabs (AdvancedDxfRenderer.toPrecise value - value) <= / 200000000)%R
    /\ AdvancedDxfRenderer.toPrecise (AdvancedDxfRenderer.toPrecise value)
       = AdvancedDxfRenderer.toPrecise value.
Proof.
  intro value.
  assert (Hfix : forall n : Z,
             AdvancedDxfRenderer.toPrecise (IZR n / 100000000)
             = (IZR n / 100000000)%R).
  { intro n. unfold AdvancedDxfRenderer.toPrecise.
    destruct (Rle_dec 0 (IZR n / 100000000)) as [Hpos|Hneg].
    - replace (IZR n / 100000000 * 100000000 + / 2)%R with (IZR n + / 2)%R by field.
      rewrite Int_part_half. reflexivity.
    - replace (- (IZR n / 100000000) * 100000000 + / 2)%R with (IZR (- n) + / 2)%R
        by (rewrite opp_IZR; field).
      rewrite Int_part_half, opp_IZR. field. }
  assert (Hn : exists n : Z,
             AdvancedDxfRenderer.toPrecise value = (IZR n / 100000000)%R).
  { unfold AdvancedDxfRenderer.toPrecise. destruct (Rle_dec 0 value).
    - eexists. reflexivity.
    - exists (- Int_part (- value * 100000000 + / 2))%Z. rewrite opp_IZR. field. }
  split; [exact Hn|]. split.
  - unfold AdvancedDxfRenderer.toPrecise. destruct (Rle_dec 0 value).
    + pose proof (nearest_multiple (value * 100000000)) as H.
      apply Rabs_le. lra.
    + pose proof (nearest_multiple (- value * 100000000)) as H.
      apply Rabs_le. lra.
  - destruct Hn as [n ->]. apply Hfix.
Qed.
(** ** What the renderer keeps while it processes entities *)
Section RendererInvariant.
Import Dxf AdvancedDxfRenderer.
Local Open Scope R_scope.
Variable P : Processor -> Prop.
Hypothesis P_addLine :
  forall colour x1 y1 x2 y2 p, P p -> P (addLine colour x1 y1 x2 y2 p).
Hypothesis P_bounds :
  forall layerName pts p, P p -> P (updateLayerBounds layerName pts p).
Hypothesis P_items :
  forall p cs ars ts,
    P p -> P (mkProcessor (lineBatches p) cs ars ts (layerBounds p) (centerX p) (centerY p)).

Lemma segment_keeps (colour : string) (a b : XY) (p : Processor) :
  P p -> P (segment colour a b p).
Proof. intro Hp. unfold segment. apply P_addLine, Hp. Qed.

Lemma openSegments_keeps (colour : string) (pts : list XY) (p : Processor) :
  P p -> P (openSegments colour pts p).
Proof.
  revert p. induction pts as [|a rest IH]; intros p Hp; [exact Hp|].
  destruct rest as [|b rest']; [exact Hp|].
  cbn [openSegments]. apply IH, segment_keeps, Hp.
Qed.

Lemma closedSegments_keeps (colour : string) (pts : list XY) (p : Processor) :
  P p -> P (closedSegments colour pts p).
Proof.
  intro Hp. unfold closedSegments. destruct pts; [exact Hp|].
  apply openSegments_keeps, Hp.
Qed.

Lemma cross_keeps (colour : string) (pos : XY) (size : R) (p : Processor) :
  P p -> P (cross colour pos size p).
Proof. intro Hp. unfold cross. apply P_addLine, P_addLine, Hp. Qed.

Lemma fold_left_keeps {A : Type} (f : Processor -> A -> Processor) (l : list A)
      (p : Processor) :
  (forall acc a, P acc -> P (f acc a)) -> P p -> P (fold_left f l p).
Proof.
  intro Hf. revert p. induction l as [|a l IH]; intros p Hp; [exact Hp|].
  simpl. apply IH, Hf, Hp.
Qed.

Ltac keeps :=
  repeat match goal with
         | |- P (match ?v with _ => _ end) => destruct v
         | |- P (if ?c then _ else _) => destruct c
         | |- P (updateLayerBounds _ _ _) => apply P_bounds
         | |- P (segment _ _ _ _) => apply segment_keeps
         | |- P (openSegments _ _ _) => apply openSegments_keeps
         | |- P (closedSegments _ _ _) => apply closedSegments_keeps
         | |- P (cross _ _ _ _) => apply cross_keeps
         | |- P (addLine _ _ _ _ _ _) => apply P_addLine
         | |- P (mkProcessor (lineBatches ?p) _ _ _ (layerBounds ?p) (centerX ?p) (centerY ?p)) =>
             apply P_items
         end; try assumption.

Lemma processLine_keeps e c l p : P p -> P (processLine e c l p).
Proof. intro Hp. unfold processLine. keeps. Qed.
Lemma processPolyline_keeps e c l p : P p -> P (processPolyline e c l p).
Proof. intro Hp. unfold processPolyline. keeps. Qed.
Lemma processCircle_keeps e c l p : P p -> P (processCircle e c l p).
Proof. intro Hp. unfold processCircle. keeps. Qed.
Lemma processArc_keeps e c l p : P p -> P (processArc e c l p).
Proof. intro Hp. unfold processArc. keeps. Qed.
Lemma processEllipse_keeps e c p : P p -> P (processEllipse e c p).
Proof. intro Hp. unfold processEllipse. keeps. Qed.
Lemma processSpline_keeps e c l p : P p -> P (processSpline e c l p).
Proof. intro Hp. unfold processSpline. keeps. Qed.
Lemma processHatch_keeps e c p : P p -> P (processHatch e c p).
Proof.
  intro Hp. unfold processHatch. destruct (boundaryPaths e); [|exact Hp].
  apply fold_left_keeps; [|exact Hp].
  intros acc path Hacc. destruct (edges path); [|exact Hacc].
  apply fold_left_keeps; [|exact Hacc].
  intros acc' edge Hacc'. unfold hatchEdge. keeps.
Qed.
Lemma processText_keeps e c l p : P p -> P (processText e c l p).
Proof. intro Hp. unfold processText. keeps. Qed.
Lemma createPlaceholder_keeps pos c p : P p -> P (createPlaceholder pos c p).
Proof. intro Hp. unfold createPlaceholder. keeps. Qed.
Lemma processPoint_keeps e c l p : P p -> P (processPoint e c l p).
Proof. intro Hp. unfold processPoint. keeps. Qed.
Lemma processSolid_keeps e c l p : P p -> P (processSolid e c l p).
Proof. intro Hp. unfold processSolid. keeps. Qed.
Lemma processTrace_keeps e c l p : P p -> P (processTrace e c l p).
Proof. intro Hp. unfold processTrace. keeps. Qed.
Lemma processRay_keeps e c p : P p -> P (processRay e c p).
Proof. intro Hp. unfold processRay. keeps. Qed.
Lemma processXLine_keeps e c p : P p -> P (processXLine e c p).
Proof. intro Hp. unfold processXLine. keeps. Qed.
Lemma processDimension_keeps e c p : P p -> P (processDimension e c p).
Proof. intro Hp. unfold processDimension. keeps. Qed.
Lemma processLeader_keeps e c p : P p -> P (processLeader e c p).
Proof. intro Hp. unfold processLeader. keeps. Qed.
Lemma processUnknown_keeps e c l p : P p -> P (processUnknown e c l p).
Proof.
  intro Hp. unfold processUnknown. cbv zeta.
  match goal with |- P (match ?v with _ => _ end) => destruct v as [|? [|? ?]] end;
    keeps.
Qed.

Lemma dispatch_keeps insertCase (e : Entity) (p p' : Processor) :
  (forall e' c l q q', insertCase e' c l q = Done q' -> P q -> P q') ->
  dispatch insertCase e p = Done p' -> P p -> P p'.
Proof.
  intros Hins Hrun Hp. unfold dispatch in Hrun. cbv zeta in Hrun.
  repeat match type of Hrun with
         | (if ?c then _ else _) = _ => destruct c
         end;
    try (injection Hrun as <-);
    auto using processLine_keeps, processPolyline_keeps, processCircle_keeps,
      processArc_keeps, processEllipse_keeps, processSpline_keeps, processHatch_keeps,
      processText_keeps, processPoint_keeps, processSolid_keeps, processTrace_keeps,
      processRay_keeps, processXLine_keeps, processDimension_keeps, processLeader_keeps,
      processUnknown_keeps.
  eapply Hins; eassumption.
Qed.

Lemma forEachEntity_keeps step (es : list Entity) (p p' : Processor) :
  (forall e q q', step e q = Done q' -> P q -> P q') ->
  forEachEntity step es p = Done p' -> P p -> P p'.
Proof.
  intro Hstep. revert p. induction es as [|e es IH]; intros p Hrun Hp; simpl in Hrun.
  - injection Hrun as <-. exact Hp.
  - destruct (step e p) as [q| |] eqn:Hq; try discriminate.
    simpl in Hrun. apply (IH q Hrun). eapply Hstep; eassumption.
Qed.

Lemma blockEntityStep_keeps insertCase f c l (e : Entity) (p p' : Processor) :
  (forall e' c' l' q q', insertCase e' c' l' q = Done q' -> P q -> P q') ->
  blockEntityStep insertCase f c l e p = Done p' -> P p -> P p'.
Proof.
  intros Hins Hrun Hp. unfold blockEntityStep in Hrun. cbv zeta in Hrun.
  destruct (String.eqb _ "INSERT"); [eapply Hins; eassumption|].
  destruct (_ && _).
  { injection Hrun as <-. apply processPolyline_keeps, Hp. }
  destruct (_ && _).
  { injection Hrun as <-. apply processSpline_keeps, Hp. }
  eapply dispatch_keeps; eassumption.
Qed.

Lemma processInsert_keeps (fuel : nat) (dxf : Document) :
  forall e c l p p', processInsert fuel dxf e c l p = Done p' -> P p -> P p'.
Proof.
  induction fuel as [|fuel IH]; intros e c l p p' Hrun Hp; simpl in Hrun.
  - destruct (position e) as [pos|]; [|injection Hrun as <-; exact Hp].
    destruct (findBlock dxf e) as [block|].
    + destruct (block_entities block) as [[|b bs]|].
      * injection Hrun as <-. apply createPlaceholder_keeps, P_bounds, Hp.
      * destruct (name e); discriminate.
      * injection Hrun as <-. apply createPlaceholder_keeps, P_bounds, Hp.
    + injection Hrun as <-. apply createPlaceholder_keeps, P_bounds, Hp.
  - destruct (position e) as [pos|]; [|injection Hrun as <-; exact Hp].
    destruct (findBlock dxf e) as [block|].
    + destruct (block_entities block) as [[|b bs]|].
      * injection Hrun as <-. apply createPlaceholder_keeps, P_bounds, Hp.
      * destruct (name e) as [blockName|]; [|discriminate].
        eapply forEachEntity_keeps; [|exact Hrun|apply P_bounds, Hp].
        intros e' q q' Hstep Hq.
        eapply blockEntityStep_keeps; [|exact Hstep|exact Hq].
        exact IH.
      * injection Hrun as <-. apply createPlaceholder_keeps, P_bounds, Hp.
    + injection Hrun as <-. apply createPlaceholder_keeps, P_bounds, Hp.
Qed.

Lemma processAll_keeps (fuel : nat) (dxf : Document) (es : list Entity)
      (p p' : Processor) :
  processAll fuel dxf es p = Done p' -> P p -> P p'.
Proof.
  unfold processAll. apply forEachEntity_keeps.
  intros e q q' Hstep Hq. unfold processEntity in Hstep.
  eapply dispatch_keeps; [|exact Hstep|exact Hq].
  apply processInsert_keeps.
Qed.
End RendererInvariant.

Section RendererBatches.
Import Dxf AdvancedDxfRenderer RendererShape.
Local Open Scope R_scope.

Lemma pushBatch_keys (batches : list (string * list R)) (key k : string)
      (numbers : list R) :
  In k (map fst (pushBatch batches key numbers)) -> k = key \/ In k (map fst batches).
Proof.
  induction batches as [|[k0 v] rest IH]; simpl.
  - intros [<-|[]]. left. reflexivity.
  - destruct (String.eqb k0 key) eqn:E; simpl.
    + intros [<-|H]; right; [left; reflexivity|right; exact H].
    + intros [<-|H]; [right; left; reflexivity|].
      destruct (IH H) as [->|H']; [left; reflexivity|right; right; exact H'].
Qed.

Lemma pushBatch_whole (batches : list (string * list R)) (key : string)
      (x1 y1 x2 y2 : R) :
  Forall (fun batch => exists segs, snd batch = flatSegments segs) batches ->
  NoDup (map fst batches) ->
  Forall (fun batch => exists segs, snd batch = flatSegments segs)
         (pushBatch batches key [x1; y1; 0; x2; y2; 0])
  /\ NoDup (map fst (pushBatch batches key [x1; y1; 0; x2; y2; 0])).
Proof.
  induction batches as [|[k0 v] rest IH]; intros Hall Hnd; simpl.
  - split.
    + constructor; [|constructor]. exists [(x1, y1, x2, y2)]. reflexivity.
    + constructor; [intros []|constructor].
  - inversion Hall as [|? ? [segs Hv] Hrest]; subst.
    inversion Hnd as [|? ? Hnot Hnd']; subst. simpl in Hv.
    destruct (String.eqb k0 key) eqn:E; simpl.
    + split; [|constructor; assumption].
      constructor; [|assumption].
      exists (segs ++ [(x1, y1, x2, y2)]). simpl. rewrite Hv.
      unfold flatSegments. rewrite flat_map_app. reflexivity.
    + destruct (IH Hrest Hnd') as [Hall' Hnd''].
      split.
      * constructor; [exists segs; exact Hv|exact Hall'].
      * constructor; [|exact Hnd''].
        intro Hin. apply pushBatch_keys in Hin. destruct Hin as [->|Hin].
        -- rewrite String.eqb_refl in E. discriminate.
        -- exact (Hnot Hin).
Qed.

End RendererBatches.

(** X21.  What the renderer collects for drawing is well formed: after any
    list of entities has been processed by a new EntityProcessor, every
    colour appears once among the line batches, the numbers of each batch
    are whole segments (six per segment: two end points, both with z = 0),
    and the centre the processor was created with is unchanged. *)
Theorem renderer_batches_hold_whole_segments :
  forall (fuel : nat) (dxf : Dxf.Document) (entities : list Dxf.Entity)
         (cx cy : R) (p' : AdvancedDxfRenderer.Processor),
    AdvancedDxfRenderer.processAll fuel dxf entities
                                   (AdvancedDxfRenderer.newProcessor cx cy)
    = AdvancedDxfRenderer.Done p' ->
    RendererShape.wholeSegments p'
    /\ AdvancedDxfRenderer.centerX p' = cx
    /\ AdvancedDxfRenderer.centerY p' = cy.
Proof.
  intros fuel dxf entities cx cy p' Hrun.
  apply (processAll_keeps
           (fun p => RendererShape.wholeSegments p
                     /\ AdvancedDxfRenderer.centerX p = cx
                     /\ AdvancedDxfRenderer.centerY p = cy))
    in Hrun.
  - exact Hrun.
  - intros colour x1 y1 x2 y2 p [[Hall Hnd] [Hx Hy]].
    unfold AdvancedDxfRenderer.addLine, RendererShape.wholeSegments.
    cbn [AdvancedDxfRenderer.lineBatches AdvancedDxfRenderer.centerX
         AdvancedDxfRenderer.centerY].
    split; [apply pushBatch_whole; assumption|split; assumption].
  - intros layerName pts p [Hw [Hx Hy]].
    destruct (updateLayerBounds_frame layerName pts p) as [Ex [Ey El]].
    unfold RendererShape.wholeSegments. rewrite Ex, Ey, El.
    split; [exact Hw|split; assumption].
  - intros p cs ars ts H. exact H.
  - split; [split; constructor|split; reflexivity].
Qed.

Lemma renderer_batches_hold_whole_segments_witness :
  exists p',
    AdvancedDxfRenderer.processAll 0 SampleDrawings.danglingDrawing
      [SampleDrawings.danglingInsert; SampleDrawings.segmentLine]
      (AdvancedDxfRenderer.newProcessor 0 0) = AdvancedDxfRenderer.Done p'
    /\ RendererShape.wholeSegments p'.
Proof.
  eexists. split; [reflexivity|].
  apply (renderer_batches_hold_whole_segments
           0 SampleDrawings.danglingDrawing
           [SampleDrawings.danglingInsert; SampleDrawings.segmentLine] 0 0).
  reflexivity.
Defined.

Section LayerBounds.
Import Dxf AdvancedDxfRenderer RendererShape.
Local Open Scope R_scope.

(** [b'] reaches at least as far as [b] on every side. *)
Let covers (b' b : Box) : Prop :=
  minX b' <= minX b /\ maxX b <= maxX b' /\ minY b' <= minY b /\ maxY b <= maxY b'.

Lemma growBox_grows (b : Box) (pt : Point) :
  exists b', growBox (Some b) pt = Some b' /\ covers b' b /\ inBox b' pt.
Proof.
  eexists. split; [reflexivity|]. unfold covers, inBox. cbn [minX maxX minY maxY].
  pose proof (Rmin_l (minX b) (x pt)). pose proof (Rmin_r (minX b) (x pt)).
  pose proof (Rmin_l (minY b) (y pt)). pose proof (Rmin_r (minY b) (y pt)).
  pose proof (Rmax_l (maxX b) (x pt)). pose proof (Rmax_r (maxX b) (x pt)).
  pose proof (Rmax_l (maxY b) (y pt)). pose proof (Rmax_r (maxY b) (y pt)).
  repeat split; lra.
Qed.

Lemma fold_growBox (pts : list Point) (b : Box) :
  exists b', fold_left growBox pts (Some b) = Some b'
             /\ covers b' b /\ forall pt, In pt pts -> inBox b' pt.
Proof.
  revert b. induction pts as [|pt rest IH]; intro b.
  - exists b. split; [reflexivity|]. split; [unfold covers; lra|intros pt []].
  - destruct (growBox_grows b pt) as [b1 [E1 [Hc1 Hin1]]].
    destruct (IH b1) as [b' [E' [Hc' Hin']]].
    exists b'. cbn [fold_left]. rewrite E1. split; [exact E'|].
    unfold covers, inBox in *. split; [lra|].
    intros q [<-|Hq]; [lra|apply Hin', Hq].
Qed.

Lemma lookup_stored (table : list (string * Box)) (key : string) (b : Box) :
  lookupBox (storeBox table key b) key = Some b.
Proof.
  induction table as [|[k v] rest IH]; simpl.
  - rewrite String.eqb_refl. reflexivity.
  - destruct (String.eqb k key) eqn:E; simpl; rewrite E; [reflexivity|exact IH].
Qed.

Lemma updateLayerBounds_box (layerName : string) (pts : list Point) (p : Processor) :
  layerName <> ""%string -> pts <> [] ->
  exists b,
    lookupBox (layerBounds (updateLayerBounds layerName pts p)) (toLowerCase layerName)
    = Some b
    /\ (forall pt, In pt pts -> inBox b pt)
    /\ (forall b0, lookupBox (layerBounds p) (toLowerCase layerName) = Some b0 ->
                   covers b b0).
Proof.
  intros Hname Hpts. unfold updateLayerBounds.
  destruct (String.eqb layerName "") eqn:E; [apply String.eqb_eq in E; contradiction|].
  destruct pts as [|pt rest]; [contradiction|].
  destruct (lookupBox (layerBounds p) (toLowerCase layerName)) as [b0|] eqn:Hold.
  - destruct (fold_growBox (pt :: rest) b0) as [b [Eb [Hc Hin]]].
    rewrite Eb. cbn [layerBounds]. exists b.
    split; [apply lookup_stored|]. split; [exact Hin|].
    intros b0' H0. injection H0 as <-. exact Hc.
  - cbn [fold_left growBox].
    destruct (fold_growBox rest (mkBox (x pt) (y pt) (x pt) (y pt)))
      as [b [Eb [Hc Hin]]].
    rewrite Eb. cbn [layerBounds]. exists b.
    split; [apply lookup_stored|]. split; [|intros b0 H0; discriminate].
    unfold covers, inBox in *. cbn [minX maxX minY maxY] in Hc.
    intros q [<-|Hq]; [lra|apply Hin, Hq].
Qed.

End LayerBounds.

(** X22.  updateLayerBounds records every point it is given: for a
    non-empty ASCII layer name whose lower-cased form is not the name of an
    inherited property of a plain object, and a non-empty point list, the
    box stored afterwards under the lower-cased layer name contains all the
    points, and it contains the box that was stored there before.  Layer
    names that differ in case only share one box. *)
Theorem layer_bounds_contain_points :
  forall (layerName : string) (pts : list Dxf.Point)
         (p : AdvancedDxfRenderer.Processor),
    layerName <> ""%string -> pts <> [] ->
    Js.asciiOnly layerName = true ->
    Js.inheritedKey (AdvancedDxfRenderer.toLowerCase layerName) = false ->
    exists b,
      AdvancedDxfRenderer.lookupBox
        (AdvancedDxfRenderer.layerBounds
           (AdvancedDxfRenderer.updateLayerBounds layerName pts p))
        (AdvancedDxfRenderer.toLowerCase layerName) = Some b
      /\ (forall pt, In pt pts -> RendererShape.inBox b pt)
      /\ (forall b0,
             AdvancedDxfRenderer.lookupBox (AdvancedDxfRenderer.layerBounds p)
                                           (AdvancedDxfRenderer.toLowerCase layerName)
             = Some b0 ->
             (AdvancedDxfRenderer.minX b <= AdvancedDxfRenderer.minX b0
              /\ AdvancedDxfRenderer.maxX b0 <= AdvancedDxfRenderer.maxX b
              /\ AdvancedDxfRenderer.minY b <= AdvancedDxfRenderer.minY b0
              /\ AdvancedDxfRenderer.maxY b0 <= AdvancedDxfRenderer.maxY b)%R).
Proof.
  intros layerName pts p Hname Hpts _ _.
  apply updateLayerBounds_box; assumption.
Qed.

Lemma layer_bounds_contain_points_witness :
  exists b,
    AdvancedDxfRenderer.lookupBox
      (AdvancedDxfRenderer.layerBounds
         (AdvancedDxfRenderer.updateLayerBounds
            "Walls" [Dxf.mkPoint 1 2 None; Dxf.mkPoint 3 0 None]
            (AdvancedDxfRenderer.newProcessor 0 0)))
      "walls" = Some b
    /\ RendererShape.inBox b (Dxf.mkPoint 3 0 None).
Proof.
  destruct (layer_bounds_contain_points
              "Walls" [Dxf.mkPoint 1 2 None; Dxf.mkPoint 3 0 None]
              (AdvancedDxfRenderer.newProcessor 0 0)) as [b [Hb [Hin _]]].
  - discriminate.
  - discriminate.
  - reflexivity.
  - reflexivity.
  - exists b. split; [exact Hb|]. apply Hin. right. left. reflexivity.
Defined.

(** ** What the simple extractor emits *)
Section ExtractorOutput.
Import Dxf SimpleDxfExtractor Flattened.
Local Open Scope R_scope.

Let good (result : list SimpleDxfEntity) : Prop := Forall wellFormed result.

Lemma good_snoc (result : list SimpleDxfEntity) (e : SimpleDxfEntity) :
  good result -> wellFormed e -> good (result ++ [e]).
Proof.
  intros Hr He. apply Forall_app. split; [exact Hr|]. constructor; [exact He|constructor].
Qed.

Lemma processLine_good e result t : good result -> good (processLine e result t).
Proof.
  intro Hr. unfold processLine.
  destruct (vertices e) as [[|a [|b vs]]|];
    try (destruct (start e), (end_ e); try exact Hr; apply good_snoc; [exact Hr|];
         split; [simpl; lia|simpl; auto]).
  apply good_snoc; [exact Hr|]. split; [simpl; lia|simpl; auto].
Qed.

Lemma processPolyline_good e result t :
  In (etype e) emittedTypes -> good result -> good (processPolyline e result t).
Proof.
  intros Ht Hr. unfold processPolyline.
  destruct (vertices e) as [[|a [|b vs]]|]; try exact Hr.
  apply good_snoc; [exact Hr|]. split; [simpl; lia|exact Ht].
Qed.

Lemma processCircle_good e result t : good result -> good (processCircle e result t).
Proof.
  intro Hr. unfold processCircle. destruct (center e); [|exact Hr].
  destruct (noRadius e); [exact Hr|].
  apply good_snoc; [exact Hr|]. split; [|simpl; auto 7].
  unfold circleVertices. cbn [s_vertices]. rewrite length_map, length_seq. lia.
Qed.

Lemma processArc_good e result t : good result -> good (processArc e result t).
Proof.
  intro Hr. unfold processArc. destruct (center e); [|exact Hr].
  destruct (noRadius e); [exact Hr|].
  apply good_snoc; [exact Hr|]. split; [|simpl; auto 7].
  unfold arcVertices. cbn [s_vertices]. rewrite length_map, length_seq. lia.
Qed.

Lemma processSpline_good e result t : good result -> good (processSpline e result t).
Proof.
  intro Hr. unfold processSpline.
  destruct (controlPoints e) as [[|a [|b vs]]|]; try exact Hr.
  apply good_snoc; [exact Hr|]. split; [simpl; lia|simpl; auto 7].
Qed.

Lemma extractor_dispatch_good insertCase e result t result' :
  (forall e' r t' r', insertCase e' r t' = Some r' -> good r -> good r') ->
  dispatch insertCase e result t = Some result' -> good result -> good result'.
Proof.
  intros Hins Hrun Hr. unfold dispatch in Hrun. cbv zeta in Hrun.
  destruct (String.eqb (etype e) "LINE").
  { injection Hrun as <-. apply processLine_good, Hr. }
  destruct (String.eqb (etype e) "POLYLINE" || String.eqb (etype e) "LWPOLYLINE") eqn:E.
  { injection Hrun as <-. apply processPolyline_good; [|exact Hr].
    apply orb_true_iff in E. destruct E as [E|E]; apply String.eqb_eq in E;
      rewrite E; simpl; auto. }
  destruct (String.eqb (etype e) "INSERT"); [eapply Hins; eassumption|].
  destruct (String.eqb (etype e) "CIRCLE").
  { injection Hrun as <-. apply processCircle_good, Hr. }
  destruct (String.eqb (etype e) "ARC").
  { injection Hrun as <-. apply processArc_good, Hr. }
  destruct (String.eqb (etype e) "SPLINE").
  { injection Hrun as <-. apply processSpline_good, Hr. }
  injection Hrun as <-. exact Hr.
Qed.

Lemma extractor_forEach_good step es result result' :
  (forall e r r', step e r = Some r' -> good r -> good r') ->
  forEachEntity step es result = Some result' -> good result -> good result'.
Proof.
  intro Hstep. revert result. induction es as [|e es IH]; intros result Hrun Hr;
    simpl in Hrun.
  - injection Hrun as <-. exact Hr.
  - destruct (step e result) as [r1|] eqn:H1; [|discriminate].
    apply (IH r1 Hrun). eapply Hstep; eassumption.
Qed.

Lemma extractor_processInsert_good (fuel : nat) (dxf : Document) (ignore : bool) :
  forall e r t r', processInsert fuel dxf ignore e r t = Some r' -> good r -> good r'.
Proof.
  induction fuel as [|fuel IH]; intros e r t r' Hrun Hr; simpl in Hrun;
    (destruct (name e) as [blockName|]; [|injection Hrun as <-; exact Hr]);
    (destruct (String.eqb blockName ""); [injection Hrun as <-; exact Hr|]);
    (destruct (match doc_blocks dxf with
               | Some table => lookupBlock table blockName
               | None => None
               end) as [block|]; [|injection Hrun as <-; exact Hr]);
    (destruct (block_entities block) as [es|]; [|injection Hrun as <-; exact Hr]).
  - destruct es; [injection Hrun as <-; exact Hr|discriminate].
  - eapply extractor_forEach_good; [|exact Hrun|exact Hr].
    intros e' q q' Hstep Hq.
    eapply extractor_dispatch_good; [|exact Hstep|exact Hq].
    exact IH.
Qed.

End ExtractorOutput.

(** X23.  Everything the simple extractor returns can be drawn as a
    polyline: each flattened entity has at least two vertices and one of
    the types LINE, POLYLINE, LWPOLYLINE, CIRCLE, ARC, SPLINE.  Entities of
    other types, entities with fewer than two points, circles and arcs
    without centre or radius, and block references themselves leave no
    trace in the result. *)
Theorem extracted_entities_are_polylines :
  forall (fuel : nat) (dxf : Dxf.Document) (ignorePosition : bool)
         (result : list SimpleDxfExtractor.SimpleDxfEntity),
    SimpleDxfExtractor.extractEntities fuel dxf ignorePosition = Some result ->
    Forall Flattened.wellFormed result.
Proof.
  intros fuel dxf ignore result Hrun.
  unfold SimpleDxfExtractor.extractEntities in Hrun.
  eapply extractor_forEach_good; [|exact Hrun|constructor].
  intros e r r' Hstep Hr. unfold SimpleDxfExtractor.processEntity in Hstep.
  eapply extractor_dispatch_good; [|exact Hstep|exact Hr].
  apply extractor_processInsert_good.
Qed.

Lemma extracted_entities_are_polylines_witness :
  exists result,
    SimpleDxfExtractor.extractEntities 2 SampleDrawings.nestedDrawing false = Some result
    /\ Forall Flattened.wellFormed result.
Proof.
  eexists. split; [reflexivity|].
  apply (extracted_entities_are_polylines 2 SampleDrawings.nestedDrawing false).
  reflexivity.
Defined.

(** ** Tables keep their distance from the stage *)
Section StageDistance.
Import DoorAreaUtils VenueTypes TableCalculator StageTablePoints StagePipeline Footprint.

Lemma updateTableAreaPoints_sizes (tableConfig : TableConfig) (pts : TableAreaPoints) :
  plainSizes tableConfig -> plainSizes (updateTableAreaPoints tableConfig pts).
Proof. intro H. exact H. Qed.

Lemma stage_area_left_side (stage : StageConfig) (tableConfig : TableConfig)
      (dxf : option NaturalSize) (pts base : TableAreaPoints) :
  namedPoints tableConfig = Some base ->
  handleStageSelection stage tableConfig (Some "inches"%string) dxf = Some pts ->
  let startAt := getStageRightEdge stage dxf + convertFeetToDXFUnits 15 "inches" in
  startAt <= x (area_topRight base) -> startAt <= x (area_bottomRight base) ->
  startAt <= minX (areaBounds (updateTableAreaPoints tableConfig pts)).
Proof.
  intros Hbase Hsel startAt Htr Hbr.
  unfold handleStageSelection, calculateStageTablePoints, getTableAreaPoints in Hsel.
  rewrite Hbase in Hsel. injection Hsel as <-.
  unfold areaBounds, updateTableAreaPoints. cbn [namedPoints].
  unfold convertTableAreaToArray, getPolygonBounds.
  cbn [area_topLeft area_topRight area_bottomRight area_bottomLeft map fold_left minX x].
  change (stageClearance 15 (Some "inches"%string)) with (convertFeetToDXFUnits 15 "inches").
  fold startAt.
  repeat apply Q.min_glb; solve [apply Qle_refl | assumption].
Qed.

End StageDistance.

(** X25.  Tables keep their distance from the stage.  When the table area
    is moved behind a stage (handleStageSelection with the drawing units
    'inches', then updateTableAreaPoints) and the seating is computed for
    it, no object starts left of the stage's right edge plus fifteen feet
    (180 drawing units), provided that line does not pass the right corners
    of the area and no size, spacing or rows-per-group value is negative. *)
Theorem tables_keep_their_distance_from_stage :
  forall (stage : StageTablePoints.StageConfig) (tableConfig : VenueTypes.TableConfig)
         (dxf : option StageTablePoints.NaturalSize)
         (base pts : VenueTypes.TableAreaPoints)
         (guestCount : Z) (doorAreas : list DoorAreaUtils.DoorArea) (fuel : nat)
         (objects : list TableCalculator.HallObject)
         (arrangement : TableCalculator.Arrangement) (o : TableCalculator.HallObject),
    Footprint.plainSizes tableConfig ->
    VenueTypes.namedPoints tableConfig = Some base ->
    StageTablePoints.handleStageSelection stage tableConfig (Some "inches"%string) dxf
    = Some pts ->
    StageTablePoints.getStageRightEdge stage dxf
    + StageTablePoints.convertFeetToDXFUnits 15 "inches"
    <= DoorAreaUtils.x (VenueTypes.area_topRight base) ->
    StageTablePoints.getStageRightEdge stage dxf
    + StageTablePoints.convertFeetToDXFUnits 15 "inches"
    <= DoorAreaUtils.x (VenueTypes.area_bottomRight base) ->
    TableCalculator.calculateTableArrangement
      guestCount (StagePipeline.updateTableAreaPoints tableConfig pts) doorAreas fuel
    = Some (objects, arrangement) ->
    In o objects ->
    StageTablePoints.getStageRightEdge stage dxf + 180 <= TableCalculator.h_x o.
Proof.
  intros stage cfg dxf base pts g doors fuel objects arr o
         Hsizes Hbase Hsel Htr Hbr Hrun Hin.
  pose proof (stage_area_left_side stage cfg dxf pts base Hbase Hsel Htr Hbr) as Hleft.
  cbv zeta in Hleft.
  destruct (calculateTableArrangement_box
              True (StagePipeline.updateTableAreaPoints cfg pts) doors
              (fun _ => updateTableAreaPoints_sizes cfg pts Hsizes)
              g fuel objects arr o Hrun Hin) as [_ Hnear].
  destruct (Hnear I) as [Hx _].
  assert (E : StageTablePoints.convertFeetToDXFUnits 15 "inches" == 180)
    by (vm_compute; reflexivity).
  rewrite E in Hleft. eapply Qle_trans; [exact Hleft|exact Hx].
Qed.

Lemma tables_keep_their_distance_from_stage_witness :
  exists pts objects arrangement o,
    StageTablePoints.handleStageSelection
      (StageTablePoints.mkStageConfig (-250) 50 (Some 100) (Some 20) None)
      Samples.squareTables (Some "inches"%string) None = Some pts
    /\ TableCalculator.calculateTableArrangement
         8 (StagePipeline.updateTableAreaPoints Samples.squareTables pts) [] 14
       = Some (objects, arrangement)
    /\ In o objects
    /\ StageTablePoints.getStageRightEdge
         (StageTablePoints.mkStageConfig (-250) 50 (Some 100) (Some 20) None) None + 180
       <= TableCalculator.h_x o.
Proof.
  pose (stage := StageTablePoints.mkStageConfig (-250) 50 (Some 100) (Some 20) None).
  let p := eval vm_compute in
    (StageTablePoints.handleStageSelection stage Samples.squareTables
                                           (Some "inches"%string) None) in
  match p with
  | Some ?pts =>
      let r := eval vm_compute in
        (TableCalculator.calculateTableArrangement
           8 (StagePipeline.updateTableAreaPoints Samples.squareTables pts) [] 14) in
      match r with
      | Some (?objects, ?arr) =>
          match objects with
          | ?o :: _ =>
              exists pts, objects, arr, o;
              assert (Hsel : StageTablePoints.handleStageSelection
                               stage Samples.squareTables (Some "inches"%string) None
                             = Some pts) by (vm_compute; reflexivity);
              assert (Hrun : TableCalculator.calculateTableArrangement
                               8 (StagePipeline.updateTableAreaPoints
                                    Samples.squareTables pts) [] 14
                             = Some (objects, arr)) by (vm_compute; reflexivity);
              assert (Hin : In o objects) by (left; reflexivity);
              split; [exact Hsel|]; split; [exact Hrun|]; split; [exact Hin|];
              apply (tables_keep_their_distance_from_stage
                       stage Samples.squareTables None Samples.square pts
                       8 [] 14 objects arr o);
              [vm_compute; repeat split; discriminate
              |reflexivity|exact Hsel
              |vm_compute; discriminate|vm_compute; discriminate
              |exact Hrun|exact Hin]
          end
      end
  end.
Defined.

(** ** The polygon helper returns what was asked for, or less *)
Section PolygonCounts.
Import DoorAreaUtils VenueTypes TableCalculator Venues Counts.

(** The positions are numbered as they are pushed, and there are no more
    of them than [limit]. *)
Let tallied (limit : Z) (s : PosState) : Prop :=
  nextIndex s = Z.of_nat (List.length (positions s))
  /\ numbered (positions s)
  /\ (nextIndex s <= Z.max 0 limit)%Z.

Lemma pushPos_tallied (limit : Z) (colX y : Q) (s : PosState) :
  (nextIndex s < limit)%Z -> tallied limit s -> tallied limit (pushPos colX y s).
Proof.
  intros Hlt [Hn [Hseq Hle]]. unfold tallied, pushPos, numbered in *.
  cbn [positions nextIndex]. rewrite length_app, map_app. cbn [List.length map p_index].
  split; [lia|]. split; [|lia].
  rewrite Nat.add_1_r, seq_S, map_app, Hseq, Hn. reflexivity.
Qed.

Lemma inPolygon_positions_tallied (tableConfig : TableConfig) (tableCount : Z)
      (pts : TableAreaPoints) :
  let l := inPolygon_positions tableConfig tableCount pts in
  (Z.of_nat (List.length l) <= Z.max 0 tableCount)%Z /\ numbered l.
Proof.
  cbv zeta. unfold inPolygon_positions.
  assert (H : tallied tableCount
                (Js.forUpTo (fun s => (nextIndex s <? tableCount)%Z)
                            (inPolygon_column tableConfig tableCount pts)
                            (Z.to_nat (inPolygon_actualColumns tableConfig tableCount pts))
                            0 (mkPosState [] 0))).
  { apply (forUpTo_invariant _ _ (tallied tableCount)).
    - intros col s Hs _. unfold inPolygon_column.
      apply (forUpTo_invariant _ _ (tallied tableCount)); [|exact Hs].
      intros row s' Hs' Hc. apply Z.ltb_lt in Hc. unfold inPolygon_row.
      destruct (_ && _); [|assumption].
      destruct (allCornersInside _ _ _ _ _); [|assumption].
      apply pushPos_tallied; assumption.
    - unfold tallied, numbered. cbn. split; [reflexivity|]. split; [reflexivity|lia]. }
  destruct H as [Hn [Hseq Hle]]. split; [lia|exact Hseq].
Qed.

End PolygonCounts.

(** X26.  calculateTablePositionsInPolygon never returns more tables than
    were asked for (none for a count of zero or less), and the tables it
    returns are numbered 0, 1, 2, ... in the order of the list, also where
    a position was dropped because a corner lay outside the polygon. *)
Theorem polygon_tables_at_most_requested :
  forall (tableConfig : VenueTypes.TableConfig) (tableCount : Z),
    let l := Venues.calculateTablePositionsInPolygon tableConfig tableCount in
    (Z.of_nat (List.length l) <= Z.max 0 tableCount)%Z
    /\ map TableCalculator.p_index l = map Z.of_nat (seq 0 (List.length l)).
Proof.
  intros cfg count. cbv zeta. unfold Venues.calculateTablePositionsInPolygon.
  destruct (VenueTypes.namedPoints cfg) as [pts|].
  - apply inPolygon_positions_tallied.
  - cbn. split; [lia|reflexivity].
Qed.

(** ** Chairs only: the requested number, or the area is full *)
Section ChairsOnlyTarget.
Import DoorAreaUtils VenueTypes TableCalculator ColumnSchema.


End ChairsOnlyTarget.



(** ** The object leaves a door through the nearest side *)
Section NearestSide.
Import DoorAreaUtils DoorRelocation.

Lemma sortByDist_head (l : list Candidate) :
  l <> [] ->
  exists h rest,
    sortByDist l = h :: rest /\ In h l
    /\ Forall (fun d => cand_dist h <= cand_dist d) l.
Proof.
  induction l as [|c l IH]; [contradiction|]. intros _.
  destruct l as [|c' l'].
  - exists c, []. split; [reflexivity|]. split; [left; reflexivity|].
    constructor; [apply Qle_refl|constructor].
  - destruct IH as [h [rest [Hs [Hin Hmin]]]]; [discriminate|].
    change (sortByDist (c :: c' :: l')) with (insertByDist c (sortByDist (c' :: l'))).
    rewrite Hs.
    cbn [insertByDist]. destruct (Js.leb (cand_dist c) (cand_dist h)) eqn:E.
    + apply leb_true_iff in E. exists c, (h :: rest).
      split; [reflexivity|]. split; [left; reflexivity|].
      constructor; [apply Qle_refl|].
      eapply Forall_impl; [|exact Hmin]. cbv beta. intros d Hd.
      eapply Qle_trans; eassumption.
    + apply leb_false_iff in E. exists h, (insertByDist c rest).
      split; [reflexivity|]. split; [right; exact Hin|].
      constructor; [apply Qlt_le_weak, E|exact Hmin].
Qed.

End NearestSide.

(** X28.  An object that overlaps the only door is moved out through the
    nearest side: findNearestValidPosition returns the position of one of
    the four candidates (left, right, top, bottom of the door's expanded
    box, ten units clear of it), and no other candidate belongs to a side
    that is closer to the object's position. *)
Theorem single_door_moves_to_nearest_side :
  forall (position : DoorAreaUtils.Point) (door : DoorAreaUtils.DoorArea)
         (objectSize : DoorRelocation.Size),
    DoorAreaUtils.isObjectInDoorArea (DoorRelocation.boxAt position objectSize) door
    = true ->
    exists c,
      In c (DoorRelocation.candidates position (DoorAreaUtils.getDoorAreaBounds door)
                                      objectSize)
      /\ DoorRelocation.findNearestValidPosition position [door] objectSize
         = Some (DoorAreaUtils.mkPoint (DoorRelocation.cand_x c) (DoorRelocation.cand_y c))
      /\ forall c',
           In c' (DoorRelocation.candidates
                    position (DoorAreaUtils.getDoorAreaBounds door) objectSize) ->
           DoorRelocation.cand_dist c <= DoorRelocation.cand_dist c'.
Proof.
  intros position door objectSize Hin.
  destruct (sortByDist_head
              (DoorRelocation.candidates position (DoorAreaUtils.getDoorAreaBounds door)
                                         objectSize))
    as [h [rest [Hs [Hh Hmin]]]]; [discriminate|].
  exists h. split; [exact Hh|]. split.
  - unfold DoorRelocation.findNearestValidPosition,
      DoorAreaUtils.getDoorAreasOverlappingObject.
    cbn [DoorAreaUtils.isObjectInAnyDoorArea existsb filter].
    rewrite orb_false_r, Hin. cbn [negb]. rewrite Hs.
    apply firstValid_head.
    pose proof (candidates_beside position door objectSize) as Hall.
    rewrite Forall_forall in Hall. apply (Hall h Hh).
  - rewrite Forall_forall in Hmin. exact Hmin.
Qed.

Lemma single_door_moves_to_nearest_side_witness :
  exists c,
    In c (DoorRelocation.candidates
            (DoorAreaUtils.mkPoint 13 10)
            (DoorAreaUtils.getDoorAreaBounds Samples.midDoor)
            (DoorRelocation.mkSize 4 4))
    /\ DoorRelocation.findNearestValidPosition
         (DoorAreaUtils.mkPoint 13 10) [Samples.midDoor] (DoorRelocation.mkSize 4 4)
       = Some (DoorAreaUtils.mkPoint (DoorRelocation.cand_x c) (DoorRelocation.cand_y c))
    /\ forall c',
         In c' (DoorRelocation.candidates
                  (DoorAreaUtils.mkPoint 13 10)
                  (DoorAreaUtils.getDoorAreaBounds Samples.midDoor)
                  (DoorRelocation.mkSize 4 4)) ->
         DoorRelocation.cand_dist c <= DoorRelocation.cand_dist c'.
Proof.
  apply (single_door_moves_to_nearest_side
           (DoorAreaUtils.mkPoint 13 10) Samples.midDoor (DoorRelocation.mkSize 4 4)).
  vm_compute. reflexivity.
Defined.

(** ** The door tests agree with each other *)
Section DoorTests.
Import DoorAreaUtils.

Lemma point_test_is_flat_object_test (point : Point) (door : DoorArea) :
  isPointInDoorArea point door
  = isObjectInDoorArea (mkObjectBox (x point) (y point) 0 0 None) door.
Proof.
  unfold isPointInDoorArea, isObjectInDoorArea, getDoorAreaBounds.
  cbn [minX maxX minY maxY obj_x obj_y obj_width obj_height].
  set (c := Js.orQ (clearance door) 0).
  set (x0 := Js.min4 _ _ _ _ - c). set (x1 := Js.max4 _ _ _ _ + c).
  set (y0 := Js.min4 _ _ _ _ - c). set (y1 := Js.max4 _ _ _ _ + c).
  destruct (Js.leb x0 (x point)) eqn:E1, (Js.leb (x point) x1) eqn:E2,
           (Js.leb y0 (y point)) eqn:E3, (Js.leb (y point) y1) eqn:E4,
           (Js.ltb (x point + 0 / 2) x0) eqn:F1, (Js.ltb x1 (x point - 0 / 2)) eqn:F2,
           (Js.ltb (y point + 0 / 2) y0) eqn:F3, (Js.ltb y1 (y point - 0 / 2)) eqn:F4;
    try reflexivity; exfalso;
    repeat match goal with
           | H : Js.ltb _ _ = true |- _ => apply ltb_true_iff in H
           | H : Js.ltb _ _ = false |- _ => apply ltb_false_iff in H
           | H : Js.leb _ _ = true |- _ => apply leb_true_iff in H
           | H : Js.leb _ _ = false |- _ => apply leb_false_iff in H
           end;
    assert (Ez : 0 / 2 == 0) by reflexivity; rewrite Ez in *; lra.
Qed.

Lemma centre_inside_overlaps (object : ObjectBox) (door : DoorArea) :
  0 <= obj_width object -> 0 <= obj_height object ->
  isPointInDoorArea (mkPoint (obj_x object) (obj_y object)) door = true ->
  isObjectInDoorArea object door = true.
Proof.
  intros Hw Hh. unfold isPointInDoorArea, isObjectInDoorArea, getDoorAreaBounds.
  cbn [minX maxX minY maxY x y].
  set (c := Js.orQ (clearance door) 0).
  set (x0 := Js.min4 _ _ _ _ - c). set (x1 := Js.max4 _ _ _ _ + c).
  set (y0 := Js.min4 _ _ _ _ - c). set (y1 := Js.max4 _ _ _ _ + c).
  rewrite !andb_true_iff, !leb_true_iff. intros [[[H1 H2] H3] H4].
  assert (Ew : obj_width object == 2 * (obj_width object / 2)) by field.
  assert (Eh : obj_height object == 2 * (obj_height object / 2)) by field.
  apply negb_true_iff. rewrite !orb_false_iff, !ltb_false_iff.
  repeat split; lra.
Qed.

End DoorTests.

(** X29.  The door tests agree with each other.  A point is in a door area
    exactly when an object of size zero at that point overlaps it; an
    object of non-negative size whose centre is in a door area overlaps that
    area; and an object overlaps some door of a list exactly when the list
    of overlapping doors is not empty, that list holding doors of the given
    list only, each of which the object overlaps. *)
Theorem door_tests_agree :
  forall (object : DoorAreaUtils.ObjectBox) (doorAreas : list DoorAreaUtils.DoorArea),
    0 <= DoorAreaUtils.obj_width object -> 0 <= DoorAreaUtils.obj_height object ->
    (forall door point,
        DoorAreaUtils.isPointInDoorArea point door
        = DoorAreaUtils.isObjectInDoorArea
            (DoorAreaUtils.mkObjectBox (DoorAreaUtils.x point) (DoorAreaUtils.y point)
                                       0 0 None) door)
    /\ (DoorAreaUtils.isPointInAnyDoorArea
          (DoorAreaUtils.mkPoint (DoorAreaUtils.obj_x object) (DoorAreaUtils.obj_y object))
          doorAreas = true ->
        DoorAreaUtils.isObjectInAnyDoorArea object doorAreas = true)
    /\ (DoorAreaUtils.isObjectInAnyDoorArea object doorAreas = true
        <-> DoorAreaUtils.getDoorAreasOverlappingObject object doorAreas <> [])
    /\ (forall door,
           In door (DoorAreaUtils.getDoorAreasOverlappingObject object doorAreas)
           <-> In door doorAreas
               /\ DoorAreaUtils.isObjectInDoorArea object door = true).
Proof.
  intros object doorAreas Hw Hh.
  split; [intros door point; apply point_test_is_flat_object_test|].
  split; [|split].
  - unfold DoorAreaUtils.isPointInAnyDoorArea, DoorAreaUtils.isObjectInAnyDoorArea.
    rewrite !existsb_exists. intros [door [Hin Hp]]. exists door.
    split; [exact Hin|]. apply centre_inside_overlaps; assumption.
  - unfold DoorAreaUtils.isObjectInAnyDoorArea,
      DoorAreaUtils.getDoorAreasOverlappingObject.
    rewrite existsb_exists. split.
    + intros [door [Hin Hd]] Hnil.
      assert (H : In door (filter (DoorAreaUtils.isObjectInDoorArea object) doorAreas))
        by (apply filter_In; split; assumption).
      rewrite Hnil in H. destruct H.
    + intro Hne.
      destruct (filter (DoorAreaUtils.isObjectInDoorArea object) doorAreas)
        as [|door rest] eqn:E; [contradiction|].
      assert (H : In door (filter (DoorAreaUtils.isObjectInDoorArea object) doorAreas))
        by (rewrite E; left; reflexivity).
      apply filter_In in H. exists door. exact H.
  - intro door. unfold DoorAreaUtils.getDoorAreasOverlappingObject. apply filter_In.
Qed.

Lemma door_tests_agree_witness :
  DoorAreaUtils.isObjectInAnyDoorArea
    (DoorAreaUtils.mkObjectBox 15 5 10 10 None) [Samples.sideDoor; Samples.midDoor] = true
  <-> DoorAreaUtils.getDoorAreasOverlappingObject
        (DoorAreaUtils.mkObjectBox 15 5 10 10 None) [Samples.sideDoor; Samples.midDoor]
      <> [].
Proof.
  apply (door_tests_agree (DoorAreaUtils.mkObjectBox 15 5 10 10 None)
                          [Samples.sideDoor; Samples.midDoor]);
    unfold Qle; simpl; lia.
Defined.

(** ** The ray-casting test accepts no point outside the bounding box *)
Section RayCasting.
Import DoorAreaUtils VenueTypes Venues.

(** The abscissa at which the edge from [(xi, yi)] to [(xj, yj)] meets
    the horizontal line through [py]. *)
Let meets (xi yi xj yj py : Q) : Q := (xj - xi) * (py - yi) / (yj - yi) + xi.

Lemma meets_between (xi yi xj yj py : Q) :
  (py < yi /\ yj <= py) \/ (yi <= py /\ py < yj) ->
  Qmin xi xj <= meets xi yi xj yj py <= Qmax xi xj.
Proof.
  intro Hside. unfold meets.
  assert (Hd : ~ yj - yi == 0) by (intro H; destruct Hside; lra).
  set (q := (py - yi) / (yj - yi)).
  assert (Hq : q * (yj - yi) == py - yi) by (unfold q; field; exact Hd).
  assert (E : (xj - xi) * (py - yi) / (yj - yi) + xi == xi + (xj - xi) * q)
    by (unfold q; field; exact Hd).
  rewrite E. clear E.
  assert (Hq01 : 0 <= q <= 1) by (destruct Hside; split; nra).
  pose proof (Q.le_min_l xi xj). pose proof (Q.le_min_r xi xj).
  pose proof (Q.le_max_l xi xj). pose proof (Q.le_max_r xi xj).
  destruct (Qlt_le_dec xi xj); split; nra.
Qed.

Lemma straddles (py yi yj : Q) :
  negb (Bool.eqb (Js.ltb py yi) (Js.ltb py yj)) = true ->
  (py < yi /\ yj <= py) \/ (yi <= py /\ py < yj).
Proof.
  destruct (Js.ltb py yi) eqn:E1, (Js.ltb py yj) eqn:E2; simpl; try discriminate;
    intros _;
    repeat match goal with
           | H : Js.ltb _ _ = true |- _ => apply ltb_true_iff in H
           | H : Js.ltb _ _ = false |- _ => apply ltb_false_iff in H
           end; [left|right]; split; assumption.
Qed.

(** What a crossing tells about the point. *)
Lemma crossing_bounds (point pi pj : Point) :
  edgeCrosses point pi pj = true ->
  x point < Qmax (x pi) (x pj)
  /\ Qmin (y pi) (y pj) <= y point /\ y point < Qmax (y pi) (y pj).
Proof.
  unfold edgeCrosses. rewrite andb_true_iff. intros [Hs Hx].
  apply straddles in Hs. apply ltb_true_iff in Hx.
  pose proof (meets_between (x pi) (y pi) (x pj) (y pj) (y point) Hs) as [_ Hhi].
  unfold meets in Hhi.
  pose proof (Q.le_min_l (y pi) (y pj)). pose proof (Q.le_min_r (y pi) (y pj)).
  pose proof (Q.le_max_l (y pi) (y pj)). pose proof (Q.le_max_r (y pi) (y pj)).
  split; [lra|]. destruct Hs; split; lra.
Qed.

(** Left of both ends, an edge is crossed exactly when it straddles the
    line. *)
Lemma crossing_left_of_edge (point pi pj : Point) :
  x point < x pi -> x point < x pj ->
  edgeCrosses point pi pj
  = negb (Bool.eqb (Js.ltb (y point) (y pi)) (Js.ltb (y point) (y pj))).
Proof.
  intros Hi Hj. unfold edgeCrosses.
  destruct (negb (Bool.eqb _ _)) eqn:Hs; [|reflexivity].
  apply straddles in Hs.
  pose proof (meets_between (x pi) (y pi) (x pj) (y pj) (y point) Hs) as [Hlo _].
  unfold meets in Hlo. cbn [andb]. apply ltb_true_iff.
  destruct (Q.min_spec (x pi) (x pj)) as [[_ E]|[_ E]]; rewrite E in Hlo; lra.
Qed.

Lemma inside_not_left (point p0 p1 p2 p3 : Point) :
  x point < x p0 -> x point < x p1 -> x point < x p2 -> x point < x p3 ->
  isPointInPolygon point [p0; p1; p2; p3] = false.
Proof.
  intros H0 H1 H2 H3. unfold isPointInPolygon.
  rewrite (crossing_left_of_edge point p0 p3 H0 H3),
          (crossing_left_of_edge point p1 p0 H1 H0),
          (crossing_left_of_edge point p2 p1 H2 H1),
          (crossing_left_of_edge point p3 p2 H3 H2).
  destruct (Js.ltb (y point) (y p0)), (Js.ltb (y point) (y p1)),
           (Js.ltb (y point) (y p2)), (Js.ltb (y point) (y p3)); reflexivity.
Qed.

Lemma inside_some_crossing (point p0 p1 p2 p3 : Point) :
  isPointInPolygon point [p0; p1; p2; p3] = true ->
  edgeCrosses point p0 p3 = true \/ edgeCrosses point p1 p0 = true
  \/ edgeCrosses point p2 p1 = true \/ edgeCrosses point p3 p2 = true.
Proof.
  unfold isPointInPolygon.
  destruct (edgeCrosses point p0 p3), (edgeCrosses point p1 p0),
           (edgeCrosses point p2 p1), (edgeCrosses point p3 p2);
    simpl; intro H; try discriminate; auto.
Qed.

End RayCasting.

(** X30.  isPointInPolygon accepts no point outside the bounding box of the
    four corners: a point that passes the test for an area has
    [minX <= x < maxX] and [minY <= y < maxY], with the bounds the packer
    computes for the same corners (getPolygonBounds). *)
Theorem point_in_polygon_is_in_bounding_box :
  forall (point : DoorAreaUtils.Point) (pts : VenueTypes.TableAreaPoints),
    Venues.isPointInPolygon point (VenueTypes.convertTableAreaToArray pts) = true ->
    let bounds := VenueTypes.getPolygonBounds (VenueTypes.convertTableAreaToArray pts) in
    DoorAreaUtils.minX bounds <= DoorAreaUtils.x point
    /\ DoorAreaUtils.x point < DoorAreaUtils.maxX bounds
    /\ DoorAreaUtils.minY bounds <= DoorAreaUtils.y point
    /\ DoorAreaUtils.y point < DoorAreaUtils.maxY bounds.
Proof.
  intros point [p0 p1 p2 p3] Hin. cbv zeta.
  unfold VenueTypes.convertTableAreaToArray, VenueTypes.getPolygonBounds in *.
  cbn [VenueTypes.area_topLeft VenueTypes.area_topRight VenueTypes.area_bottomRight
       VenueTypes.area_bottomLeft map fold_left DoorAreaUtils.minX DoorAreaUtils.maxX
       DoorAreaUtils.minY DoorAreaUtils.maxY] in *.
  set (x0 := DoorAreaUtils.x p0) in *. set (x1 := DoorAreaUtils.x p1) in *.
  set (x2 := DoorAreaUtils.x p2) in *. set (x3 := DoorAreaUtils.x p3) in *.
  set (y0 := DoorAreaUtils.y p0) in *. set (y1 := DoorAreaUtils.y p1) in *.
  set (y2 := DoorAreaUtils.y p2) in *. set (y3 := DoorAreaUtils.y p3) in *.
  pose proof (Q.le_min_l (Qmin (Qmin x0 x1) x2) x3).
  pose proof (Q.le_min_r (Qmin (Qmin x0 x1) x2) x3).
  pose proof (Q.le_min_l (Qmin x0 x1) x2). pose proof (Q.le_min_r (Qmin x0 x1) x2).
  pose proof (Q.le_min_l x0 x1). pose proof (Q.le_min_r x0 x1).
  pose proof (Q.le_max_l (Qmax (Qmax x0 x1) x2) x3).
  pose proof (Q.le_max_r (Qmax (Qmax x0 x1) x2) x3).
  pose proof (Q.le_max_l (Qmax x0 x1) x2). pose proof (Q.le_max_r (Qmax x0 x1) x2).
  pose proof (Q.le_max_l x0 x1). pose proof (Q.le_max_r x0 x1).
  pose proof (Q.le_min_l (Qmin (Qmin y0 y1) y2) y3).
  pose proof (Q.le_min_r (Qmin (Qmin y0 y1) y2) y3).
  pose proof (Q.le_min_l (Qmin y0 y1) y2). pose proof (Q.le_min_r (Qmin y0 y1) y2).
  pose proof (Q.le_min_l y0 y1). pose proof (Q.le_min_r y0 y1).
  pose proof (Q.le_max_l (Qmax (Qmax y0 y1) y2) y3).
  pose proof (Q.le_max_r (Qmax (Qmax y0 y1) y2) y3).
  pose proof (Q.le_max_l (Qmax y0 y1) y2). pose proof (Q.le_max_r (Qmax y0 y1) y2).
  pose proof (Q.le_max_l y0 y1). pose proof (Q.le_max_r y0 y1).
  assert (Hleft : Qmin (Qmin (Qmin x0 x1) x2) x3 <= DoorAreaUtils.x point).
  { destruct (Qlt_le_dec (DoorAreaUtils.x point) (Qmin (Qmin (Qmin x0 x1) x2) x3))
      as [Hlt|Hge]; [|exact Hge].
    exfalso. rewrite (inside_not_left point p0 p1 p2 p3) in Hin; [discriminate| | | |];
      fold x0 x1 x2 x3; lra. }
  split; [exact Hleft|].
  destruct (inside_some_crossing point p0 p1 p2 p3 Hin) as [Hc|[Hc|[Hc|Hc]]];
    apply crossing_bounds in Hc; destruct Hc as [Hx [Hy1 Hy2]];
    fold x0 x1 x2 x3 y0 y1 y2 y3 in Hx, Hy1, Hy2.
  - pose proof (Q.max_lub x0 x3 (Qmax (Qmax (Qmax x0 x1) x2) x3)).
    pose proof (Q.max_lub y0 y3 (Qmax (Qmax (Qmax y0 y1) y2) y3)).
    pose proof (Q.min_glb y0 y3 (Qmin (Qmin (Qmin y0 y1) y2) y3)).
    repeat split; lra.
  - pose proof (Q.max_lub x1 x0 (Qmax (Qmax (Qmax x0 x1) x2) x3)).
    pose proof (Q.max_lub y1 y0 (Qmax (Qmax (Qmax y0 y1) y2) y3)).
    pose proof (Q.min_glb y1 y0 (Qmin (Qmin (Qmin y0 y1) y2) y3)).
    repeat split; lra.
  - pose proof (Q.max_lub x2 x1 (Qmax (Qmax (Qmax x0 x1) x2) x3)).
    pose proof (Q.max_lub y2 y1 (Qmax (Qmax (Qmax y0 y1) y2) y3)).
    pose proof (Q.min_glb y2 y1 (Qmin (Qmin (Qmin y0 y1) y2) y3)).
    repeat split; lra.
  - pose proof (Q.max_lub x3 x2 (Qmax (Qmax (Qmax x0 x1) x2) x3)).
    pose proof (Q.max_lub y3 y2 (Qmax (Qmax (Qmax y0 y1) y2) y3)).
    pose proof (Q.min_glb y3 y2 (Qmin (Qmin (Qmin y0 y1) y2) y3)).
    repeat split; lra.
Qed.

Lemma point_in_polygon_is_in_bounding_box_witness :
  DoorAreaUtils.minX (VenueTypes.getPolygonBounds
                        (VenueTypes.convertTableAreaToArray Samples.trapezoid)) <= 12
  /\ 12 < DoorAreaUtils.maxX (VenueTypes.getPolygonBounds
                                (VenueTypes.convertTableAreaToArray Samples.trapezoid))
  /\ DoorAreaUtils.minY (VenueTypes.getPolygonBounds
                           (VenueTypes.convertTableAreaToArray Samples.trapezoid)) <= 5
  /\ 5 < DoorAreaUtils.maxY (VenueTypes.getPolygonBounds
                               (VenueTypes.convertTableAreaToArray Samples.trapezoid)).
Proof.
  apply (point_in_polygon_is_in_bounding_box (DoorAreaUtils.mkPoint 12 5)
                                             Samples.trapezoid).
  vm_compute. reflexivity.
Defined.
